(** * The form-state engine of the ATF 5320.23 generator (src/src/form.ts)

    A shallow embedding of the bidirectional form-state engine: the snapshot
    serializer ([serializeForm], [deserializeForm]), the hash persistence codec
    ([saveStateToHash], [loadStateFromHash]), the validation table and the
    dependency handlers ([syncAddress], [updateQ6m2], the "all no" button).

    JavaScript strings are sequences of UTF-16 code units; exceptions are an
    explicit result type; the DOM is a list of form controls in tree order, an
    element being identified by its position in that list. *)

From Stdlib Require Import NArith ZArith String Ascii.
From stdpp Require Import base decidable option list numbers.

Set Warnings "-register-all".
Local Open Scope N_scope.

(** ** JavaScript strings *)

Abbreviation jsstring := (list N).

Module Str.

(** A literal of the source, as code units. *)
Definition js (s : string) : jsstring :=
  map N_of_ascii (list_ascii_of_string s).

(** The same, an apostrophe of the literal standing for a double quote
    (for JSON texts). *)
Definition jsq (s : string) : jsstring :=
  map (λ c, if c =? 39 then 34 else c) (js s).

Definition eqb (a b : jsstring) : bool := bool_decide (a = b).

(** A string is truthy when it is not empty. *)
Definition truthy (s : jsstring) : bool :=
  match s with [] => false | _ => true end.

Fixpoint startsWith (s pre : jsstring) : bool :=
  match pre, s with
  | [], _ => true
  | p :: pre', c :: s' => bool_decide (p = c) && startsWith s' pre'
  | _ :: _, [] => false
  end.

(** [s.endsWith(suf)] *)
Definition endsWith (s suf : jsstring) : bool :=
  startsWith (rev s) (rev suf).

(** [s.includes(sub)] on strings. *)
Fixpoint includes (s sub : jsstring) : bool :=
  startsWith s sub ||
  match s with
  | [] => false
  | _ :: s' => includes s' sub
  end.

(** [s.replace(pat, "")] with a string pattern: only the first occurrence
    goes. *)
Fixpoint removeFirst (s pat : jsstring) : jsstring :=
  if startsWith s pat then drop (length pat) s
  else match s with
       | [] => []
       | c :: s' => c :: removeFirst s' pat
       end.

(** [s.split(sep)] for a one-unit separator. *)
Fixpoint split (sep : N) (s : jsstring) : list jsstring :=
  match s with
  | [] => [[]]
  | c :: s' =>
      if bool_decide (c = sep) then [] :: split sep s'
      else match split sep s' with
           | [] => [[c]]
           | l :: ls => (c :: l) :: ls
           end
  end.

(** [lines.join(sep)] *)
Fixpoint join (sep : jsstring) (ls : list jsstring) : jsstring :=
  match ls with
  | [] => []
  | [l] => l
  | l :: ls' => l ++ sep ++ join sep ls'
  end.

(** [s.substring(a, b)] for [a <= b]. *)
Definition substring (a b : nat) (s : jsstring) : jsstring :=
  take (b - a) (drop a s).

(** [String.prototype.toUpperCase] on one code unit, after the Unicode
    tables for U+0000..U+00FF (Basic Latin and Latin-1 Supplement): the
    letters move down by 32, the sharp s becomes SS and the micro sign and
    y with diaeresis leave Latin-1.  Code units from U+0100 on are left as
    they are: their case tables are outside this model. *)
Definition upperUnit (c : N) : jsstring :=
  if (97 <=? c) && (c <=? 122) then [c - 32]
  else if c =? 181 then [924]
  else if c =? 223 then [83; 83]
  else if (224 <=? c) && (c <=? 254) && negb (c =? 247) then [c - 32]
  else if c =? 255 then [376]
  else [c].

Definition toUpperCase (s : jsstring) : jsstring :=
  flat_map upperUnit s.

(** The decimal digits 0-9, which is what the class [\d] matches. *)
Definition isDigit (c : N) : bool := (48 <=? c) && (c <=? 57).

(** [n.toString()] for a natural number. *)
Fixpoint digitsFuel (fuel : nat) (n : N) (acc : jsstring) : jsstring :=
  match fuel with
  | O => acc
  | S fuel' =>
      let acc' := (48 + n mod 10) :: acc in
      if n / 10 =? 0 then acc' else digitsFuel fuel' (n / 10) acc'
  end.

Definition ofN (n : N) : jsstring :=
  digitsFuel (S (N.to_nat (N.log2 n))) n [].

(** [s.padStart(len, "0")] *)
Definition padStart0 (len : nat) (s : jsstring) : jsstring :=
  replicate (len - length s) 48 ++ s.

End Str.

Abbreviation js := Str.js.
Abbreviation jsq := Str.jsq.

(** ** JavaScript values and completions *)

(** The values a snapshot can hold once it went through [JSON.parse]; numbers
    are the integers (floating point is outside this model). *)
Inductive JValue :=
| JNull
| JBool (b : bool)
| JNum (z : Z)
| JStr (s : jsstring)
| JArr (l : list JValue)
| JObj (l : list (jsstring * JValue)).

(** A [Record<string, any>]: the own properties in enumeration order (the
    order of first assignment; the special place of array-index keys is not
    modelled, no statement below depends on the order of distinct keys). *)
Abbreviation Obj := (list (jsstring * JValue)).

Inductive Exn :=
| Error (msg : jsstring)
| TypeError
| SyntaxError
| InvalidCharacterError
| InvalidStateError.

(** How a call ends: normally with a value, or by throwing. *)
Inductive Result (A : Type) :=
| Ok (a : A)
| Throw (e : Exn).
Arguments Ok {A} a.
Arguments Throw {A} e.

#[global] Instance Result_ret : MRet Result := fun A a => Ok a.

#[global] Instance Result_bind : MBind Result := fun A B k r =>
  match r with
  | Ok a => k a
  | Throw e => Throw e
  end.

(** [try { r } catch (e) { h e }] *)
Definition tryCatch {A} (r : Result A) (h : Exn -> A) : A :=
  match r with
  | Ok a => a
  | Throw e => h e
  end.

Module Object.

(** [k in o] *)
Definition has (k : jsstring) (o : Obj) : bool :=
  bool_decide (k ∈ o.*1).

(** [o[k]], [None] standing for [undefined]. *)
Fixpoint get (k : jsstring) (o : Obj) : option JValue :=
  match o with
  | [] => None
  | (k', v) :: o' => if decide (k = k') then Some v else get k o'
  end.

(** [o[k] = v]: an existing property keeps its place. *)
Fixpoint set (k : jsstring) (v : JValue) (o : Obj) : Obj :=
  match o with
  | [] => [(k, v)]
  | (k', v') :: o' =>
      if decide (k = k') then (k, v) :: o' else (k', v') :: set k v o'
  end.

(** [Object.keys(o)] *)
Definition keys (o : Obj) : list jsstring := o.*1.

End Object.

(** [typeof v === "string"], [typeof v === "boolean"] *)
Definition isString (v : JValue) : bool :=
  match v with JStr _ => true | _ => false end.


(** Truthiness of a value (every number that is not zero is truthy). *)
Definition truthy (v : JValue) : bool :=
  match v with
  | JNull => false
  | JBool b => b
  | JNum z => negb (z =? 0)%Z
  | JStr s => Str.truthy s
  | JArr _ | JObj _ => true
  end.

Definition ofZ (z : Z) : jsstring :=
  match z with
  | Z0 => js "0"
  | Zpos p => Str.ofN (Npos p)
  | Zneg p => 45 :: Str.ofN (Npos p)
  end.

(** [ToString(v)], as the [value] setter of a control applies it.  An array
    joins its elements with commas, [null] elements giving the empty string.
    A parsed object has no callable property: with an own [toString] the
    conversion finds no primitive and throws, without one it reaches
    [Object.prototype.toString]. *)
Fixpoint toStringJS (v : JValue) : Result jsstring :=
  match v with
  | JNull => Ok (js "null")
  | JBool true => Ok (js "true")
  | JBool false => Ok (js "false")
  | JNum z => Ok (ofZ z)
  | JStr s => Ok s
  | JArr l =>
      ss ← (fix elems (l : list JValue) : Result (list jsstring) :=
              match l with
              | [] => Ok []
              | x :: l' =>
                  s ← match x with JNull => Ok [] | _ => toStringJS x end;
                  ss ← elems l';
                  Ok (s :: ss)
              end) l;
      Ok (Str.join (js ",") ss)
  | JObj o =>
      if Object.has (js "toString") o then Throw TypeError
      else Ok (js "[object Object]")
  end.

(** ** The document *)

(** A listed element of the form (an [input] or a [textarea]), with the
    properties the engine reads and writes.  [el_ancestors] holds the ids of
    the elements that enclose it. *)
Record Control := {
  el_id : jsstring;
  el_name : jsstring;
  el_type : jsstring;
  el_tagName : jsstring;
  el_value : jsstring;
  el_checked : bool;
  el_disabled : bool;
  el_classList : list jsstring;
  el_ancestors : list jsstring;
}.

Definition withValue (v : jsstring) (c : Control) : Control :=
  {| el_id := el_id c; el_name := el_name c; el_type := el_type c;
     el_tagName := el_tagName c; el_value := v; el_checked := el_checked c;
     el_disabled := el_disabled c; el_classList := el_classList c;
     el_ancestors := el_ancestors c |}.

Definition withChecked (b : bool) (c : Control) : Control :=
  {| el_id := el_id c; el_name := el_name c; el_type := el_type c;
     el_tagName := el_tagName c; el_value := el_value c; el_checked := b;
     el_disabled := el_disabled c; el_classList := el_classList c;
     el_ancestors := el_ancestors c |}.

Definition withDisabled (b : bool) (c : Control) : Control :=
  {| el_id := el_id c; el_name := el_name c; el_type := el_type c;
     el_tagName := el_tagName c; el_value := el_value c;
     el_checked := el_checked c; el_disabled := b;
     el_classList := el_classList c; el_ancestors := el_ancestors c |}.

Definition withClassList (l : list jsstring) (c : Control) : Control :=
  {| el_id := el_id c; el_name := el_name c; el_type := el_type c;
     el_tagName := el_tagName c; el_value := el_value c;
     el_checked := el_checked c; el_disabled := el_disabled c;
     el_classList := l; el_ancestors := el_ancestors c |}.

(** What [form.elements.namedItem(key)] returns: [null], the one element
    whose id or name is [key], or a [RadioNodeList] of all of them in tree
    order.  Each element comes with its position in [form.elements]. *)
Inductive NamedItem :=
| ItemNull
| ItemElement (i : nat) (c : Control)
| ItemList (l : list (nat * Control)).

Definition namedItem (elements : list Control) (key : jsstring) : NamedItem :=
  if Str.truthy key then
    match filter (λ p, el_id p.2 = key ∨ el_name p.2 = key)
                 (imap pair elements) with
    | [] => ItemNull
    | [(i, c)] => ItemElement i c
    | l => ItemList l
    end
  else ItemNull.

(** [document.getElementById(id)]: the first element with that id. *)
Definition getElementById (elements : list Control) (id : jsstring)
  : option (nat * Control) :=
  list_find (λ c, el_id c = id) elements.

(** The local date [new Date()] reads: [getFullYear()], [getMonth()] (from
    zero) and [getDate()]. *)
Record Clock := {
  getFullYear : N;
  getMonth : N;
  getDate : N;
}.

(** The signature collaborator: [signature] is [None] when
    [signature.isEmpty()], and else holds what
    [serializeToString(Encoding.Z85)] yields. *)
Record SignatureManager := {
  signature : option jsstring;
}.

(** What the engine finds when it runs: the clock, the module-level
    [signatureManager] and the element with id [nfa-form], if any. *)
Record Page := {
  clock : Clock;
  signatureManager : option SignatureManager;
  nfaForm : option (list Control);
}.

(** ** Snapshot serializer: [serializeForm] *)

Definition getTodayYYYYMMDD (today : Clock) : jsstring :=
  Str.ofN (getFullYear today) ++ js "-"
  ++ Str.padStart0 2 (Str.ofN (getMonth today + 1)) ++ js "-"
  ++ Str.padStart0 2 (Str.ofN (getDate today)).

Definition isType (t : string) (el : Control) : bool :=
  bool_decide (el_type el = js t).

(** The controls of a named item, as the code lists them. *)
Definition itemControls (item : NamedItem) : list Control :=
  match item with
  | ItemNull => []
  | ItemElement _ c => [c]
  | ItemList l => l.*2
  end.

(** One turn of the loop over [form.elements]: the snapshot so far and the
    checkbox groups already done. *)
Definition serializeControl (includeDefaults : bool) (todayString : jsstring)
    (elements : list Control) (acc : Obj * list jsstring) (el : Control)
  : Obj * list jsstring :=
  let '(data, processedCheckboxGroups) := acc in
  if negb (Str.truthy (el_name el)) || el_disabled el then acc
  else if isType "checkbox" el then
    let groupName := el_name el in
    if bool_decide (groupName ∈ processedCheckboxGroups) then acc
    else
      match namedItem elements groupName with
      | ItemNull => acc
      | ItemElement _ checkbox =>
          (if bool_decide (groupName = js "q3a_sameAs2") then
             if negb (el_checked checkbox)
             then Object.set groupName (JBool false) data
             else if includeDefaults
                  then Object.set groupName (JBool true) data
                  else data
           else Object.set groupName (JBool (el_checked checkbox)) data,
           groupName :: processedCheckboxGroups)
      | ItemList checkboxes =>
          let checkedValues :=
            el_value <$> filter (λ c, el_checked c) checkboxes.*2 in
          (match checkedValues with
           | [] => data
           | _ => Object.set groupName (JArr (JStr <$> checkedValues)) data
           end,
           groupName :: processedCheckboxGroups)
      end
  else if isType "radio" el then
    if el_checked el && Str.truthy (el_value el)
    then (Object.set (el_name el) (JStr (el_value el)) data,
          processedCheckboxGroups)
    else acc
  else if isType "text" el || isType "email" el || isType "tel" el then
    if Str.endsWith (el_name el) (js "_other") then
      let baseName := Str.removeFirst (el_name el) (js "_other") in
      match list_find (λ r, el_value r = js "OTHER")
                      (itemControls (namedItem elements baseName)) with
      | Some (_, otherControl) =>
          if el_checked otherControl && Str.truthy (el_value el)
          then (Object.set (el_name el)
                  (JStr (Str.toUpperCase (el_value el))) data,
                processedCheckboxGroups)
          else acc
      | None => acc
      end
    else if Str.truthy (el_value el)
    then (Object.set (el_name el) (JStr (Str.toUpperCase (el_value el))) data,
          processedCheckboxGroups)
    else acc
  else if isType "date" el then
    if bool_decide (el_name el = js "certificationDate") then
      if Str.truthy (el_value el)
         && negb (bool_decide (el_value el = todayString))
      then (Object.set (el_name el) (JStr (el_value el)) data,
            processedCheckboxGroups)
      else acc
    else if Str.truthy (el_value el)
    then (Object.set (el_name el) (JStr (el_value el)) data,
          processedCheckboxGroups)
    else acc
  else if Str.truthy (el_value el) then
    if bool_decide (el_tagName el = js "TEXTAREA")
    then (Object.set (el_name el) (JStr (Str.toUpperCase (el_value el))) data,
          processedCheckboxGroups)
    else (Object.set (el_name el) (JStr (el_value el)) data,
          processedCheckboxGroups)
  else acc.

(** The signature, added under its own key when there is one. *)
Definition addSignature (manager : option SignatureManager) (data : Obj)
  : Obj :=
  match manager with
  | Some {| signature := Some payload |} =>
      if Str.truthy payload
      then Object.set (js "signature") (JStr payload) data
      else data
  | _ => data
  end.

Definition serializeForm (includeDefaults : bool) (page : Page) : Result Obj :=
  match nfaForm page with
  | None => Throw (Error (js "Form not found"))
  | Some elements =>
      let todayString := getTodayYYYYMMDD (clock page) in
      let loop :=
        foldl (serializeControl includeDefaults todayString elements)
              ([], []) elements in
      Ok (addSignature (signatureManager page) loop.1)
  end.

(** ** Sample documents *)

Definition input (id name type value : string) (checked : bool) : Control :=
  {| el_id := js id; el_name := js name; el_type := js type;
     el_tagName := js "INPUT"; el_value := js value; el_checked := checked;
     el_disabled := false; el_classList := []; el_ancestors := [] |}.

Definition textarea (id name value : string) : Control :=
  {| el_id := js id; el_name := js name; el_type := js "textarea";
     el_tagName := js "TEXTAREA"; el_value := js value; el_checked := false;
     el_disabled := false; el_classList := []; el_ancestors := [] |}.

Definition march7 : Clock :=
  {| getFullYear := 2026; getMonth := 2; getDate := 7 |}.

Definition pageOf (elements : list Control) : Page :=
  {| clock := march7; signatureManager := None; nfaForm := Some elements |}.

(** A page whose document has no element with id [nfa-form]. *)
Definition pageWithoutForm : Page :=
  {| clock := march7; signatureManager := None; nfaForm := None |}.

(** A freshly loaded form: the certification date holds today's date. *)
Definition freshForm : list Control :=
  [ input "q2_fullName" "q2_fullName" "text" "" false;
    input "q3a_sameAs2" "q3a_sameAs2" "checkbox" "on" true;
    input "certificationDate" "certificationDate" "date" "2026-03-07" false ].


(** ** Snapshot serializer: [deserializeForm] *)

(** [el.checked = b] on the element at position [i].  Checking a radio button
    unchecks the other radio buttons of its group, those of the same name. *)
Definition setChecked (i : nat) (b : bool) (elements : list Control)
  : list Control :=
  match elements !! i with
  | None => elements
  | Some el =>
      if b && isType "radio" el && Str.truthy (el_name el) then
        imap (λ j c,
                if bool_decide (j = i) then withChecked true c
                else if isType "radio" c
                        && bool_decide (el_name c = el_name el)
                     then withChecked false c
                     else c)
             elements
      else alter (withChecked b) i elements
  end.

Definition setValue (i : nat) (v : jsstring) (elements : list Control)
  : list Control :=
  alter (withValue v) i elements.

Definition setDisabled (i : nat) (b : bool) (elements : list Control)
  : list Control :=
  alter (withDisabled b) i elements.

(** [radio.value === value] *)
Definition strictEquals (s : jsstring) (value : JValue) : bool :=
  match value with
  | JStr t => bool_decide (s = t)
  | _ => false
  end.

(** [value.includes(s)]: a substring test on a string, a membership test on
    an array; any other value has no such method and the call throws. *)
Definition valueIncludes (value : JValue) (s : jsstring) : Result bool :=
  match value with
  | JStr v => Ok (Str.includes v s)
  | JArr l => Ok (existsb (strictEquals s) l)
  | _ => Throw TypeError
  end.

(** A [forEach] whose callback may throw: the loop stops there, and what the
    earlier turns did to the document stays done. *)
Fixpoint forEach {A} (f : A -> list Control -> Result (list Control))
    (l : list A) (elements : list Control) : list Control * option Exn :=
  match l with
  | [] => (elements, None)
  | x :: l' =>
      match f x elements with
      | Ok elements' => forEach f l' elements'
      | Throw e => (elements, Some e)
      end
  end.

(** The condition under which text is normalized to upper case. *)
Definition isTextLike (el : Control) : bool :=
  isType "text" el || isType "email" el || isType "tel" el
  || bool_decide (el_tagName el = js "TEXTAREA").

(** *** The value an element keeps

    What [el.value] reads after [el.value = s]: the value sanitization
    algorithm of the type of an [input], the normalized line breaks of a
    [textarea]. *)

Fixpoint dropWhile (p : N -> bool) (s : jsstring) : jsstring :=
  match s with
  | c :: s' => if p c then dropWhile p s' else s
  | [] => []
  end.

(** Line feeds and carriage returns go. *)
Definition stripNewlines (s : jsstring) : jsstring :=
  List.filter (λ c, negb ((c =? 10) || (c =? 13))) s.

(** ASCII whitespace: tab, line feed, form feed, carriage return, space. *)
Definition asciiWhitespace (c : N) : bool :=
  (c =? 9) || (c =? 10) || (c =? 12) || (c =? 13) || (c =? 32).

Definition stripAsciiWhitespace (s : jsstring) : jsstring :=
  rev (dropWhile asciiWhitespace (rev (dropWhile asciiWhitespace s))).

(** Every carriage return with the line feed after it, and every other
    carriage return, becomes one line feed.  [afterCR] tells that the unit
    before was a carriage return. *)
Fixpoint normalizeNewlinesFrom (afterCR : bool) (s : jsstring) : jsstring :=
  match s with
  | [] => []
  | c :: s' =>
      if c =? 13 then 10 :: normalizeNewlinesFrom true s'
      else if (c =? 10) && afterCR then normalizeNewlinesFrom false s'
      else c :: normalizeNewlinesFrom false s'
  end.

Definition normalizeNewlines (s : jsstring) : jsstring :=
  normalizeNewlinesFrom false s.

(** The number a string of digits stands for. *)
Definition digitsValue (s : jsstring) : N :=
  foldl (λ acc c, 10 * acc + (c - 48)) 0 s.

Definition daysInMonth (year month : N) : N :=
  if (month =? 2) then
    if (year mod 400 =? 0) || ((year mod 4 =? 0) && negb (year mod 100 =? 0))
    then 29 else 28
  else if (month =? 4) || (month =? 6) || (month =? 9) || (month =? 11)
       then 30 else 31.

(** A valid date string: a year of four digits or more that is not zero, a
    month from 01 to 12 and a day of that month, with hyphens between. *)
Definition validDateString (s : jsstring) : bool :=
  match Str.split 45 s with
  | [year; month; day] =>
      (4 <=? length year)%nat && forallb Str.isDigit year
      && (0 <? digitsValue year)
      && (length month =? 2)%nat && forallb Str.isDigit month
      && (1 <=? digitsValue month) && (digitsValue month <=? 12)
      && (length day =? 2)%nat && forallb Str.isDigit day
      && (1 <=? digitsValue day)
      && (digitsValue day
          <=? daysInMonth (digitsValue year) (digitsValue month))
  | _ => false
  end.

(** The value the element keeps of [s].  A text, search, telephone or
    password input drops the line breaks; a URL or email input (without the
    [multiple] attribute) drops them and the ASCII whitespace at both ends; a
    date input keeps a valid date string and makes anything else the empty
    string; a text area reads its line breaks as line feeds.  The inputs
    without such an algorithm (hidden, checkbox, radio, the buttons) keep the
    string; those for numbers, colours, times, months and weeks have
    algorithms of their own, which are not modelled: the statements below
    tell what a text-like control or a date input holds after an
    assignment, not what one of these does. *)
Definition sanitize (el : Control) (s : jsstring) : jsstring :=
  if bool_decide (el_tagName el = js "TEXTAREA") then normalizeNewlines s
  else if isType "text" el || isType "search" el || isType "tel" el
          || isType "password" el
       then stripNewlines s
  else if isType "url" el || isType "email" el
       then stripAsciiWhitespace (stripNewlines s)
  else if isType "date" el then (if validDateString s then s else [])
  else s.

(** [el.value = value]: [null] becomes the empty string, any other value its
    string form; a file input refuses a non-empty string; the element keeps
    what its sanitization leaves of the string. *)
Definition assignValue (i : nat) (el : Control) (value : JValue)
    (elements : list Control) : Result (list Control) :=
  s ← match value with JNull => Ok [] | _ => toStringJS value end;
  if isType "file" el && Str.truthy s then Throw InvalidStateError
  else Ok (setValue i (sanitize el s) elements).

(** [isNodeList ? elements[0] : elements] *)
Definition firstElement (item : NamedItem) : option (nat * Control) :=
  match item with
  | ItemNull => None
  | ItemElement i c => Some (i, c)
  | ItemList l => head l
  end.

(** The body of the loop over the keys of the snapshot, for a key that is
    not [signature]. *)
Definition deserializeField (key : jsstring) (value : JValue)
    (elements : list Control) : list Control * option Exn :=
  match namedItem elements key with
  | ItemNull => (elements, None)
  | item =>
      match firstElement item with
      | None => (elements, Some TypeError)
      | Some (i, el) =>
          if isType "radio" el then
            match item with
            | ItemList radios =>
                forEach (λ radio els,
                           Ok (setChecked radio.1
                                 (strictEquals (el_value radio.2) value) els))
                        radios elements
            | _ => (elements, Some TypeError)
            end
          else if isType "checkbox" el then
            match value, item with
            | JBool b, ItemElement j _ => (setChecked j b elements, None)
            | JBool b, _ => (elements, None)
            | _, ItemList checkboxes =>
                forEach (λ checkbox els,
                           b ← valueIncludes value (el_value checkbox.2);
                           Ok (setChecked checkbox.1 b els))
                        checkboxes elements
            | _, _ => (elements, Some TypeError)
            end
          else
            let value :=
              match value with
              | JStr s => if isTextLike el then JStr (Str.toUpperCase s)
                          else value
              | _ => value
              end in
            match assignValue i el value elements with
            | Ok elements' => (elements', None)
            | Throw e => (elements, Some e)
            end
      end
  end.

(** The decoder of the signature library: it throws on a payload it cannot
    read, and else yields the signature ([None] for one without strokes). *)
Abbreviation Autopen := (JValue -> Result (option jsstring)).

(** [signatureManager.deserialize(z85)]: a payload that does not decode
    clears the signature. *)
Definition SignatureManager_deserialize (autopen : Autopen) (z85 : JValue)
  : SignatureManager :=
  if truthy z85
  then {| signature := tryCatch (autopen z85) (λ _, None) |}
  else {| signature := None |}.

Fixpoint deserializeFields (data : Obj) (elements : list Control)
  : list Control * option Exn :=
  match data with
  | [] => (elements, None)
  | (key, value) :: data' =>
      if bool_decide (key = js "signature") then
        deserializeFields data' elements
      else
        match deserializeField key value elements with
        | (elements', None) => deserializeFields data' elements'
        | thrown => thrown
        end
  end.

(** The state [deserializeForm] works on: the controls of the form and the
    signature manager. *)
Record FormState := {
  controls : list Control;
  manager : option SignatureManager;
}.

(** [deserializeForm(data)]: the state it leaves, and the exception it throws
    if it does. *)
Definition deserializeForm (autopen : Autopen) (data : Obj) (st : FormState)
  : FormState * option Exn :=
  let manager' :=
    match Object.get (js "signature") data, manager st with
    | Some sig, Some _ =>
        if truthy sig then Some (SignatureManager_deserialize autopen sig)
        else manager st
    | _, _ => manager st
    end in
  let '(elements', thrown) := deserializeFields data (controls st) in
  ({| controls := elements'; manager := manager' |}, thrown).

(** ** The platform functions of the hash codec *)

Module JSON.

(** Lower-case hexadecimal digit. *)
Definition hexDigit (n : N) : N := if n <? 10 then 48 + n else 87 + n.

Definition unicodeEscape (c : N) : jsstring :=
  [92; 117; hexDigit (c / 4096 mod 16); hexDigit (c / 256 mod 16);
   hexDigit (c / 16 mod 16); hexDigit (c mod 16)].

Definition isHighSurrogate (c : N) : bool := (55296 <=? c) && (c <=? 56319).
Definition isLowSurrogate (c : N) : bool := (56320 <=? c) && (c <=? 57343).

(** What [QuoteJSONString] writes for a code unit that is not the first
    half of a surrogate pair. *)
Definition escapeUnit (c : N) : jsstring :=
  if c =? 8 then js "\b"
  else if c =? 9 then js "\t"
  else if c =? 10 then js "\n"
  else if c =? 12 then js "\f"
  else if c =? 13 then js "\r"
  else if c =? 34 then [92; 34]
  else if c =? 92 then [92; 92]
  else if (c <? 32) || isHighSurrogate c || isLowSurrogate c
       then unicodeEscape c
       else [c].

(** A surrogate pair is written as it is, a lone surrogate escaped. *)
Fixpoint quoteUnits (s : jsstring) : jsstring :=
  match s with
  | [] => []
  | c :: s' =>
      match s' with
      | d :: s'' =>
          if isHighSurrogate c && isLowSurrogate d
          then c :: d :: quoteUnits s''
          else escapeUnit c ++ quoteUnits s'
      | [] => escapeUnit c
      end
  end.

Definition quote (s : jsstring) : jsstring :=
  34 :: quoteUnits s ++ [34].

(** [JSON.stringify(v)] without indentation. *)
Fixpoint stringify (v : JValue) : jsstring :=
  match v with
  | JNull => js "null"
  | JBool true => js "true"
  | JBool false => js "false"
  | JNum z => ofZ z
  | JStr s => quote s
  | JArr l => js "[" ++ Str.join (js ",") (List.map stringify l) ++ js "]"
  | JObj o =>
      js "{"
      ++ Str.join (js ",")
           (List.map (λ kv, quote kv.1 ++ js ":" ++ stringify kv.2) o)
      ++ js "}"
  end.

Definition isWhitespace (c : N) : bool :=
  (c =? 32) || (c =? 9) || (c =? 10) || (c =? 13).

Fixpoint skipWhitespace (s : jsstring) : jsstring :=
  match s with
  | c :: s' => if isWhitespace c then skipWhitespace s' else s
  | [] => []
  end.

Definition hexValue (c : N) : option N :=
  if (48 <=? c) && (c <=? 57) then Some (c - 48)
  else if (97 <=? c) && (c <=? 102) then Some (c - 87)
  else if (65 <=? c) && (c <=? 70) then Some (c - 55)
  else None.

(** The characters of a string literal, after its opening quote: the string
    and what follows the closing quote. *)
Fixpoint parseUnits (s : jsstring) : option (jsstring * jsstring) :=
  match s with
  | [] => None
  | c :: r =>
      if c =? 34 then Some ([], r)
      else if c =? 92 then
        match r with
        | e :: r' =>
            if e =? 117 then
              match r' with
              | h1 :: h2 :: h3 :: h4 :: r'' =>
                  a ← hexValue h1; b ← hexValue h2;
                  c ← hexValue h3; d ← hexValue h4;
                  '(str, rest) ← parseUnits r'';
                  Some ((a * 4096 + b * 256 + c * 16 + d) :: str, rest)
              | _ => None
              end
            else
              u ← (if e =? 34 then Some 34
                   else if e =? 92 then Some 92
                   else if e =? 47 then Some 47
                   else if e =? 98 then Some 8
                   else if e =? 102 then Some 12
                   else if e =? 110 then Some 10
                   else if e =? 114 then Some 13
                   else if e =? 116 then Some 9
                   else None);
              '(str, rest) ← parseUnits r';
              Some (u :: str, rest)
        | [] => None
        end
      else if c <? 32 then None
      else '(str, rest) ← parseUnits r; Some (c :: str, rest)
  end.

(** A run of decimal digits and its value. *)
Fixpoint parseDigits (acc : N) (s : jsstring) : N * jsstring :=
  match s with
  | c :: s' =>
      if Str.isDigit c then parseDigits (acc * 10 + (c - 48)) s' else (acc, s)
  | [] => (acc, [])
  end.

(** An integer literal: an optional minus sign, then a lone zero or digits
    that start with none.  A fraction or an exponent makes a number that
    is outside this model; it is refused. *)
Definition parseNumber (s : jsstring) : option (JValue * jsstring) :=
  let '(negative, s1) :=
    match s with
    | 45 :: r => (true, r)
    | _ => (false, s)
    end in
  match s1 with
  | c :: r =>
      if Str.isDigit c then
        let '(n, rest) :=
          if c =? 48 then (0, r) else parseDigits 0 s1 in
        match rest with
        | d :: _ =>
            if Str.isDigit d || (d =? 46) || (d =? 101) || (d =? 69)
            then None
            else Some (JNum (if negative then - Z.of_N n else Z.of_N n), rest)
        | [] => Some (JNum (if negative then - Z.of_N n else Z.of_N n), rest)
        end
      else None
  | [] => None
  end.

(** The recursive descent, on a budget of calls. *)
Fixpoint parseValue (fuel : nat) (s : jsstring)
  : option (JValue * jsstring) :=
  match fuel with
  | O => None
  | S fuel' =>
      match skipWhitespace s with
      | [] => None
      | c :: r =>
          if c =? 34 then
            '(str, rest) ← parseUnits r; Some (JStr str, rest)
          else if c =? 91 then
            match skipWhitespace r with
            | 93 :: rest => Some (JArr [], rest)
            | _ => parseElements fuel' [] r
            end
          else if c =? 123 then
            match skipWhitespace r with
            | 125 :: rest => Some (JObj [], rest)
            | _ => parseMembers fuel' [] r
            end
          else if Str.startsWith (c :: r) (js "true")
               then Some (JBool true, drop 4 (c :: r))
          else if Str.startsWith (c :: r) (js "false")
               then Some (JBool false, drop 5 (c :: r))
          else if Str.startsWith (c :: r) (js "null")
               then Some (JNull, drop 4 (c :: r))
          else parseNumber (c :: r)
      end
  end
with parseElements (fuel : nat) (acc : list JValue) (s : jsstring)
  : option (JValue * jsstring) :=
  match fuel with
  | O => None
  | S fuel' =>
      '(v, r) ← parseValue fuel' s;
      match skipWhitespace r with
      | 44 :: r' => parseElements fuel' (acc ++ [v]) r'
      | 93 :: r' => Some (JArr (acc ++ [v]), r')
      | _ => None
      end
  end
with parseMembers (fuel : nat) (acc : Obj) (s : jsstring)
  : option (JValue * jsstring) :=
  match fuel with
  | O => None
  | S fuel' =>
      match skipWhitespace s with
      | 34 :: r =>
          '(key, r1) ← parseUnits r;
          match skipWhitespace r1 with
          | 58 :: r2 =>
              '(v, r3) ← parseValue fuel' r2;
              match skipWhitespace r3 with
              | 44 :: r4 => parseMembers fuel' (Object.set key v acc) r4
              | 125 :: r4 => Some (JObj (Object.set key v acc), r4)
              | _ => None
              end
          | _ => None
          end
      | _ => None
      end
  end.

(** [JSON.parse(text)] *)
Definition parse (text : jsstring) : Result JValue :=
  match parseValue (2 * length text + 2) text with
  | Some (v, rest) =>
      match skipWhitespace rest with
      | [] => Ok v
      | _ => Throw SyntaxError
      end
  | None => Throw SyntaxError
  end.

End JSON.

Module Base64.

(** The character of a 6-bit value in [A-Za-z0-9+/]. *)
Definition encodeSextet (n : N) : N :=
  if n <? 26 then 65 + n
  else if n <? 52 then 71 + n
  else if n <? 62 then n - 4
  else if n =? 62 then 43
  else 47.

Definition decodeSextet (c : N) : option N :=
  if (65 <=? c) && (c <=? 90) then Some (c - 65)
  else if (97 <=? c) && (c <=? 122) then Some (c - 71)
  else if (48 <=? c) && (c <=? 57) then Some (c + 4)
  else if c =? 43 then Some 62
  else if c =? 47 then Some 63
  else None.

Fixpoint encodeBytes (bytes : list N) : jsstring :=
  match bytes with
  | [] => []
  | [a] =>
      [encodeSextet (a / 4); encodeSextet (a mod 4 * 16); 61; 61]
  | [a; b] =>
      [encodeSextet (a / 4); encodeSextet (a mod 4 * 16 + b / 16);
       encodeSextet (b mod 16 * 4); 61]
  | a :: b :: c :: rest =>
      encodeSextet (a / 4) :: encodeSextet (a mod 4 * 16 + b / 16)
      :: encodeSextet (b mod 16 * 4 + c / 64) :: encodeSextet (c mod 64)
      :: encodeBytes rest
  end.

(** [btoa(s)]: a code unit above U+00FF is not a byte, and the call throws. *)
Definition btoa (s : jsstring) : Result jsstring :=
  if forallb (λ c, c <=? 255) s then Ok (encodeBytes s)
  else Throw InvalidCharacterError.

Definition isAsciiWhitespace (c : N) : bool :=
  (c =? 9) || (c =? 10) || (c =? 12) || (c =? 13) || (c =? 32).

(** With a length that is a multiple of four, up to two [=] at the end go. *)
Definition dropPadding (s : jsstring) : jsstring :=
  if (length s mod 4 =? 0)%nat then
    match rev s with
    | 61 :: 61 :: r => rev r
    | 61 :: r => rev r
    | _ => s
    end
  else s.

Fixpoint decodeSextets (s : list N) : list N :=
  match s with
  | a :: b :: c :: d :: rest =>
      (a * 4 + b / 16) :: (b mod 16 * 16 + c / 4) :: (c mod 4 * 64 + d)
      :: decodeSextets rest
  | [a; b; c] => [a * 4 + b / 16; b mod 16 * 16 + c / 4]
  | [a; b] => [a * 4 + b / 16]
  | _ => []
  end.

(** [atob(s)], the forgiving decoder: whitespace is ignored, a length of
    one beyond a multiple of four or a character outside the alphabet
    throws. *)
Definition atob (s : jsstring) : Result jsstring :=
  let data := dropPadding (List.filter (λ c, negb (isAsciiWhitespace c)) s) in
  if (length data mod 4 =? 1)%nat then Throw InvalidCharacterError
  else
    match mapM decodeSextet data with
    | Some sextets => Ok (decodeSextets sextets)
    | None => Throw InvalidCharacterError
    end.

End Base64.

(** ** Hash persistence codec *)

(** The address of the page; [fragment] is [None] when it has none. *)
Record Location := {
  pathname : jsstring;
  search : jsstring;
  fragment : option jsstring;
}.

(** [window.location.hash] *)
Definition location_hash (l : Location) : jsstring :=
  match fragment l with
  | Some f => if Str.truthy f then 35 :: f else []
  | None => []
  end.

(** The session history: the entries behind the current one, and the current
    one, which is what [window.location] shows. *)
Record Window := {
  history : list Location;
  location : Location;
}.

(** [history.replaceState(null, "", url)] puts [url] in place of the current
    entry; [history.pushState] would add an entry. *)
Definition replaceState (url : Location) (w : Window) : Window :=
  {| history := history w; location := url |}.

Definition pushState (url : Location) (w : Window) : Window :=
  {| history := location w :: history w; location := url |}.

(** [s.replace(/a/g, b)] for single characters. *)
Definition replaceAll (a b : N) (s : jsstring) : jsstring :=
  (λ c, if c =? a then b else c) <$> s.

Fixpoint dropLeading (c : N) (s : jsstring) : jsstring :=
  match s with
  | x :: s' => if x =? c then dropLeading c s' else s
  | [] => []
  end.

(** [s.replace(/=+$/, "")] *)
Definition stripPadding (s : jsstring) : jsstring :=
  rev (dropLeading 61 (rev s)).

(** The fragment of a snapshot: its JSON text in the URL-safe base64. *)
Definition encodeFragment (data : Obj) : Result jsstring :=
  let jsonString := JSON.stringify (JObj data) in
  b ← Base64.btoa jsonString;
  Ok (stripPadding (replaceAll 47 95 (replaceAll 43 45 b))).

(** The address [url] resolves to: [pathname + search] drops the fragment,
    ["#" + base64String] replaces it. *)
Definition withoutFragment (l : Location) : Location :=
  {| pathname := pathname l; search := search l; fragment := None |}.

Definition withFragment (f : jsstring) (l : Location) : Location :=
  {| pathname := pathname l; search := search l; fragment := Some f |}.

Definition saveStateToHash (page : Page) (w : Window) : Result Window :=
  data ← serializeForm false page;
  match Object.keys data with
  | _ :: _ =>
      base64String ← encodeFragment data;
      Ok (replaceState (withFragment base64String (location w)) w)
  | [] => Ok (replaceState (withoutFragment (location w)) w)
  end.

(** The text a fragment stands for: the substitutions undone, the padding
    put back, the base64 decoded. *)
Definition decodeFragment (hash : jsstring) : Result JValue :=
  let base64String := replaceAll 95 47 (replaceAll 45 43 (drop 1 hash)) in
  let padding := replicate ((4 - length base64String mod 4) mod 4) 61 in
  jsonString ← Base64.atob (base64String ++ padding);
  JSON.parse jsonString.

(** The own enumerable properties [for (key in data)] goes through: those of
    an object, the indices of an array or of a string; [null] has none to
    read and the first property access throws. *)
Definition propertiesOf (data : JValue) : Result Obj :=
  match data with
  | JObj o => Ok o
  | JArr l => Ok (imap (λ i v, (Str.ofN (N.of_nat i), v)) l)
  | JStr s => Ok (imap (λ i c, (Str.ofN (N.of_nat i), JStr [c])) s)
  | JBool _ | JNum _ => Ok []
  | JNull => Throw TypeError
  end.

(** [loadStateFromHash()]: the state it leaves and what it logged.  Nothing
    thrown inside leaves the [try] block. *)
Definition loadStateFromHash (autopen : Autopen) (w : Window) (st : FormState)
  : FormState * list Exn :=
  if Str.truthy (location_hash (location w)) then
    match data ← decodeFragment (location_hash (location w));
          propertiesOf data with
    | Ok o =>
        match deserializeForm autopen o st with
        | (st', None) => (st', [])
        | (st', Some e) => (st', [e])
        end
    | Throw e => (st, [e])
    end
  else (st, []).

(** ** Validation *)

Module Regex.

(** The class [\d] is [Str.isDigit]; this is the class [\s]. *)
Definition isSpace (c : N) : bool :=
  ((9 <=? c) && (c <=? 13)) || (c =? 32) || (c =? 160) || (c =? 5760)
  || ((8192 <=? c) && (c <=? 8202)) || (c =? 8232) || (c =? 8233)
  || (c =? 8239) || (c =? 8287) || (c =? 12288) || (c =? 65279).

(** What the dot matches: anything but a line terminator. *)
Definition isDot (c : N) : bool :=
  negb ((c =? 10) || (c =? 13) || (c =? 8232) || (c =? 8233)).

Definition isAlnum (c : N) : bool :=
  ((97 <=? c) && (c <=? 122)) || ((65 <=? c) && (c <=? 90)) || Str.isDigit c.

(** [/^[\d\s\(\)-]+$/.test(v)] *)
Definition telephone (v : jsstring) : bool :=
  Str.truthy v
  && forallb (λ c, Str.isDigit c || isSpace c || (c =? 40) || (c =? 41)
                   || (c =? 45)) v.

(** [/.+@.+/.test(v)]: somewhere an at sign stands between two characters
    that the dot matches. *)
Fixpoint email (v : jsstring) : bool :=
  match v with
  | a :: v' =>
      match v' with
      | b :: c :: _ => (isDot a && (b =? 64) && isDot c) || email v'
      | _ => false
      end
  | [] => false
  end.

(** [/^(\d{3}-\d{2}-\d{4}|\d{9}|[a-zA-Z0-9]{8})$/.test(v)] *)
Definition ssn (v : jsstring) : bool :=
  match v with
  | [a; b; c; d1; d; e; d2; f; g; h; i] =>
      forallb Str.isDigit [a; b; c; d; e; f; g; h; i]
      && (d1 =? 45) && (d2 =? 45)
  | _ => false
  end
  || (bool_decide (length v = 9%nat) && forallb Str.isDigit v)
  || (bool_decide (length v = 8%nat) && forallb isAlnum v).

End Regex.

(** What the date check needs of the platform: the time value [new Date(v)]
    holds ([None] for an invalid date) and the one of [new Date()]. *)
Record DateEnv := {
  Date_parse : jsstring -> option Z;
  Date_now : Z;
}.

Record ValidationRule := {
  check : jsstring -> bool;
  msg : jsstring;
}.

Definition validations (d : DateEnv) : list (jsstring * ValidationRule) :=
  [ (js "q3b_telephone",
     {| check := λ v, negb (Str.truthy v) || Regex.telephone v;
        msg := js "Must only contain digits and separators." |});
    (js "q3c_email",
     {| check := λ v, negb (Str.truthy v) || Regex.email v;
        msg := js "Must be a valid email format." |});
    (js "q3f_ssn",
     {| check := λ v, negb (Str.truthy v) || Regex.ssn v;
        msg := js "Must be a 9-digit SSN or 8-character UPIN." |});
    (js "q3g_dob",
     {| check := λ v, negb (Str.truthy v)
                      || match Date_parse d v with
                         | Some t => (t <=? Date_now d)%Z
                         | None => false
                         end;
        msg := js "Date of Birth cannot be in the future." |}) ].

(** [validations[name]] *)
Definition ruleFor (d : DateEnv) (name : jsstring) : option ValidationRule :=
  snd <$> List.find (λ kv : jsstring * ValidationRule,
                       bool_decide (kv.1 = name)) (validations d).

(** The document the validation works on: the controls, and the text of the
    other elements by id (the error containers). *)
Record ValidationState := {
  fields : list Control;
  textContent : list (jsstring * jsstring);
}.

Definition classList_add (cls : jsstring) (c : Control) : Control :=
  if bool_decide (cls ∈ el_classList c) then c
  else withClassList (el_classList c ++ [cls]) c.

Definition classList_remove (cls : jsstring) (c : Control) : Control :=
  withClassList (filter (λ x, x ≠ cls) (el_classList c)) c.

(** [container.textContent = text], when the container exists. *)
Definition setTextContent (id text : jsstring)
    (l : list (jsstring * jsstring)) : list (jsstring * jsstring) :=
  (λ kv, if bool_decide (kv.1 = id) then (kv.1, text) else kv) <$> l.

(** [validateField(field)]: whether the field is valid, and the document with
    the marker and the message set or removed.  A [RadioNodeList] passed as
    the field has no [classList] and the call throws. *)
Definition validateField (d : DateEnv) (field : NamedItem)
    (st : ValidationState) : Result (bool * ValidationState) :=
  match field with
  | ItemNull => Ok (true, st)
  | ItemList _ => Throw TypeError
  | ItemElement i el =>
      let errorId := el_id el ++ js "-error" in
      let rule := ruleFor d (el_name el) in
      let isValid :=
        match rule with
        | Some r => check r (el_value el)
        | None => true
        end in
      if isValid then
        Ok (true,
            {| fields := alter (classList_remove (js "invalid-field")) i
                               (fields st);
               textContent := setTextContent errorId [] (textContent st) |})
      else
        Ok (false,
            {| fields := alter (classList_add (js "invalid-field")) i
                               (fields st);
               textContent :=
                 setTextContent errorId
                   (match rule with Some r => msg r | None => [] end)
                   (textContent st) |})
  end.

(** The loop of [runAllValidations] over the names of the table. *)
Fixpoint validateAll (d : DateEnv) (names : list jsstring) (allValid : bool)
    (st : ValidationState) : Result (bool * ValidationState) :=
  match names with
  | [] => Ok (allValid, st)
  | fieldName :: names' =>
      '(isValid, st') ← validateField d (namedItem (fields st) fieldName) st;
      validateAll d names' (allValid && isValid) st'
  end.

Definition runAllValidations (d : DateEnv) (st : ValidationState)
  : Result (bool * ValidationState) :=
  validateAll d ((validations d).*1) true st.

(** The first decision of the export button: invalid fields stop it. *)
Definition exportBlocked (d : DateEnv) (st : ValidationState) : Result bool :=
  '(isFormValid, _) ← runAllValidations d st;
  Ok (negb isFormValid).

(** ** Dependency engine *)

(** A piece of handler code: the document it leaves, and the exception it
    throws if it does.  The handles [init] keeps ([sameAsCheckbox],
    [q4aRadios], ...) are looked up again where they are used: no code
    assigns an id or a name, so the lookup finds what [init] found.  The
    handlers describe a page on which [init] ran to its end; [focus()] and
    the resizing of text areas leave the controls as they are. *)
Abbreviation Step := (list Control -> list Control * option Exn).

Definition skip : Step := λ els, (els, None).

Definition throw (e : Exn) : Step := λ els, (els, Some e).

Definition update (f : list Control -> list Control) : Step :=
  λ els, (f els, None).

Definition andThen (f g : Step) : Step :=
  λ els, match f els with
         | (els', None) => g els'
         | thrown => thrown
         end.

Infix ">>" := andThen (at level 55, right associativity).

(** [document.getElementById(id)], a property of which is then read or
    written: with no such element that access throws. *)
Definition withElement (id : string) (k : nat -> Control -> Step) : Step :=
  λ els, match getElementById els (js id) with
         | Some (i, c) => k i c els
         | None => (els, Some TypeError)
         end.

(** [group.forEach(f)] on what [namedItem(name)] gave: only a list has it. *)
Fixpoint forEachStep (f : nat -> Step) (l : list nat) : Step :=
  match l with
  | [] => skip
  | i :: l' => f i >> forEachStep f l'
  end.

Definition forEachNamed (name : string) (f : nat -> Step) : Step :=
  λ els, match namedItem els (js name) with
         | ItemList l => forEachStep f l.*1 els
         | _ => (els, Some TypeError)
         end.

(** A listener run by [dispatchEvent]: what it throws is reported and goes no
    further, what it did before stays done. *)
Definition listener (h : Step) : Step := λ els, ((h els).1, None).

Definition when (b : list Control -> bool) (h : Step) : Step :=
  λ els, if b els then h els else (els, None).

Definition isElementWithId (id : string) (i : nat) (els : list Control)
  : bool :=
  bool_decide (fst <$> getElementById els (js id) = Some i).

Definition isInGroup (name : string) (i : nat) (els : list Control) : bool :=
  match namedItem els (js name) with
  | ItemList l => bool_decide (i ∈ l.*1)
  | _ => false
  end.

Definition hasTagName (tag : string) (i : nat) (els : list Control) : bool :=
  match els !! i with
  | Some c => bool_decide (el_tagName c = js tag)
  | None => false
  end.

(** [normalizeToUppercase(element)]; restoring the cursor throws on an email
    input, which has no selection. *)
Definition normalizeToUppercase (i : nat) : Step :=
  λ els, match els !! i with
         | Some element =>
             if isTextLike element then
               let originalValue := el_value element in
               let upperValue := Str.toUpperCase originalValue in
               if bool_decide (originalValue ≠ upperValue) then
                 (setValue i upperValue els,
                  if isType "email" element then Some InvalidStateError
                  else None)
               else (els, None)
             else (els, None)
         | None => (els, None)
         end.

Definition textareaLineLimits : list (jsstring * nat) :=
  [ (js "q2_address", 2%nat); (js "q3a_homeAddress", 7%nat);
    (js "q5_address", 2%nat); (js "q4b_address", 2%nat);
    (js "q3d_otherNames", 2%nat) ].

Definition maxLinesOf (name : jsstring) : option nat :=
  snd <$> List.find (λ kv : jsstring * nat, bool_decide (kv.1 = name))
                    textareaLineLimits.

Definition limitLines (maxLines : nat) (value : jsstring) : jsstring :=
  let lines := Str.split 10 value in
  if bool_decide (maxLines < length lines)%nat
  then Str.join [10] (take maxLines lines)
  else value.

Definition limitTextareaLines (i : nat) : Step :=
  λ els, match els !! i with
         | Some textarea =>
             match maxLinesOf (el_name textarea) with
             | Some maxLines =>
                 (setValue i (limitLines maxLines (el_value textarea)) els,
                  None)
             | None => (els, None)
             end
         | None => (els, None)
         end.

(** The listeners an [input] event finds on a text area of the form, and on
    the form itself when the event bubbles up to it. *)
Definition textareaInput (i : nat) : Step :=
  when (hasTagName "TEXTAREA" i) (listener (limitTextareaLines i)).

Definition formInput (i : nat) : Step :=
  listener (normalizeToUppercase i).

(** [syncAddress()].  The [input] event it sends to the home address finds
    the listeners of that text area and of the form; [syncAddress] itself
    listens on the other text area only. *)
Definition syncAddress : Step :=
  withElement "q3a_sameAs2" (λ _ sameAsCheckbox,
    if el_checked sameAsCheckbox then
      withElement "q3a_homeAddress" (λ d _,
        withElement "q2_address" (λ _ q2Address,
          update (setValue d (el_value q2Address))
          >> update (setDisabled d true)
          >> textareaInput d >> formInput d))
    else
      withElement "q3a_homeAddress" (λ d _, update (setDisabled d false))).

(** An [input] event on the control at position [i], as typing sends it:
    the listeners of the target in the order of their registration, then
    those of the form. *)
Definition dispatchInput (i : nat) : Step :=
  textareaInput i
  >> when (isElementWithId "q2_address" i) (listener syncAddress)
  >> formInput i.

Definition formatPhone (value : jsstring) : jsstring :=
  let digits := List.filter Str.isDigit value in
  if bool_decide (length digits = 10%nat) then
    js "(" ++ Str.substring 0 3 digits ++ js ") " ++ Str.substring 3 6 digits
    ++ js "-" ++ Str.substring 6 10 digits
  else value.

Definition formatSsn (value : jsstring) : jsstring :=
  let cleaned := List.filter Str.isDigit value in
  if bool_decide (length cleaned = 9%nat) then
    Str.substring 0 3 cleaned ++ js "-" ++ Str.substring 3 5 cleaned
    ++ js "-" ++ Str.substring 5 9 cleaned
  else value.

(** The [blur] listeners of the telephone and of the tax-id input. *)
Definition phoneBlur (target : nat) : Step :=
  update (λ els, match els !! target with
                 | Some c => setValue target (formatPhone (el_value c)) els
                 | None => els
                 end)
  >> normalizeToUppercase target.

Definition ssnBlur (target : nat) : Step :=
  update (λ els, match els !! target with
                 | Some c => setValue target (formatSsn (el_value c)) els
                 | None => els
                 end)
  >> normalizeToUppercase target.

(** The cascade of an "other" text input: enabled exactly when its governing
    option is checked, emptied when it is not. *)
Definition otherCascade (optionId textId : string) : Step :=
  withElement optionId (λ _ option,
    let isOther := el_checked option in
    withElement textId (λ t _,
      update (setDisabled t (negb isOther))
      >> (if isOther then skip else update (setValue t [])))).

Definition updateUpinInput : Step := otherCascade "q8_upin-yes" "q8_upinNumber".
Definition updateQ9cInput : Step := otherCascade "q9c_other" "q9c_other_text".

Definition updateQ6m2 : Step :=
  withElement "q6m1-yes" (λ _ yes,
    withElement "q6m1-no" (λ _ no,
      if el_checked yes then
        withElement "q6m2-yes" (λ i _, update (setDisabled i false))
        >> withElement "q6m2-no" (λ i _, update (setDisabled i false))
        >> withElement "q6m2-na" (λ i _, update (setDisabled i true))
        >> withElement "q6m2-na" (λ _ na,
             if el_checked na
             then forEachNamed "q6m2_exception"
                    (λ r, update (setChecked r false))
             else skip)
      else if el_checked no then
        withElement "q6m2-yes" (λ i _, update (setDisabled i true))
        >> withElement "q6m2-no" (λ i _, update (setDisabled i true))
        >> withElement "q6m2-na" (λ i _, update (setDisabled i false))
        >> withElement "q6m2-na" (λ i _, update (setChecked i true))
      else
        forEachNamed "q6m2_exception"
          (λ r, update (setDisabled r true) >> update (setChecked r false)))).

(** A [change] event on the control at position [i]: the listeners of the
    target in the order of their registration.  The listener of the form
    saves the state to the hash and leaves the controls alone. *)
Definition dispatchChange (i : nat) : Step :=
  when (isElementWithId "q3a_sameAs2" i) (listener syncAddress)
  >> when (isInGroup "q4a_firearmType" i)
       (listener (otherCascade "q4a_other" "q4a_other_text"))
  >> when (isInGroup "q6m1_nonimmigrant" i) (listener updateQ6m2)
  >> when (isInGroup "q8_hasUpin" i) (listener updateUpinInput)
  >> when (isElementWithId "q9a_other" i)
       (listener (otherCascade "q9a_other" "q9a_other_text"))
  >> when (isInGroup "q9c_birthCountry" i) (listener updateQ9cInput).

(** What [prohibitors.querySelectorAll('input[type="radio"][value="NO"]')]
    selects: the positions of the radio inputs of value NO inside the element
    with id [q6_prohibitors]. *)
Definition prohibitorNoRadios (els : list Control) : list nat :=
  (filter (λ p : nat * Control,
             js "q6_prohibitors" ∈ el_ancestors p.2
             ∧ el_tagName p.2 = js "INPUT"
             ∧ el_type p.2 = js "radio"
             ∧ el_value p.2 = js "NO")
          (imap pair els)).*1.

(** The click listener of the "all no" button; [prohibitors] tells whether
    the document has the element with id [q6_prohibitors]. *)
Definition q6AllNoClick (prohibitors : bool) : Step :=
  λ els,
    if prohibitors then
      (forEachStep (λ radio,
                      update (setChecked radio true) >> dispatchChange radio)
                   (prohibitorNoRadios els)
       >> withElement "q6m2-na" (λ q6m2na _,
            update (setChecked q6m2na true) >> dispatchChange q6m2na)) els
    else (els, Some TypeError).

(** ** Notions for the statements *)

(** Two results of [namedItem] that hold the same positions, with controls
    related by [R]. *)
Inductive itemRel (R : Control -> Control -> Prop) : NamedItem -> NamedItem -> Prop :=
| itemRel_null : itemRel R ItemNull ItemNull
| itemRel_element i c c' :
    R c c' -> itemRel R (ItemElement i c) (ItemElement i c')
| itemRel_list l l' :
    Forall2 (λ p p' : nat * Control, p.1 = p'.1 ∧ R p.2 p'.2) l l' ->
    itemRel R (ItemList l) (ItemList l').

(** What no code of the engine assigns: id, name, type, tag and place. *)
Definition sameElement (c c' : Control) : Prop :=
  el_id c = el_id c' ∧ el_name c = el_name c' ∧ el_type c = el_type c'
  ∧ el_tagName c = el_tagName c' ∧ el_ancestors c = el_ancestors c'.

(** A validated field that is missing from the form or holds no value. *)
Definition emptyOrMissing (els : list Control) (name : jsstring) : Prop :=
  match namedItem els name with
  | ItemNull => True
  | ItemElement _ c => el_value c = []
  | ItemList _ => False
  end.

(** The field found under [name], if there is one, carries no marker. *)
Definition notFlagged (els : list Control) (name : jsstring) : Prop :=
  ∀ i c, namedItem els name = ItemElement i c ->
         js "invalid-field" ∉ el_classList c.

(** Validation leaves a control as it is but for its classes, and sets no
    marker where none was. *)
Definition sameButClasses (c c' : Control) : Prop :=
  el_id c = el_id c' ∧ el_name c = el_name c' ∧ el_value c = el_value c'
  ∧ (js "invalid-field" ∉ el_classList c ->
     js "invalid-field" ∉ el_classList c').

(** A date environment in which no string parses as a date, and a form state
    whose validated fields are all unfilled. *)
Definition noDates : DateEnv :=
  {| Date_parse := λ _, None; Date_now := 0 |}.

Definition unfilledForm : ValidationState :=
  {| fields :=
       [ input "q3b_telephone" "q3b_telephone" "tel" "" false;
         input "q3c_email" "q3c_email" "email" "" false;
         withClassList [js "invalid-field"]
           (input "q3f_ssn" "q3f_ssn" "text" "" false) ];
     textContent := [(js "q3f_ssn-error", js "stale message")] |}.


(** The text-like controls: text, email and telephone inputs, and text
    areas. *)
Definition textControl (el : Control) : Prop :=
  el_type el = js "text" ∨ el_type el = js "email" ∨ el_type el = js "tel"
  ∨ (el_type el = js "textarea" ∧ el_tagName el = js "TEXTAREA").


(** A value with a string form: [el.value = value] does not throw on it. *)
Definition coercible (value : JValue) : Prop :=
  ∃ s, toStringJS value = Ok s.


(** A handler keeps a relation between the document it finds and the one it
    leaves. *)
Definition keeps (R : Control -> Control -> Prop) (h : Step) : Prop :=
  ∀ els, Forall2 R els (h els).1.

(** A signature decoder that reads nothing. *)
Definition noSignatures : Autopen := λ _, Throw (Error []).

Definition freshState : FormState :=
  {| controls :=
       [ input "q2_fullName" "q2_fullName" "text" "" false;
         input "q3a_sameAs2" "q3a_sameAs2" "checkbox" "on" true;
         input "q9a_usa" "q9a_citizenship" "checkbox" "USA" false;
         input "q9a_other" "q9a_citizenship" "checkbox" "OTHER" false ];
     manager := None |}.

(** A form in which a name was typed that has a letter outside Latin-1
    (U+0141, L with stroke). *)
Definition formWithStroke : list Control :=
  [ withValue [321; 85; 75; 65; 83; 90]
      (input "q2_fullName" "q2_fullName" "text" "" false);
    input "q3a_sameAs2" "q3a_sameAs2" "checkbox" "on" true ].

Definition somePlace : Window :=
  {| history := [];
     location := {| pathname := js "/index.html"; search := [];
                    fragment := Some (js "e30") |} |}.

(** The two addresses and the toggle between them. *)
Definition addressForm (sameAs : bool) (address home : string)
  : list Control :=
  [ textarea "q2_address" "q2_address" address;
    input "q3a_sameAs2" "q3a_sameAs2" "checkbox" "on" sameAs;
    withDisabled sameAs (textarea "q3a_homeAddress" "q3a_homeAddress" home) ].

(** The three radio buttons of the exception question. *)
Definition isQ6m2Id (id : jsstring) : Prop :=
  id = js "q6m2-yes" ∨ id = js "q6m2-no" ∨ id = js "q6m2-na".

(** What the listeners of the other questions keep of a control: its place
    in the document, whether it is checked and, for the three radio buttons
    of the exception question, whether it is disabled. *)
Definition keptByOthers (c c' : Control) : Prop :=
  sameElement c c' ∧ el_checked c = el_checked c'
  ∧ (isQ6m2Id (el_id c) -> el_disabled c = el_disabled c').

Definition isRadioNamed (name : string) (i : nat) (id : string)
    (els : list Control) : Prop :=
  ∃ c, getElementById els (js id) = Some (i, c)
       ∧ el_type c = js "radio" ∧ el_name c = js name.

(** The layout the handlers of question 6 rely on: the radio buttons
    [q6m1-yes] and [q6m1-no] make up the group [q6m1_nonimmigrant], the
    buttons [q6m2-yes], [q6m2-no] and [q6m2-na] the group [q6m2_exception];
    [q6m1-no] is one of the NO buttons inside [q6_prohibitors], and no group
    has two NO buttons there. *)
Record prohibitorsLayout (els : list Control) (y1 n1 y2 n2 a2 : nat)
  : Prop := {
  layout_q6m1_yes : isRadioNamed "q6m1_nonimmigrant" y1 "q6m1-yes" els;
  layout_q6m1_no : isRadioNamed "q6m1_nonimmigrant" n1 "q6m1-no" els;
  layout_q6m2_yes : isRadioNamed "q6m2_exception" y2 "q6m2-yes" els;
  layout_q6m2_no : isRadioNamed "q6m2_exception" n2 "q6m2-no" els;
  layout_q6m2_na : isRadioNamed "q6m2_exception" a2 "q6m2-na" els;
  layout_q6m1_group :
    ∃ l, namedItem els (js "q6m1_nonimmigrant") = ItemList l
         ∧ ∀ i, i ∈ l.*1 <-> i = y1 ∨ i = n1;
  layout_q6m2_group :
    ∃ l, namedItem els (js "q6m2_exception") = ItemList l
         ∧ ∀ i, i ∈ l.*1 <-> i = y2 ∨ i = n2 ∨ i = a2;
  layout_q6m1_no_inside : n1 ∈ prohibitorNoRadios els;
  layout_one_no_per_group :
    ∀ i j ci cj,
      i ∈ prohibitorNoRadios els -> j ∈ prohibitorNoRadios els ->
      els !! i = Some ci -> els !! j = Some cj ->
      el_name ci = el_name cj -> i = j;
}.

(** The controls of a group other than the one at [r] are not checked. *)
Definition aloneInGroup (els : list Control) (r : nat) : Prop :=
  ∀ c j cj,
    els !! r = Some c -> els !! j = Some cj -> j ≠ r ->
    el_type cj = js "radio" -> el_name cj = el_name c ->
    el_checked cj = false.

Definition checkedAt (els : list Control) (i : nat) (b : bool) : Prop :=
  ∃ c, els !! i = Some c ∧ el_checked c = b.

Definition disabledAt (els : list Control) (i : nat) (b : bool) : Prop :=
  ∃ c, els !! i = Some c ∧ el_disabled c = b.

(** A radio button of question 6, inside the element [q6_prohibitors]. *)
Definition prohibitor (id name value : string) (checked disabled : bool)
  : Control :=
  {| el_id := js id; el_name := js name; el_type := js "radio";
     el_tagName := js "INPUT"; el_value := js value; el_checked := checked;
     el_disabled := disabled; el_classList := [];
     el_ancestors := [js "nfa-form"; js "q6_prohibitors"] |}.

(** Question 6 with the answers 6.a YES, 6.m.1 YES and 6.m.2 YES. *)
Definition prohibitorsForm : list Control :=
  [ prohibitor "q6a-yes" "q6a_intent" "YES" true false;
    prohibitor "q6a-no" "q6a_intent" "NO" false false;
    prohibitor "q6m1-yes" "q6m1_nonimmigrant" "YES" true false;
    prohibitor "q6m1-no" "q6m1_nonimmigrant" "NO" false false;
    prohibitor "q6m2-yes" "q6m2_exception" "YES" true false;
    prohibitor "q6m2-no" "q6m2_exception" "NO" false false;
    prohibitor "q6m2-na" "q6m2_exception" "N/A" false true ].

(** The document a listener leaves when it is registered under the
    condition [b]. *)
Definition ran (b : list Control -> bool) (h : Step) (els : list Control)
  : list Control :=
  (when b (listener h) els).1.

(** The four assignments of [updateQ6m2] when the answer to 6.m.1 is NO. *)
Definition forcedNotApplicable (y2 n2 a2 : nat) (els : list Control)
  : list Control :=
  setChecked a2 true
    (setDisabled a2 false (setDisabled n2 true (setDisabled y2 true els))).

(** What the handlers of question 6 keep of a control outside the exception
    group: its place in the document and whether it is checked. *)
Definition keptOutsideException (c c' : Control) : Prop :=
  sameElement c c'
  ∧ (el_name c ≠ js "q6m2_exception" -> el_checked c = el_checked c').

(** A prohibitor outside the exception group is answered NO: the button at
    [r] is checked and, when it has a name, it is the only checked button of
    its group. *)
Definition answeredNo (st : list Control) (r : nat) : Prop :=
  ∀ c, st !! r = Some c -> el_name c ≠ js "q6m2_exception" ->
       el_checked c = true
       ∧ (Str.truthy (el_name c) = true -> aloneInGroup st r).

(** The exception forced to "not applicable": the YES button of 6.m.1 is not
    checked, the YES and NO buttons of 6.m.2 are disabled and its "not
    applicable" button is enabled. *)
Definition exceptionForced (st : list Control) (y1 y2 n2 a2 : nat) : Prop :=
  checkedAt st y1 false ∧ disabledAt st y2 true ∧ disabledAt st n2 true
  ∧ disabledAt st a2 false.

(** While the "all no" listener runs over the NO buttons, the ones already
    done hold: each prohibitor outside the exception group is answered NO,
    and once the NO button of 6.m.1 is done the exception is forced. *)
Definition prohibitorsInv (els : list Control) (y1 n1 y2 n2 a2 : nat)
    (done : list nat) (st : list Control) : Prop :=
  Forall2 sameElement els st
  ∧ (∀ r, r ∈ done -> answeredNo st r)
  ∧ (n1 ∈ done -> exceptionForced st y1 y2 n2 a2).

(** ** Notions for the round trip through the hash *)

(** A string of Latin-1: every code unit is a byte. *)
Definition latin1 (s : jsstring) : Prop := Forall (λ c, c < 256) s.

(** The 6-bit groups of a byte string, and the padding of its encoding. *)
Fixpoint sextets (bytes : list N) : list N :=
  match bytes with
  | [] => []
  | [a] => [a / 4; a mod 4 * 16]
  | [a; b] => [a / 4; a mod 4 * 16 + b / 16; b mod 16 * 4]
  | a :: b :: c :: rest =>
      a / 4 :: (a mod 4 * 16 + b / 16) :: (b mod 16 * 4 + c / 64) :: c mod 64
      :: sextets rest
  end.

Definition padding (bytes : list N) : jsstring :=
  replicate ((3 - length bytes mod 3) mod 3) 61.

(** The values of the data model: booleans, strings, lists of strings. *)
Inductive snapshotValue : JValue -> Prop :=
| snapshot_bool b : snapshotValue (JBool b)
| snapshot_string s : latin1 s -> snapshotValue (JStr s)
| snapshot_list l : Forall latin1 l -> snapshotValue (JArr (JStr <$> l)).

(** A snapshot of Latin-1: distinct keys, keys and strings of bytes. *)
Definition latin1Snapshot (data : Obj) : Prop :=
  NoDup data.*1 ∧ Forall (λ kv, latin1 kv.1 ∧ snapshotValue kv.2) data.

(** The text [JSON.stringify] writes for one property. *)
Definition memberText (kv : jsstring * JValue) : jsstring :=
  JSON.quote kv.1 ++ js ":" ++ JSON.stringify kv.2.

(** ** What a round trip keeps *)







(** ** Notions for the shape of a snapshot *)

(** The values [serializeForm] writes: a boolean, a string that is not
    empty, or a list of strings that is not empty. *)
Definition snapshotShape (v : JValue) : Prop :=
  match v with
  | JBool _ => True
  | JStr s => s ≠ []
  | JArr l => l ≠ [] ∧ Forall (λ x, ∃ s, x = JStr s) l
  | _ => False
  end.

(** A property whose name is not empty and is the name of an enabled
    control, with a value of the shape above. *)
Definition writtenFor (el : Control) (k : jsstring) (v : JValue) : Prop :=
  k = el_name el ∧ k ≠ [] ∧ el_disabled el = false ∧ snapshotShape v.

(** An address of three lines. *)
Definition threeLines : jsstring :=
  js "1 main st" ++ [10] ++ js "springfield" ++ [10] ++ js "usa".

(** A form with answers in it: a name in lower case, an address of three
    lines, a ticked radio button, a disabled input and a ticked group. *)
Definition answeredForm : list Control :=
  [ input "q2_fullName" "q2_fullName" "text" "john q. public" false;
    withValue threeLines (textarea "q2_address" "q2_address" "");
    input "q1_form1" "q1_formType" "radio" "ATF FORM 1" true;
    input "q1_form4" "q1_formType" "radio" "ATF FORM 4" false;
    withDisabled true (input "q8_upinNumber" "q8_upinNumber" "text" "x1" false);
    input "q9a_usa" "q9a_citizenship" "checkbox" "USA" true;
    input "q9a_other" "q9a_citizenship" "checkbox" "OTHER" false ].

(** The characters a fragment may hold without being escaped in a URL:
    letters, digits, the hyphen and the underscore. *)
Definition urlSafe (c : N) : bool :=
  Regex.isAlnum c || (c =? 45) || (c =? 95).

(** The tests of [latin1] and [snapshotValue], as functions. *)
Definition isLatin1 (s : jsstring) : bool := forallb (λ c, c <? 256) s.

Definition isSnapshotValue (v : JValue) : bool :=
  match v with
  | JBool _ => true
  | JStr s => isLatin1 s
  | JArr l => forallb (λ x, match x with JStr s => isLatin1 s | _ => false end) l
  | _ => false
  end.

Definition isLatin1Snapshot (data : Obj) : bool :=
  bool_decide (NoDup data.*1)
  && forallb (λ kv : jsstring * JValue, isLatin1 kv.1 && isSnapshotValue kv.2)
             data.

(** What the console holds after [loadStateFromHash]: the exception, if one
    was thrown. *)
Definition logged (thrown : option Exn) : list Exn :=
  match thrown with Some e => [e] | None => [] end.

(** ** Notions for the validation of the whole form *)

(** What [validateField] decides for an element: the rule of its name, if
    there is one, applied to its value. *)
Definition elementValid (d : DateEnv) (el : Control) : bool :=
  match ruleFor d (el_name el) with
  | Some r => check r (el_value el)
  | None => true
  end.

(** The same for the field found under a name of the rule table; a name
    that finds no element passes. *)
Definition passes (d : DateEnv) (els : list Control) (fieldName : jsstring)
  : bool :=
  match namedItem els fieldName with
  | ItemElement _ el => elementValid d el
  | _ => true
  end.

(** Two controls that differ at most in their classes. *)
Definition sameButClassList (c c' : Control) : Prop :=
  withClassList [] c = withClassList [] c'.

(** The control at position [i] carries the marker of an invalid field. *)
Definition flaggedAt (els : list Control) (i : nat) : Prop :=
  ∃ c, els !! i = Some c ∧ js "invalid-field" ∈ el_classList c.

(** A form with two invalid fields and a valid one. *)
Definition mistypedForm : ValidationState :=
  {| fields :=
       [ input "q3b_telephone" "q3b_telephone" "tel" "CALL ME" false;
         input "q3c_email" "q3c_email" "email" "A@B" false;
         withClassList [js "invalid-field"]
           (input "q3f_ssn" "q3f_ssn" "text" "12345" false) ];
     textContent := [(js "q3f_ssn-error", js "stale message")] |}.

(** ** The name of the generated file *)

(** [s.trim()]: the white space and the line terminators at both ends go;
    they make up the class [\s]. *)
Definition trim (s : jsstring) : jsstring :=
  rev (dropWhile Regex.isSpace (rev (dropWhile Regex.isSpace s))).

(** [s.replace(/[class]+/g, by)] for a class [p] of code units and a single
    unit [by]: every maximal run of the class becomes one [by].  [inRun]
    tells that the unit before belongs to a run already replaced. *)
Fixpoint replaceRunsFrom (p : N -> bool) (by_ : N) (inRun : bool)
    (s : jsstring) : jsstring :=
  match s with
  | [] => []
  | c :: s' =>
      if p c then
        if inRun then replaceRunsFrom p by_ true s'
        else by_ :: replaceRunsFrom p by_ true s'
      else c :: replaceRunsFrom p by_ false s'
  end.

Definition replaceRuns (p : N -> bool) (by_ : N) (s : jsstring) : jsstring :=
  replaceRunsFrom p by_ false s.

(** The class [[a-zA-Z0-9_.-]]. *)
Definition isFilenameUnit (c : N) : bool :=
  Regex.isAlnum c || (c =? 95) || (c =? 46) || (c =? 45).

(** The class [[._-]]. *)
Definition isSeparator (c : N) : bool :=
  (c =? 46) || (c =? 95) || (c =? 45).

(** [sanitizeFilenameComponent(str)].  The third replacement,
    [/_{2,}/g] by ["_"], turns every run of two underscores or more into
    one and leaves a lone underscore, which is what replacing every run of
    underscores by one does.  The fourth, [/^[._-]+|[._-]+$/g] by [""],
    takes the run of separators at the start and then the one at the end of
    what is left. *)
Definition sanitizeFilenameComponent (str : jsstring) : jsstring :=
  let spaced := replaceRuns Regex.isSpace 95 (trim str) in
  let kept := List.filter isFilenameUnit spaced in
  let collapsed := replaceRuns (λ c, c =? 95) 95 kept in
  let stripped :=
    rev (dropWhile isSeparator (rev (dropWhile isSeparator collapsed))) in
  Str.substring 0 50 stripped.

(** One optional component: a truthy property is sanitized, and the call
    throws on a truthy value that is no string, which has no [trim]. *)
Definition pushSanitized (value : option JValue) (components : list jsstring)
  : Result (list jsstring) :=
  match value with
  | Some v =>
      if truthy v then
        match v with
        | JStr s => Ok (components ++ [sanitizeFilenameComponent s])
        | _ => Throw TypeError
        end
      else Ok components
  | None => Ok components
  end.

(** [generateFilename(formData)]; [isoToday] is what
    [new Date().toISOString().split("T")[0]] yields, the date of the day in
    UTC.  [join] takes the string form of the certification date when the
    property holds a value that is no string. *)
Definition generateFilename (isoToday : jsstring) (formData : Obj)
  : Result jsstring :=
  components ← pushSanitized (Object.get (js "q3a_fullName") formData)
                             [js "5320.23"];
  components ← pushSanitized (Object.get (js "q4c_model") formData) components;
  components ← pushSanitized (Object.get (js "q4e_serial") formData) components;
  dateStr ← match Object.get (js "certificationDate") formData with
            | Some v => if truthy v then toStringJS v else Ok isoToday
            | None => Ok isoToday
            end;
  Ok (Str.join (js "_") (components ++ [dateStr]) ++ js ".pdf").

(** A text that holds two underscores in a row. *)
Definition hasDoubleUnderscore (s : jsstring) : Prop :=
  ∃ before after, s = before ++ [95; 95] ++ after.

(** ** The fields of the PDF form *)

(** [s.replace(pat, by)] with a string pattern: the first occurrence is
    replaced ([by] holds no dollar sign here). *)
Fixpoint replaceFirst (s pat by_ : jsstring) : jsstring :=
  if Str.startsWith s pat then by_ ++ drop (length pat) s
  else match s with
       | [] => []
       | c :: s' => c :: replaceFirst s' pat by_
       end.

(** [getCleoWidgetVariant(name)] *)
Definition getCleoWidgetVariant (name : jsstring) : jsstring :=
  replaceFirst
    (replaceFirst (replaceFirst name (js "Page1[0]") (js "Page5[0]"))
                  (js "Page2[0]") (js "Page6[0]"))
    (js "#field[24]") (js "#field[22]").

(** The names every object inherits from [Object.prototype]: a lookup in an
    object literal finds them too, and [in] holds of them. *)
Definition objectPrototype : list jsstring :=
  [ js "constructor"; js "__defineGetter__"; js "__defineSetter__";
    js "hasOwnProperty"; js "__lookupGetter__"; js "__lookupSetter__";
    js "isPrototypeOf"; js "propertyIsEnumerable"; js "toString";
    js "valueOf"; js "__proto__"; js "toLocaleString" ].

(** A key of the map [fieldsToFill]: the name of a widget, or what a lookup
    in a mapping table found on the prototype instead. *)
Inductive WidgetKey :=
| Widget (name : jsstring)
| Inherited (property : jsstring).

#[global] Instance WidgetKey_eq_dec : EqDecision WidgetKey.
Proof. solve_decision. Defined.

(** An answer: the symbol [SELECTED], or a text. *)
Inductive Answer :=
| SELECTED
| Text (s : jsstring).

(** A [Map] in the order of insertion. *)
Abbreviation PdfFields := (list (WidgetKey * Answer)).

Module Map.

Fixpoint get (k : WidgetKey) (m : PdfFields) : option Answer :=
  match m with
  | [] => None
  | (k', v) :: m' => if decide (k = k') then Some v else get k m'
  end.

(** [m.set(k, v)]: a key already there keeps its place. *)
Fixpoint set (k : WidgetKey) (v : Answer) (m : PdfFields) : PdfFields :=
  match m with
  | [] => [(k, v)]
  | (k', v') :: m' =>
      if decide (k = k') then (k, v) :: m' else (k', v') :: set k v m'
  end.

End Map.

(** [table[key]] on an object literal of widget names. *)
Definition lookupWidget (table : list (string * string)) (key : jsstring)
  : option WidgetKey :=
  match List.find (λ kv : string * string, bool_decide (js kv.1 = key)) table
  with
  | Some kv => Some (Widget (js kv.2))
  | None => if bool_decide (key ∈ objectPrototype) then Some (Inherited key)
            else None
  end.

(** Whether a property that may be missing is truthy. *)
Definition given (value : option JValue) : bool :=
  match value with
  | Some v => truthy v
  | None => false
  end.

(** [normalizeString(value)]: a falsy value as it is, a string in upper
    case; another truthy value has no [toUpperCase] and the call throws. *)
Definition normalizeString (value : option JValue)
  : Result (option JValue) :=
  if given value then
    match value with
    | Some (JStr s) => Ok (Some (JStr (Str.toUpperCase s)))
    | _ => Throw TypeError
    end
  else Ok value.

(** [value || ""] for what [normalizeString] returns, a string or a falsy
    value; it is [value] itself when that is a string. *)
Definition orEmpty (value : option JValue) : jsstring :=
  match value with
  | Some (JStr s) => s
  | _ => []
  end.

(** [normalizeString(value) || ""], and [normalizeString(value)!] where
    [value] is known to be truthy. *)
Definition normalized (value : option JValue) : Result jsstring :=
  r ← normalizeString value; Ok (orEmpty r).

(** What the code needs of [Date]: the local date
    [new Date(year, month - 1, day)] shows, where [year], [month] and [day]
    are the numbers [Number] makes of the first three of [parts]; [None]
    stands for an invalid date. *)
Record LocalDates := {
  localDate : list jsstring -> option Clock;
}.

(** [parseLocalDate(dateString)]: only a string has [split]. *)
Definition parseLocalDate (dates : LocalDates) (dateString : JValue)
  : Result (option Clock) :=
  match dateString with
  | JStr s => Ok (localDate dates (Str.split 45 s))
  | _ => Throw TypeError
  end.

(** The template [MM/DD/YYYY] of a date; the fields of an invalid date are
    [NaN]. *)
Definition formatDate (date : option Clock) : jsstring :=
  match date with
  | Some d =>
      Str.padStart0 2 (Str.ofN (getMonth d + 1)) ++ js "/"
      ++ Str.padStart0 2 (Str.ofN (getDate d)) ++ js "/"
      ++ Str.ofN (getFullYear d)
  | None => js "NaN/NaN/NaN"
  end.

(** A piece of [mapFormDataToPdfFields]: the map it leaves, or the
    exception it throws. *)
Abbreviation Filler := (PdfFields -> Result PdfFields).

Definition fill (widget : string) (answer : Answer) : Filler :=
  λ fieldsToFill, Ok (Map.set (Widget (js widget)) answer fieldsToFill).

Definition nothing : Filler := λ fieldsToFill, Ok fieldsToFill.

Definition thenFill (f g : Filler) : Filler :=
  λ fieldsToFill, m ← f fieldsToFill; g m.

Infix ">>>" := thenFill (at level 55, right associativity).

(** A text computed first, then used. *)
Definition withText (text : Result jsstring) (k : jsstring -> Filler)
  : Filler :=
  λ fieldsToFill, s ← text; k s fieldsToFill.

(** The shape of questions 3b to 3f, 4c to 4e, 7 and 9b: a truthy property
    goes to its widget in upper case. *)
Definition fillText (formData : Obj) (field widget : string) : Filler :=
  if given (Object.get (js field) formData) then
    withText (normalized (Object.get (js field) formData))
             (λ s, fill widget (Text s))
  else nothing.

(** The shape of questions 1, 3h and 3i: the widget a mapping table gives
    for the value is selected. *)
Definition fillChoice (formData : Obj) (field : string)
    (mapping : list (string * string)) : Filler :=
  match Object.get (js field) formData with
  | Some v =>
      if truthy v then
        withText (toStringJS v) (λ key fieldsToFill,
          match lookupWidget mapping key with
          | Some widgetName => Ok (Map.set widgetName SELECTED fieldsToFill)
          | None => Ok fieldsToFill
          end)
      else nothing
  | None => nothing
  end.

(** The shape of questions 2 and 4b: a name and an address, one above the
    other. *)
Definition fillLines (formData : Obj) (first second widget : string)
  : Filler :=
  if given (Object.get (js first) formData)
     || given (Object.get (js second) formData) then
    withText (normalized (Object.get (js first) formData)) (λ a,
      withText (normalized (Object.get (js second) formData)) (λ b,
        let info := Str.join [10] (List.filter Str.truthy [a; b]) in
        if Str.truthy info then fill widget (Text info) else nothing))
  else nothing.

(** An entry of a mapping table, and one of the table of prohibitors. *)
Definition row (key widget : string) : string * string := (key, widget).

Definition prohibitorRow (formField yesWidget noWidget : string)
  : string * (string * string) := (formField, (yesWidget, noWidget)).

Definition formTypeMapping : list (string * string) :=
  [ row "ATF FORM 1" "topmostSubform[0].Page1[0].form1[0]";
    row "ATF FORM 4" "topmostSubform[0].Page1[0].form4[0]";
    row "ATF FORM 5" "topmostSubform[0].Page1[0].form5[0]" ].

Definition ethnicityMapping : list (string * string) :=
  [ row "HISPANIC OR LATINO" "topmostSubform[0].Page1[0].ehl[0]";
    row "NOT HISPANIC OR LATINO" "topmostSubform[0].Page1[0].nhl[0]" ].

Definition raceMapping : list (string * string) :=
  [ row "AMERICAN INDIAN OR ALASKA NATIVE" "topmostSubform[0].Page1[0].aian[0]";
    row "ASIAN" "topmostSubform[0].Page1[0].a[0]";
    row "BLACK OR AFRICAN AMERICAN" "topmostSubform[0].Page1[0].baa[0]";
    row "NATIVE HAWAIIAN OR OTHER PACIFIC ISLANDER"
        "topmostSubform[0].Page1[0].nhopi[0]";
    row "WHITE" "topmostSubform[0].Page1[0].w[0]" ].

(** The form field of a prohibitor, its YES widget and its NO widget. *)
Definition prohibitorMapping : list (string * (string * string)) :=
  [ prohibitorRow "q6a_intent"
      "topmostSubform[0].Page2[0].CheckBoxYes6a[0]"
      "topmostSubform[0].Page2[0].CheckBoxno6a[0]";
    prohibitorRow "q6b_sell"
      "topmostSubform[0].Page2[0].CheckBoxYes6b[0]"
      "topmostSubform[0].Page2[0].CheckBoxno6b[0]";
    prohibitorRow "q6c_indictment"
      "topmostSubform[0].Page2[0].CheckBoxYes1[0]"
      "topmostSubform[0].Page2[0].CheckBoxno1[0]";
    prohibitorRow "q6d_convicted"
      "topmostSubform[0].Page2[0].CheckBoxYes2[0]"
      "topmostSubform[0].Page2[0].CheckBoxno2[0]";
    prohibitorRow "q6e_fugitive"
      "topmostSubform[0].Page2[0].CheckBoxYes3[0]"
      "topmostSubform[0].Page2[0].CheckBoxno3[0]";
    prohibitorRow "q6f_user"
      "topmostSubform[0].Page2[0].CheckBoxYes4[0]"
      "topmostSubform[0].Page2[0].CheckBoxno4[0]";
    prohibitorRow "q6g_mental"
      "topmostSubform[0].Page2[0].CheckBoxYes5[0]"
      "topmostSubform[0].Page2[0].CheckBoxno5[0]";
    prohibitorRow "q6h_dishonorable"
      "topmostSubform[0].Page2[0].CheckBoxYes6[0]"
      "topmostSubform[0].Page2[0].CheckBoxno6[0]";
    prohibitorRow "q6i_restraining"
      "topmostSubform[0].Page2[0].CheckBoxYes7[0]"
      "topmostSubform[0].Page2[0].CheckBoxno7[0]";
    prohibitorRow "q6j_domestic"
      "topmostSubform[0].Page2[0].CheckBoxYes8[0]"
      "topmostSubform[0].Page2[0].CheckBoxno8[0]";
    prohibitorRow "q6k_renounced"
      "topmostSubform[0].Page2[0].CheckBoxYes9[0]"
      "topmostSubform[0].Page2[0].CheckBoxno9[0]";
    prohibitorRow "q6l_illegal"
      "topmostSubform[0].Page2[0].CheckBoxYes10[0]"
      "topmostSubform[0].Page2[0].CheckBoxno10[0]";
    prohibitorRow "q6m1_nonimmigrant"
      "topmostSubform[0].Page2[0].CheckBoxYes11[0]"
      "topmostSubform[0].Page2[0].CheckBoxno11[0]" ].

(** [value === s] for a property that may be missing. *)
Definition equals (s : string) (value : option JValue) : bool :=
  match value with
  | Some v => strictEquals (js s) v
  | None => false
  end.

(** One turn of the loop over the prohibitors. *)
Definition fillProhibitor (formData : Obj)
    (entry : string * (string * string)) : Filler :=
  let '(formField, (yesWidget, noWidget)) := entry in
  let value := Object.get (js formField) formData in
  if equals "YES" value then fill yesWidget SELECTED
  else if equals "NO" value then fill noWidget SELECTED
  else nothing.

Fixpoint forEachFill {A} (f : A -> Filler) (l : list A) : Filler :=
  match l with
  | [] => nothing
  | x :: l' => f x >>> forEachFill f l'
  end.

(** [Array.isArray(value) ? value : [value]], then [includes(s)]. *)
Definition citizenshipIncludes (value : JValue) (s : string) : bool :=
  match value with
  | JArr l => existsb (strictEquals (js s)) l
  | _ => strictEquals (js s) value
  end.

(** [formData.name] *)
Definition property (formData : Obj) (name : string) : option JValue :=
  Object.get (js name) formData.

(** [mapFormDataToPdfFields(formData)]; [today] is the local date
    [new Date()] shows. *)
Definition mapFormDataToPdfFields (dates : LocalDates) (today : Clock)
    (formData : Obj) : Result PdfFields :=
  (fillChoice formData "q1_formType" formTypeMapping
   >>> fillLines formData "q2_fullName" "q2_address"
        "topmostSubform[0].Page1[0].applicantaddress[0]"
   >>> (if given (property formData "q3a_fullName") || given (property formData "q3a_homeAddress")
         || given (property formData "q3a_sameAs2") then
        withText (normalized (property formData "q3a_homeAddress")) (λ homeAddress,
          withText (if given (property formData "q3a_sameAs2")
                       && negb (Str.truthy homeAddress)
                       && given (property formData "q2_address")
                    then normalized (property formData "q2_address")
                    else Ok homeAddress) (λ homeAddress,
            withText (normalized (property formData "q3a_fullName")) (λ fullName,
              let responsibleInfo :=
                Str.join [10] (List.filter Str.truthy [fullName; homeAddress])
              in
              if Str.truthy responsibleInfo
              then fill "topmostSubform[0].Page1[0].responsibleaddress[0]"
                        (Text responsibleInfo)
              else nothing)))
      else nothing)
   >>> fillText formData "q3b_telephone" "topmostSubform[0].Page1[0].telephone[0]"
   >>> fillText formData "q3c_email" "topmostSubform[0].Page1[0].email[0]"
   >>> fillText formData "q3d_otherNames"
        "topmostSubform[0].Page1[0].othernames[0]"
   >>> fillText formData "q3f_ssn" "topmostSubform[0].Page1[0].ssn2f[0]"
   >>> (match property formData "q3g_dob" with
       | Some v =>
           if truthy v then
             λ fieldsToFill,
               date ← parseLocalDate dates v;
               fill "topmostSubform[0].Page1[0].#field[24]"
                    (Text (formatDate date)) fieldsToFill
           else nothing
       | None => nothing
       end)
   >>> fillChoice formData "q3h_ethnicity" ethnicityMapping
   >>> fillChoice formData "q3i_race" raceMapping
   >>> (if given (property formData "q4a_firearmType") then
        withText (normalized (property formData "q4a_firearmType")) (λ firearmType,
          withText (if bool_decide (firearmType = js "OTHER")
                       && given (property formData "q4a_firearmType_other")
                    then normalized (property formData "q4a_firearmType_other")
                    else Ok firearmType) (λ firearmType,
            if Str.truthy firearmType
            then fill "topmostSubform[0].Page1[0].firearmtype[0]"
                      (Text firearmType)
            else nothing))
      else nothing)
   >>> fillLines formData "q4b_name" "q4b_address"
        "topmostSubform[0].Page1[0].importeraddress[0]"
   >>> fillText formData "q4c_model" "topmostSubform[0].Page1[0].Model[0]"
   >>> fillText formData "q4d_caliber" "topmostSubform[0].Page1[0].caliber[0]"
   >>> fillText formData "q4e_serial" "topmostSubform[0].Page1[0].serial[0]"
   >>> withText (normalized (property formData "q5_agencyName")) (λ agencyName,
        withText (if given (property formData "q5_officialName") then
                    officialName ← normalized (property formData "q5_officialName");
                    officialTitle ←
                      (if given (property formData "q5_officialTitle") then
                         title ← normalized (property formData "q5_officialTitle");
                         Ok (js ", " ++ title)
                       else Ok []);
                    Ok (officialName ++ officialTitle)
                  else Ok []) (λ official,
          withText (normalized (property formData "q5_address")) (λ address,
            match List.filter Str.truthy [agencyName; official; address] with
            | [] => nothing
            | first :: others =>
                fill "topmostSubform[0].Page1[0].TextField3[0]" (Text first)
                >>> match others with
                   | [] => nothing
                   | second :: others' =>
                       fill "topmostSubform[0].Page1[0].TextField4[0]"
                            (Text second)
                       >>> match others' with
                          | [] => nothing
                          | third :: _ =>
                              fill "topmostSubform[0].Page1[0].TextField5[0]"
                                   (Text third)
                          end
                   end
            end)))
   >>> forEachFill (fillProhibitor formData) prohibitorMapping
   >>> (if given (property formData "q6m2_exception") then
        if equals "N/A" (property formData "q6m2_exception")
        then fill "topmostSubform[0].Page2[0].CheckBoxNA[0]" SELECTED
        else if equals "YES" (property formData "q6m2_exception")
        then fill "topmostSubform[0].Page2[0].CheckBoxYes12[0]" SELECTED
        else if equals "NO" (property formData "q6m2_exception")
        then fill "topmostSubform[0].Page2[0].CheckBoxno12[0]" SELECTED
        else nothing
      else nothing)
   >>> fillText formData "q7_alienNumber"
        "topmostSubform[0].Page2[0].TextFieldalien[0]"
   >>> (if given (property formData "q8_hasUpin") then
        if equals "YES" (property formData "q8_hasUpin") then
          fill "topmostSubform[0].Page2[0].yes17[0]" SELECTED
          >>> fillText formData "q8_upinNumber"
               "topmostSubform[0].Page2[0].please17[0]"
        else if equals "NO" (property formData "q8_hasUpin")
        then fill "topmostSubform[0].Page2[0].no17[0]" SELECTED
        else nothing
      else nothing)
   >>> (match property formData "q9a_citizenship" with
       | Some citizenship =>
           if truthy citizenship then
             (if citizenshipIncludes citizenship "USA"
              then fill "topmostSubform[0].Page2[0].usacheckbox[0]" SELECTED
              else nothing)
             >>> (if citizenshipIncludes citizenship "OTHER"
                    && given (property formData "q9a_citizenship_other")
                 then
                   fill "topmostSubform[0].Page2[0].othercountrycheckbox[0]"
                        SELECTED
                   >>> withText (normalized (property formData "q9a_citizenship_other"))
                        (λ s, fill "topmostSubform[0].Page2[0].Othercountry[0]"
                                   (Text s))
                 else nothing)
           else nothing
       | None => nothing
       end)
   >>> fillText formData "q9b_birthState"
        "topmostSubform[0].Page2[0].statebirth[0]"
   >>> (if given (property formData "q9c_birthCountry") then
        if equals "USA" (property formData "q9c_birthCountry")
        then fill "topmostSubform[0].Page2[0].statecountry[0]"
                  (Text (js "UNITED STATES OF AMERICA"))
        else if equals "OTHER" (property formData "q9c_birthCountry")
                && given (property formData "q9c_birthCountry_other")
        then withText (normalized (property formData "q9c_birthCountry_other"))
               (λ s, fill "topmostSubform[0].Page2[0].statecountry[0]"
                          (Text s))
        else nothing
      else nothing)
   >>> (match property formData "certificationDate" with
       | Some v =>
           if truthy v then
             λ fieldsToFill,
               date ← parseLocalDate dates v;
               fill "topmostSubform[0].Page2[0].DateField9[0]"
                    (Text (formatDate date)) fieldsToFill
           else fill "topmostSubform[0].Page2[0].DateField9[0]"
                     (Text (formatDate (Some today)))
       | None => fill "topmostSubform[0].Page2[0].DateField9[0]"
                      (Text (formatDate (Some today)))
       end)) [].

(** A filler that leaves alone what the map holds under [k]. *)
Definition preserves (k : WidgetKey) (f : Filler) : Prop :=
  ∀ m m', f m = Ok m' -> Map.get k m' = Map.get k m.

(** The widgets of a table of prohibitors. *)
Definition widgetsOf (rows : list (string * (string * string)))
  : list WidgetKey :=
  rows ≫= λ r, [Widget (js r.2.1); Widget (js r.2.2)].


(** A platform that knows the fourth of July 1990 and holds every other
    text for an invalid date, and a sample of form data. *)
Definition sampleDates : LocalDates :=
  {| localDate := λ parts,
       if bool_decide (parts = [js "1990"; js "07"; js "04"])
       then Some {| getFullYear := 1990; getMonth := 6; getDate := 4 |}
       else None |}.

Definition sampleAnswers : Obj :=
  [ (js "q1_formType", JStr (js "ATF FORM 1"));
    (js "q2_fullName", JStr (js "Doe Family Trust"));
    (js "q3a_fullName", JStr (js "John Q. Public"));
    (js "q3a_sameAs2", JBool true);
    (js "q2_address", JStr (js "1 Main St"));
    (js "q3g_dob", JStr (js "1990-07-04"));
    (js "q5_officialName", JStr (js "Jane Roe"));
    (js "q5_officialTitle", JStr (js "Sheriff"));
    (js "q6a_intent", JStr (js "NO"));
    (js "q6m1_nonimmigrant", JStr (js "YES"));
    (js "q6m2_exception", JStr (js "N/A"));
    (js "q8_hasUpin", JStr (js "YES"));
    (js "q8_upinNumber", JStr (js "a1234567"));
    (js "q9a_citizenship", JArr [JStr (js "USA")]) ].

(** A filler that leaves alone what the map holds under the keys of [P]. *)
Definition avoids (P : WidgetKey -> Prop) (f : Filler) : Prop :=
  ∀ k, P k -> preserves k f.

(** Every name of a widget the mapping can write. *)
Definition pdfWidgets : list jsstring :=
  (js <$> (snd <$> formTypeMapping ++ ethnicityMapping ++ raceMapping))
  ++ (prohibitorMapping ≫= λ r, [js r.2.1; js r.2.2])
  ++ [ js "topmostSubform[0].Page1[0].applicantaddress[0]";
       js "topmostSubform[0].Page1[0].responsibleaddress[0]";
       js "topmostSubform[0].Page1[0].telephone[0]";
       js "topmostSubform[0].Page1[0].email[0]";
       js "topmostSubform[0].Page1[0].othernames[0]";
       js "topmostSubform[0].Page1[0].ssn2f[0]";
       js "topmostSubform[0].Page1[0].#field[24]";
       js "topmostSubform[0].Page1[0].firearmtype[0]";
       js "topmostSubform[0].Page1[0].importeraddress[0]";
       js "topmostSubform[0].Page1[0].Model[0]";
       js "topmostSubform[0].Page1[0].caliber[0]";
       js "topmostSubform[0].Page1[0].serial[0]";
       js "topmostSubform[0].Page1[0].TextField3[0]";
       js "topmostSubform[0].Page1[0].TextField4[0]";
       js "topmostSubform[0].Page1[0].TextField5[0]";
       js "topmostSubform[0].Page2[0].CheckBoxNA[0]";
       js "topmostSubform[0].Page2[0].CheckBoxYes12[0]";
       js "topmostSubform[0].Page2[0].CheckBoxno12[0]";
       js "topmostSubform[0].Page2[0].TextFieldalien[0]";
       js "topmostSubform[0].Page2[0].yes17[0]";
       js "topmostSubform[0].Page2[0].please17[0]";
       js "topmostSubform[0].Page2[0].no17[0]";
       js "topmostSubform[0].Page2[0].usacheckbox[0]";
       js "topmostSubform[0].Page2[0].othercountrycheckbox[0]";
       js "topmostSubform[0].Page2[0].Othercountry[0]";
       js "topmostSubform[0].Page2[0].statebirth[0]";
       js "topmostSubform[0].Page2[0].statecountry[0]";
       js "topmostSubform[0].Page2[0].DateField9[0]" ].

(** The keys that are no widget of the mapping and no inherited
    property. *)
Definition unknownKey (k : WidgetKey) : Prop :=
  match k with
  | Widget name => name ∉ pdfWidgets
  | Inherited _ => False
  end.

(** ** The form data of the PDF generator *)

(** An entry of [window.PREFILL_CONFIG]; [readonly] is [false] when the
    entry has no such property. *)
Record PrefillFieldConfig := {
  prefill_value : JValue;
  prefill_readonly : bool;
}.

(** The configuration: its fields in the order [for ... in] goes through
    them, each with its entry, if it has one. *)
Abbreviation PrefillConfig := (list (jsstring * option PrefillFieldConfig)).

(** [fieldName in data]: an own property, or one every object inherits. *)
Definition hasProperty (fieldName : jsstring) (data : Obj) : bool :=
  Object.has fieldName data || bool_decide (fieldName ∈ objectPrototype).

(** One turn of the loop over the configuration. *)
Definition includeReadonly (data : Obj)
    (entry : jsstring * option PrefillFieldConfig) : Obj :=
  match entry.2 with
  | Some fieldConfig =>
      if prefill_readonly fieldConfig && negb (hasProperty entry.1 data)
      then Object.set entry.1 (prefill_value fieldConfig) data
      else data
  | None => data
  end.

(** [window.serializeForm()], which is what [getFormData()] calls once the
    form is initialized; [config] is [window.PREFILL_CONFIG], if set. *)
Definition windowSerializeForm (config : option PrefillConfig) (page : Page)
  : Result Obj :=
  data ← serializeForm true page;
  Ok (match config with
      | Some fields => foldl includeReadonly data fields
      | None => data
      end).

(** A lock on the type of firearm, for a form that leaves it open. *)
Definition sampleConfig : PrefillConfig :=
  [ (js "q4a_firearmType",
     Some {| prefill_value := JStr (js "SILENCER");
             prefill_readonly := true |});
    (js "q2_fullName",
     Some {| prefill_value := JStr (js "IGNORED"); prefill_readonly := true |});
    (js "q4c_model",
     Some {| prefill_value := JStr (js "SUGGESTED");
             prefill_readonly := false |}) ].

(** ** Prefill: [applyPrefillConfig] *)

(** [list.value] of a [RadioNodeList]: the value of its first checked radio
    button, the empty string when it has none. *)
Definition radioNodeListValue (l : list (nat * Control)) : jsstring :=
  match filter (λ p : nat * Control, isType "radio" p.2 && el_checked p.2) l
  with
  | p :: _ => el_value p.2
  | [] => []
  end.

(** [hasValueFromHash(el)], which is never called on [null].  An element has
    a [type] and no [length]; a [RadioNodeList] has no [type], so that its
    [value] decides. *)
Definition hasValueFromHash (el : NamedItem) : bool :=
  match el with
  | ItemNull => false
  | ItemElement _ c =>
      if isType "radio" c || isType "checkbox" c then el_checked c
      else Str.truthy (el_value c)
  | ItemList l => Str.truthy (radioNodeListValue l)
  end.

(** The telephone number and the tax id in the form the page shows them. *)
Definition formatPrefill (fieldName : jsstring) (value : JValue) : JValue :=
  match value with
  | JStr s =>
      if bool_decide (fieldName = js "q3b_telephone") then
        JStr (formatPhone s)
      else if bool_decide (fieldName = js "q3f_ssn") then JStr (formatSsn s)
      else value
  | _ => value
  end.

(** A string for a text-like control goes to upper case; the type is read
    off the first element, which a list without elements does not have. *)
Definition upperCasePrefill (element : NamedItem) (value : JValue)
  : Result JValue :=
  match value with
  | JStr s =>
      match firstElement element with
      | Some (_, inputEl) =>
          Ok (if isTextLike inputEl then JStr (Str.toUpperCase s) else value)
      | None => Throw TypeError
      end
  | _ => Ok value
  end.

(** [prefillData]: its own properties, and the enumerable properties it
    inherits, which it has none of until an assignment to [__proto__] gives
    it an array or an object as prototype. *)
Abbreviation PrefillData := (Obj * Obj)%type.

(** [prefillData[fieldName] = value] *)
Definition assignPrefill (fieldName : jsstring) (value : JValue)
    (prefillData : PrefillData) : PrefillData :=
  if bool_decide (fieldName = js "__proto__") then
    match value with
    | JArr l =>
        (prefillData.1, imap (λ i v, (Str.ofN (N.of_nat i), v)) l)
    | JObj l => (prefillData.1, l)
    | JNull => (prefillData.1, [])
    | _ => prefillData
    end
  else (Object.set fieldName value prefillData.1, prefillData.2).

(** What [for (const key in prefillData)] goes through: the own properties,
    then the inherited ones that no own property hides. *)
Definition forIn (prefillData : PrefillData) : Obj :=
  prefillData.1
  ++ filter (λ kv : jsstring * JValue, kv.1 ∉ prefillData.1.*1) prefillData.2.

(** One turn of the loop over the configuration. *)
Definition prefillField (elements : list Control) (prefillData : PrefillData)
    (entry : jsstring * option PrefillFieldConfig) : Result PrefillData :=
  match entry.2 with
  | None => Ok prefillData
  | Some fieldConfig =>
      match namedItem elements entry.1 with
      | ItemNull => Ok prefillData
      | element =>
          if hasValueFromHash element then Ok prefillData
          else
            value ← upperCasePrefill element
                      (formatPrefill entry.1 (prefill_value fieldConfig));
            Ok (assignPrefill entry.1 value prefillData)
      end
  end.

Fixpoint prefillLoop (elements : list Control) (entries : PrefillConfig)
    (prefillData : PrefillData) : Result PrefillData :=
  match entries with
  | [] => Ok prefillData
  | entry :: entries' =>
      prefillData' ← prefillField elements prefillData entry;
      prefillLoop elements entries' prefillData'
  end.

(** [applyPrefillConfig()]: the state it leaves, and the exception it throws
    if it does. *)
Definition applyPrefillConfig (autopen : Autopen)
    (config : option PrefillConfig) (st : FormState)
  : FormState * option Exn :=
  match config with
  | None => (st, None)
  | Some entries =>
      match prefillLoop (controls st) entries ([], []) with
      | Throw e => (st, Some e)
      | Ok prefillData =>
          if bool_decide (Object.keys prefillData.1 = []) then (st, None)
          else deserializeForm autopen (forIn prefillData) st
      end
  end.

(** A configured field names a control by its id or by its name. *)
Definition namedBy (k : jsstring) (c : Control) : Prop :=
  el_id c = k ∨ el_name c = k.

(** Two radio buttons of one group: checking one unchecks the other. *)
Definition sameGroup (c c' : Control) : Prop :=
  isType "radio" c = true ∧ isType "radio" c' = true
  ∧ el_name c = el_name c'.

(** The states of the document [els] in which the control at place [i] is
    still [c]. *)
Definition stillThere (els : list Control) (i : nat) (c : Control)
    (e : list Control) : Prop :=
  Forall2 sameElement els e ∧ e !! i = Some c.

(** A configured field concerns a control when it names it, or names a radio
    button of its group. *)
Definition concerns (k : jsstring) (els : list Control) (c : Control)
  : Prop :=
  namedBy k c ∨ ∃ c', c' ∈ els ∧ namedBy k c' ∧ sameGroup c' c.

(** A page loaded with a name in its fragment and no telephone number. *)
Definition loadedForm : list Control :=
  [ input "q2_fullName" "q2_fullName" "text" "DOE FAMILY TRUST" false;
    input "q3b_telephone" "q3b_telephone" "tel" "" false;
    input "q1_form1" "q1_formType" "radio" "ATF FORM 1" false;
    input "q1_form4" "q1_formType" "radio" "ATF FORM 4" false ].

Definition loadedState : FormState :=
  {| controls := loadedForm; manager := None |}.

(** A configuration that suggests a name, a telephone number and a form. *)
Definition suggestions : PrefillConfig :=
  [ (js "q2_fullName",
     Some {| prefill_value := JStr (js "Acme Trust");
             prefill_readonly := false |});
    (js "q3b_telephone",
     Some {| prefill_value := JStr (js "555-123-4567 ext");
             prefill_readonly := false |});
    (js "q1_formType",
     Some {| prefill_value := JStr (js "ATF FORM 4");
             prefill_readonly := true |}) ].

(** A page loaded with the box of another citizenship ticked, and a
    configuration that suggests the first box. *)
Definition citizenshipForm : list Control :=
  [ input "q9a_usa" "q9a_citizenship" "checkbox" "USA" false;
    input "q9a_other" "q9a_citizenship" "checkbox" "OTHER" true ].

Definition citizenshipState : FormState :=
  {| controls := citizenshipForm; manager := None |}.

Definition citizenshipConfig : PrefillConfig :=
  [ (js "q9a_citizenship",
     Some {| prefill_value := JArr [JStr (js "USA")];
             prefill_readonly := false |}) ].

(** ** Prefill: the locks *)

(** [el.disabled = true; el.classList.add("prefill-locked")] *)
Definition lock (c : Control) : Control :=
  classList_add (js "prefill-locked") (withDisabled true c).

(** The places in [form.elements] of the elements of a named item. *)
Definition itemPlaces (item : NamedItem) : list nat :=
  match item with
  | ItemNull => []
  | ItemElement i _ => [i]
  | ItemList l => l.*1
  end.

(** [elementList.forEach(...)]: each element is locked, then given its lock
    indicator.  The indicator goes into the document around the controls,
    [D] here, by [addIndicator], which leaves the controls alone and throws
    where the selector it builds from the id of the element is malformed. *)
Fixpoint lockEach {D} (addIndicator : Control -> D -> D * option Exn)
    (l : list nat) (st : list Control * D) : (list Control * D) * option Exn :=
  match l with
  | [] => (st, None)
  | i :: l' =>
      let els := alter lock i st.1 in
      match els !! i with
      | None => lockEach addIndicator l' (els, st.2)
      | Some el =>
          match addIndicator el st.2 with
          | (d, None) => lockEach addIndicator l' (els, d)
          | (d, Some e) => ((els, d), Some e)
          end
      end
  end.

Fixpoint lockFields {D} (addIndicator : Control -> D -> D * option Exn)
    (entries : PrefillConfig) (st : list Control * D)
  : (list Control * D) * option Exn :=
  match entries with
  | [] => (st, None)
  | (fieldName, fieldConfig) :: entries' =>
      match fieldConfig with
      | Some fc =>
          if prefill_readonly fc then
            match lockEach addIndicator
                    (itemPlaces (namedItem st.1 fieldName)) st with
            | (st', None) => lockFields addIndicator entries' st'
            | thrown => thrown
            end
          else lockFields addIndicator entries' st
      | None => lockFields addIndicator entries' st
      end
  end.

(** [applyReadonlyLocks()]: the document it leaves, and the exception it
    throws if it does. *)
Definition applyReadonlyLocks {D}
    (addIndicator : Control -> D -> D * option Exn)
    (config : option PrefillConfig) (st : list Control * D)
  : (list Control * D) * option Exn :=
  match config with
  | None => (st, None)
  | Some entries => lockFields addIndicator entries st
  end.

(** [window.PREFILL_CONFIG[name]], for a name that no object inherits. *)
Definition configOf (entries : PrefillConfig) (name : jsstring)
  : option PrefillFieldConfig :=
  match list_find (λ entry : jsstring * option PrefillFieldConfig,
                     entry.1 = name) entries with
  | Some (_, entry) => entry.2
  | None => None
  end.

Definition otherFieldMap : list (string * string) :=
  [ ("q4a_firearmType", "q4a_firearmType_other");
    ("q9a_citizenship", "q9a_citizenship_other");
    ("q9c_birthCountry", "q9c_birthCountry_other") ]%string.

(** [elementList.some(el => el.checked && el.value === "OTHER")] *)
Definition otherSelected (item : NamedItem) : bool :=
  existsb (λ c, el_checked c && bool_decide (el_value c = js "OTHER"))
          (itemControls item).

(** One turn of the loop over [otherFieldMap]. *)
Definition lockOther (entries : PrefillConfig) (els : list Control)
    (fields : string * string) : list Control :=
  match configOf entries (js fields.1) with
  | Some parentConfig =>
      if prefill_readonly parentConfig then
        match namedItem els (js fields.1), getElementById els (js fields.2)
        with
        | ItemNull, _ => els
        | _, None => els
        | parentElement, Some (j, _) =>
            if otherSelected parentElement then alter lock j els else els
        end
      else els
  | None => els
  end.

(** [lockRelatedOtherFields()] *)
Definition lockRelatedOtherFields (config : option PrefillConfig)
    (els : list Control) : list Control :=
  match config with
  | None => els
  | Some entries => foldl (lockOther entries) els otherFieldMap
  end.

(** A control as it was, or locked. *)
Definition lockedFrom (c c' : Control) : Prop := c' = c ∨ c' = lock c.

(** A document around the controls that takes every indicator. *)
Definition plainIndicators (c : Control) (d : list jsstring)
  : list jsstring * option Exn :=
  (d ++ [el_id c], None).

(** The page of [loadedForm] once its suggestions are applied. *)
Definition prefilledForm : list Control :=
  controls (applyPrefillConfig noSignatures (Some suggestions) loadedState).1.

(** A form with another type of firearm chosen and named. *)
Definition otherFirearmForm : list Control :=
  [ input "q4a_sbr" "q4a_firearmType" "radio" "SHORT BARRELED RIFLE" false;
    input "q4a_other" "q4a_firearmType" "radio" "OTHER" true;
    input "q4a_firearmType_other" "q4a_firearmType_other" "text" "PEN GUN"
          false ].

Definition otherFirearmConfig : PrefillConfig :=
  [ (js "q4a_firearmType",
     Some {| prefill_value := JStr (js "OTHER"); prefill_readonly := true |}) ].

(** * Properties *)

(** ** Sanity checks of the embedding *)

Example js_literal : js "NO" = [78; 79].
Proof. reflexivity. Qed.

Example toUpperCase_sample :
  Str.toUpperCase (js "123 Main St") = js "123 MAIN ST".
Proof. reflexivity. Qed.

Example ofN_sample : Str.ofN 2026 = js "2026" /\ Str.ofN 0 = js "0".
Proof. split; reflexivity. Qed.

Example split_sample :
  Str.split 10 [65; 10; 66; 10] = [[65]; [66]; []].
Proof. reflexivity. Qed.

Example toStringJS_sample :
  toStringJS (JArr [JStr (js "A"); JNull; JNum (-12)]) = Ok (js "A,,-12").
Proof. reflexivity. Qed.

Example getTodayYYYYMMDD_sample :
  getTodayYYYYMMDD {| getFullYear := 2026; getMonth := 2; getDate := 7 |}
  = js "2026-03-07".
Proof. reflexivity. Qed.

Example serializeForm_fresh :
  serializeForm false (pageOf freshForm) = Ok []
  /\ serializeForm true (pageOf freshForm)
     = Ok [(js "q3a_sameAs2", JBool true)].
Proof. split; vm_compute; reflexivity. Qed.

Example stringify_sample :
  JSON.stringify (JObj [(js "a", JStr [34; 10; 955]);
                        (js "b", JArr [JStr (js "X"); JBool true; JNum (-7)])])
  = jsq "{'a':'\'\n" ++ [955] ++ jsq "','b':['X',true,-7]}".
Proof. vm_compute. reflexivity. Qed.

Example parse_sample :
  JSON.parse (jsq " { 'a' : 'A\n' , 'b':[ 'X' ,[], {}, -7 ] } ")
  = Ok (JObj [(js "a", JStr [65; 10]);
              (js "b", JArr [JStr (js "X"); JArr []; JObj []; JNum (-7)])]).
Proof. vm_compute. reflexivity. Qed.

Example parse_rejects :
  JSON.parse (jsq "{'a':1,}") = Throw SyntaxError
  /\ JSON.parse (js "[1 2]") = Throw SyntaxError
  /\ JSON.parse (js "") = Throw SyntaxError.
Proof. repeat split; vm_compute; reflexivity. Qed.

Example btoa_sample :
  Base64.btoa (js "{}") = Ok (js "e30=")
  /\ Base64.btoa (js "hello") = Ok (js "aGVsbG8=")
  /\ Base64.atob (js "aGVsbG8") = Ok (js "hello")
  /\ Base64.atob (js "aGVsb") = Throw InvalidCharacterError.
Proof. repeat split; vm_compute; reflexivity. Qed.

Example encodeFragment_sample :
  encodeFragment [(js "q2_fullName", JStr (js "J?>"))]
  = Ok (js "eyJxMl9mdWxsTmFtZSI6Iko_PiJ9")
  /\ decodeFragment (js "#eyJxMl9mdWxsTmFtZSI6Iko_PiJ9")
     = Ok (JObj [(js "q2_fullName", JStr (js "J?>"))]).
Proof. split; vm_compute; reflexivity. Qed.

(** ** Objects *)

Lemma Object_get_set (k k' : jsstring) (v : JValue) (o : Obj) :
  Object.get k (Object.set k' v o)
  = if decide (k = k') then Some v else Object.get k o.
Proof.
  induction o as [|[k0 v0] o IH]; simpl.
  - destruct (decide (k = k')); reflexivity.
  - destruct (decide (k' = k0)) as [->|Hne]; simpl.
    + destruct (decide (k = k0)); reflexivity.
    + destruct (decide (k = k0)) as [->|Hne'].
      * destruct (decide (k0 = k')); congruence.
      * exact IH.
Qed.

Lemma Object_get_set_eq (k : jsstring) (v : JValue) (o : Obj) :
  Object.get k (Object.set k v o) = Some v.
Proof. rewrite Object_get_set. destruct (decide (k = k)); congruence. Qed.

Lemma Object_get_set_ne (k k' : jsstring) (v : JValue) (o : Obj) :
  k ≠ k' -> Object.get k (Object.set k' v o) = Object.get k o.
Proof. intros. rewrite Object_get_set. destruct (decide (k = k')); congruence. Qed.

(** ** Upper case *)






Lemma toUpperCase_truthy (s : jsstring) :
  Str.truthy (Str.toUpperCase s) = Str.truthy s.
Proof.
  destruct s as [|c s]; [reflexivity|].
  change (Str.toUpperCase (c :: s)) with (Str.upperUnit c ++ Str.toUpperCase s).
  unfold Str.upperUnit.
  repeat match goal with
         | |- context [if ?b then _ else _] => destruct b
         end; reflexivity.
Qed.

(** ** The snapshot serializer *)

(** A turn of the loop writes no key but the name of its control. *)
Lemma serializeControl_get_other includeDefaults todayString elements
    data processed el (k : jsstring) :
  el_name el ≠ k ->
  Object.get k
    (serializeControl includeDefaults todayString elements (data, processed) el).1
  = Object.get k data.
Proof.
  intros Hne. unfold serializeControl.
  repeat case_match; simpl; try reflexivity;
    rewrite Object_get_set_ne by congruence; reflexivity.
Qed.

Lemma addSignature_get_other manager data (k : jsstring) :
  k ≠ js "signature" ->
  Object.get k (addSignature manager data) = Object.get k data.
Proof.
  intros Hne. unfold addSignature.
  repeat case_match; try reflexivity.
  apply Object_get_set_ne. exact Hne.
Qed.

(** A date control named [certificationDate] that holds today's date writes
    nothing, whatever the flag. *)
Lemma serializeControl_certificationDate_today includeDefaults elements
    data processed todayString el :
  isType "date" el = true ->
  el_name el = js "certificationDate" ->
  el_value el = todayString ->
  serializeControl includeDefaults todayString elements (data, processed) el
  = (data, processed).
Proof.
  intros Hty Hname Hval. unfold serializeControl.
  assert (Hc : isType "checkbox" el = false).
  { unfold isType in *. apply bool_decide_eq_true in Hty.
    apply bool_decide_eq_false. rewrite Hty. discriminate. }
  assert (Hr : isType "radio" el = false).
  { unfold isType in *. apply bool_decide_eq_true in Hty.
    apply bool_decide_eq_false. rewrite Hty. discriminate. }
  assert (Ht : isType "text" el = false).
  { unfold isType in *. apply bool_decide_eq_true in Hty.
    apply bool_decide_eq_false. rewrite Hty. discriminate. }
  assert (He : isType "email" el = false).
  { unfold isType in *. apply bool_decide_eq_true in Hty.
    apply bool_decide_eq_false. rewrite Hty. discriminate. }
  assert (Hl : isType "tel" el = false).
  { unfold isType in *. apply bool_decide_eq_true in Hty.
    apply bool_decide_eq_false. rewrite Hty. discriminate. }
  rewrite Hc, Hr, Ht, He, Hl, Hty. simpl.
  rewrite (bool_decide_eq_true_2 _ Hname).
  rewrite (bool_decide_eq_true_2 _ Hval).
  rewrite andb_false_r.
  destruct (negb (Str.truthy (el_name el)) || el_disabled el); reflexivity.
Qed.

Lemma serializeLoop_certificationDate_absent includeDefaults todayString
    elements (els : list Control) data processed :
  Forall (λ el, el_name el = js "certificationDate" ->
                isType "date" el = true ∧ el_value el = todayString) els ->
  Object.get (js "certificationDate") data = None ->
  Object.get (js "certificationDate")
    (foldl (serializeControl includeDefaults todayString elements)
           (data, processed) els).1 = None.
Proof.
  intros Hall. revert data processed.
  induction Hall as [|el els Hel _ IH]; intros data processed Hget;
    cbn [foldl].
  - exact Hget.
  - destruct (decide (el_name el = js "certificationDate")) as [Hname|Hname].
    + destruct (Hel Hname) as [Hty Hval].
      rewrite serializeControl_certificationDate_today by assumption.
      apply IH, Hget.
    + pose proof (serializeControl_get_other includeDefaults todayString
                    elements data processed el _ Hname) as Hother.
      destruct (serializeControl includeDefaults todayString elements
                  (data, processed) el) as [data' processed'].
      apply IH. simpl in Hother. rewrite Hother. exact Hget.
Qed.

(** ** Lookups in the document *)

Lemma filter_imap_Forall2 (Q : Control -> Prop) `{!∀ c, Decision (Q c)}
    (R : Control -> Control -> Prop) (els els' : list Control)
    (f : nat -> nat) :
  (∀ c c', R c c' -> (Q c <-> Q c')) ->
  Forall2 R els els' ->
  Forall2 (λ p p' : nat * Control, p.1 = p'.1 ∧ R p.2 p'.2)
    (filter (λ p : nat * Control, Q p.2) (imap (λ i c, (f i, c)) els))
    (filter (λ p : nat * Control, Q p.2) (imap (λ i c, (f i, c)) els')).
Proof.
  intros HQ Hall. revert f.
  induction Hall as [|c c' els els' Hc _ IH]; intros f; [constructor|].
  rewrite !imap_cons, !filter_cons. simpl.
  specialize (IH (f ∘ S)).
  destruct (decide (Q c)) as [Hq|Hq], (decide (Q c')) as [Hq'|Hq'];
    try (exfalso; apply (HQ _ _ Hc) in Hq; contradiction);
    try (exfalso; apply (HQ _ _ Hc) in Hq'; contradiction).
  - constructor; [split; [reflexivity|exact Hc]|exact IH].
  - exact IH.
Qed.

Lemma namedItem_rel (R : Control -> Control -> Prop) (els els' : list Control)
    (key : jsstring) :
  (∀ c c', R c c' -> el_id c = el_id c' ∧ el_name c = el_name c') ->
  Forall2 R els els' ->
  itemRel R (namedItem els key) (namedItem els' key).
Proof.
  intros HR Hall. unfold namedItem.
  destruct (Str.truthy key); [|constructor].
  assert (Hiff : ∀ c c', R c c' ->
            (el_id c = key ∨ el_name c = key)
            <-> (el_id c' = key ∨ el_name c' = key)).
  { intros c c' Hc. destruct (HR _ _ Hc) as [-> ->]. reflexivity. }
  assert (H : Forall2 (λ p p' : nat * Control, p.1 = p'.1 ∧ R p.2 p'.2)
                (filter (λ p : nat * Control, el_id p.2 = key ∨ el_name p.2 = key)
                        (imap pair els))
                (filter (λ p : nat * Control, el_id p.2 = key ∨ el_name p.2 = key)
                        (imap pair els'))).
  { exact (filter_imap_Forall2
             (λ c, el_id c = key ∨ el_name c = key) R els els' id Hiff Hall). }
  revert H.
  generalize (filter (λ p : nat * Control, el_id p.2 = key ∨ el_name p.2 = key)
                     (imap pair els)).
  generalize (filter (λ p : nat * Control, el_id p.2 = key ∨ el_name p.2 = key)
                     (imap pair els')).
  intros l' l H.
  destruct H as [|[i c] [i' c'] l l' [Hi Hc] Hl]; [constructor|].
  simpl in Hi, Hc. subst i'.
  destruct Hl as [|p p' l l' Hp Hl].
  - constructor. exact Hc.
  - constructor. constructor; [split; [reflexivity|exact Hc]|].
    constructor; assumption.
Qed.

Lemma getElementById_rel (R : Control -> Control -> Prop)
    (els els' : list Control) (id : jsstring) :
  (∀ c c', R c c' -> el_id c = el_id c') ->
  Forall2 R els els' ->
  option_Forall2 (λ p p' : nat * Control, p.1 = p'.1 ∧ R p.2 p'.2)
    (getElementById els id) (getElementById els' id).
Proof.
  intros HR Hall. unfold getElementById.
  induction Hall as [|c c' els els' Hc _ IH]; [constructor|].
  simpl. rewrite <- (HR _ _ Hc).
  destruct (decide (el_id c = id)).
  - constructor. split; [reflexivity|exact Hc].
  - destruct IH as [[i x] [i' x'] [Hi Hx]|]; constructor.
    simpl in *. split; [congruence|exact Hx].
Qed.

Lemma namedItem_lookup (els : list Control) (key : jsstring) :
  match namedItem els key with
  | ItemNull => True
  | ItemElement i c => els !! i = Some c
  | ItemList l => Forall (λ p : nat * Control, els !! p.1 = Some p.2) l
  end.
Proof.
  unfold namedItem. destruct (Str.truthy key); [|exact I].
  set (P := λ p : nat * Control, el_id p.2 = key ∨ el_name p.2 = key).
  assert (H : Forall (λ p : nat * Control, els !! p.1 = Some p.2)
                     (filter P (imap pair els))).
  { apply list.Forall_forall. intros [i c] Hin.
    apply list_elem_of_filter in Hin as [_ Hin].
    apply elem_of_lookup_imap in Hin as (j & x & Heq & Hx).
    inversion Heq; subst. exact Hx. }
  destruct (filter P (imap pair els)) as [|[i c] [|p l]]; [exact I| |exact H].
  inversion H; subst. assumption.
Qed.

Lemma Forall2_diag_refl {A} (R : A -> A -> Prop) (l : list A) :
  (∀ x, R x x) -> Forall2 R l l.
Proof. intros HR. induction l; constructor; auto. Qed.

(** ** Validation *)

Lemma ruleFor_accepts_empty (d : DateEnv) (name : jsstring) :
  match ruleFor d name with
  | Some r => check r [] = true
  | None => True
  end.
Proof.
  unfold ruleFor, validations. cbn [List.find fst snd].
  repeat (case_bool_decide; [reflexivity|]). exact I.
Qed.

Lemma sameButClasses_refl (c : Control) : sameButClasses c c.
Proof. repeat split; auto. Qed.

Lemma sameButClasses_trans (a b c : Control) :
  sameButClasses a b -> sameButClasses b c -> sameButClasses a c.
Proof.
  intros (?&?&?&?) (?&?&?&?). repeat split; try congruence. auto.
Qed.

Lemma classList_remove_spec (cls : jsstring) (c : Control) :
  cls ∉ el_classList (classList_remove cls c).
Proof.
  unfold classList_remove. simpl. intros Hin.
  apply list_elem_of_filter in Hin as [Hne _]. congruence.
Qed.

(** A field without a value is found valid, and its marker is taken off. *)
Lemma validateField_empty (d : DateEnv) (st : ValidationState) (name : jsstring) :
  emptyOrMissing (fields st) name ->
  ∃ st', validateField d (namedItem (fields st) name) st = Ok (true, st')
         ∧ Forall2 sameButClasses (fields st) (fields st')
         ∧ notFlagged (fields st') name.
Proof.
  unfold emptyOrMissing. intros Hempty.
  pose proof (namedItem_lookup (fields st) name) as Hlook.
  destruct (namedItem (fields st) name) as [|i el|l] eqn:Hitem; [| |contradiction].
  - exists st. split; [reflexivity|]. split.
    + apply Forall2_diag_refl, sameButClasses_refl.
    + unfold notFlagged. rewrite Hitem. discriminate.
  - simpl. pose proof (ruleFor_accepts_empty d (el_name el)) as Hrule.
    rewrite Hempty.
    assert (Hvalid : match ruleFor d (el_name el) with
                     | Some r => check r []
                     | None => true
                     end = true)
      by (destruct (ruleFor d (el_name el)); auto).
    rewrite Hvalid. eexists. split; [reflexivity|]. simpl.
    assert (Hrel : Forall2 sameButClasses (fields st)
              (alter (classList_remove (js "invalid-field")) i (fields st))).
    { apply Forall2_alter_r; [apply Forall2_diag_refl, sameButClasses_refl|].
      intros x y _ _ (?&?&?&?). repeat split; try assumption.
      intros _. apply classList_remove_spec. }
    split; [exact Hrel|].
    intros j c Hj.
    pose proof (namedItem_rel sameButClasses _ _ name
                  (λ c c' H, conj (proj1 H) (proj1 (proj2 H))) Hrel) as Hir.
    rewrite Hitem, Hj in Hir. inversion Hir; subst.
    pose proof (namedItem_lookup
                  (alter (classList_remove (js "invalid-field")) j (fields st))
                  name) as Hlook'.
    rewrite Hj in Hlook'.
    rewrite list_lookup_alter_eq, Hlook in Hlook'. simpl in Hlook'.
    inversion Hlook'; subst. apply classList_remove_spec.
Qed.

Lemma notFlagged_preserved (els els' : list Control) (name : jsstring) :
  Forall2 sameButClasses els els' ->
  notFlagged els name -> notFlagged els' name.
Proof.
  intros Hrel Hflag i c' Hitem.
  pose proof (namedItem_rel sameButClasses _ _ name
                (λ c c' H, conj (proj1 H) (proj1 (proj2 H))) Hrel) as Hir.
  rewrite Hitem in Hir. inversion Hir as [|j c0 c1 Hc Heq|]; subst.
  destruct Hc as (_&_&_&Hcls). apply Hcls. eapply Hflag. symmetry. eassumption.
Qed.

Lemma emptyOrMissing_preserved (els els' : list Control) (name : jsstring) :
  Forall2 sameButClasses els els' ->
  emptyOrMissing els name -> emptyOrMissing els' name.
Proof.
  intros Hrel. unfold emptyOrMissing.
  pose proof (namedItem_rel sameButClasses _ _ name
                (λ c c' H, conj (proj1 H) (proj1 (proj2 H))) Hrel) as Hir.
  inversion Hir as [|j c0 c1 Hc|]; subst; auto.
  destruct Hc as (_&_&Hv&_). congruence.
Qed.

Lemma Forall2_compose (l1 l2 l3 : list Control) :
  Forall2 sameButClasses l1 l2 -> Forall2 sameButClasses l2 l3 ->
  Forall2 sameButClasses l1 l3.
Proof.
  intros H12. revert l3.
  induction H12; intros l3 H23; inversion H23; subst; constructor;
    eauto using sameButClasses_trans.
Qed.

Lemma validateAll_empty (d : DateEnv) (names : list jsstring) :
  ∀ (allValid : bool) (st : ValidationState),
    Forall (emptyOrMissing (fields st)) names ->
    ∃ st', validateAll d names allValid st = Ok (allValid, st')
           ∧ Forall2 sameButClasses (fields st) (fields st')
           ∧ Forall (notFlagged (fields st')) names.
Proof.
  induction names as [|name names IH]; intros allValid st Hall.
  - exists st. repeat split; [apply Forall2_diag_refl, sameButClasses_refl|constructor].
  - inversion Hall as [|? ? Hname Hnames]; subst.
    destruct (validateField_empty d st name Hname) as (st1 & Hv & Hrel & Hflag).
    destruct (IH allValid st1) as (st' & Hrest & Hrel' & Hflags).
    { eapply list.Forall_impl; [exact Hnames|].
      intros n. apply emptyOrMissing_preserved, Hrel. }
    exists st'. split.
    + cbn [validateAll]. rewrite Hv. simpl. rewrite andb_true_r. exact Hrest.
    + split.
      * eapply Forall2_compose; eassumption.
      * constructor; [|exact Hflags].
        eapply notFlagged_preserved; eassumption.
Qed.

(** ** Formatting on blur *)

Lemma upperUnit_digit (c : N) :
  Str.isDigit c = true -> Str.upperUnit c = [c].
Proof.
  unfold Str.isDigit, Str.upperUnit. intros H.
  apply andb_true_iff in H as [H1 H2].
  apply N.leb_le in H1, H2.
  repeat match goal with
         | |- context [?a <=? ?b] => destruct (N.leb_spec a b); try lia
         | |- context [?a =? ?b] => destruct (N.eqb_spec a b); try lia
         end; reflexivity.
Qed.

Lemma toUpperCase_fixed (s : jsstring) :
  Forall (λ c, Str.upperUnit c = [c]) s -> Str.toUpperCase s = s.
Proof.
  induction 1 as [|c s Hc _ IH]; [reflexivity|].
  change (Str.toUpperCase (c :: s)) with (Str.upperUnit c ++ Str.toUpperCase s).
  rewrite Hc, IH. reflexivity.
Qed.

Lemma filter_isDigit_Forall (s : jsstring) :
  Forall (λ c, Str.isDigit c = true) (List.filter Str.isDigit s).
Proof.
  apply list.Forall_forall. intros c Hin.
  apply list_elem_of_In, filter_In in Hin. tauto.
Qed.

Lemma getElementById_lookup (els : list Control) (id : jsstring) (i : nat)
    (c : Control) :
  getElementById els id = Some (i, c) -> els !! i = Some c ∧ el_id c = id.
Proof.
  unfold getElementById. intros H.
  apply list_find_Some in H as (Hl & Hid & _). auto.
Qed.

Lemma setValue_lookup (i : nat) (v : jsstring) (els : list Control)
    (c : Control) :
  els !! i = Some c -> setValue i v els !! i = Some (withValue v c).
Proof.
  intros H. unfold setValue. rewrite list_lookup_alter_eq, H. reflexivity.
Qed.

(** Normalizing a value that upper case leaves alone changes nothing. *)
Lemma normalizeToUppercase_fixed (i : nat) (els : list Control) (c : Control) :
  els !! i = Some c ->
  Str.toUpperCase (el_value c) = el_value c ->
  normalizeToUppercase i els = (els, None).
Proof.
  intros Hl Hup. unfold normalizeToUppercase. rewrite Hl.
  destruct (isTextLike c); [|reflexivity].
  rewrite Hup. rewrite bool_decide_eq_false_2 by auto. reflexivity.
Qed.

(** ** Upper case in the serializer *)




(** ** Upper case in the deserializer *)



Lemma firstElement_lookup (els : list Control) (key : jsstring) (i : nat)
    (el : Control) :
  firstElement (namedItem els key) = Some (i, el) -> els !! i = Some el.
Proof.
  pose proof (namedItem_lookup els key) as H.
  destruct (namedItem els key) as [|j c|l]; simpl; [discriminate| |].
  - intros [= -> ->]. exact H.
  - destruct l as [|[j c] l]; [discriminate|]. intros [= -> ->].
    inversion H; subst. assumption.
Qed.

(** ** What the handlers keep *)

Section Keeps.
Context (R : Control -> Control -> Prop) `{!PreOrder R}.

Lemma Forall2_keep_refl (els : list Control) : Forall2 R els els.
Proof. apply Forall2_diag_refl. intros x. reflexivity. Qed.

Lemma Forall2_keep_trans (l1 l2 l3 : list Control) :
  Forall2 R l1 l2 -> Forall2 R l2 l3 -> Forall2 R l1 l3.
Proof.
  intros H12. revert l3.
  induction H12; intros l3 H23; inversion H23; subst; constructor; eauto.
  etransitivity; eassumption.
Qed.

Lemma alter_keeps (f : Control -> Control) (i : nat) (els : list Control) :
  (∀ c, R c (f c)) -> Forall2 R els (alter f i els).
Proof.
  intros Hf. apply Forall2_alter_r; [apply Forall2_keep_refl|].
  intros x y _ _ Hxy. etransitivity; [exact Hxy|apply Hf].
Qed.

Lemma imap_keeps (g : nat -> Control -> Control) (els : list Control) :
  (∀ j c, R c (g j c)) -> Forall2 R els (imap g els).
Proof.
  intros Hg. revert g Hg.
  induction els as [|c els IH]; intros g Hg; [constructor|].
  rewrite imap_cons. constructor; [apply Hg|].
  apply IH. intros j c'. apply Hg.
Qed.

Lemma keeps_skip : keeps R skip.
Proof. intros els. apply Forall2_keep_refl. Qed.

Lemma keeps_throw (e : Exn) : keeps R (throw e).
Proof. intros els. apply Forall2_keep_refl. Qed.

Lemma keeps_andThen (f g : Step) :
  keeps R f -> keeps R g -> keeps R (f >> g).
Proof.
  intros Hf Hg els. unfold andThen. specialize (Hf els).
  destruct (f els) as [els' [e|]]; [exact Hf|].
  eapply Forall2_keep_trans; [exact Hf|apply Hg].
Qed.

Lemma keeps_listener (h : Step) : keeps R h -> keeps R (listener h).
Proof. intros Hh els. apply Hh. Qed.

Lemma keeps_when (b : list Control -> bool) (h : Step) :
  keeps R h -> keeps R (when b h).
Proof.
  intros Hh els. unfold when. destruct (b els); [apply Hh|].
  apply Forall2_keep_refl.
Qed.

Lemma keeps_withElement (id : string) (k : nat -> Control -> Step) :
  (∀ i c, keeps R (k i c)) -> keeps R (withElement id k).
Proof.
  intros Hk els. unfold withElement.
  destruct (getElementById els (js id)) as [[i c]|]; [apply Hk|].
  apply Forall2_keep_refl.
Qed.

Lemma keeps_forEachStep (f : nat -> Step) (l : list nat) :
  (∀ i, keeps R (f i)) -> keeps R (forEachStep f l).
Proof.
  intros Hf. induction l as [|i l IH]; [apply keeps_skip|].
  apply keeps_andThen; [apply Hf|exact IH].
Qed.

Lemma keeps_forEachNamed (name : string) (f : nat -> Step) :
  (∀ i, keeps R (f i)) -> keeps R (forEachNamed name f).
Proof.
  intros Hf els. unfold forEachNamed.
  destruct (namedItem els (js name)); try apply Forall2_keep_refl.
  apply keeps_forEachStep, Hf.
Qed.

Lemma keeps_update (f : list Control -> list Control) :
  (∀ els, Forall2 R els (f els)) -> keeps R (update f).
Proof. intros Hf els. apply Hf. Qed.

Lemma setValue_keeps (i : nat) (v : jsstring) (els : list Control) :
  (∀ c, R c (withValue v c)) -> Forall2 R els (setValue i v els).
Proof. intros H. apply alter_keeps, H. Qed.

Lemma setDisabled_keeps (i : nat) (b : bool) (els : list Control) :
  (∀ c, R c (withDisabled b c)) -> Forall2 R els (setDisabled i b els).
Proof. intros H. apply alter_keeps, H. Qed.

Lemma setChecked_keeps (i : nat) (b : bool) (els : list Control) :
  (∀ b' c, R c (withChecked b' c)) -> Forall2 R els (setChecked i b els).
Proof.
  intros H. unfold setChecked.
  destruct (els !! i) as [el|]; [|apply Forall2_keep_refl].
  destruct (b && isType "radio" el && Str.truthy (el_name el)).
  - apply imap_keeps. intros j c. repeat case_match; try apply H. reflexivity.
  - apply alter_keeps, H.
Qed.

End Keeps.

#[global] Instance sameElement_preorder : PreOrder sameElement.
Proof.
  split.
  - intros c. repeat split.
  - intros a b c (?&?&?&?&?) (?&?&?&?&?). repeat split; congruence.
Qed.

Lemma sameElement_withValue v c : sameElement c (withValue v c).
Proof. repeat split. Qed.

Lemma sameElement_withChecked b c : sameElement c (withChecked b c).
Proof. repeat split. Qed.

Lemma sameElement_withDisabled b c : sameElement c (withDisabled b c).
Proof. repeat split. Qed.

(** ** The deserializer does not throw on applicable values *)



Lemma setChecked_sameElement i b els :
  Forall2 sameElement els (setChecked i b els).
Proof. apply setChecked_keeps; [apply _|apply sameElement_withChecked]. Qed.

Lemma setValue_sameElement i v els :
  Forall2 sameElement els (setValue i v els).
Proof. apply setValue_keeps; [apply _|apply sameElement_withValue]. Qed.

Lemma setDisabled_sameElement i b els :
  Forall2 sameElement els (setDisabled i b els).
Proof. apply setDisabled_keeps; [apply _|apply sameElement_withDisabled]. Qed.

Lemma assignValue_Ok (i : nat) (el : Control) (value : JValue)
    (els els' : list Control) :
  assignValue i el value els = Ok els' ->
  ∃ s, els' = setValue i (sanitize el s) els
       ∧ match value with JNull => s = [] | _ => toStringJS value = Ok s end.
Proof.
  unfold assignValue.
  destruct (match value with JNull => Ok [] | _ => toStringJS value end)
    as [s|e] eqn:Hs; [|discriminate].
  unfold mbind, Result_bind.
  destruct (isType "file" el && Str.truthy s); [discriminate|].
  intros [= <-]. exists s. split; [reflexivity|].
  destruct value; try exact Hs. injection Hs as <-. reflexivity.
Qed.







Lemma coercible_primitive (value : JValue) :
  match value with
  | JArr _ | JObj _ => True
  | _ => coercible value
  end.
Proof. destruct value as [|[]| | | |]; try exact I; eexists; reflexivity. Qed.

(** ** Saving to the hash *)

(** The address is only ever replaced: the entries behind the current one
    stay what they were. *)
Lemma saveStateToHash_replaces (page : Page) (w w' : Window) :
  saveStateToHash page w = Ok w' -> history w' = history w.
Proof.
  unfold saveStateToHash.
  destruct (serializeForm false page) as [data|e]; [|discriminate].
  unfold mbind, Result_bind.
  destruct (Object.keys data).
  - intros [= <-]. reflexivity.
  - destruct (encodeFragment data); [|discriminate].
    intros [= <-]. reflexivity.
Qed.

(** An empty snapshot clears the fragment. *)
Lemma saveStateToHash_empty (page : Page) (w : Window) :
  serializeForm false page = Ok [] ->
  saveStateToHash page w = Ok (replaceState (withoutFragment (location w)) w)
  ∧ location_hash (withoutFragment (location w)) = [].
Proof.
  intros H. unfold saveStateToHash. rewrite H. split; reflexivity.
Qed.

Example saveStateToHash_fresh :
  saveStateToHash (pageOf freshForm) somePlace
  = Ok {| history := [];
          location := {| pathname := js "/index.html"; search := [];
                         fragment := None |} |}.
Proof. vm_compute. reflexivity. Qed.

(** ** Lines of a text area *)

Lemma split_nonempty (sep : N) (s : jsstring) : Str.split sep s ≠ [].
Proof.
  destruct s as [|c s]; simpl; [discriminate|].
  case_bool_decide; [discriminate|].
  destruct (Str.split sep s); discriminate.
Qed.

Lemma split_Forall (sep : N) (s : jsstring) :
  Forall (λ l, sep ∉ l) (Str.split sep s).
Proof.
  induction s as [|c s IH]; simpl.
  - constructor; [|constructor]. intros H. inversion H.
  - case_bool_decide as Hc.
    + constructor; [|exact IH]. intros H. inversion H.
    + destruct (Str.split sep s) as [|l ls].
      * constructor; [|constructor].
        intros H. apply list_elem_of_singleton in H. congruence.
      * inversion IH; subst. constructor; [|assumption].
        intros H. apply elem_of_cons in H as [H|H]; [congruence|contradiction].
Qed.

Lemma split_no_sep (sep : N) (l : jsstring) :
  sep ∉ l -> Str.split sep l = [l].
Proof.
  induction l as [|c l IH]; intros Hnot; simpl; [reflexivity|].
  rewrite bool_decide_eq_false_2.
  - rewrite IH; [reflexivity|].
    intros H. apply Hnot. right. exact H.
  - intros ->. apply Hnot. left.
Qed.

Lemma split_app_sep (sep : N) (l rest : jsstring) :
  sep ∉ l -> Str.split sep (l ++ sep :: rest) = l :: Str.split sep rest.
Proof.
  induction l as [|c l IH]; intros Hnot; simpl.
  - rewrite bool_decide_eq_true_2 by reflexivity. reflexivity.
  - rewrite bool_decide_eq_false_2.
    + rewrite IH; [reflexivity|].
      intros H. apply Hnot. right. exact H.
    + intros ->. apply Hnot. left.
Qed.

Lemma split_join (sep : N) (ls : list jsstring) :
  ls ≠ [] -> Forall (λ l, sep ∉ l) ls ->
  Str.split sep (Str.join [sep] ls) = ls.
Proof.
  induction ls as [|l ls IH]; intros Hne Hall; [congruence|].
  inversion Hall as [|? ? Hl Hls]; subst.
  destruct ls as [|l2 ls].
  - simpl. apply split_no_sep, Hl.
  - change (Str.join [sep] (l :: l2 :: ls))
      with (l ++ sep :: Str.join [sep] (l2 :: ls)).
    rewrite split_app_sep by exact Hl.
    rewrite IH; [reflexivity|discriminate|exact Hls].
Qed.

(** Cutting to [n] lines and then to [m >= n] lines is cutting to [n]. *)
Lemma limitLines_limitLines (n m : nat) (v : jsstring) :
  (0 < n)%nat -> (n <= m)%nat ->
  limitLines m (limitLines n v) = limitLines n v.
Proof.
  intros Hpos Hle. unfold limitLines at 2 3.
  case_bool_decide as Hlong.
  - unfold limitLines. rewrite split_join.
    + rewrite bool_decide_eq_false_2; [reflexivity|].
      rewrite length_take. lia.
    + pose proof (split_nonempty 10 v).
      destruct (Str.split 10 v), n; simpl; congruence || lia.
    + apply Forall_take, split_Forall.
  - unfold limitLines. rewrite bool_decide_eq_false_2; [reflexivity|lia].
Qed.

(** ** Lookups after an assignment *)

Lemma getElementById_alter (f : Control -> Control) (i : nat)
    (els : list Control) (id : jsstring) :
  (∀ c, el_id (f c) = el_id c) ->
  getElementById (alter f i els) id
  = (λ p : nat * Control, (p.1, if decide (p.1 = i) then f p.2 else p.2))
    <$> getElementById els id.
Proof.
  intros Hf. unfold getElementById. revert i.
  induction els as [|c els IH]; intros i; [reflexivity|].
  destruct i as [|i]; simpl.
  - rewrite Hf. destruct (decide (el_id c = id)); [reflexivity|].
    destruct (list_find (λ c0, el_id c0 = id) els) as [[j x]|];
      reflexivity.
  - destruct (decide (el_id c = id)); [reflexivity|].
    specialize (IH i). unfold alter in IH. rewrite IH.
    destruct (list_find (λ c0, el_id c0 = id) els) as [[j x]|];
      [|reflexivity].
    simpl. destruct (decide (j = i)), (decide (S j = S i));
      try reflexivity; lia.
Qed.

Lemma alter_fixed (f : Control -> Control) (i : nat) (els : list Control)
    (c : Control) :
  els !! i = Some c -> f c = c -> alter f i els = els.
Proof.
  intros Hl Hf. apply list_eq. intros j.
  destruct (decide (i = j)) as [<-|Hne].
  - rewrite list_lookup_alter_eq, Hl. simpl. rewrite Hf. reflexivity.
  - apply list_lookup_alter_ne, Hne.
Qed.

Lemma withValue_same (c : Control) : withValue (el_value c) c = c.
Proof. destruct c; reflexivity. Qed.

Lemma normalizeToUppercase_value (i : nat) (els : list Control) (c : Control) :
  els !! i = Some c ->
  isTextLike c = true ->
  (normalizeToUppercase i els).1
  = setValue i (Str.toUpperCase (el_value c)) els.
Proof.
  intros Hl Htext. unfold normalizeToUppercase. rewrite Hl, Htext.
  case_bool_decide as Hne; [reflexivity|].
  simpl. rewrite <- Hne.
  symmetry. eapply alter_fixed; [exact Hl|apply withValue_same].
Qed.

Lemma limitTextareaLines_value (i n : nat) (els : list Control) (c : Control) :
  els !! i = Some c ->
  maxLinesOf (el_name c) = Some n ->
  limitTextareaLines i els = (setValue i (limitLines n (el_value c)) els, None).
Proof.
  intros Hl Hmax. unfold limitTextareaLines. rewrite Hl, Hmax. reflexivity.
Qed.

(** ** The mirrored address *)

Lemma ids_distinct (els : list Control) (a b : jsstring) (i j : nat) (c c' : Control) :
  getElementById els a = Some (i, c) -> getElementById els b = Some (j, c') ->
  a ≠ b -> i ≠ j.
Proof.
  intros Ha Hb Hne ->.
  apply getElementById_lookup in Ha as [Hl1 H1], Hb as [Hl2 H2].
  congruence.
Qed.

Lemma isElementWithId_true (id : string) (i : nat) (c : Control) (els : list Control) :
  getElementById els (js id) = Some (i, c) -> isElementWithId id i els = true.
Proof. intros H. unfold isElementWithId. rewrite H. apply bool_decide_eq_true_2. reflexivity. Qed.

Lemma getElementById_setValue (i : nat) (v : jsstring) (els : list Control) (id : jsstring) :
  getElementById (setValue i v els) id
  = (λ p : nat * Control, (p.1, if decide (p.1 = i) then withValue v p.2 else p.2))
    <$> getElementById els id.
Proof. apply getElementById_alter. reflexivity. Qed.

(** What [syncAddress] does while the toggle is checked. *)
Lemma syncAddress_checked (els : list Control) (t s d : nat)
    (toggle src dst : Control) :
  getElementById els (js "q3a_sameAs2") = Some (t, toggle) ->
  getElementById els (js "q2_address") = Some (s, src) ->
  getElementById els (js "q3a_homeAddress") = Some (d, dst) ->
  el_tagName dst = js "TEXTAREA" ->
  el_name dst = js "q3a_homeAddress" ->
  el_checked toggle = true ->
  ∃ dst',
    (syncAddress els).1 !! d = Some dst'
    ∧ el_value dst' = Str.toUpperCase (limitLines 7 (el_value src))
    ∧ el_disabled dst' = true
    ∧ ∀ j, j ≠ d -> (syncAddress els).1 !! j = els !! j.
Proof.
  intros Ht Hs Hd Hdtag Hdname Hchecked.
  destruct (getElementById_lookup _ _ _ _ Hd) as [Hld _].
  unfold syncAddress, withElement. rewrite Ht, Hchecked, Hd, Hs.
  unfold andThen, update, textareaInput, formInput, when, listener, hasTagName.
  set (A := setDisabled d true (setValue d (el_value src) els)).
  assert (HA : A !! d = Some (withDisabled true (withValue (el_value src) dst))).
  { unfold A, setDisabled, setValue.
    rewrite !list_lookup_alter_eq, Hld. reflexivity. }
  rewrite HA. cbn [el_tagName withDisabled withValue]. rewrite Hdtag.
  rewrite bool_decide_eq_true_2 by reflexivity.
  rewrite (limitTextareaLines_value d 7 A _ HA)
    by (cbn [el_name withDisabled withValue]; rewrite Hdname; reflexivity).
  cbn [fst snd el_value withDisabled withValue].
  set (B := setValue d (limitLines 7 (el_value src)) A).
  assert (HB : B !! d = Some (withValue (limitLines 7 (el_value src))
                                (withDisabled true (withValue (el_value src) dst)))).
  { unfold B. apply setValue_lookup, HA. }
  rewrite (normalizeToUppercase_value d B _ HB).
  2:{ unfold isTextLike. cbn [el_tagName withDisabled withValue].
      rewrite Hdtag, bool_decide_eq_true_2 by reflexivity.
      apply orb_true_r. }
  eexists. split; [apply setValue_lookup, HB|].
  split; [reflexivity|]. split; [reflexivity|].
  intros j Hj. unfold B, A, setValue, setDisabled.
  rewrite !list_lookup_alter_ne by congruence. reflexivity.
Qed.

Lemma isElementWithId_false (id : string) (i : nat) (c : Control)
    (els : list Control) :
  els !! i = Some c -> el_id c ≠ js id -> isElementWithId id i els = false.
Proof.
  intros Hl Hid. unfold isElementWithId. apply bool_decide_eq_false_2.
  destruct (getElementById els (js id)) as [[j c']|] eqn:Hget; [|discriminate].
  simpl. intros [= ->].
  apply getElementById_lookup in Hget as [Hl' Hid']. congruence.
Qed.

Lemma isInGroup_false (name : string) (i : nat) (c : Control)
    (els : list Control) :
  els !! i = Some c -> el_id c ≠ js name -> el_name c ≠ js name ->
  isInGroup name i els = false.
Proof.
  intros Hl Hid Hname. unfold isInGroup, namedItem.
  destruct (Str.truthy (js name)); [|reflexivity].
  set (P := λ p : nat * Control, el_id p.2 = js name ∨ el_name p.2 = js name).
  assert (Hnot : i ∉ (filter P (imap pair els)).*1).
  { intros Hin. apply list_elem_of_fmap in Hin as ([j c'] & -> & Hin).
    apply list_elem_of_filter in Hin as [HP Hin].
    apply elem_of_lookup_imap in Hin as (k & x & Heq & Hx).
    inversion Heq; subst. simpl in *. rewrite Hl in Hx. inversion Hx; subst.
    destruct HP; contradiction. }
  destruct (filter P (imap pair els)) as [|[j c'] [|p l]]; try reflexivity.
  apply bool_decide_eq_false_2. exact Hnot.
Qed.

Lemma syncAddress_unchecked (els : list Control) (t d : nat)
    (toggle dst : Control) :
  getElementById els (js "q3a_sameAs2") = Some (t, toggle) ->
  getElementById els (js "q3a_homeAddress") = Some (d, dst) ->
  el_checked toggle = false ->
  syncAddress els = (setDisabled d false els, None).
Proof.
  intros Ht Hd Hchecked. unfold syncAddress, withElement.
  rewrite Ht, Hchecked, Hd. reflexivity.
Qed.

(** A change event on the toggle reaches [syncAddress] and nothing else. *)
Lemma dispatchChange_toggle (els : list Control) (t : nat) (toggle : Control) :
  getElementById els (js "q3a_sameAs2") = Some (t, toggle) ->
  el_name toggle = js "q3a_sameAs2" ->
  (syncAddress els).1 !! t = els !! t ->
  (dispatchChange t els).1 = (syncAddress els).1.
Proof.
  intros Ht Hname Hframe.
  destruct (getElementById_lookup _ _ _ _ Ht) as [Hlt Hid].
  assert (Hlt' : (syncAddress els).1 !! t = Some toggle).
  { rewrite <- Hlt. exact Hframe. }
  unfold dispatchChange, andThen, when, listener.
  rewrite (isElementWithId_true _ _ _ _ Ht). cbn [fst snd].
  rewrite (isInGroup_false "q4a_firearmType" t toggle)
    by (try exact Hlt'; rewrite ?Hid, ?Hname; discriminate).
  rewrite (isInGroup_false "q6m1_nonimmigrant" t toggle)
    by (try exact Hlt'; rewrite ?Hid, ?Hname; discriminate).
  rewrite (isInGroup_false "q8_hasUpin" t toggle)
    by (try exact Hlt'; rewrite ?Hid, ?Hname; discriminate).
  rewrite (isElementWithId_false "q9a_other" t toggle)
    by (try exact Hlt'; rewrite ?Hid, ?Hname; discriminate).
  rewrite (isInGroup_false "q9c_birthCountry" t toggle)
    by (try exact Hlt'; rewrite ?Hid, ?Hname; discriminate).
  reflexivity.
Qed.

Example q6AllNoClick_sample :
  q6AllNoClick true prohibitorsForm
  = ([ prohibitor "q6a-yes" "q6a_intent" "YES" false false;
       prohibitor "q6a-no" "q6a_intent" "NO" true false;
       prohibitor "q6m1-yes" "q6m1_nonimmigrant" "YES" false false;
       prohibitor "q6m1-no" "q6m1_nonimmigrant" "NO" true false;
       prohibitor "q6m2-yes" "q6m2_exception" "YES" false true;
       prohibitor "q6m2-no" "q6m2_exception" "NO" false true;
       prohibitor "q6m2-na" "q6m2_exception" "N/A" true false ],
      None).
Proof. vm_compute. reflexivity. Qed.

(** ** The listeners of question 6 *)

(** ** Checking a radio button *)

Lemma setChecked_lookup_eq (i : nat) (b : bool) (els : list Control)
    (c : Control) :
  els !! i = Some c -> setChecked i b els !! i = Some (withChecked b c).
Proof.
  intros Hl. unfold setChecked. rewrite Hl.
  destruct (b && isType "radio" c && Str.truthy (el_name c)) eqn:Hg.
  - rewrite list_lookup_imap, Hl. simpl.
    rewrite bool_decide_eq_true_2 by reflexivity.
    destruct b; [reflexivity|discriminate].
  - rewrite list_lookup_alter_eq, Hl. reflexivity.
Qed.

Lemma setChecked_lookup_ne (i j : nat) (b : bool) (els : list Control)
    (el c : Control) :
  j ≠ i -> els !! i = Some el -> els !! j = Some c ->
  setChecked i b els !! j
  = Some (if b && isType "radio" el && Str.truthy (el_name el)
             && isType "radio" c && bool_decide (el_name c = el_name el)
          then withChecked false c else c).
Proof.
  intros Hne Hi Hj. unfold setChecked. rewrite Hi.
  destruct (b && isType "radio" el && Str.truthy (el_name el)) eqn:Hg.
  - rewrite list_lookup_imap, Hj. simpl.
    rewrite bool_decide_eq_false_2 by exact Hne. reflexivity.
  - rewrite list_lookup_alter_ne by congruence. rewrite Hj. reflexivity.
Qed.

Lemma setChecked_disabled (i j : nat) (b d : bool) (els : list Control) :
  disabledAt els j d -> disabledAt (setChecked i b els) j d.
Proof.
  intros (c & Hj & Hd). unfold disabledAt.
  destruct (decide (j = i)) as [->|Hne].
  - rewrite (setChecked_lookup_eq i b els c Hj). eauto.
  - destruct (els !! i) as [el|] eqn:Hi.
    + rewrite (setChecked_lookup_ne i j b els el c Hne Hi Hj).
      destruct (_ && _); eauto.
    + unfold setChecked. rewrite Hi. eauto.
Qed.

(** ** What the listeners of the other questions keep *)

#[global] Instance keptByOthers_preorder : PreOrder keptByOthers.
Proof.
  split.
  - intros c. split; [reflexivity|]. split; [reflexivity|]. auto.
  - intros a b c (Hab & Hcab & Hdab) (Hbc & Hcbc & Hdbc).
    split; [etransitivity; eassumption|].
    split; [congruence|].
    intros Hid. rewrite Hdab by exact Hid. apply Hdbc.
    destruct Hab as (<- & _). exact Hid.
Qed.

Lemma keptByOthers_withValue v c : keptByOthers c (withValue v c).
Proof. split; [apply sameElement_withValue|]. split; [reflexivity|]. auto. Qed.

Lemma normalizeToUppercase_kept (i : nat) :
  keeps keptByOthers (normalizeToUppercase i).
Proof.
  intros els. unfold normalizeToUppercase.
  repeat case_match; simpl; try apply Forall2_keep_refl, _.
  all: apply setValue_keeps; [apply _|apply keptByOthers_withValue].
Qed.

Lemma limitTextareaLines_kept (i : nat) :
  keeps keptByOthers (limitTextareaLines i).
Proof.
  intros els. unfold limitTextareaLines.
  repeat case_match; simpl; try apply Forall2_keep_refl, _.
  apply setValue_keeps; [apply _|apply keptByOthers_withValue].
Qed.

Lemma setDisabled_kept (i : nat) (b : bool) (els : list Control)
    (c : Control) :
  els !! i = Some c -> ¬ isQ6m2Id (el_id c) ->
  Forall2 keptByOthers els (setDisabled i b els).
Proof.
  intros Hl Hid. apply Forall2_alter_r; [apply Forall2_keep_refl, _|].
  intros x y Hx Hy Hxy. rewrite Hl in Hx. injection Hx as <-.
  destruct Hxy as (Hs & Hc & Hd).
  split; [|split].
  - etransitivity; [exact Hs|apply sameElement_withDisabled].
  - exact Hc.
  - intros H. contradiction.
Qed.

Lemma syncAddress_kept : keeps keptByOthers syncAddress.
Proof.
  intros els. unfold syncAddress, withElement.
  destruct (getElementById els (js "q3a_sameAs2")) as [[t toggle]|];
    [|apply Forall2_keep_refl, _].
  destruct (el_checked toggle).
  - destruct (getElementById els (js "q3a_homeAddress")) as [[d dst]|] eqn:Hd;
      [|apply Forall2_keep_refl, _].
    destruct (getElementById els (js "q2_address")) as [[s src]|];
      [|apply Forall2_keep_refl, _].
    apply getElementById_lookup in Hd as [Hld Hid].
    unfold andThen at 1. unfold update at 1. cbn [fst snd].
    unfold andThen at 1. unfold update at 1. cbn [fst snd].
    eapply Forall2_keep_trans; [apply _|apply setValue_keeps;
      [apply _|apply keptByOthers_withValue]|].
    eapply Forall2_keep_trans; [apply _| |].
    + eapply setDisabled_kept.
      * apply setValue_lookup, Hld.
      * cbn [el_id withValue]. rewrite Hid. unfold isQ6m2Id.
        intros [H|[H|H]]; discriminate H.
    + apply keeps_andThen; [apply _| |].
      * apply keeps_when; [apply _|]. apply keeps_listener.
        apply limitTextareaLines_kept.
      * apply keeps_listener. apply normalizeToUppercase_kept.
  - destruct (getElementById els (js "q3a_homeAddress")) as [[d dst]|] eqn:Hd;
      [|apply Forall2_keep_refl, _].
    apply getElementById_lookup in Hd as [Hld Hid].
    eapply setDisabled_kept; [exact Hld|].
    rewrite Hid. unfold isQ6m2Id. intros [H|[H|H]]; discriminate H.
Qed.

Lemma otherCascade_kept (optionId textId : string) :
  ¬ isQ6m2Id (js textId) ->
  keeps keptByOthers (otherCascade optionId textId).
Proof.
  intros Hid els. unfold otherCascade, withElement.
  destruct (getElementById els (js optionId)) as [[o option]|];
    [|apply Forall2_keep_refl, _].
  destruct (getElementById els (js textId)) as [[t text]|] eqn:Ht;
    [|apply Forall2_keep_refl, _].
  apply getElementById_lookup in Ht as [Hlt Hidt].
  assert (Hdis : ∀ b, Forall2 keptByOthers els (setDisabled t b els)).
  { intros b. eapply setDisabled_kept; [exact Hlt|]. rewrite Hidt. exact Hid. }
  unfold andThen, update, skip.
  destruct (el_checked option); cbn [negb fst snd]; [apply Hdis|].
  eapply Forall2_keep_trans; [apply _|apply Hdis|].
  apply setValue_keeps; [apply _|apply keptByOthers_withValue].
Qed.

Lemma keptByOthers_sameElement (els els' : list Control) :
  Forall2 keptByOthers els els' -> Forall2 sameElement els els'.
Proof. apply Forall2_impl. intros c c' H. apply H. Qed.

Lemma checkedAt_kept (els els' : list Control) (j : nat) (b : bool) :
  Forall2 keptByOthers els els' -> checkedAt els j b -> checkedAt els' j b.
Proof.
  intros Hrel (c & Hl & Hc).
  destruct (Forall2_lookup_l _ _ _ _ _ Hrel Hl) as (c' & Hl' & _ & Hck & _).
  exists c'. split; [exact Hl'|congruence].
Qed.

Lemma disabledAt_kept (els els' : list Control) (j : nat) (b : bool) :
  Forall2 keptByOthers els els' ->
  (∃ c, els !! j = Some c ∧ isQ6m2Id (el_id c) ∧ el_disabled c = b) ->
  disabledAt els' j b.
Proof.
  intros Hrel (c & Hl & Hid & Hd).
  destruct (Forall2_lookup_l _ _ _ _ _ Hrel Hl) as (c' & Hl' & _ & _ & Hdis).
  exists c'. split; [exact Hl'|]. rewrite <- Hdis by exact Hid. exact Hd.
Qed.

Lemma getElementById_sameElement (els els' : list Control) (id : jsstring)
    (i : nat) (c : Control) :
  Forall2 sameElement els els' ->
  getElementById els id = Some (i, c) ->
  ∃ c', getElementById els' id = Some (i, c') ∧ els' !! i = Some c'
        ∧ sameElement c c'.
Proof.
  intros Hrel Hget.
  pose proof (getElementById_rel sameElement els els' id
                (λ c c' H, proj1 H) Hrel) as Hopt.
  rewrite Hget in Hopt. inversion Hopt as [p [j c'] [Hj Hc] Heq1 Heq2|]; subst.
  simpl in Hj, Hc. subst j. exists c'. split; [reflexivity|]. split; [|exact Hc].
  symmetry in Heq2. apply getElementById_lookup in Heq2. tauto.
Qed.

Lemma isRadioNamed_sameElement (name : string) (i : nat) (id : string)
    (els els' : list Control) :
  Forall2 sameElement els els' ->
  isRadioNamed name i id els -> isRadioNamed name i id els'.
Proof.
  intros Hrel (c & Hget & Hty & Hname).
  destruct (getElementById_sameElement _ _ _ _ _ Hrel Hget)
    as (c' & Hget' & _ & (_ & Hn & Ht & _)).
  exists c'. split; [exact Hget'|]. split; congruence.
Qed.

Lemma namedItem_sameElement_list (els els' : list Control) (key : jsstring)
    (l : list (nat * Control)) :
  Forall2 sameElement els els' ->
  namedItem els key = ItemList l ->
  ∃ l', namedItem els' key = ItemList l' ∧ l'.*1 = l.*1.
Proof.
  intros Hrel Hitem.
  pose proof (namedItem_rel sameElement els els' key
                (λ c c' H, conj (proj1 H) (proj1 (proj2 H))) Hrel) as Hir.
  rewrite Hitem in Hir. inversion Hir as [| |l0 l' Hl]; subst.
  exists l'. split; [reflexivity|].
  clear -Hl. induction Hl as [|p p' l l' [Hp _] _ IH]; [reflexivity|].
  rewrite !fmap_cons. f_equal; [symmetry; exact Hp|exact IH].
Qed.

Lemma isInGroup_sameElement (name : string) (i : nat)
    (els els' : list Control) :
  Forall2 sameElement els els' ->
  isInGroup name i els' = isInGroup name i els.
Proof.
  intros Hrel. unfold isInGroup.
  pose proof (namedItem_rel sameElement els els' (js name)
                (λ c c' H, conj (proj1 H) (proj1 (proj2 H))) Hrel) as Hir.
  destruct Hir as [|j c c' Hc|l l' Hl]; try reflexivity.
  assert (Heq : l'.*1 = l.*1).
  { clear -Hl. induction Hl as [|p p' l l' [Hp _] _ IH]; [reflexivity|].
    rewrite !fmap_cons. f_equal; [symmetry; exact Hp|exact IH]. }
  rewrite Heq. reflexivity.
Qed.

Lemma getElementById_setDisabled (i : nat) (b : bool) (els : list Control)
    (id : jsstring) :
  getElementById (setDisabled i b els) id
  = (λ p : nat * Control,
       (p.1, if decide (p.1 = i) then withDisabled b p.2 else p.2))
    <$> getElementById els id.
Proof. apply getElementById_alter. reflexivity. Qed.
Lemma updateQ6m2_no (st : list Control) (y1 n1 y2 n2 a2 : nat)
    (cy1 cn1 cy2 cn2 ca2 : Control) :
  getElementById st (js "q6m1-yes") = Some (y1, cy1) ->
  getElementById st (js "q6m1-no") = Some (n1, cn1) ->
  getElementById st (js "q6m2-yes") = Some (y2, cy2) ->
  getElementById st (js "q6m2-no") = Some (n2, cn2) ->
  getElementById st (js "q6m2-na") = Some (a2, ca2) ->
  el_checked cy1 = false -> el_checked cn1 = true ->
  updateQ6m2 st
  = (setChecked a2 true
       (setDisabled a2 false (setDisabled n2 true (setDisabled y2 true st))),
     None).
Proof.
  intros Hy1 Hn1 Hy2 Hn2 Ha2 Hcy Hcn.
  unfold updateQ6m2, withElement at 1 2.
  rewrite Hy1, Hn1, Hcy, Hcn.
  unfold andThen, withElement, update.
  rewrite Hy2. cbn [fst snd].
  rewrite getElementById_setDisabled, Hn2. cbn [fmap option_fmap option_map fst snd].
  rewrite !getElementById_setDisabled, Ha2.
  cbn [fmap option_fmap option_map fst snd].
  rewrite !getElementById_setDisabled, Ha2.
  cbn [fmap option_fmap option_map fst snd].
  reflexivity.
Qed.

Lemma andThen_ran (b : list Control -> bool) (h k : Step)
    (els : list Control) :
  (when b (listener h) >> k) els = k (ran b h els).
Proof.
  unfold andThen, ran, when, listener. destruct (b els); reflexivity.
Qed.

Lemma when_listener_ran (b : list Control -> bool) (h : Step)
    (els : list Control) :
  when b (listener h) els = (ran b h els, None).
Proof. unfold ran, when, listener. destruct (b els); reflexivity. Qed.

Lemma dispatchChange_stages (i : nat) (els : list Control) :
  dispatchChange i els
  = (ran (isInGroup "q9c_birthCountry" i) updateQ9cInput
       (ran (isElementWithId "q9a_other" i)
            (otherCascade "q9a_other" "q9a_other_text")
          (ran (isInGroup "q8_hasUpin" i) updateUpinInput
             (ran (isInGroup "q6m1_nonimmigrant" i) updateQ6m2
                (ran (isInGroup "q4a_firearmType" i)
                     (otherCascade "q4a_other" "q4a_other_text")
                   (ran (isElementWithId "q3a_sameAs2" i) syncAddress
                        els))))),
     None).
Proof.
  unfold dispatchChange. rewrite !andThen_ran. apply when_listener_ran.
Qed.

Lemma ran_kept (b : list Control -> bool) (h : Step) (els : list Control) :
  keeps keptByOthers h -> Forall2 keptByOthers els (ran b h els).
Proof.
  intros Hh. unfold ran, when, listener.
  destruct (b els); [apply Hh|apply Forall2_keep_refl, _].
Qed.

Lemma not_isQ6m2Id (id : string) :
  bool_decide (isQ6m2Id (js id)) = false -> ¬ isQ6m2Id (js id).
Proof. apply bool_decide_eq_false. Qed.

Lemma others_after_kept (i : nat) (els : list Control) :
  Forall2 keptByOthers els
    (ran (isInGroup "q9c_birthCountry" i) updateQ9cInput
       (ran (isElementWithId "q9a_other" i)
            (otherCascade "q9a_other" "q9a_other_text")
          (ran (isInGroup "q8_hasUpin" i) updateUpinInput els))).
Proof.
  eapply Forall2_keep_trans; [apply _| |].
  { apply ran_kept.
    apply (otherCascade_kept "q8_upin-yes" "q8_upinNumber"), not_isQ6m2Id.
    reflexivity. }
  eapply Forall2_keep_trans; [apply _| |].
  { apply ran_kept.
    apply (otherCascade_kept "q9a_other" "q9a_other_text"), not_isQ6m2Id.
    reflexivity. }
  apply ran_kept.
  apply (otherCascade_kept "q9c_other" "q9c_other_text"), not_isQ6m2Id.
  reflexivity.
Qed.

Lemma others_before_kept (i : nat) (els : list Control) :
  Forall2 keptByOthers els
    (ran (isInGroup "q4a_firearmType" i)
         (otherCascade "q4a_other" "q4a_other_text")
       (ran (isElementWithId "q3a_sameAs2" i) syncAddress els)).
Proof.
  eapply Forall2_keep_trans; [apply _| |].
  { apply ran_kept, syncAddress_kept. }
  apply ran_kept.
  apply (otherCascade_kept "q4a_other" "q4a_other_text"), not_isQ6m2Id.
  reflexivity.
Qed.

(** A change event on a control outside the group of 6.m.1 reaches none of
    the listeners of question 6. *)
Lemma dispatchChange_outside (els st : list Control) (r : nat) :
  Forall2 sameElement els st ->
  isInGroup "q6m1_nonimmigrant" r els = false ->
  Forall2 keptByOthers st (dispatchChange r st).1.
Proof.
  intros Hrel Hout. rewrite dispatchChange_stages. cbn [fst].
  pose proof (others_before_kept r st) as H2.
  set (s2 := ran (isInGroup "q4a_firearmType" r)
                 (otherCascade "q4a_other" "q4a_other_text")
                 (ran (isElementWithId "q3a_sameAs2" r) syncAddress st)) in *.
  assert (H3 : ran (isInGroup "q6m1_nonimmigrant" r) updateQ6m2 s2 = s2).
  { unfold ran, when. rewrite (isInGroup_sameElement _ _ els), Hout; [reflexivity|].
    eapply Forall2_keep_trans; [apply _|exact Hrel|].
    apply keptByOthers_sameElement. exact H2. }
  rewrite H3.
  eapply Forall2_keep_trans; [apply _|exact H2|].
  apply others_after_kept.
Qed.

Lemma isInGroup_q6m1 (els : list Control) (y1 n1 y2 n2 a2 i : nat) :
  prohibitorsLayout els y1 n1 y2 n2 a2 ->
  isInGroup "q6m1_nonimmigrant" i els = bool_decide (i = y1 ∨ i = n1).
Proof.
  intros [_ _ _ _ _ (l & Hitem & Hl) _ _ _]. unfold isInGroup.
  rewrite Hitem. apply bool_decide_ext, Hl.
Qed.

(** A change event on the NO button of 6.m.1, with that button checked and
    the YES button not: between the listeners of the other questions,
    [updateQ6m2] forces the exception to "not applicable". *)
Lemma dispatchChange_q6m1_no (els st : list Control) (y1 n1 y2 n2 a2 : nat) :
  prohibitorsLayout els y1 n1 y2 n2 a2 ->
  Forall2 sameElement els st ->
  checkedAt st y1 false -> checkedAt st n1 true ->
  ∃ s2, Forall2 keptByOthers st s2
        ∧ Forall2 keptByOthers (forcedNotApplicable y2 n2 a2 s2)
                  (dispatchChange n1 st).1.
Proof.
  intros Hlay Hrel Hy Hn. rewrite dispatchChange_stages. cbn [fst].
  pose proof (others_before_kept n1 st) as H2.
  set (s2 := ran (isInGroup "q4a_firearmType" n1)
                 (otherCascade "q4a_other" "q4a_other_text")
                 (ran (isElementWithId "q3a_sameAs2" n1) syncAddress st)) in *.
  exists s2. split; [exact H2|].
  assert (Hrel2 : Forall2 sameElement els s2).
  { eapply Forall2_keep_trans; [apply _|exact Hrel|].
    apply keptByOthers_sameElement, H2. }
  assert (H3 : ran (isInGroup "q6m1_nonimmigrant" n1) updateQ6m2 s2
               = forcedNotApplicable y2 n2 a2 s2).
  { unfold ran, when, listener.
    rewrite (isInGroup_sameElement _ _ els) by exact Hrel2.
    rewrite (isInGroup_q6m1 els y1 n1 y2 n2 a2 n1 Hlay).
    rewrite bool_decide_eq_true_2 by (right; reflexivity).
    destruct Hlay as [Hy1 Hn1 Hy2 Hn2 Ha2 _ _ _ _].
    destruct (isRadioNamed_sameElement _ _ _ _ _ Hrel2 Hy1) as (cy1 & Gy1 & _).
    destruct (isRadioNamed_sameElement _ _ _ _ _ Hrel2 Hn1) as (cn1 & Gn1 & _).
    destruct (isRadioNamed_sameElement _ _ _ _ _ Hrel2 Hy2) as (cy2 & Gy2 & _).
    destruct (isRadioNamed_sameElement _ _ _ _ _ Hrel2 Hn2) as (cn2 & Gn2 & _).
    destruct (isRadioNamed_sameElement _ _ _ _ _ Hrel2 Ha2) as (ca2 & Ga2 & _).
    destruct (checkedAt_kept _ _ _ _ H2 Hy) as (cy & Hly & Hcy).
    destruct (checkedAt_kept _ _ _ _ H2 Hn) as (cn & Hln & Hcn).
    destruct (getElementById_lookup _ _ _ _ Gy1) as [Hly' _].
    destruct (getElementById_lookup _ _ _ _ Gn1) as [Hln' _].
    assert (cy = cy1) by congruence. assert (cn = cn1) by congruence. subst.
    rewrite (updateQ6m2_no s2 y1 n1 y2 n2 a2 cy1 cn1 cy2 cn2 ca2) by assumption.
    reflexivity. }
  rewrite H3. apply others_after_kept.
Qed.
#[global] Instance keptOutsideException_preorder : PreOrder keptOutsideException.
Proof.
  split.
  - intros c. split; [reflexivity|auto].
  - intros a b c (Hab & Hcab) (Hbc & Hcbc).
    split; [etransitivity; eassumption|].
    intros Hname. rewrite Hcab by exact Hname. apply Hcbc.
    destruct Hab as (_ & <- & _). exact Hname.
Qed.

Lemma keptByOthers_outside (els els' : list Control) :
  Forall2 keptByOthers els els' -> Forall2 keptOutsideException els els'.
Proof.
  apply Forall2_impl. intros c c' (Hs & Hc & _). split; [exact Hs|auto].
Qed.

Lemma keptOutside_sameElement (els els' : list Control) :
  Forall2 keptOutsideException els els' -> Forall2 sameElement els els'.
Proof. apply Forall2_impl. intros c c' H. apply H. Qed.

Lemma setChecked_length (i : nat) (b : bool) (els : list Control) :
  length (setChecked i b els) = length els.
Proof.
  unfold setChecked. destruct (els !! i); [|reflexivity].
  destruct (_ && _); [apply length_imap|apply length_alter].
Qed.

(** Checking a control of the exception group keeps the rest. *)
Lemma setChecked_outside (i : nat) (els : list Control) (c : Control) :
  els !! i = Some c -> el_name c = js "q6m2_exception" ->
  Forall2 keptOutsideException els (setChecked i true els).
Proof.
  intros Hi Hname. apply Forall2_same_length_lookup.
  split; [symmetry; apply setChecked_length|].
  intros j x y Hx Hy.
  destruct (decide (j = i)) as [->|Hne].
  - rewrite (setChecked_lookup_eq i true els c Hi) in Hy.
    injection Hy as <-. assert (x = c) by congruence. subst.
    split; [apply sameElement_withChecked|]. contradiction.
  - rewrite (setChecked_lookup_ne i j true els c x Hne Hi Hx) in Hy.
    injection Hy as <-.
    destruct (_ && _) eqn:Hg; [|reflexivity].
    split; [apply sameElement_withChecked|].
    apply andb_true_iff in Hg as [_ Hn]. apply bool_decide_eq_true in Hn.
    congruence.
Qed.

Lemma forcedNotApplicable_outside (y2 n2 a2 : nat) (els : list Control)
    (c : Control) :
  els !! a2 = Some c -> el_name c = js "q6m2_exception" ->
  Forall2 keptOutsideException els (forcedNotApplicable y2 n2 a2 els).
Proof.
  intros Ha Hname. unfold forcedNotApplicable.
  assert (Hdis : ∀ i b st, Forall2 keptOutsideException st (setDisabled i b st)).
  { intros i b st. apply setDisabled_keeps; [apply _|].
    intros x. split; [apply sameElement_withDisabled|auto]. }
  eapply Forall2_keep_trans; [apply _|apply (Hdis y2 true)|].
  eapply Forall2_keep_trans; [apply _|apply (Hdis n2 true)|].
  eapply Forall2_keep_trans; [apply _|apply (Hdis a2 false)|].
  destruct (Forall2_lookup_l _ _ _ _ _
              (Forall2_keep_trans _ _ _ _
                 (Forall2_keep_trans _ _ _ _ (Hdis y2 true els)
                    (Hdis n2 true _)) (Hdis a2 false _)) Ha)
    as (c' & Hc' & (_ & Hn & _) & _).
  eapply setChecked_outside; [exact Hc'|congruence].
Qed.
Lemma answeredNo_outside (st st' : list Control) (r : nat) :
  Forall2 keptOutsideException st st' ->
  answeredNo st r -> answeredNo st' r.
Proof.
  intros Hrel Hans c' Hc' Hname.
  destruct (Forall2_lookup_r _ _ _ _ _ Hrel Hc') as (c & Hc & Hs & Hck).
  assert (Hn : el_name c = el_name c') by apply Hs.
  destruct (Hans c Hc ltac:(congruence)) as [Hchecked Halone].
  split; [rewrite <- Hck by congruence; exact Hchecked|].
  intros Htruthy c0 j cj' Hc0 Hj Hne Hty Hnm.
  assert (c0 = c') by congruence. subst c0.
  destruct (Forall2_lookup_r _ _ _ _ _ Hrel Hj) as (cj & Hcj & Hsj & Hckj).
  rewrite <- Hckj.
  - apply (Halone ltac:(congruence) c j cj Hc Hcj Hne).
    + destruct Hsj as (_ & _ & -> & _). exact Hty.
    + destruct Hsj as (_ & -> & _). congruence.
  - destruct Hsj as (_ & -> & _). congruence.
Qed.

(** Checking a NO button answers its group NO and leaves the groups of other
    names as they were. *)
Lemma answeredNo_setChecked (st : list Control) (r r' : nat) (cr' : Control) :
  st !! r' = Some cr' -> el_type cr' = js "radio" ->
  (r ≠ r' -> answeredNo st r
             ∧ ∀ c, st !! r = Some c -> el_name c ≠ el_name cr') ->
  answeredNo (setChecked r' true st) r.
Proof.
  intros Hr' Hty Hother c Hc Hname.
  assert (Hradio : isType "radio" cr' = true)
    by (unfold isType; rewrite Hty; reflexivity).
  destruct (decide (r = r')) as [->|Hne].
  - rewrite (setChecked_lookup_eq r' true st cr' Hr') in Hc.
    injection Hc as <-. split; [reflexivity|].
    intros Htruthy c0 j cj Hc0 Hj Hjne Htyj Hnmj.
    rewrite (setChecked_lookup_eq r' true st cr' Hr') in Hc0.
    injection Hc0 as <-.
    destruct (st !! j) as [x|] eqn:Hx.
    + rewrite (setChecked_lookup_ne r' j true st cr' x Hjne Hr' Hx) in Hj.
      cbn [el_name withChecked] in Htruthy, Hnmj.
      rewrite Hradio, Htruthy in Hj. cbn [andb] in Hj.
      destruct (isType "radio" x && bool_decide (el_name x = el_name cr'))
        eqn:Hg; injection Hj as <-; [reflexivity|].
      exfalso.
      apply andb_false_iff in Hg as [Hg|Hg].
      * unfold isType in Hg. rewrite Htyj in Hg. discriminate.
      * apply bool_decide_eq_false in Hg. apply Hg. exact Hnmj.
    + apply lookup_lt_Some in Hj. rewrite setChecked_length in Hj.
      apply lookup_ge_None in Hx. lia.
  - destruct (Hother Hne) as [Hans Hnames].
    destruct (st !! r) as [x|] eqn:Hx.
    2:{ apply lookup_lt_Some in Hc. rewrite setChecked_length in Hc.
        apply lookup_ge_None in Hx. lia. }
    rewrite (setChecked_lookup_ne r' r true st cr' x Hne Hr' Hx) in Hc.
    rewrite (bool_decide_eq_false_2 (el_name x = el_name cr')) in Hc
      by (apply Hnames; reflexivity).
    rewrite andb_false_r in Hc. injection Hc as <-.
    destruct (Hans x Hx Hname) as [Hchecked Halone].
    split; [exact Hchecked|].
    intros Htruthy c0 j cj Hc0 Hj Hjne Htyj Hnmj.
    rewrite (setChecked_lookup_ne r' r true st cr' x Hne Hr' Hx) in Hc0.
    rewrite (bool_decide_eq_false_2 (el_name x = el_name cr')) in Hc0
      by (apply Hnames; reflexivity).
    rewrite andb_false_r in Hc0. injection Hc0 as <-.
    destruct (decide (j = r')) as [->|Hjr'].
    { rewrite (setChecked_lookup_eq r' true st cr' Hr') in Hj.
      injection Hj as <-. exfalso. apply (Hnames x eq_refl).
      symmetry. exact Hnmj. }
    destruct (st !! j) as [y|] eqn:Hy.
    2:{ apply lookup_lt_Some in Hj. rewrite setChecked_length in Hj.
        apply lookup_ge_None in Hy. lia. }
    rewrite (setChecked_lookup_ne r' j true st cr' y Hjr' Hr' Hy) in Hj.
    injection Hj as <-.
    destruct (_ && _); [reflexivity|].
    apply (Halone Htruthy x j y Hx Hy Hjne Htyj Hnmj).
Qed.
Lemma prohibitorNoRadios_spec (els : list Control) (r : nat) :
  r ∈ prohibitorNoRadios els ->
  ∃ c, els !! r = Some c ∧ el_type c = js "radio".
Proof.
  unfold prohibitorNoRadios. intros Hin.
  apply list_elem_of_fmap in Hin as ([j c] & -> & Hin).
  apply list_elem_of_filter in Hin as [(_ & _ & Hty & _) Hin].
  apply elem_of_lookup_imap in Hin as (k & x & Heq & Hx).
  inversion Heq; subst. exists x. auto.
Qed.

Lemma checkedAt_false_setChecked (st : list Control) (i j : nat) :
  j ≠ i -> checkedAt st j false -> checkedAt (setChecked i true st) j false.
Proof.
  intros Hne (c & Hc & Hck). unfold checkedAt.
  destruct (st !! i) as [el|] eqn:Hi.
  - rewrite (setChecked_lookup_ne i j true st el c Hne Hi Hc).
    destruct (_ && _); eauto.
  - unfold setChecked. rewrite Hi. eauto.
Qed.

Lemma exceptionForced_setChecked (st : list Control) (i y1 y2 n2 a2 : nat) :
  i ≠ y1 ->
  exceptionForced st y1 y2 n2 a2 ->
  exceptionForced (setChecked i true st) y1 y2 n2 a2.
Proof.
  intros Hne (Hy & H1 & H2 & H3).
  repeat split; try apply setChecked_disabled; try assumption.
  apply checkedAt_false_setChecked; [congruence|exact Hy].
Qed.

(** The radio buttons of the layout, in a document that kept its elements. *)
Lemma layout_lookups (els st : list Control) (y1 n1 y2 n2 a2 : nat) :
  prohibitorsLayout els y1 n1 y2 n2 a2 ->
  Forall2 sameElement els st ->
  (∃ c, st !! y1 = Some c ∧ el_id c = js "q6m1-yes"
        ∧ el_type c = js "radio" ∧ el_name c = js "q6m1_nonimmigrant")
  ∧ (∃ c, st !! n1 = Some c ∧ el_id c = js "q6m1-no"
          ∧ el_type c = js "radio" ∧ el_name c = js "q6m1_nonimmigrant")
  ∧ (∃ c, st !! y2 = Some c ∧ el_id c = js "q6m2-yes"
          ∧ el_type c = js "radio" ∧ el_name c = js "q6m2_exception")
  ∧ (∃ c, st !! n2 = Some c ∧ el_id c = js "q6m2-no"
          ∧ el_type c = js "radio" ∧ el_name c = js "q6m2_exception")
  ∧ (∃ c, st !! a2 = Some c ∧ el_id c = js "q6m2-na"
          ∧ el_type c = js "radio" ∧ el_name c = js "q6m2_exception").
Proof.
  intros [Hy1 Hn1 Hy2 Hn2 Ha2 _ _ _ _] Hrel.
  repeat split;
    match goal with
    | H : isRadioNamed _ ?i _ els |- ∃ c, st !! ?i = _ ∧ _ =>
        destruct (isRadioNamed_sameElement _ _ _ _ _ Hrel H)
          as (c & Hget & Hty & Hname);
        apply getElementById_lookup in Hget as [Hl Hid];
        exists c; auto
    end.
Qed.

Lemma exceptionForced_kept (els st st' : list Control) (y1 n1 y2 n2 a2 : nat) :
  prohibitorsLayout els y1 n1 y2 n2 a2 ->
  Forall2 sameElement els st ->
  Forall2 keptByOthers st st' ->
  exceptionForced st y1 y2 n2 a2 -> exceptionForced st' y1 y2 n2 a2.
Proof.
  intros Hlay Hrel Hkept (Hy & H1 & H2 & H3).
  destruct (layout_lookups els st y1 n1 y2 n2 a2 Hlay Hrel)
    as (_ & _ & (cy2 & Ly2 & Iy2 & _) & (cn2 & Ln2 & In2 & _)
        & (ca2 & La2 & Ia2 & _)).
  split; [eapply checkedAt_kept; eassumption|].
  repeat split; (eapply disabledAt_kept; [exact Hkept|]).
  - destruct H1 as (c & Hc & Hd). exists c. repeat split; try assumption.
    left. congruence.
  - destruct H2 as (c & Hc & Hd). exists c. repeat split; try assumption.
    right; left. congruence.
  - destruct H3 as (c & Hc & Hd). exists c. repeat split; try assumption.
    right; right. congruence.
Qed.

Lemma forcedNotApplicable_forced (st : list Control) (y1 y2 n2 a2 : nat)
    (cy2 cn2 ca2 : Control) :
  st !! y2 = Some cy2 -> st !! n2 = Some cn2 -> st !! a2 = Some ca2 ->
  y2 ≠ n2 -> y2 ≠ a2 -> n2 ≠ a2 -> y1 ≠ a2 ->
  checkedAt st y1 false ->
  exceptionForced (forcedNotApplicable y2 n2 a2 st) y1 y2 n2 a2
  ∧ checkedAt (forcedNotApplicable y2 n2 a2 st) a2 true.
Proof.
  intros Hy2 Hn2 Ha2 Hyn Hya Hna Hy1a (cy1 & Hy1 & Hck).
  unfold forcedNotApplicable.
  set (s := setDisabled a2 false (setDisabled n2 true (setDisabled y2 true st))).
  assert (Ly2 : s !! y2 = Some (withDisabled true cy2)).
  { unfold s, setDisabled. rewrite !list_lookup_alter_ne by congruence.
    rewrite list_lookup_alter_eq, Hy2. reflexivity. }
  assert (Ln2 : s !! n2 = Some (withDisabled true cn2)).
  { unfold s, setDisabled. rewrite list_lookup_alter_ne by congruence.
    rewrite list_lookup_alter_eq, list_lookup_alter_ne by congruence.
    rewrite Hn2. reflexivity. }
  assert (La2 : s !! a2 = Some (withDisabled false ca2)).
  { unfold s, setDisabled. rewrite list_lookup_alter_eq.
    rewrite !list_lookup_alter_ne by congruence. rewrite Ha2. reflexivity. }
  assert (Ly1 : checkedAt s y1 false).
  { assert (Hkeep : ∀ i b t, checkedAt t y1 false ->
                             checkedAt (setDisabled i b t) y1 false).
    { intros i b t (c & Hc & Hb). unfold checkedAt, setDisabled.
      rewrite list_lookup_alter. destruct (decide (i = y1)) as [->|].
      - rewrite Hc. eexists. split; [reflexivity|exact Hb].
      - eauto. }
    unfold s. apply Hkeep, Hkeep, Hkeep. exists cy1. auto. }
  split.
  - split; [apply checkedAt_false_setChecked; [exact Hy1a|exact Ly1]|].
    repeat split; apply setChecked_disabled; eexists; split;
      try eassumption; reflexivity.
  - eexists. split; [apply (setChecked_lookup_eq a2 true s _ La2)|reflexivity].
Qed.

Lemma layout_distinct (els : list Control) (y1 n1 y2 n2 a2 : nat) :
  prohibitorsLayout els y1 n1 y2 n2 a2 ->
  y1 ≠ n1 ∧ y1 ≠ a2 ∧ n1 ≠ a2 ∧ y2 ≠ n2 ∧ y2 ≠ a2 ∧ n2 ≠ a2
  ∧ y1 ∉ prohibitorNoRadios els.
Proof.
  intros Hlay.
  destruct (layout_lookups els els y1 n1 y2 n2 a2 Hlay
              (Forall2_keep_refl sameElement els))
    as ((cy1 & Ly1 & Iy1 & _ & Ny1) & (cn1 & Ln1 & In1 & _ & Nn1)
        & (cy2 & Ly2 & Iy2 & _) & (cn2 & Ln2 & In2 & _)
        & (ca2 & La2 & Ia2 & _)).
  assert (Hne : ∀ i j ci cj (a b : string),
            els !! i = Some ci -> els !! j = Some cj ->
            el_id ci = js a -> el_id cj = js b -> js a ≠ js b -> i ≠ j).
  { intros i j ci cj a b Hi Hj Ha Hb Hab ->. congruence. }
  repeat split;
    try (eapply Hne; [eassumption|eassumption|eassumption|eassumption|
                      discriminate]).
  intros Hin.
  assert (y1 = n1); [|subst; rewrite Ly1 in Ln1; injection Ln1 as <-;
                      rewrite Iy1 in In1; discriminate].
  eapply (layout_one_no_per_group _ _ _ _ _ _ Hlay);
    [exact Hin|apply (layout_q6m1_no_inside _ _ _ _ _ _ Hlay)
     |exact Ly1|exact Ln1|congruence].
Qed.
(** One turn of the loop of the "all no" listener. *)
Lemma allNo_step (els : list Control) (y1 n1 y2 n2 a2 : nat)
    (done : list nat) (r : nat) (st : list Control) :
  prohibitorsLayout els y1 n1 y2 n2 a2 ->
  (∀ i, i ∈ done -> i ∈ prohibitorNoRadios els) ->
  r ∈ prohibitorNoRadios els ->
  prohibitorsInv els y1 n1 y2 n2 a2 done st ->
  ((update (setChecked r true) >> dispatchChange r) st).2 = None
  ∧ prohibitorsInv els y1 n1 y2 n2 a2 (done ++ [r])
      ((update (setChecked r true) >> dispatchChange r) st).1.
Proof.
  intros Hlay Hdone Hr (Hrel & Hans & Hforced).
  unfold andThen, update.
  split; [rewrite dispatchChange_stages; reflexivity|].
  destruct (layout_distinct els y1 n1 y2 n2 a2 Hlay)
    as (Hyn1 & Hy1a & Hn1a & Hy2n2 & Hy2a & Hn2a & Hy1out).
  destruct (prohibitorNoRadios_spec els r Hr) as (cr0 & Hcr0 & Htyr0).
  destruct (Forall2_lookup_l _ _ _ _ _ Hrel Hcr0) as (cr & Hcr & Hsr).
  assert (Htyr : el_type cr = js "radio")
    by (destruct Hsr as (_ & _ & <- & _); exact Htyr0).
  assert (Hry1 : r ≠ y1) by (intros ->; contradiction).
  set (st1 := setChecked r true st).
  assert (Hrel1 : Forall2 sameElement els st1).
  { eapply Forall2_keep_trans; [apply _|exact Hrel|].
    apply setChecked_sameElement. }
  (* the buttons done so far, and this one, are answered NO *)
  assert (Hans1 : ∀ r0, r0 ∈ done ++ [r] -> answeredNo st1 r0).
  { intros r0 Hin. apply (answeredNo_setChecked st r0 r cr Hcr Htyr).
    intros Hne. apply elem_of_app in Hin as [Hin|Hin];
      [|apply list_elem_of_singleton in Hin; contradiction].
    split; [apply Hans, Hin|].
    intros c Hc Hnames.
    destruct (Forall2_lookup_r _ _ _ _ _ Hrel Hc) as (c0 & Hc0 & Hs0).
    apply Hne.
    eapply (layout_one_no_per_group _ _ _ _ _ _ Hlay);
      [apply Hdone, Hin|exact Hr|exact Hc0|exact Hcr0|].
    destruct Hs0 as (_ & -> & _). destruct Hsr as (_ & -> & _). exact Hnames. }
  destruct (decide (r = n1)) as [->|Hrn1].
  - (* the NO button of 6.m.1 *)
    destruct (layout_lookups els st y1 n1 y2 n2 a2 Hlay Hrel)
      as ((cy1 & Ly1 & _ & Ty1 & Ny1) & (cn1 & Ln1 & _ & Tn1 & Nn1) & _).
    assert (cn1 = cr) by congruence. subst cn1.
    assert (Hn1 : checkedAt st1 n1 true).
    { eexists. split; [apply (setChecked_lookup_eq n1 true st cr Hcr)|].
      reflexivity. }
    assert (Hy1 : checkedAt st1 y1 false).
    { eexists. split.
      - unfold st1.
        apply (setChecked_lookup_ne n1 y1 true st cr cy1 Hyn1 Hcr Ly1).
      - unfold isType. rewrite Tn1, Ty1, Nn1, Ny1. reflexivity. }
    destruct (dispatchChange_q6m1_no els st1 y1 n1 y2 n2 a2 Hlay Hrel1 Hy1 Hn1)
      as (s2 & Hk2 & Hk3).
    assert (Hrel2 : Forall2 sameElement els s2).
    { eapply Forall2_keep_trans; [apply _|exact Hrel1|].
      apply keptByOthers_sameElement, Hk2. }
    destruct (layout_lookups els s2 y1 n1 y2 n2 a2 Hlay Hrel2)
      as (_ & _ & (cy2 & Ly2 & _) & (cn2 & Ln2 & _)
          & (ca2 & La2 & _ & _ & Na2)).
    pose proof (forcedNotApplicable_outside y2 n2 a2 s2 ca2 La2 Na2) as Hout.
    assert (Hrel3 : Forall2 sameElement els (forcedNotApplicable y2 n2 a2 s2)).
    { eapply Forall2_keep_trans; [apply _|exact Hrel2|].
      apply keptOutside_sameElement, Hout. }
    split; [|split].
    + eapply Forall2_keep_trans; [apply _|exact Hrel3|].
      apply keptByOthers_sameElement, Hk3.
    + intros r0 Hin.
      eapply answeredNo_outside; [apply keptByOthers_outside, Hk3|].
      eapply answeredNo_outside; [exact Hout|].
      eapply answeredNo_outside; [apply keptByOthers_outside, Hk2|].
      apply Hans1, Hin.
    + intros _.
      eapply exceptionForced_kept; [exact Hlay|exact Hrel3|exact Hk3|].
      eapply forcedNotApplicable_forced; try eassumption.
      eapply checkedAt_kept; eassumption.
  - (* any other NO button *)
    assert (Hout : isInGroup "q6m1_nonimmigrant" r els = false).
    { rewrite (isInGroup_q6m1 els y1 n1 y2 n2 a2 r Hlay).
      apply bool_decide_eq_false_2. intros [?|?]; contradiction. }
    pose proof (dispatchChange_outside els st1 r Hrel1 Hout) as Hk.
    split; [|split].
    + eapply Forall2_keep_trans; [apply _|exact Hrel1|].
      apply keptByOthers_sameElement, Hk.
    + intros r0 Hin.
      eapply answeredNo_outside; [apply keptByOthers_outside, Hk|].
      apply Hans1, Hin.
    + intros Hin. apply elem_of_app in Hin as [Hin|Hin];
        [|apply list_elem_of_singleton in Hin; congruence].
      eapply exceptionForced_kept; [exact Hlay|exact Hrel1|exact Hk|].
      apply exceptionForced_setChecked; [exact Hry1|]. apply Hforced, Hin.
Qed.

Lemma andThen_normal (f g : Step) (st st' : list Control) :
  f st = (st', None) -> (f >> g) st = g st'.
Proof. intros H. unfold andThen. rewrite H. reflexivity. Qed.

Lemma allNo_loop (els : list Control) (y1 n1 y2 n2 a2 : nat)
    (todo : list nat) :
  prohibitorsLayout els y1 n1 y2 n2 a2 ->
  ∀ (done : list nat) (st : list Control),
    (∀ i, i ∈ done ++ todo -> i ∈ prohibitorNoRadios els) ->
    prohibitorsInv els y1 n1 y2 n2 a2 done st ->
    (forEachStep (λ radio, update (setChecked radio true)
                           >> dispatchChange radio) todo st).2 = None
    ∧ prohibitorsInv els y1 n1 y2 n2 a2 (done ++ todo)
        (forEachStep (λ radio, update (setChecked radio true)
                               >> dispatchChange radio) todo st).1.
Proof.
  intros Hlay. induction todo as [|r todo IH]; intros done st Hsub Hinv.
  - rewrite app_nil_r. split; [reflexivity|exact Hinv].
  - destruct (allNo_step els y1 n1 y2 n2 a2 done r st Hlay) as [Hnone Hinv'].
    + intros i Hi. apply Hsub, elem_of_app. left. exact Hi.
    + apply Hsub, elem_of_app. right. left.
    + exact Hinv.
    + destruct ((update (setChecked r true) >> dispatchChange r) st)
        as [st' thrown] eqn:Hbody.
      simpl in Hnone, Hinv'. subst thrown.
      cbn [forEachStep]. rewrite (andThen_normal _ _ _ _ Hbody).
      replace (done ++ r :: todo) with ((done ++ [r]) ++ todo)
        by (rewrite <- app_assoc; reflexivity).
      apply IH; [|exact Hinv'].
      intros i Hi. apply Hsub. rewrite <- app_assoc in Hi. exact Hi.
Qed.
Lemma withChecked_same (c : Control) : withChecked (el_checked c) c = c.
Proof. destruct c; reflexivity. Qed.

Lemma withDisabled_same (c : Control) : withDisabled (el_disabled c) c = c.
Proof. destruct c; reflexivity. Qed.

Lemma setDisabled_fixed (i : nat) (b : bool) (st : list Control) :
  disabledAt st i b -> setDisabled i b st = st.
Proof.
  intros (c & Hc & <-). eapply alter_fixed; [exact Hc|apply withDisabled_same].
Qed.

Lemma setChecked_fixed (i : nat) (st : list Control) :
  checkedAt st i true -> aloneInGroup st i -> setChecked i true st = st.
Proof.
  intros (c & Hc & Hck) Halone. apply list_eq. intros j.
  destruct (decide (j = i)) as [->|Hne].
  - rewrite (setChecked_lookup_eq i true st c Hc), Hc, <- Hck.
    rewrite withChecked_same. reflexivity.
  - destruct (st !! j) as [x|] eqn:Hx.
    + rewrite (setChecked_lookup_ne i j true st c x Hne Hc Hx).
      destruct (_ && _) eqn:Hg; [|reflexivity].
      apply andb_true_iff in Hg as [Hg Hname].
      apply andb_true_iff in Hg as [_ Hty].
      apply bool_decide_eq_true in Hname, Hty.
      rewrite <- (Halone c j x Hc Hx Hne Hty Hname).
      rewrite withChecked_same. reflexivity.
    + apply lookup_ge_None. rewrite setChecked_length.
      apply lookup_ge_None. exact Hx.
Qed.

Lemma aloneInGroup_setChecked (st : list Control) (r : nat) (c : Control) :
  st !! r = Some c -> el_type c = js "radio" ->
  Str.truthy (el_name c) = true ->
  aloneInGroup (setChecked r true st) r.
Proof.
  intros Hc Hty Htruthy c0 j cj Hc0 Hj Hne Htyj Hnmj.
  rewrite (setChecked_lookup_eq r true st c Hc) in Hc0. injection Hc0 as <-.
  cbn [el_name withChecked] in Hnmj.
  destruct (st !! j) as [x|] eqn:Hx.
  - rewrite (setChecked_lookup_ne r j true st c x Hne Hc Hx) in Hj.
    unfold isType in Hj. rewrite Hty, Htruthy in Hj.
    rewrite (bool_decide_eq_true_2 (js "radio" = js "radio")) in Hj
      by reflexivity.
    cbn [andb] in Hj.
    destruct (bool_decide (el_type x = js "radio")
              && bool_decide (el_name x = el_name c)) eqn:Hg;
      injection Hj as <-; [reflexivity|].
    exfalso. apply andb_false_iff in Hg as [Hg|Hg];
      apply bool_decide_eq_false in Hg; contradiction.
  - apply lookup_lt_Some in Hj. rewrite setChecked_length in Hj.
    apply lookup_ge_None in Hx. lia.
Qed.

Lemma aloneInGroup_kept (st st' : list Control) (r : nat) :
  Forall2 keptByOthers st st' -> aloneInGroup st r -> aloneInGroup st' r.
Proof.
  intros Hrel Halone c' j cj' Hc' Hj Hne Hty Hnm.
  destruct (Forall2_lookup_r _ _ _ _ _ Hrel Hc') as (c & Hc & Hs & _).
  destruct (Forall2_lookup_r _ _ _ _ _ Hrel Hj) as (cj & Hcj & Hsj & Hck & _).
  rewrite <- Hck. apply (Halone c j cj Hc Hcj Hne).
  - destruct Hsj as (_ & _ & -> & _). exact Hty.
  - destruct Hsj as (_ & -> & _). destruct Hs as (_ & -> & _). exact Hnm.
Qed.


Lemma prohibitorsForm_layout : prohibitorsLayout prohibitorsForm 2 3 4 5 6.
Proof.
  split.
  1-5: eexists; split; [vm_compute; reflexivity|split; reflexivity].
  - eexists. split; [vm_compute; reflexivity|].
    intros i. cbn [fmap list_fmap fst]. rewrite !elem_of_cons, elem_of_nil.
    tauto.
  - eexists. split; [vm_compute; reflexivity|].
    intros i. cbn [fmap list_fmap fst]. rewrite !elem_of_cons, elem_of_nil.
    tauto.
  - assert (H : prohibitorNoRadios prohibitorsForm = [1; 3; 5]%nat)
      by (vm_compute; reflexivity).
    rewrite H. rewrite !elem_of_cons. tauto.
  - assert (H : prohibitorNoRadios prohibitorsForm = [1; 3; 5]%nat)
      by (vm_compute; reflexivity).
    rewrite H. intros i j ci cj Hi Hj.
    rewrite !elem_of_cons, elem_of_nil in Hi, Hj.
    destruct Hi as [->|[->|[->|[]]]], Hj as [->|[->|[->|[]]]];
      intros [= <-] [= <-] Hname; try reflexivity; discriminate Hname.
Qed.


(** ** Base64 *)

Lemma sextet_high (x y : N) (k : N) :
  0 < k -> y < k -> (x * k + y) / k = x ∧ (x * k + y) mod k = y.
Proof.
  intros Hk Hy. split.
  - rewrite N.add_comm, N.div_add by lia. rewrite N.div_small by lia. lia.
  - rewrite N.add_comm, N.Div0.mod_add. apply N.mod_small. lia.
Qed.

Lemma byte_split (a k : N) : 0 < k -> a / k * k + a mod k = a.
Proof. intros. rewrite N.mul_comm. symmetry. apply N.div_mod. lia. Qed.

Lemma div_lt_16 (b : N) : b < 256 -> b / 16 < 16.
Proof. intros. apply N.Div0.div_lt_upper_bound. lia. Qed.

Lemma div_lt_4 (c : N) : c < 256 -> c / 64 < 4.
Proof. intros. apply N.Div0.div_lt_upper_bound. lia. Qed.

Lemma decode_group (a b c : N) :
  b < 256 -> c < 256 ->
  a / 4 * 4 + (a mod 4 * 16 + b / 16) / 16 = a
  ∧ (a mod 4 * 16 + b / 16) mod 16 * 16 + (b mod 16 * 4 + c / 64) / 4 = b
  ∧ (b mod 16 * 4 + c / 64) mod 4 * 64 + c mod 64 = c.
Proof.
  intros Hb Hc.
  destruct (sextet_high (a mod 4) (b / 16) 16 ltac:(lia) (div_lt_16 b Hb))
    as [-> ->].
  destruct (sextet_high (b mod 16) (c / 64) 4 ltac:(lia) (div_lt_4 c Hc))
    as [-> ->].
  repeat split; apply byte_split; lia.
Qed.

Lemma list_ind3 {A} (P : list A -> Prop) :
  P [] -> (∀ a, P [a]) -> (∀ a b, P [a; b]) ->
  (∀ a b c rest, P rest -> P (a :: b :: c :: rest)) ->
  ∀ l, P l.
Proof.
  intros H0 H1 H2 H3.
  fix IH 1. intros [|a [|b [|c rest]]].
  - exact H0.
  - apply H1.
  - apply H2.
  - apply H3, IH.
Qed.

Lemma decodeSextets_sextets (bytes : list N) :
  latin1 bytes -> Base64.decodeSextets (sextets bytes) = bytes.
Proof.
  induction bytes as [|a|a b|a b c rest IH] using list_ind3; intros Hall.
  - reflexivity.
  - cbn [sextets Base64.decodeSextets].
    destruct (sextet_high (a mod 4) 0 16 ltac:(lia) ltac:(lia)) as [H _].
    rewrite N.add_0_r in H. rewrite H, byte_split by lia. reflexivity.
  - inversion Hall as [|? ? _ Hb]; subst. inversion Hb as [|? ? Hb' _]; subst.
    cbn [sextets Base64.decodeSextets].
    destruct (sextet_high (a mod 4) (b / 16) 16 ltac:(lia) (div_lt_16 b Hb'))
      as [-> ->].
    destruct (sextet_high (b mod 16) 0 4 ltac:(lia) ltac:(lia)) as [H _].
    rewrite N.add_0_r in H. rewrite H, !byte_split by lia. reflexivity.
  - inversion Hall as [|? ? _ Hb]; subst. inversion Hb as [|? ? Hb' Hc]; subst.
    inversion Hc as [|? ? Hc' Hrest]; subst.
    cbn [sextets Base64.decodeSextets].
    destruct (decode_group a b c Hb' Hc') as (-> & -> & ->).
    rewrite IH by exact Hrest. reflexivity.
Qed.

Lemma sextets_lt_64 (bytes : list N) :
  latin1 bytes -> Forall (λ n, n < 64) (sextets bytes).
Proof.
  assert (H4 : ∀ a, a < 256 -> a / 4 < 64)
    by (intros; apply N.Div0.div_lt_upper_bound; lia).
  assert (Hm4 : ∀ a, a mod 4 < 4) by (intros; apply N.mod_lt; lia).
  assert (Hm16 : ∀ a, a mod 16 < 16) by (intros; apply N.mod_lt; lia).
  assert (Hm64 : ∀ a, a mod 64 < 64) by (intros; apply N.mod_lt; lia).
  induction bytes as [|a|a b|a b c rest IH] using list_ind3; intros Hall.
  - constructor.
  - inversion Hall; subst. cbn [sextets].
    repeat constructor; [auto|]. specialize (Hm4 a). lia.
  - inversion Hall as [|? ? Ha Hb]; subst. inversion Hb as [|? ? Hb' _]; subst.
    cbn [sextets]. pose proof (div_lt_16 b Hb').
    specialize (Hm4 a). specialize (Hm16 b).
    repeat constructor; [auto|lia|lia].
  - inversion Hall as [|? ? Ha Hb]; subst. inversion Hb as [|? ? Hb' Hc]; subst.
    inversion Hc as [|? ? Hc' Hrest]; subst.
    cbn [sextets]. pose proof (div_lt_16 b Hb'). pose proof (div_lt_4 c Hc').
    specialize (Hm4 a). specialize (Hm16 b). specialize (Hm64 c).
    repeat (constructor; [auto; lia|]). apply IH, Hrest.
Qed.

Lemma decodeSextet_encodeSextet (n : N) :
  n < 64 -> Base64.decodeSextet (Base64.encodeSextet n) = Some n.
Proof.
  intros H.
  assert (Hall : forallb (λ k, bool_decide
            (Base64.decodeSextet (Base64.encodeSextet (N.of_nat k))
             = Some (N.of_nat k))) (seq 0 64) = true)
    by (vm_compute; reflexivity).
  rewrite forallb_forall in Hall.
  specialize (Hall (N.to_nat n)). rewrite N2Nat.id in Hall.
  eapply bool_decide_eq_true_1, Hall, in_seq. lia.
Qed.

(** A character of the alphabet is no padding, no whitespace, and none of
    the two characters of the URL-safe variant. *)
Lemma encodeSextet_char (n : N) :
  n < 64 ->
  let c := Base64.encodeSextet n in
  c ≠ 61 ∧ c ≠ 45 ∧ c ≠ 95 ∧ Base64.isAsciiWhitespace c = false.
Proof.
  intros H.
  assert (Hall : forallb (λ k,
            let c := Base64.encodeSextet (N.of_nat k) in
            negb (c =? 61) && negb (c =? 45) && negb (c =? 95)
            && negb (Base64.isAsciiWhitespace c)) (seq 0 64) = true)
    by (vm_compute; reflexivity).
  rewrite forallb_forall in Hall.
  specialize (Hall (N.to_nat n)). rewrite N2Nat.id in Hall.
  cbv zeta in *.
  assert (Hin : In (N.to_nat n) (seq 0 64)) by (apply in_seq; lia).
  specialize (Hall Hin).
  repeat (apply andb_true_iff in Hall as [Hall ?]).
  repeat split;
    try (apply N.eqb_neq, negb_true_iff; assumption).
  apply negb_true_iff. assumption.
Qed.
Lemma padding_group (a b c : N) (rest : list N) :
  padding (a :: b :: c :: rest) = padding rest.
Proof.
  unfold padding.
  replace (length (a :: b :: c :: rest)) with (length rest + 1 * 3)%nat
    by (cbn [length]; lia).
  rewrite Nat.Div0.mod_add. reflexivity.
Qed.

Lemma encodeBytes_split (bytes : list N) :
  Base64.encodeBytes bytes
  = (Base64.encodeSextet <$> sextets bytes) ++ padding bytes.
Proof.
  induction bytes as [|a|a b|a b c rest IH] using list_ind3;
    try reflexivity.
  rewrite padding_group.
  cbn [Base64.encodeBytes sextets]. rewrite IH, !fmap_cons. reflexivity.
Qed.

(** The three shapes of an encoding: no padding after whole groups, two
    characters of padding after one byte, one after two. *)
Lemma sextets_shape (bytes : list N) :
  ∃ k : nat,
    (length (sextets bytes) = (4 * k)%nat ∧ padding bytes = [])
    ∨ (length (sextets bytes) = (4 * k + 2)%nat ∧ padding bytes = [61; 61])
    ∨ (length (sextets bytes) = (4 * k + 3)%nat ∧ padding bytes = [61]).
Proof.
  induction bytes as [|a|a b|a b c rest IH] using list_ind3.
  - exists 0%nat. left. split; reflexivity.
  - exists 0%nat. right. left. split; reflexivity.
  - exists 0%nat. right. right. split; reflexivity.
  - rewrite padding_group. cbn [sextets length].
    destruct IH as [k [[Hl ->]|[[Hl ->]|[Hl ->]]]]; exists (S k); rewrite Hl;
      [left|right; left|right; right]; split; try reflexivity; lia.
Qed.

Lemma mod_4_rest (k r : nat) : (r < 4 -> (4 * k + r) mod 4 = r)%nat.
Proof.
  intros Hr. rewrite Nat.add_comm, Nat.mul_comm, Nat.Div0.mod_add.
  apply Nat.mod_small, Hr.
Qed.

Lemma dropLeading_padding (n : nat) (s : jsstring) :
  dropLeading 61 (replicate n 61 ++ s) = dropLeading 61 s.
Proof. induction n as [|n IH]; [reflexivity|exact IH]. Qed.

Lemma dropLeading_other (s : jsstring) :
  Forall (λ c, c ≠ 61) s -> dropLeading 61 s = s.
Proof.
  intros [|c r Hc _]; [reflexivity|].
  cbn [dropLeading]. apply N.eqb_neq in Hc. rewrite Hc. reflexivity.
Qed.

Lemma rev_padding (n : nat) : rev (replicate n 61) = replicate n 61.
Proof.
  induction n as [|n IH]; [reflexivity|].
  cbn [replicate rev]. rewrite IH.
  clear IH. induction n as [|n IH]; [reflexivity|].
  cbn [replicate app]. rewrite IH. reflexivity.
Qed.

Lemma Forall_rev_1 {A} (P : A -> Prop) (l : list A) :
  Forall P l -> Forall P (rev l).
Proof.
  intros H. apply list.Forall_forall. intros x Hx.
  apply list_elem_of_In, in_rev, list_elem_of_In in Hx.
  revert x Hx. apply list.Forall_forall, H.
Qed.

Lemma stripPadding_padding (n : nat) (s : jsstring) :
  Forall (λ c, c ≠ 61) s -> stripPadding (s ++ replicate n 61) = s.
Proof.
  intros Hs. unfold stripPadding.
  rewrite rev_app_distr, rev_padding, dropLeading_padding.
  rewrite dropLeading_other by apply Forall_rev_1, Hs.
  apply rev_involutive.
Qed.

Lemma replaceAll_app (a b : N) (s t : jsstring) :
  replaceAll a b (s ++ t) = replaceAll a b s ++ replaceAll a b t.
Proof. apply fmap_app. Qed.

Lemma replaceAll_padding (a b : N) (n : nat) :
  a ≠ 61 -> replaceAll a b (replicate n 61) = replicate n 61.
Proof.
  intros Ha. induction n as [|n IH]; [reflexivity|].
  cbn [replicate]. unfold replaceAll in *. rewrite fmap_cons, IH.
  apply not_eq_sym, N.eqb_neq in Ha. rewrite Ha. reflexivity.
Qed.

(** The URL-safe variant of a character of the alphabet is no padding, and
    the substitutions of the decoder give the character back. *)
Lemma urlSafe_char (n : N) :
  n < 64 ->
  ∃ u, replaceAll 47 95 (replaceAll 43 45 [Base64.encodeSextet n]) = [u]
       ∧ u ≠ 61
       ∧ replaceAll 95 47 (replaceAll 45 43 [u]) = [Base64.encodeSextet n].
Proof.
  intros H.
  assert (Hall : forallb (λ k,
            let c := Base64.encodeSextet (N.of_nat k) in
            match replaceAll 47 95 (replaceAll 43 45 [c]) with
            | [u] => negb (u =? 61)
                     && bool_decide
                          (replaceAll 95 47 (replaceAll 45 43 [u]) = [c])
            | _ => false
            end) (seq 0 64) = true)
    by (vm_compute; reflexivity).
  rewrite forallb_forall in Hall.
  specialize (Hall (N.to_nat n)). rewrite N2Nat.id in Hall.
  cbv zeta in Hall.
  assert (Hin : In (N.to_nat n) (seq 0 64)) by (apply in_seq; lia).
  specialize (Hall Hin).
  destruct (replaceAll 47 95 (replaceAll 43 45 [Base64.encodeSextet n]))
    as [|u [|]]; try discriminate.
  apply andb_true_iff in Hall as [Hu Hback].
  exists u. split; [reflexivity|]. split.
  - apply N.eqb_neq, negb_true_iff, Hu.
  - apply bool_decide_eq_true_1 in Hback. exact Hback.
Qed.

Lemma urlSafe_chars (ns : list N) :
  Forall (λ n, n < 64) ns ->
  let safe := replaceAll 47 95 (replaceAll 43 45 (Base64.encodeSextet <$> ns)) in
  Forall (λ c, c ≠ 61) safe
  ∧ replaceAll 95 47 (replaceAll 45 43 safe) = Base64.encodeSextet <$> ns.
Proof.
  induction 1 as [|n ns Hn _ [IHa IHb]]; [split; [constructor|reflexivity]|].
  cbv zeta in *. rewrite fmap_cons.
  destruct (urlSafe_char n Hn) as (u & Hu & Hne & Hback).
  change (Base64.encodeSextet n :: (Base64.encodeSextet <$> ns))
    with ([Base64.encodeSextet n] ++ (Base64.encodeSextet <$> ns)).
  rewrite !replaceAll_app, Hu. split.
  - constructor; assumption.
  - rewrite Hback, IHb. reflexivity.
Qed.
Lemma filter_keeps_all {A} (f : A -> bool) (l : list A) :
  Forall (λ x, f x = true) l -> List.filter f l = l.
Proof.
  induction 1 as [|x l Hx _ IH]; [reflexivity|].
  cbn [List.filter]. rewrite Hx, IH. reflexivity.
Qed.

Lemma dropPadding_other (x : N) (r s : jsstring) :
  x ≠ 61 ->
  match x :: r with
  | 61 :: 61 :: r' => rev r'
  | 61 :: r' => rev r'
  | _ => s
  end = s.
Proof.
  intros Hx. destruct x as [|p]; [reflexivity|].
  do 6 (try (destruct p as [p|p|]; try reflexivity)).
  contradiction.
Qed.

Lemma dropPadding_one (x : N) (r s : jsstring) :
  x ≠ 61 ->
  match 61 :: x :: r with
  | 61 :: 61 :: r' => rev r'
  | 61 :: r' => rev r'
  | _ => s
  end = rev (x :: r).
Proof.
  intros Hx. destruct x as [|p]; [reflexivity|].
  do 6 (try (destruct p as [p|p|]; try reflexivity)).
  contradiction.
Qed.

Lemma dropPadding_padding (s pad : jsstring) :
  Forall (λ c, c ≠ 61) s ->
  pad = [] ∨ pad = [61; 61] ∨ pad = [61] ->
  (length (s ++ pad) mod 4 = 0)%nat ->
  Base64.dropPadding (s ++ pad) = s.
Proof.
  intros Hs Hpad Hlen. unfold Base64.dropPadding.
  rewrite Hlen. cbn [Nat.eqb]. rewrite rev_app_distr.
  apply Forall_rev_1 in Hs.
  destruct Hpad as [->|[->| ->]]; cbn [rev app].
  - rewrite app_nil_r. destruct (rev s) as [|x r] eqn:Hrev; [reflexivity|].
    inversion Hs; subst. apply dropPadding_other. assumption.
  - apply rev_involutive.
  - destruct (rev s) as [|x r] eqn:Hrev.
    + apply (f_equal (@rev N)) in Hrev. rewrite rev_involutive in Hrev.
      rewrite Hrev. reflexivity.
    + inversion Hs; subst. rewrite dropPadding_one by assumption.
      rewrite <- Hrev. apply rev_involutive.
Qed.

Lemma mapM_decodeSextet (ns : list N) :
  Forall (λ n, n < 64) ns ->
  mapM Base64.decodeSextet (Base64.encodeSextet <$> ns) = Some ns.
Proof.
  induction 1 as [|n ns Hn _ IH]; [reflexivity|].
  rewrite fmap_cons. cbn [mapM]. rewrite decodeSextet_encodeSextet by exact Hn.
  cbn. rewrite IH. reflexivity.
Qed.

Lemma encoded_chars (ns : list N) :
  Forall (λ n, n < 64) ns ->
  Forall (λ c, c ≠ 61 ∧ Base64.isAsciiWhitespace c = false)
    (Base64.encodeSextet <$> ns).
Proof.
  intros H. apply Forall_fmap. eapply list.Forall_impl; [exact H|].
  intros n Hn. cbn. destruct (encodeSextet_char n Hn) as (? & _ & _ & ?).
  split; assumption.
Qed.

(** [atob] gives back the bytes of an encoding. *)
Lemma atob_encoded (bytes : list N) :
  latin1 bytes ->
  Base64.atob ((Base64.encodeSextet <$> sextets bytes) ++ padding bytes)
  = Ok bytes.
Proof.
  intros Hbytes.
  pose proof (sextets_lt_64 bytes Hbytes) as Hlt.
  pose proof (encoded_chars _ Hlt) as Hchars.
  assert (Hne : Forall (λ c, c ≠ 61) (Base64.encodeSextet <$> sextets bytes))
    by (eapply list.Forall_impl; [exact Hchars|]; intros c [? _]; assumption).
  assert (Hlen : length (Base64.encodeSextet <$> sextets bytes)
                 = length (sextets bytes)) by apply length_fmap.
  destruct (sextets_shape bytes) as [k Hshape].
  assert (Hpad : padding bytes = [] ∨ padding bytes = [61; 61]
                 ∨ padding bytes = [61]).
  { destruct Hshape as [[_ ->]|[[_ ->]|[_ ->]]]; auto. }
  assert (Hfour : (length ((Base64.encodeSextet <$> sextets bytes)
                           ++ padding bytes) mod 4 = 0)%nat).
  { rewrite length_app, Hlen.
    destruct Hshape as [[-> ->]|[[-> ->]|[-> ->]]]; cbn [length].
    - apply (mod_4_rest k 0). lia.
    - replace (4 * k + 2 + 2)%nat with (4 * S k + 0)%nat by lia.
      apply mod_4_rest. lia.
    - replace (4 * k + 3 + 1)%nat with (4 * S k + 0)%nat by lia.
      apply mod_4_rest. lia. }
  assert (Hone : (length (Base64.encodeSextet <$> sextets bytes) mod 4 =? 1)%nat
                 = false).
  { rewrite Hlen. apply Nat.eqb_neq.
    destruct Hshape as [[-> _]|[[-> _]|[-> _]]].
    - rewrite <- (Nat.add_0_r (4 * k)), mod_4_rest by lia. lia.
    - rewrite mod_4_rest by lia. lia.
    - rewrite mod_4_rest by lia. lia. }
  unfold Base64.atob. rewrite filter_keeps_all.
  - rewrite dropPadding_padding by assumption.
    rewrite Hone, mapM_decodeSextet by exact Hlt.
    rewrite decodeSextets_sextets by exact Hbytes. reflexivity.
  - apply Forall_app. split.
    + eapply list.Forall_impl; [exact Hchars|]. intros c [_ ->]. reflexivity.
    + destruct Hpad as [->|[->| ->]]; repeat constructor.
Qed.

Lemma forallb_latin1 (s : jsstring) :
  latin1 s -> forallb (λ c, c <=? 255) s = true.
Proof.
  intros H. apply forallb_forall. intros c Hc.
  apply list_elem_of_In in Hc. apply N.leb_le.
  assert (c < 256) by (revert c Hc; apply list.Forall_forall, H). lia.
Qed.

(** A text of Latin-1 survives the trip through the fragment. *)
Lemma fragment_round_trip (text : jsstring) :
  latin1 text ->
  ∃ b, Base64.btoa text = Ok b
       ∧ let f := stripPadding (replaceAll 47 95 (replaceAll 43 45 b)) in
         let base64String := replaceAll 95 47 (replaceAll 45 43 f) in
         Base64.atob
           (base64String
            ++ replicate ((4 - length base64String mod 4) mod 4) 61)
         = Ok text.
Proof.
  intros Htext. exists (Base64.encodeBytes text). split.
  { unfold Base64.btoa. rewrite forallb_latin1 by exact Htext. reflexivity. }
  cbv zeta. rewrite encodeBytes_split.
  pose proof (sextets_lt_64 text Htext) as Hlt.
  destruct (urlSafe_chars _ Hlt) as [Hne Hback]. cbv zeta in Hne, Hback.
  assert (Hpad : ∃ n, padding text = replicate n 61)
    by (eexists; reflexivity).
  destruct Hpad as [n Hn].
  rewrite !replaceAll_app, Hn, !replaceAll_padding by discriminate.
  rewrite stripPadding_padding by exact Hne.
  rewrite Hback, length_fmap. clear n Hn.
  replace (replicate _ 61) with (padding text); [apply atob_encoded, Htext|].
  destruct (sextets_shape text) as [k [[-> ->]|[[-> ->]|[-> ->]]]].
  - rewrite <- (Nat.add_0_r (4 * k)), mod_4_rest by lia. reflexivity.
  - rewrite mod_4_rest by lia. reflexivity.
  - rewrite mod_4_rest by lia. reflexivity.
Qed.
(** ** JSON *)

Lemma latin1_no_surrogate (c : N) :
  c < 256 -> JSON.isHighSurrogate c = false ∧ JSON.isLowSurrogate c = false.
Proof.
  intros H. unfold JSON.isHighSurrogate, JSON.isLowSurrogate.
  assert ((55296 <=? c) = false) as -> by (apply N.leb_gt; lia).
  assert ((56320 <=? c) = false) as -> by (apply N.leb_gt; lia).
  split; reflexivity.
Qed.

Lemma quoteUnits_cons (c : N) (s : jsstring) :
  c < 256 -> JSON.quoteUnits (c :: s) = JSON.escapeUnit c ++ JSON.quoteUnits s.
Proof.
  intros H. destruct (latin1_no_surrogate c H) as [Hhigh _].
  cbn [JSON.quoteUnits]. destruct s as [|d s'].
  - rewrite app_nil_r. reflexivity.
  - rewrite Hhigh. reflexivity.
Qed.

Lemma control_cases (c : N) :
  c < 32 -> In c (N.of_nat <$> seq 0 32).
Proof.
  intros H. replace c with (N.of_nat (N.to_nat c)) by apply N2Nat.id.
  apply in_map, in_seq. lia.
Qed.

Lemma bind_pair {A B C} (m : option (A * B)) (f g : A -> B -> option C) :
  (∀ a b, f a b = g a b) ->
  ('(a, b) ← m; f a b) = ('(a, b) ← m; g a b).
Proof. intros H. destruct m as [[a b]|]; [apply H|reflexivity]. Qed.

(** Reading what was written for a code unit gives the code unit. *)
Lemma parseUnits_escapeUnit (c : N) (r : jsstring) :
  c < 256 ->
  JSON.parseUnits (JSON.escapeUnit c ++ r)
  = '(str, rest) ← JSON.parseUnits r; Some (c :: str, rest).
Proof.
  intros H. destruct (c <? 32) eqn:Hlow.
  - apply N.ltb_lt, control_cases in Hlow.
    vm_compute in Hlow.
    repeat (destruct Hlow as [<-|Hlow]; [reflexivity|]).
    contradiction.
  - destruct (latin1_no_surrogate c H) as [Hhigh Hlowsur].
    unfold JSON.escapeUnit. rewrite Hlow, Hhigh, Hlowsur.
    apply N.ltb_ge in Hlow.
    repeat match goal with
           | |- context [c =? ?k] =>
               destruct (N.eqb_spec c k); [subst c; try lia|]
           end;
      try reflexivity.
    cbn [orb app JSON.parseUnits].
    destruct (N.eqb_spec c 34); [contradiction|].
    destruct (N.eqb_spec c 92); [contradiction|].
    assert ((c <? 32) = false) as -> by (apply N.ltb_ge; lia).
    reflexivity.
Qed.

Lemma parseUnits_quoteUnits (s rest : jsstring) :
  latin1 s ->
  JSON.parseUnits (JSON.quoteUnits s ++ 34 :: rest) = Some (s, rest).
Proof.
  induction 1 as [|c s Hc _ IH]; [reflexivity|].
  rewrite quoteUnits_cons, <- app_assoc, parseUnits_escapeUnit, IH by exact Hc.
  reflexivity.
Qed.

Lemma escapeUnit_latin1 (c : N) : c < 256 -> latin1 (JSON.escapeUnit c).
Proof.
  intros H.
  assert (Hall : forallb (λ k, forallb (λ u, u <? 256)
                                 (JSON.escapeUnit (N.of_nat k)))
                   (seq 0 256) = true) by (vm_compute; reflexivity).
  rewrite forallb_forall in Hall.
  specialize (Hall (N.to_nat c)). rewrite N2Nat.id in Hall.
  assert (Hin : In (N.to_nat c) (seq 0 256)) by (apply in_seq; lia).
  specialize (Hall Hin). rewrite forallb_forall in Hall.
  apply list.Forall_forall. intros u Hu.
  apply N.ltb_lt, Hall, list_elem_of_In, Hu.
Qed.

Lemma quoteUnits_latin1 (s : jsstring) :
  latin1 s -> latin1 (JSON.quoteUnits s).
Proof.
  induction 1 as [|c s Hc _ IH]; [constructor|].
  rewrite quoteUnits_cons by exact Hc.
  apply Forall_app. split; [apply escapeUnit_latin1, Hc|exact IH].
Qed.

Lemma quote_latin1 (s : jsstring) : latin1 s -> latin1 (JSON.quote s).
Proof.
  intros H. unfold JSON.quote. constructor; [lia|].
  apply Forall_app. split; [apply quoteUnits_latin1, H|].
  constructor; [lia|constructor].
Qed.

Lemma join_latin1 (sep : jsstring) (ls : list jsstring) :
  latin1 sep -> Forall latin1 ls -> latin1 (Str.join sep ls).
Proof.
  intros Hsep. induction 1 as [|l ls Hl Hls IH]; [constructor|].
  cbn [Str.join]. destruct ls as [|l' ls']; [exact Hl|].
  apply Forall_app. split; [exact Hl|].
  apply Forall_app. split; [exact Hsep|exact IH].
Qed.
(** *** The equations of the parser *)

Lemma parseValue_quote (fuel : nat) (s : jsstring) :
  JSON.parseValue (S fuel) (34 :: s)
  = '(str, rest) ← JSON.parseUnits s; Some (JStr str, rest).
Proof. reflexivity. Qed.

Lemma parseValue_bracket (fuel : nat) (s : jsstring) :
  JSON.parseValue (S fuel) (91 :: 34 :: s)
  = JSON.parseElements fuel [] (34 :: s).
Proof. reflexivity. Qed.

Lemma parseValue_brace (fuel : nat) (s : jsstring) :
  JSON.parseValue (S fuel) (123 :: 34 :: s)
  = JSON.parseMembers fuel [] (34 :: s).
Proof. reflexivity. Qed.

Lemma parseElements_comma (fuel : nat) (acc : list JValue) (v : JValue)
    (s r : jsstring) :
  JSON.parseValue fuel s = Some (v, 44 :: r) ->
  JSON.parseElements (S fuel) acc s = JSON.parseElements fuel (acc ++ [v]) r.
Proof. intros H. cbn [JSON.parseElements]. rewrite H. reflexivity. Qed.

Lemma parseElements_bracket (fuel : nat) (acc : list JValue) (v : JValue)
    (s r : jsstring) :
  JSON.parseValue fuel s = Some (v, 93 :: r) ->
  JSON.parseElements (S fuel) acc s = Some (JArr (acc ++ [v]), r).
Proof. intros H. cbn [JSON.parseElements]. rewrite H. reflexivity. Qed.

Lemma parseMembers_comma (fuel : nat) (acc : Obj) (key : jsstring)
    (v : JValue) (s r2 r4 : jsstring) :
  JSON.parseUnits s = Some (key, 58 :: r2) ->
  JSON.parseValue fuel r2 = Some (v, 44 :: r4) ->
  JSON.parseMembers (S fuel) acc (34 :: s)
  = JSON.parseMembers fuel (Object.set key v acc) r4.
Proof.
  intros Hkey Hv. cbn [JSON.parseMembers].
  change (JSON.skipWhitespace (34 :: s)) with (34 :: s).
  cbn match. rewrite Hkey. cbn [mbind option_bind].
  change (JSON.skipWhitespace (58 :: r2)) with (58 :: r2).
  cbn match. rewrite Hv. reflexivity.
Qed.

Lemma parseMembers_brace (fuel : nat) (acc : Obj) (key : jsstring)
    (v : JValue) (s r2 r4 : jsstring) :
  JSON.parseUnits s = Some (key, 58 :: r2) ->
  JSON.parseValue fuel r2 = Some (v, 125 :: r4) ->
  JSON.parseMembers (S fuel) acc (34 :: s)
  = Some (JObj (Object.set key v acc), r4).
Proof.
  intros Hkey Hv. cbn [JSON.parseMembers].
  change (JSON.skipWhitespace (34 :: s)) with (34 :: s).
  cbn match. rewrite Hkey. cbn [mbind option_bind].
  change (JSON.skipWhitespace (58 :: r2)) with (58 :: r2).
  cbn match. rewrite Hv. reflexivity.
Qed.

(** *** Reading what [JSON.stringify] wrote *)

Lemma parseValue_string (fuel : nat) (s rest : jsstring) :
  latin1 s ->
  JSON.parseValue (S fuel) (JSON.stringify (JStr s) ++ rest)
  = Some (JStr s, rest).
Proof.
  intros Hs. change (JSON.stringify (JStr s)) with (JSON.quote s).
  unfold JSON.quote. cbn [app]. rewrite <- app_assoc. cbn [app].
  rewrite parseValue_quote, parseUnits_quoteUnits by exact Hs. reflexivity.
Qed.

Lemma parseValue_boolean (fuel : nat) (b : bool) (rest : jsstring) :
  JSON.parseValue (S fuel) (JSON.stringify (JBool b) ++ rest)
  = Some (JBool b, rest).
Proof. destruct b, rest; reflexivity. Qed.

Lemma join_cons (sep l : jsstring) (ls : list jsstring) :
  ls ≠ [] -> Str.join sep (l :: ls) = l ++ sep ++ Str.join sep ls.
Proof. destruct ls; [contradiction|reflexivity]. Qed.

Lemma parseElements_strings (l : list jsstring) :
  Forall latin1 l -> l ≠ [] ->
  ∀ (fuel : nat) (acc : list JValue) (rest : jsstring),
    (length l < fuel)%nat ->
    JSON.parseElements fuel acc
      (Str.join [44] (List.map JSON.stringify (JStr <$> l)) ++ 93 :: rest)
    = Some (JArr (acc ++ (JStr <$> l)), rest).
Proof.
  induction 1 as [|s l Hs Hl IH]; [contradiction|]. intros _ fuel acc rest Hfuel.
  destruct fuel as [|[|fuel]]; cbn [length] in Hfuel; try lia.
  destruct l as [|s' l'].
  - cbn [fmap list_fmap List.map Str.join].
    apply parseElements_bracket, parseValue_string, Hs.
  - rewrite fmap_cons. cbn [List.map]. rewrite join_cons by discriminate.
    rewrite <- !app_assoc. cbn [app].
    erewrite parseElements_comma by (apply parseValue_string, Hs).
    rewrite IH by (try discriminate; cbn [length] in *; lia).
    rewrite <- app_assoc. reflexivity.
Qed.

Lemma quote_length (s : jsstring) : (2 ≤ length (JSON.quote s))%nat.
Proof. unfold JSON.quote. cbn [length]. rewrite length_app. cbn [length]. lia. Qed.

Lemma join_strings_length (l : list jsstring) :
  (2 * length l
   ≤ length (Str.join [44%N] (List.map JSON.stringify (JStr <$> l))))%nat.
Proof.
  induction l as [|s l IH]; [cbn; lia|].
  destruct l as [|s' l'].
  - cbn [fmap list_fmap List.map Str.join length].
    pose proof (quote_length s) as H.
    change (JSON.stringify (JStr s)) with (JSON.quote s). lia.
  - rewrite fmap_cons. cbn [List.map]. rewrite join_cons by discriminate.
    rewrite !length_app. pose proof (quote_length s) as H.
    change (JSON.stringify (JStr s)) with (JSON.quote s).
    cbn [length] in *. lia.
Qed.

Lemma stringify_array (l : list JValue) :
  JSON.stringify (JArr l)
  = 91 :: Str.join [44] (List.map JSON.stringify l) ++ [93].
Proof. reflexivity. Qed.

Lemma stringify_object (data : Obj) :
  JSON.stringify (JObj data)
  = 123 :: Str.join [44] (List.map memberText data) ++ [125].
Proof. reflexivity. Qed.

Lemma parseValue_snapshot (v : JValue) (fuel : nat) (rest : jsstring) :
  snapshotValue v ->
  (length (JSON.stringify v) ≤ fuel)%nat ->
  JSON.parseValue fuel (JSON.stringify v ++ rest) = Some (v, rest).
Proof.
  intros [b|s Hs|l Hl] Hfuel.
  - destruct fuel; [destruct b; cbn in Hfuel; lia|]. apply parseValue_boolean.
  - destruct fuel.
    + pose proof (quote_length s).
      change (JSON.stringify (JStr s)) with (JSON.quote s) in Hfuel. lia.
    + apply parseValue_string, Hs.
  - rewrite stringify_array in *. cbn [length] in Hfuel.
    rewrite length_app in Hfuel. cbn [length] in Hfuel.
    pose proof (join_strings_length l) as Hjoin.
    destruct fuel as [|fuel]; [lia|].
    destruct l as [|s l']; [reflexivity|].
    cbn [app]. rewrite <- app_assoc. cbn [app].
    inversion Hl as [|? ? Hs Hl']; subst.
    rewrite fmap_cons in *. cbn [List.map] in *.
    assert (Hstart : ∃ t, Str.join [44]
              (JSON.stringify (JStr s) :: List.map JSON.stringify (JStr <$> l'))
              = 34 :: t).
    { destruct l'; eexists; reflexivity. }
    destruct Hstart as [t Ht]. rewrite Ht. cbn [app].
    rewrite parseValue_bracket.
    change (34 :: t ++ 93 :: rest) with ((34 :: t) ++ 93 :: rest).
    rewrite <- Ht.
    refine (parseElements_strings (s :: l') Hl _ fuel [] rest _);
      [discriminate|].
    cbn [length] in *. lia.
Qed.
Lemma memberText_quote (kv : jsstring * JValue) (rest : jsstring) :
  memberText kv ++ rest
  = 34 :: JSON.quoteUnits kv.1 ++ 34 :: 58 :: JSON.stringify kv.2 ++ rest.
Proof.
  unfold memberText, JSON.quote. cbn [app].
  rewrite <- !app_assoc. reflexivity.
Qed.

Lemma memberText_length (kv : jsstring * JValue) :
  (3 + length (JSON.stringify kv.2) ≤ length (memberText kv))%nat.
Proof.
  unfold memberText. rewrite !length_app.
  pose proof (quote_length kv.1). cbn [length Str.js] in *.
  change (length (js ":")) with 1%nat. lia.
Qed.

Lemma parseMembers_snapshot (data : Obj) :
  Forall (λ kv, latin1 kv.1 ∧ snapshotValue kv.2) data -> data ≠ [] ->
  ∀ (fuel : nat) (acc : Obj) (rest : jsstring),
    (length (Str.join [44%N] (List.map memberText data)) ≤ fuel)%nat ->
    JSON.parseMembers fuel acc
      (Str.join [44] (List.map memberText data) ++ 125 :: rest)
    = Some (JObj (foldl (λ o kv, Object.set kv.1 kv.2 o) acc data), rest).
Proof.
  induction 1 as [|kv data [Hk Hv] Hdata IH]; [contradiction|].
  intros _ fuel acc rest Hfuel.
  pose proof (memberText_length kv) as Hlen.
  destruct data as [|kv' data'].
  - cbn [List.map Str.join foldl] in *.
    destruct fuel as [|fuel]; [lia|].
    rewrite memberText_quote.
    eapply parseMembers_brace.
    + apply parseUnits_quoteUnits, Hk.
    + apply parseValue_snapshot; [exact Hv|lia].
  - cbn [List.map] in *. rewrite join_cons in * by discriminate.
    rewrite !length_app in Hfuel. cbn [length] in Hfuel.
    destruct fuel as [|fuel]; [lia|].
    rewrite <- app_assoc, memberText_quote. cbn [foldl].
    erewrite parseMembers_comma.
    + apply IH; [discriminate|]. cbn [List.map]. lia.
    + apply parseUnits_quoteUnits, Hk.
    + rewrite <- app_assoc. cbn [app].
      apply parseValue_snapshot; [exact Hv|lia].
Qed.

Lemma Object_set_fresh (k : jsstring) (v : JValue) (o : Obj) :
  k ∉ o.*1 -> Object.set k v o = o ++ [(k, v)].
Proof.
  induction o as [|[k' v'] o IH]; intros Hk; [reflexivity|].
  cbn [Object.set]. rewrite fmap_cons in Hk. cbn [fst] in Hk.
  apply not_elem_of_cons in Hk as [Hne Hk].
  destruct (decide (k = k')); [contradiction|].
  rewrite IH by exact Hk. reflexivity.
Qed.

(** Written one after the other, properties of distinct names come in the
    order of the writes. *)
Lemma Object_set_all (data acc : Obj) :
  NoDup (acc.*1 ++ data.*1) ->
  foldl (λ o kv, Object.set kv.1 kv.2 o) acc data = acc ++ data.
Proof.
  revert acc. induction data as [|[k v] data IH]; intros acc Hnd.
  - rewrite app_nil_r. reflexivity.
  - cbn [foldl fst snd]. rewrite fmap_cons in Hnd. cbn [fst] in Hnd.
    rewrite Object_set_fresh.
    + rewrite IH.
      * rewrite <- app_assoc. reflexivity.
      * rewrite fmap_app. cbn [fmap list_fmap fst].
        rewrite <- app_assoc. exact Hnd.
    + apply list.NoDup_app in Hnd as (_ & Hdisj & _).
      intros Hin. apply (Hdisj k Hin). left.
Qed.

(** [JSON.parse] reads back the snapshot [JSON.stringify] wrote. *)
Lemma parse_stringify (data : Obj) :
  latin1Snapshot data ->
  JSON.parse (JSON.stringify (JObj data)) = Ok (JObj data).
Proof.
  intros [Hnd Hall]. destruct data as [|kv data]; [reflexivity|].
  unfold JSON.parse. rewrite stringify_object.
  set (members := Str.join [44] (List.map memberText (kv :: data))).
  assert (Hstart : ∃ t, members = 34 :: t).
  { unfold members. cbn [List.map].
    destruct data; cbn [Str.join List.map]; unfold memberText, JSON.quote;
      eexists; reflexivity. }
  destruct Hstart as [t Ht].
  cbn [length]. rewrite length_app. cbn [length].
  replace (2 * S (length members + 1) + 2)%nat
    with (S (2 * length members + 5))%nat by lia.
  rewrite Ht at 2. cbn [app]. rewrite parseValue_brace.
  change (34 :: t ++ [125]) with ((34 :: t) ++ [125]). rewrite <- Ht.
  unfold members. rewrite parseMembers_snapshot.
  - rewrite Object_set_all by exact Hnd. reflexivity.
  - exact Hall.
  - discriminate.
  - fold members. lia.
Qed.

Lemma stringify_snapshot_latin1 (data : Obj) :
  latin1Snapshot data -> latin1 (JSON.stringify (JObj data)).
Proof.
  intros [_ Hall]. rewrite stringify_object.
  constructor; [lia|]. apply Forall_app. split; [|repeat constructor; lia].
  apply join_latin1; [repeat constructor; lia|].
  apply Forall_forall. intros text Htext.
  apply in_map_iff in Htext as ([k v] & <- & Hin).
  apply list_elem_of_In in Hin.
  assert (Hkv : latin1 k ∧ snapshotValue v)
    by (revert Hin; apply (proj1 (list.Forall_forall _ _) Hall)).
  destruct Hkv as [Hk Hv]. unfold memberText. cbn [fst snd].
  apply Forall_app. split; [apply quote_latin1, Hk|].
  apply Forall_app. split; [repeat constructor; vm_compute; reflexivity|].
  destruct Hv as [b|s Hs|l Hl].
  - destruct b; repeat constructor; vm_compute; reflexivity.
  - apply quote_latin1, Hs.
  - rewrite stringify_array. constructor; [lia|].
    apply Forall_app. split; [|repeat constructor; lia].
    apply join_latin1; [repeat constructor; lia|].
    apply Forall_forall. intros text Htext.
    apply in_map_iff in Htext as (x & <- & Hx).
    apply in_map_iff in Hx as (s & <- & Hs).
    apply quote_latin1. apply list_elem_of_In in Hs.
    revert s Hs. apply list.Forall_forall, Hl.
Qed.
(** ** Lines of a text area *)

Lemma join_split (sep : N) (s : jsstring) :
  Str.join [sep] (Str.split sep s) = s.
Proof.
  induction s as [|c s IH]; [reflexivity|].
  cbn [Str.split]. case_bool_decide as Hc.
  - subst c. pose proof (split_nonempty sep s) as Hne.
    destruct (Str.split sep s) as [|l ls] eqn:Hs; [contradiction|].
    change (Str.join [sep] ([] :: l :: ls))
      with ([] ++ [sep] ++ Str.join [sep] (l :: ls)).
    rewrite IH. reflexivity.
  - pose proof (split_nonempty sep s) as Hne.
    destruct (Str.split sep s) as [|l ls] eqn:Hs; [contradiction|].
    rewrite <- IH. destruct ls; reflexivity.
Qed.

Lemma join_app (sep : jsstring) (ls ls' : list jsstring) :
  ls ≠ [] -> ls' ≠ [] ->
  Str.join sep (ls ++ ls') = Str.join sep ls ++ sep ++ Str.join sep ls'.
Proof.
  intros Hne Hne'. induction ls as [|l ls IH]; [contradiction|].
  destruct ls as [|l2 ls].
  - destruct ls'; [contradiction|reflexivity].
  - change (Str.join sep ((l :: l2 :: ls) ++ ls'))
      with (l ++ sep ++ Str.join sep ((l2 :: ls) ++ ls')).
    rewrite IH by discriminate.
    change (Str.join sep (l :: l2 :: ls))
      with (l ++ sep ++ Str.join sep (l2 :: ls)).
    rewrite <- !app_assoc. reflexivity.
Qed.

Lemma maxLinesOf_pos (name : jsstring) (n : nat) :
  maxLinesOf name = Some n -> (0 < n)%nat.
Proof.
  unfold maxLinesOf. intros H.
  destruct (List.find _ textareaLineLimits) as [[k m]|] eqn:Hfind;
    [|discriminate].
  injection H as <-. apply find_some in Hfind as [Hin _].
  cbn [snd]. unfold textareaLineLimits in Hin. cbn [In] in Hin.
  repeat (destruct Hin as [[= _ <-]|Hin]; [lia|]). contradiction.
Qed.

Lemma limitLines_spec (n : nat) (v : jsstring) :
  (0 < n)%nat ->
  (length (Str.split 10 (limitLines n v)) ≤ n)%nat
  ∧ (∃ dropped, v = limitLines n v ++ dropped)
  ∧ ((length (Str.split 10 v) ≤ n)%nat -> limitLines n v = v).
Proof.
  intros Hpos. unfold limitLines. case_bool_decide as Hlong.
  - split; [|split].
    + rewrite split_join.
      * rewrite length_take. lia.
      * destruct (Str.split 10 v); [cbn in Hlong; lia|].
        destruct n; [lia|discriminate].
      * apply Forall_take, split_Forall.
    + exists (10 :: Str.join [10] (drop n (Str.split 10 v))).
      rewrite <- (join_split 10 v) at 1.
      rewrite <- (take_drop n (Str.split 10 v)) at 1.
      rewrite join_app; [reflexivity| |].
      * destruct (Str.split 10 v); [cbn in Hlong; lia|].
        destruct n; [lia|discriminate].
      * intros Hnil. apply (f_equal length) in Hnil.
        rewrite length_drop in Hnil. cbn in Hnil. lia.
    + lia.
  - split; [lia|]. split; [|reflexivity].
    exists []. rewrite app_nil_r. reflexivity.
Qed.
(** ** The shape of a snapshot *)

Lemma Object_set_elem (k k' : jsstring) (v v' : JValue) (o : Obj) :
  (k, v) ∈ Object.set k' v' o -> (k, v) = (k', v') ∨ (k, v) ∈ o.
Proof.
  induction o as [|[k0 v0] o IH]; cbn [Object.set].
  - intros H. apply list_elem_of_singleton in H. left. exact H.
  - destruct (decide (k' = k0)).
    + intros H. apply elem_of_cons in H as [H|H]; [left; exact H|].
      right. apply elem_of_cons. right. exact H.
    + intros H. apply elem_of_cons in H as [H|H].
      * right. rewrite H. apply elem_of_cons. left. reflexivity.
      * destruct (IH H) as [?|?]; [left; assumption|].
        right. apply elem_of_cons. right. assumption.
Qed.

Lemma Object_set_keys (k : jsstring) (v : JValue) (o : Obj) :
  (Object.set k v o).*1 = if decide (k ∈ o.*1) then o.*1 else o.*1 ++ [k].
Proof.
  induction o as [|[k0 v0] o IH]; cbn [Object.set].
  - destruct (decide (k ∈ [].*1)) as [H|H]; [inversion H|reflexivity].
  - destruct (decide (k = k0)) as [->|Hne].
    + rewrite !fmap_cons. cbn [fst].
      rewrite decide_True by (apply elem_of_cons; left; reflexivity).
      reflexivity.
    + rewrite !fmap_cons, IH. cbn [fst].
      destruct (decide (k ∈ o.*1)) as [Hin|Hnin].
      * rewrite decide_True by (apply elem_of_cons; right; exact Hin).
        reflexivity.
      * rewrite decide_False; [reflexivity|].
        intros H. apply elem_of_cons in H as [?|?]; contradiction.
Qed.

Lemma Object_set_NoDup (k : jsstring) (v : JValue) (o : Obj) :
  NoDup o.*1 -> NoDup (Object.set k v o).*1.
Proof.
  intros H. rewrite Object_set_keys.
  destruct (decide (k ∈ o.*1)) as [Hin|Hnin]; [exact H|].
  apply list.NoDup_app. split; [exact H|]. split.
  - intros x Hx Hx'. apply list_elem_of_singleton in Hx'. subst. contradiction.
  - apply NoDup_singleton.
Qed.

Lemma toUpperCase_nonempty (s : jsstring) :
  Str.truthy s = true -> Str.toUpperCase s ≠ [].
Proof.
  intros H Hnil. pose proof (toUpperCase_truthy s) as Ht.
  rewrite Hnil in Ht. cbn in Ht. congruence.
Qed.

Lemma truthy_nonempty (s : jsstring) : Str.truthy s = true -> s ≠ [].
Proof. destruct s; [discriminate|discriminate]. Qed.

(** One turn of the loop leaves the snapshot alone or writes one property
    for the control it looks at. *)
Lemma serializeControl_writes includeDefaults todayString elements
    (data : Obj) (processed : list jsstring) (el : Control) :
  let r := serializeControl includeDefaults todayString elements
             (data, processed) el in
  r.1 = data
  ∨ ∃ v, r.1 = Object.set (el_name el) v data ∧ writtenFor el (el_name el) v.
Proof.
  cbv zeta. unfold serializeControl.
  destruct (Str.truthy (el_name el)) eqn:Hname; [|left; reflexivity].
  destruct (el_disabled el) eqn:Hdis; [left; reflexivity|].
  cbn [negb orb].
  assert (Hw : ∀ v, snapshotShape v -> writtenFor el (el_name el) v).
  { intros v Hv. split; [reflexivity|]. split; [|split; assumption].
    apply truthy_nonempty, Hname. }
  repeat case_match; cbn [fst]; try (left; reflexivity);
    right; eexists; (split; [reflexivity|]); apply Hw;
    repeat match goal with
           | H : _ && _ = true |- _ => apply andb_true_iff in H as [? ?]
           end;
    unfold snapshotShape;
    first [ exact Logic.I
          | apply toUpperCase_nonempty; assumption
          | apply truthy_nonempty; assumption
          | split; [discriminate|];
            apply Forall_fmap, list.Forall_forall; intros x _;
            eexists; reflexivity ].
Qed.
Lemma serializeLoop_written includeDefaults todayString elements
    (els : list Control) :
  ∀ (data : Obj) (processed : list jsstring),
    let r := foldl (serializeControl includeDefaults todayString elements)
                   (data, processed) els in
    (NoDup data.*1 -> NoDup r.1.*1)
    ∧ ∀ k v, (k, v) ∈ r.1 ->
             (k, v) ∈ data ∨ ∃ el, el ∈ els ∧ writtenFor el k v.
Proof.
  induction els as [|el els IH]; intros data processed; cbn [foldl].
  - split; [auto|]. intros k v H. left. exact H.
  - pose proof (serializeControl_writes includeDefaults todayString elements
                  data processed el) as Hstep. cbv zeta in Hstep.
    destruct (serializeControl includeDefaults todayString elements
                (data, processed) el) as [data' processed'].
    cbn [fst] in Hstep. specialize (IH data' processed'). cbv zeta in IH.
    destruct IH as [IHnd IHin]. split.
    + intros Hnd. apply IHnd.
      destruct Hstep as [->|(v & -> & _)]; [exact Hnd|].
      apply Object_set_NoDup, Hnd.
    + intros k v Hin. destruct (IHin k v Hin) as [Hd|(el' & Hel' & Hw)].
      * destruct Hstep as [->|(v' & -> & Hw)]; [left; exact Hd|].
        apply Object_set_elem in Hd as [[= -> ->]|Hd]; [|left; exact Hd].
        right. exists el. split; [apply elem_of_cons; left; reflexivity|].
        exact Hw.
      * right. exists el'. split; [apply elem_of_cons; right; exact Hel'|].
        exact Hw.
Qed.

Lemma addSignature_written (manager : option SignatureManager) (data : Obj) :
  (NoDup data.*1 -> NoDup (addSignature manager data).*1)
  ∧ ∀ k v, (k, v) ∈ addSignature manager data ->
           (k, v) ∈ data ∨ (k = js "signature" ∧ snapshotShape v).
Proof.
  unfold addSignature.
  destruct manager as [[[payload|]]|]; try (split; [auto|]; intros; left; assumption).
  destruct (Str.truthy payload) eqn:Hp;
    [|split; [auto|]; intros; left; assumption].
  split; [apply Object_set_NoDup|].
  intros k v Hin. apply Object_set_elem in Hin as [[= -> ->]|Hin];
    [|left; exact Hin].
  right. split; [reflexivity|]. apply truthy_nonempty, Hp.
Qed.

(** The snapshot of a form: distinct names, each the name of an enabled
    control (or [signature]), each with a value of the shape above. *)
Lemma serializeForm_written includeDefaults (page : Page)
    (elements : list Control) (data : Obj) :
  nfaForm page = Some elements ->
  serializeForm includeDefaults page = Ok data ->
  NoDup data.*1
  ∧ ∀ k v, (k, v) ∈ data ->
           (k = js "signature" ∧ snapshotShape v)
           ∨ ∃ el, el ∈ elements ∧ writtenFor el k v.
Proof.
  intros Hform Hser. unfold serializeForm in Hser. rewrite Hform in Hser.
  injection Hser as <-.
  destruct (serializeLoop_written includeDefaults
              (getTodayYYYYMMDD (clock page)) elements elements [] [])
    as [Hnd Hin]. cbv zeta in Hnd, Hin.
  destruct (addSignature_written (signatureManager page)
              (foldl (serializeControl includeDefaults
                        (getTodayYYYYMMDD (clock page)) elements)
                     ([], []) elements).1) as [Hnd' Hin'].
  split; [apply Hnd', Hnd; constructor|].
  intros k v Hkv. destruct (Hin' k v Hkv) as [Hloop|Hsig]; [|left; exact Hsig].
  destruct (Hin k v Hloop) as [Hnil|Hw]; [inversion Hnil|right; exact Hw].
Qed.
(** ** What [includeDefaults] changes *)

Lemma serializeControl_defaults todayString elements (dt df : Obj)
    (processed : list jsstring) (el : Control) :
  (∀ k, k ≠ js "q3a_sameAs2" -> Object.get k dt = Object.get k df) ->
  let rt := serializeControl true todayString elements (dt, processed) el in
  let rf := serializeControl false todayString elements (df, processed) el in
  rt.2 = rf.2
  ∧ ∀ k, k ≠ js "q3a_sameAs2" -> Object.get k rt.1 = Object.get k rf.1.
Proof.
  intros Hsame. cbv zeta. unfold serializeControl.
  repeat case_match; cbn [fst snd]; (split; [reflexivity|]);
    try exact Hsame;
    intros k Hk; rewrite ?Object_get_set;
    repeat match goal with
           | |- context [decide (k = ?x)] => destruct (decide (k = x))
           end;
    subst; try contradiction; try reflexivity; auto.
  match goal with
  | H : bool_decide (_ = js "q3a_sameAs2") = true |- _ =>
      apply bool_decide_eq_true_1 in H; contradiction
  end.
Qed.

Lemma serializeLoop_defaults todayString elements (els : list Control) :
  ∀ (dt df : Obj) (processed : list jsstring),
    (∀ k, k ≠ js "q3a_sameAs2" -> Object.get k dt = Object.get k df) ->
    ∀ k, k ≠ js "q3a_sameAs2" ->
         Object.get k (foldl (serializeControl true todayString elements)
                             (dt, processed) els).1
         = Object.get k (foldl (serializeControl false todayString elements)
                               (df, processed) els).1.
Proof.
  induction els as [|el els IH]; intros dt df processed Hsame; cbn [foldl];
    [exact Hsame|].
  destruct (serializeControl_defaults todayString elements dt df processed el
              Hsame) as [Hp Hd]. cbv zeta in Hp, Hd.
  destruct (serializeControl true todayString elements (dt, processed) el)
    as [dt' pt].
  destruct (serializeControl false todayString elements (df, processed) el)
    as [df' pf].
  cbn [fst snd] in Hp, Hd. subst pf. apply IH, Hd.
Qed.

Lemma addSignature_get (manager : option SignatureManager) (d d' : Obj)
    (k : jsstring) :
  Object.get k d = Object.get k d' ->
  Object.get k (addSignature manager d) = Object.get k (addSignature manager d').
Proof.
  intros H. unfold addSignature.
  destruct manager as [[[payload|]]|]; try exact H.
  destruct (Str.truthy payload); [|exact H].
  rewrite !Object_get_set. destruct (decide (k = js "signature")); auto.
Qed.

(** ** Names that no control carries *)

Lemma deserializeFields_unknown (data : Obj) (els : list Control) :
  (∀ k, k ∈ data.*1 -> k ≠ js "signature" -> namedItem els k = ItemNull) ->
  deserializeFields data els = (els, None).
Proof.
  induction data as [|[k v] data IH]; intros Hall; [reflexivity|].
  cbn [deserializeFields]. case_bool_decide as Hsig.
  - apply IH. intros k' Hin. apply Hall. rewrite fmap_cons.
    apply elem_of_cons. right. exact Hin.
  - unfold deserializeField. rewrite Hall; [|left|exact Hsig].
    apply IH. intros k' Hin. apply Hall. rewrite fmap_cons.
    apply elem_of_cons. right. exact Hin.
Qed.

(** ** The alphabet of a fragment *)

Lemma urlSafe_alphabet_char (n : N) :
  n < 64 ->
  forallb urlSafe (replaceAll 47 95 (replaceAll 43 45 [Base64.encodeSextet n]))
  = true.
Proof.
  intros H.
  assert (Hall : forallb (λ k,
            forallb urlSafe
              (replaceAll 47 95
                 (replaceAll 43 45 [Base64.encodeSextet (N.of_nat k)])))
            (seq 0 64) = true) by (vm_compute; reflexivity).
  rewrite forallb_forall in Hall.
  specialize (Hall (N.to_nat n)). rewrite N2Nat.id in Hall.
  apply Hall, in_seq. lia.
Qed.

Lemma urlSafe_alphabet (ns : list N) :
  Forall (λ n, n < 64) ns ->
  forallb urlSafe
    (replaceAll 47 95 (replaceAll 43 45 (Base64.encodeSextet <$> ns))) = true.
Proof.
  induction 1 as [|n ns Hn _ IH]; [reflexivity|].
  rewrite fmap_cons.
  change (Base64.encodeSextet n :: (Base64.encodeSextet <$> ns))
    with ([Base64.encodeSextet n] ++ (Base64.encodeSextet <$> ns)).
  rewrite !replaceAll_app, forallb_app, urlSafe_alphabet_char, IH by exact Hn.
  reflexivity.
Qed.

Lemma latin1_forallb (s : jsstring) :
  forallb (λ c, c <=? 255) s = true -> latin1 s.
Proof.
  intros H. rewrite forallb_forall in H.
  apply list.Forall_forall. intros c Hc.
  apply list_elem_of_In, H, N.leb_le in Hc. lia.
Qed.

(** What the encoder makes of a text, in terms of its 6-bit groups. *)
Lemma btoa_sextets (text b : jsstring) :
  Base64.btoa text = Ok b ->
  latin1 text
  ∧ stripPadding (replaceAll 47 95 (replaceAll 43 45 b))
    = replaceAll 47 95
        (replaceAll 43 45 (Base64.encodeSextet <$> sextets text)).
Proof.
  unfold Base64.btoa. intros H.
  destruct (forallb _ text) eqn:Hbytes; [|discriminate].
  apply latin1_forallb in Hbytes. split; [exact Hbytes|].
  injection H as <-.
  rewrite encodeBytes_split, !replaceAll_app.
  unfold padding. rewrite !replaceAll_padding by discriminate.
  apply stripPadding_padding.
  apply (urlSafe_chars _ (sextets_lt_64 _ Hbytes)).
Qed.

Lemma encodeFragment_sextets (data : Obj) (f : jsstring) :
  encodeFragment data = Ok f ->
  latin1 (JSON.stringify (JObj data))
  ∧ f = replaceAll 47 95
          (replaceAll 43 45
             (Base64.encodeSextet <$> sextets (JSON.stringify (JObj data)))).
Proof.
  unfold encodeFragment. intros H.
  destruct (Base64.btoa (JSON.stringify (JObj data))) as [b|e] eqn:Hb;
    [|discriminate].
  apply btoa_sextets in Hb as [Hbytes Heq]. split; [exact Hbytes|].
  cbn [mbind Result_bind] in H. rewrite Heq in H. congruence.
Qed.

(** The fragment of a snapshot of Latin-1 decodes to the snapshot. *)
Lemma encodeFragment_decodes (data : Obj) :
  latin1Snapshot data ->
  ∃ f, encodeFragment data = Ok f
       ∧ decodeFragment (35 :: f) = Ok (JObj data).
Proof.
  intros Hdata.
  destruct (fragment_round_trip (JSON.stringify (JObj data))
              (stringify_snapshot_latin1 data Hdata)) as (b & Hb & Hback).
  unfold encodeFragment. rewrite Hb. cbn [mbind Result_bind].
  eexists. split; [reflexivity|].
  unfold decodeFragment. cbn [drop]. cbv zeta in Hback |- *.
  rewrite !drop_0, Hback. cbn [mbind Result_bind].
  apply parse_stringify, Hdata.
Qed.
Lemma isLatin1_spec (s : jsstring) : isLatin1 s = true -> latin1 s.
Proof.
  unfold isLatin1. intros H. rewrite forallb_forall in H.
  apply list.Forall_forall. intros c Hc.
  apply list_elem_of_In, H, N.ltb_lt in Hc. exact Hc.
Qed.

Lemma isSnapshotValue_spec (v : JValue) :
  isSnapshotValue v = true -> snapshotValue v.
Proof.
  destruct v as [|b|z|s|l|o]; cbn [isSnapshotValue]; try discriminate.
  - intros _. constructor.
  - intros H. constructor. apply isLatin1_spec, H.
  - intros H.
    assert (Hl : ∃ l', l = JStr <$> l' ∧ Forall latin1 l').
    { induction l as [|x l IH]; [exists []; split; [reflexivity|constructor]|].
      cbn [forallb] in H. apply andb_true_iff in H as [Hx Hl].
      destruct x as [| | |s| |]; try discriminate.
      destruct (IH Hl) as (l' & -> & Hall). exists (s :: l').
      split; [reflexivity|]. constructor; [apply isLatin1_spec, Hx|exact Hall]. }
    destruct Hl as (l' & -> & Hall). constructor. exact Hall.
Qed.

Lemma isLatin1Snapshot_spec (data : Obj) :
  isLatin1Snapshot data = true -> latin1Snapshot data.
Proof.
  unfold isLatin1Snapshot. intros H. apply andb_true_iff in H as [Hnd Hall].
  split; [apply bool_decide_eq_true_1 in Hnd; exact Hnd|].
  rewrite forallb_forall in Hall. apply list.Forall_forall. intros kv Hkv.
  apply list_elem_of_In, Hall, andb_true_iff in Hkv as [Hk Hv].
  split; [apply isLatin1_spec, Hk|apply isSnapshotValue_spec, Hv].
Qed.
(** ** Validation of the whole form *)

Lemma sameButClassList_fields (c c' : Control) :
  sameButClassList c c' ->
  el_id c = el_id c' ∧ el_name c = el_name c' ∧ el_value c = el_value c'.
Proof.
  unfold sameButClassList, withClassList. intros [= ? ? ? ? ? ? ? ?]. auto.
Qed.

Lemma sameButClassList_refl (c : Control) : sameButClassList c c.
Proof. reflexivity. Qed.

Lemma sameButClassList_trans (a b c : Control) :
  sameButClassList a b -> sameButClassList b c -> sameButClassList a c.
Proof. unfold sameButClassList. congruence. Qed.

Lemma Forall2_sameButClassList_trans (l1 l2 l3 : list Control) :
  Forall2 sameButClassList l1 l2 -> Forall2 sameButClassList l2 l3 ->
  Forall2 sameButClassList l1 l3.
Proof.
  intros H12. revert l3.
  induction H12; intros l3 H23; inversion H23; subst; constructor;
    eauto using sameButClassList_trans.
Qed.

Lemma alter_classes (f : Control -> Control) (i : nat) (els : list Control) :
  (∀ c, sameButClassList c (f c)) ->
  Forall2 sameButClassList els (alter f i els).
Proof.
  intros Hf. apply Forall2_alter_r.
  - apply Forall2_diag_refl, sameButClassList_refl.
  - intros x y _ _ Hxy. eapply sameButClassList_trans; [exact Hxy|apply Hf].
Qed.

Lemma classList_add_same (cls : jsstring) (c : Control) :
  sameButClassList c (classList_add cls c).
Proof. unfold classList_add. case_bool_decide; reflexivity. Qed.

Lemma classList_remove_same (cls : jsstring) (c : Control) :
  sameButClassList c (classList_remove cls c).
Proof. reflexivity. Qed.

Lemma classList_add_spec (cls : jsstring) (c : Control) :
  cls ∈ el_classList (classList_add cls c).
Proof.
  unfold classList_add. case_bool_decide as Hin; [exact Hin|].
  cbn [el_classList withClassList]. apply elem_of_app. right. left.
Qed.

Lemma namedItem_element (els : list Control) (key : jsstring) (i : nat)
    (c : Control) :
  namedItem els key = ItemElement i c -> els !! i = Some c.
Proof.
  intros H. pose proof (namedItem_lookup els key) as Hl.
  rewrite H in Hl. exact Hl.
Qed.

Lemma namedItem_classes (els els' : list Control) (key : jsstring) :
  Forall2 sameButClassList els els' ->
  itemRel sameButClassList (namedItem els key) (namedItem els' key).
Proof.
  apply namedItem_rel. intros c c' H.
  destruct (sameButClassList_fields c c' H) as (? & ? & _). auto.
Qed.

Lemma elementValid_classes (d : DateEnv) (c c' : Control) :
  sameButClassList c c' -> elementValid d c = elementValid d c'.
Proof.
  intros H. destruct (sameButClassList_fields c c' H) as (_ & Hn & Hv).
  unfold elementValid. rewrite Hn, Hv. reflexivity.
Qed.

Lemma passes_classes (d : DateEnv) (els els' : list Control)
    (name : jsstring) :
  Forall2 sameButClassList els els' -> passes d els name = passes d els' name.
Proof.
  intros Hrel. unfold passes.
  destruct (namedItem_classes els els' name Hrel); try reflexivity.
  apply elementValid_classes. assumption.
Qed.

(** One field: the verdict, and the marker set or taken off accordingly. *)
Lemma validateField_verdict (d : DateEnv) (st : ValidationState)
    (name : jsstring) :
  (∀ l, namedItem (fields st) name ≠ ItemList l) ->
  ∃ st',
    validateField d (namedItem (fields st) name) st
    = Ok (passes d (fields st) name, st')
    ∧ Forall2 sameButClassList (fields st) (fields st')
    ∧ ∀ j, (∀ el, namedItem (fields st) name = ItemElement j el ->
                  flaggedAt (fields st') j ↔ elementValid d el = false)
           ∧ ((∀ el, namedItem (fields st) name ≠ ItemElement j el) ->
              flaggedAt (fields st') j ↔ flaggedAt (fields st) j).
Proof.
  intros Hlist. unfold passes.
  destruct (namedItem (fields st) name) as [|i el|l] eqn:Hitem.
  - exists st. split; [reflexivity|]. split.
    + apply Forall2_diag_refl, sameButClassList_refl.
    + intros j. split; [discriminate|reflexivity].
  - apply namedItem_element in Hitem as Hl.
    cbn [validateField]. fold (elementValid d el).
    destruct (elementValid d el) eqn:Hvalid; eexists;
      (split; [reflexivity|]); cbn [fields]; (split;
        [apply alter_classes;
         first [apply classList_add_same|apply classList_remove_same]|]);
      intros j; split.
    + intros el' [= -> <-]. split; [|congruence].
      intros (c & Hc & Hin).
      rewrite list_lookup_alter_eq, Hl in Hc.
      change (Some (classList_remove (js "invalid-field") el) = Some c) in Hc.
      injection Hc as <-.
      exfalso. revert Hin. apply classList_remove_spec.
    + intros Hj. assert (Hne : j ≠ i) by (intros ->; eapply Hj; reflexivity).
      unfold flaggedAt. rewrite list_lookup_alter_ne by auto. reflexivity.
    + intros el' [= -> <-]. split; [intros _; exact Hvalid|]. intros _.
      eexists. rewrite list_lookup_alter_eq, Hl. split; [reflexivity|].
      apply classList_add_spec.
    + intros Hj. assert (Hne : j ≠ i) by (intros ->; eapply Hj; reflexivity).
      unfold flaggedAt. rewrite list_lookup_alter_ne by auto. reflexivity.
  - exfalso. eapply Hlist. reflexivity.
Qed.

Lemma resolves_dec (els : list Control) (names : list jsstring) (j : nat) :
  (∃ key el, key ∈ names ∧ namedItem els key = ItemElement j el)
  ∨ ∀ key el, key ∈ names -> namedItem els key ≠ ItemElement j el.
Proof.
  induction names as [|name names IH].
  - right. intros key el H. inversion H.
  - destruct IH as [(key & el & Hin & Hk)|Hnone].
    + left. exists key, el. split; [right; exact Hin|exact Hk].
    + destruct (namedItem els name) as [|i el|l] eqn:Hitem.
      * right. intros key el Hin. apply elem_of_cons in Hin as [->|Hin];
          [rewrite Hitem; discriminate|apply Hnone, Hin].
      * destruct (decide (i = j)) as [->|Hne].
        -- left. exists name, el. split; [left|exact Hitem].
        -- right. intros key el' Hin. apply elem_of_cons in Hin as [->|Hin];
             [rewrite Hitem; congruence|apply Hnone, Hin].
      * right. intros key el Hin. apply elem_of_cons in Hin as [->|Hin];
          [rewrite Hitem; discriminate|apply Hnone, Hin].
Qed.

(** The loop: the conjunction of the verdicts, every field looked at, and
    the markers in step with the verdicts. *)
Lemma validateAll_verdicts (d : DateEnv) (names : list jsstring) :
  ∀ (allValid : bool) (st : ValidationState),
    (∀ name l, name ∈ names -> namedItem (fields st) name ≠ ItemList l) ->
    ∃ st',
      validateAll d names allValid st
      = Ok (allValid && forallb (passes d (fields st)) names, st')
      ∧ Forall2 sameButClassList (fields st) (fields st')
      ∧ ∀ j, (∀ name el, name ∈ names ->
                         namedItem (fields st) name = ItemElement j el ->
                         flaggedAt (fields st') j ↔ elementValid d el = false)
             ∧ ((∀ name el, name ∈ names ->
                            namedItem (fields st) name ≠ ItemElement j el) ->
                flaggedAt (fields st') j ↔ flaggedAt (fields st) j).
Proof.
  induction names as [|name names IH]; intros allValid st Hlist.
  - exists st. cbn [validateAll forallb]. rewrite andb_true_r.
    split; [reflexivity|]. split.
    + apply Forall2_diag_refl, sameButClassList_refl.
    + intros j. split; [intros ? ? H; inversion H|reflexivity].
  - destruct (validateField_verdict d st name) as (st1 & Hv & Hrel1 & Hflag1).
    { intros l. apply Hlist. left. }
    assert (Hitems : ∀ key,
              itemRel sameButClassList (namedItem (fields st) key)
                                       (namedItem (fields st1) key))
      by (intros key; apply namedItem_classes, Hrel1).
    destruct (IH (allValid && passes d (fields st) name) st1)
      as (st' & Hall & Hrel & Hflag).
    { intros name' l Hin Hl. specialize (Hitems name').
      rewrite Hl in Hitems. inversion Hitems as [| |l0 ? ? Heq]; subst.
      eapply Hlist; [right; exact Hin|]. symmetry. eassumption. }
    exists st'. cbn [validateAll]. rewrite Hv. cbn [mbind Result_bind].
    rewrite Hall. split.
    { f_equal. f_equal. cbn [forallb]. rewrite andb_assoc. f_equal.
      clear -Hrel1. induction names as [|key names IHn]; [reflexivity|].
      cbn [forallb]. rewrite IHn.
      rewrite (passes_classes d (fields st) (fields st1) key Hrel1).
      reflexivity. }
    split; [eapply Forall2_sameButClassList_trans; eassumption|].
    assert (Hback : ∀ key j el,
              namedItem (fields st) key = ItemElement j el ->
              ∃ el', namedItem (fields st1) key = ItemElement j el'
                     ∧ elementValid d el' = elementValid d el).
    { intros key j el Hk. specialize (Hitems key). rewrite Hk in Hitems.
      inversion Hitems as [|? ? c' Hc|]; subst. exists c'.
      split; [reflexivity|]. symmetry. apply elementValid_classes, Hc. }
    assert (Hforth : ∀ key j el',
              namedItem (fields st1) key = ItemElement j el' ->
              ∃ el, namedItem (fields st) key = ItemElement j el).
    { intros key j el' Hk. specialize (Hitems key). rewrite Hk in Hitems.
      inversion Hitems as [|? c ? Hc|]; subst. exists c. reflexivity. }
    intros j. destruct (Hflag j) as [Hdone Hrest].
    destruct (Hflag1 j) as [Hdone1 Hrest1]. split.
    + intros key el Hin Hk.
      destruct (resolves_dec (fields st1) names j)
        as [(key' & el' & Hin' & Hk')|Hnone].
      * rewrite (Hdone key' el' Hin' Hk').
        destruct (Hforth _ _ _ Hk') as (el0 & Hk0).
        destruct (Hback _ _ _ Hk0) as (el1 & Hk1 & Hv1).
        rewrite Hk' in Hk1. injection Hk1 as <-.
        apply namedItem_element in Hk, Hk0. rewrite Hk in Hk0.
        injection Hk0 as <-. rewrite Hv1. reflexivity.
      * rewrite Hrest by exact Hnone.
        apply elem_of_cons in Hin as [->|Hin].
        -- apply Hdone1, Hk.
        -- destruct (Hback _ _ _ Hk) as (el1 & Hk1 & _).
           exfalso. eapply Hnone; eassumption.
    + intros Hnone. rewrite Hrest, Hrest1; [reflexivity| |].
      * intros el Hk. eapply Hnone; [left|exact Hk].
      * intros key el' Hin Hk. destruct (Hforth _ _ _ Hk) as (el & Hk0).
        eapply Hnone; [right; exact Hin|exact Hk0].
Qed.
(** ** The exception question *)

Lemma alter_missing (f : Control -> Control) (i : nat) (els : list Control) :
  els !! i = None -> alter f i els = els.
Proof.
  intros H. apply list_eq. intros j. rewrite list_lookup_alter.
  destruct (decide (i = j)) as [->|]; [rewrite H|]; reflexivity.
Qed.

Lemma setChecked_false (r : nat) (els : list Control) :
  setChecked r false els = alter (withChecked false) r els.
Proof.
  unfold setChecked. destruct (els !! r) eqn:Hr; [reflexivity|].
  symmetry. apply alter_missing, Hr.
Qed.

(** A loop that applies [g] at each position of [l]. *)
Lemma forEachStep_alter (g : Control -> Control) (f : nat -> Step)
    (l : list nat) :
  (∀ r els, f r els = (alter g r els, None)) ->
  (∀ c, g (g c) = g c) ->
  ∀ els,
    (forEachStep f l els).2 = None
    ∧ ∀ j, (forEachStep f l els).1 !! j
           = (if decide (j ∈ l) then g else id) <$> els !! j.
Proof.
  intros Hf Hg. induction l as [|i l IH]; intros els.
  - split; [reflexivity|]. intros j. cbn [forEachStep skip fst].
    rewrite decide_False by apply not_elem_of_nil.
    destruct (els !! j); reflexivity.
  - cbn [forEachStep]. unfold andThen. rewrite Hf.
    destruct (IH (alter g i els)) as [Hnone Hlook]. split; [exact Hnone|].
    intros j. rewrite Hlook, list_lookup_alter.
    destruct (decide (i = j)) as [->|Hne].
    + destruct (decide (j ∈ j :: l)) as [_|Hnot]; [|exfalso; apply Hnot; left].
      destruct (els !! j) as [c|]; [|destruct (decide (j ∈ l)); reflexivity].
      destruct (decide (j ∈ l)); cbn; [rewrite Hg|]; reflexivity.
    + destruct (decide (j ∈ l)) as [Hin|Hnin];
        destruct (decide (j ∈ i :: l)) as [Hin'|Hnin']; try reflexivity.
      * exfalso. apply Hnin'. right. exact Hin.
      * apply elem_of_cons in Hin' as [?|?]; [congruence|contradiction].
Qed.

Lemma forEachNamed_alter (g : Control -> Control) (f : nat -> Step)
    (name : string) (l : list (nat * Control)) (els : list Control) :
  (∀ r els, f r els = (alter g r els, None)) ->
  (∀ c, g (g c) = g c) ->
  namedItem els (js name) = ItemList l ->
  (forEachNamed name f els).2 = None
  ∧ ∀ j, (forEachNamed name f els).1 !! j
         = (if decide (j ∈ l.*1) then g else id) <$> els !! j.
Proof.
  intros Hf Hg Hitem. unfold forEachNamed. rewrite Hitem.
  apply forEachStep_alter; assumption.
Qed.

Lemma exceptionGroup_after (els st : list Control) (y1 n1 y2 n2 a2 : nat) :
  prohibitorsLayout els y1 n1 y2 n2 a2 ->
  Forall2 sameElement els st ->
  ∃ l, namedItem st (js "q6m2_exception") = ItemList l
       ∧ ∀ i, i ∈ l.*1 <-> i = y2 ∨ i = n2 ∨ i = a2.
Proof.
  intros Hlay Hrel. destruct (layout_q6m2_group _ _ _ _ _ _ Hlay) as (l & Hl & Hin).
  destruct (namedItem_sameElement_list els st _ l Hrel Hl) as (l' & Hl' & Heq).
  exists l'. split; [exact Hl'|]. rewrite Heq. exact Hin.
Qed.
(** [updateQ6m2] when the answer to 6.m.1 is YES. *)
Lemma updateQ6m2_yes (st : list Control) (y1 n1 y2 n2 a2 : nat)
    (cy1 cn1 cy2 cn2 ca2 : Control) :
  getElementById st (js "q6m1-yes") = Some (y1, cy1) ->
  getElementById st (js "q6m1-no") = Some (n1, cn1) ->
  getElementById st (js "q6m2-yes") = Some (y2, cy2) ->
  getElementById st (js "q6m2-no") = Some (n2, cn2) ->
  getElementById st (js "q6m2-na") = Some (a2, ca2) ->
  el_checked cy1 = true ->
  let enabled :=
    setDisabled a2 true (setDisabled n2 false (setDisabled y2 false st)) in
  updateQ6m2 st
  = if el_checked ca2
    then forEachNamed "q6m2_exception" (λ r, update (setChecked r false))
           enabled
    else (enabled, None).
Proof.
  intros Hy1 Hn1 Hy2 Hn2 Ha2 Hcy. cbv zeta.
  unfold updateQ6m2, withElement at 1 2.
  rewrite Hy1, Hn1, Hcy.
  unfold andThen, withElement, update.
  rewrite Hy2. cbn [fst snd].
  rewrite getElementById_setDisabled, Hn2.
  cbn [fmap option_fmap option_map fst snd].
  rewrite !getElementById_setDisabled, Ha2.
  cbn [fmap option_fmap option_map fst snd].
  rewrite !getElementById_setDisabled, Ha2.
  cbn [fmap option_fmap option_map fst snd].
  rewrite (decide_True (P := a2 = a2)) by reflexivity.
  cbn [el_checked withDisabled].
  repeat match goal with
         | |- context [decide (a2 = ?x)] => destruct (decide (a2 = x))
         end; cbn [el_checked withDisabled];
    destruct (el_checked ca2); reflexivity.
Qed.

(** [updateQ6m2] when 6.m.1 has no answer. *)
Lemma updateQ6m2_neither (st : list Control) (y1 n1 : nat)
    (cy1 cn1 : Control) :
  getElementById st (js "q6m1-yes") = Some (y1, cy1) ->
  getElementById st (js "q6m1-no") = Some (n1, cn1) ->
  el_checked cy1 = false -> el_checked cn1 = false ->
  updateQ6m2 st
  = forEachNamed "q6m2_exception"
      (λ r, update (setDisabled r true) >> update (setChecked r false)) st.
Proof.
  intros Hy1 Hn1 Hcy Hcn. unfold updateQ6m2, withElement at 1 2.
  rewrite Hy1, Hn1, Hcy, Hcn. reflexivity.
Qed.
(** ** The name of the generated file *)

Lemma dropWhile_suffix (p : N -> bool) (s : jsstring) :
  ∃ dropped, s = dropped ++ dropWhile p s.
Proof.
  induction s as [|c s [d IH]]; [exists []; reflexivity|].
  cbn [dropWhile]. destruct (p c).
  - exists (c :: d). cbn [app]. rewrite <- IH. reflexivity.
  - exists []. reflexivity.
Qed.

Lemma dropWhile_head (p : N -> bool) (s : jsstring) (c : N) (rest : jsstring) :
  dropWhile p s = c :: rest -> p c = false.
Proof.
  induction s as [|x s IH]; [discriminate|].
  cbn [dropWhile]. destruct (p x) eqn:Hx; [exact IH|].
  intros [= -> _]. exact Hx.
Qed.

Lemma dropWhile_Forall (P : N -> Prop) (p : N -> bool) (s : jsstring) :
  Forall P s -> Forall P (dropWhile p s).
Proof.
  induction 1 as [|c s Hc Hs IH]; [constructor|].
  cbn [dropWhile]. destruct (p c); [exact IH|constructor; assumption].
Qed.

Lemma replaceRunsFrom_Forall (P : N -> Prop) (p : N -> bool) (by_ : N)
    (s : jsstring) :
  P by_ -> Forall (λ c, p c = false -> P c) s ->
  ∀ inRun, Forall P (replaceRunsFrom p by_ inRun s).
Proof.
  intros Hby. induction 1 as [|c s Hc Hs IH]; intros inRun; [constructor|].
  cbn [replaceRunsFrom]. destruct (p c) eqn:Hp.
  - destruct inRun; [apply IH|constructor; [exact Hby|apply IH]].
  - constructor; [apply Hc; reflexivity|apply IH].
Qed.

(** Stripping at the end: what is left is a prefix. *)
Lemma stripEnd_prefix (p : N -> bool) (s : jsstring) :
  ∃ dropped, s = rev (dropWhile p (rev s)) ++ dropped.
Proof.
  destruct (dropWhile_suffix p (rev s)) as [d Hd].
  exists (rev d). rewrite <- rev_app_distr, <- Hd. symmetry.
  apply rev_involutive.
Qed.

Lemma stripEnd_last (p : N -> bool) (s before : jsstring) (c : N) :
  rev (dropWhile p (rev s)) = before ++ [c] -> p c = false.
Proof.
  intros H. apply (f_equal (@rev N)) in H.
  rewrite rev_involutive, rev_app_distr in H. cbn [rev app] in H.
  eapply dropWhile_head, H.
Qed.

(** Collapsing the runs of underscores leaves no two in a row. *)
Lemma hasDoubleUnderscore_cons (c : N) (s : jsstring) :
  hasDoubleUnderscore (c :: s) ->
  (c = 95 ∧ ∃ rest, s = 95 :: rest) ∨ hasDoubleUnderscore s.
Proof.
  intros ([|b before] & after & H); cbn [app] in H.
  - injection H as -> ->. left. split; [reflexivity|]. eexists. reflexivity.
  - injection H as -> ->. right. exists before, after. reflexivity.
Qed.

Lemma collapse_no_run (s : jsstring) :
  ∀ inRun,
    ¬ hasDoubleUnderscore (replaceRunsFrom (λ c, c =? 95) 95 inRun s)
    ∧ (inRun = true ->
       ∀ rest, replaceRunsFrom (λ c, c =? 95) 95 inRun s ≠ 95 :: rest).
Proof.
  induction s as [|c s IH]; intros inRun.
  - split; [|discriminate]. intros ([|? ?] & ? & H); discriminate.
  - cbn [replaceRunsFrom]. destruct (N.eqb_spec c 95) as [->|Hc].
    + destruct inRun.
      * apply IH.
      * destruct (IH true) as [Hno Hhead]. split; [|discriminate].
        intros H. apply hasDoubleUnderscore_cons in H as [[_ [rest Hr]]|H];
          [|contradiction].
        eapply Hhead; [reflexivity|exact Hr].
    + destruct (IH false) as [Hno _]. split.
      * intros H. apply hasDoubleUnderscore_cons in H as [[? _]|H];
          contradiction.
      * intros _ rest [= ? _]. contradiction.
Qed.

Lemma hasDoubleUnderscore_app (s before after : jsstring) :
  hasDoubleUnderscore s -> hasDoubleUnderscore (before ++ s ++ after).
Proof.
  intros (b & a & ->). exists (before ++ b), (a ++ after).
  rewrite <- !app_assoc. reflexivity.
Qed.

Lemma hasDoubleUnderscore_rev (s : jsstring) :
  hasDoubleUnderscore (rev s) -> hasDoubleUnderscore s.
Proof.
  intros (b & a & H). exists (rev a), (rev b).
  apply (f_equal (@rev N)) in H. rewrite rev_involutive in H. rewrite H.
  rewrite !rev_app_distr. cbn [rev app]. rewrite <- !app_assoc. reflexivity.
Qed.

Lemma filter_Forall_true (p : N -> bool) (s : jsstring) :
  Forall (λ c, p c = true) (List.filter p s).
Proof.
  apply list.Forall_forall. intros c Hc.
  apply list_elem_of_In, filter_In in Hc. tauto.
Qed.

Lemma Forall_rev_2 {A} (P : A -> Prop) (l : list A) :
  Forall P (rev l) -> Forall P l.
Proof. intros H. rewrite <- (rev_involutive l). apply Forall_rev_1, H. Qed.

Lemma join_Forall (P : N -> Prop) (sep : jsstring) (ls : list jsstring) :
  Forall P sep -> Forall (Forall P) ls -> Forall P (Str.join sep ls).
Proof.
  intros Hsep. induction 1 as [|l ls Hl Hls IH]; [constructor|].
  cbn [Str.join]. destruct ls as [|l' ls']; [exact Hl|].
  apply Forall_app. split; [exact Hl|].
  apply Forall_app. split; [exact Hsep|exact IH].
Qed.

Lemma forallb_Forall (p : N -> bool) (s : jsstring) :
  forallb p s = true <-> Forall (λ c, p c = true) s.
Proof.
  rewrite forallb_forall, list.Forall_forall. split; intros H c Hc.
  - apply H, list_elem_of_In, Hc.
  - apply H, list_elem_of_In, Hc.
Qed.

Lemma sanitizeFilenameComponent_units (str : jsstring) :
  Forall (λ c, isFilenameUnit c = true) (sanitizeFilenameComponent str).
Proof.
  unfold sanitizeFilenameComponent, Str.substring. cbv zeta.
  apply Forall_take. rewrite drop_0.
  apply Forall_rev_1, dropWhile_Forall, Forall_rev_1, dropWhile_Forall.
  apply replaceRunsFrom_Forall; [reflexivity|].
  eapply list.Forall_impl; [apply filter_Forall_true|]. auto.
Qed.

Lemma pushSanitized_units (value : option JValue)
    (components components' : list jsstring) :
  pushSanitized value components = Ok components' ->
  (∃ more, components' = components ++ more)
  ∧ (Forall (Forall (λ c, isFilenameUnit c = true)) components ->
     Forall (Forall (λ c, isFilenameUnit c = true)) components').
Proof.
  unfold pushSanitized. destruct value as [v|].
  - destruct (truthy v).
    + destruct v; try discriminate. intros [= <-].
      split; [eexists; reflexivity|]. intros H. apply Forall_app.
      split; [exact H|]. constructor; [|constructor].
      apply sanitizeFilenameComponent_units.
    + intros [= <-]. split; [exists []; symmetry; apply app_nil_r|auto].
  - intros [= <-]. split; [exists []; symmetry; apply app_nil_r|auto].
Qed.
(** ** The fields of the PDF form *)

Lemma Map_get_set (k k' : WidgetKey) (v : Answer) (m : PdfFields) :
  Map.get k (Map.set k' v m) = if decide (k = k') then Some v else Map.get k m.
Proof.
  induction m as [|[k0 v0] m IH]; cbn [Map.set Map.get].
  - destruct (decide (k = k')); reflexivity.
  - destruct (decide (k' = k0)) as [->|Hne]; cbn [Map.get].
    + destruct (decide (k = k0)); reflexivity.
    + destruct (decide (k = k0)) as [->|Hne'].
      * rewrite decide_False by congruence. reflexivity.
      * exact IH.
Qed.

Lemma preserves_nothing (k : WidgetKey) : preserves k nothing.
Proof. intros m m' [= <-]. reflexivity. Qed.

Lemma preserves_fill (k : WidgetKey) (widget : string) (a : Answer) :
  bool_decide (k = Widget (js widget)) = false -> preserves k (fill widget a).
Proof.
  intros Hne m m' [= <-]. rewrite Map_get_set.
  apply bool_decide_eq_false_1 in Hne. rewrite decide_False by exact Hne.
  reflexivity.
Qed.

Lemma preserves_thenFill (k : WidgetKey) (f g : Filler) :
  preserves k f -> preserves k g -> preserves k (f >>> g).
Proof.
  intros Hf Hg m m' H. unfold thenFill in H.
  destruct (f m) as [m1|] eqn:Hm1; [|discriminate].
  cbn [mbind Result_bind] in H.
  rewrite (Hg _ _ H). apply Hf, Hm1.
Qed.

Lemma preserves_withText (k : WidgetKey) (text : Result jsstring)
    (f : jsstring -> Filler) :
  (∀ s, preserves k (f s)) -> preserves k (withText text f).
Proof.
  intros Hf m m' H. unfold withText in H.
  destruct text as [s|]; [|discriminate]. exact (Hf s _ _ H).
Qed.

Lemma preserves_bind {A} (k : WidgetKey) (r : Result A) (f : A -> Filler) :
  (∀ a, preserves k (f a)) -> preserves k (λ m, a ← r; f a m).
Proof.
  intros Hf m m' H. destruct r as [a|]; [|discriminate]. exact (Hf a _ _ H).
Qed.

Lemma lookupWidget_found (table : list (string * string)) (key : jsstring)
    (k : WidgetKey) :
  lookupWidget table key = Some k ->
  k ∈ (λ kv : string * string, Widget (js kv.2)) <$> table
  ∨ ∃ p, k = Inherited p.
Proof.
  unfold lookupWidget.
  destruct (List.find _ table) as [kv|] eqn:Hfind.
  - intros [= <-]. left. apply find_some in Hfind as [Hin _].
    apply list_elem_of_fmap. exists kv. split; [reflexivity|].
    apply list_elem_of_In, Hin.
  - case_bool_decide; [|discriminate]. intros [= <-]. right. eauto.
Qed.

Lemma preserves_fillChoice (w : jsstring) (formData : Obj) (field : string)
    (table : list (string * string)) :
  bool_decide (Widget w ∈ (λ kv : string * string, Widget (js kv.2)) <$> table)
  = false ->
  preserves (Widget w) (fillChoice formData field table).
Proof.
  intros Hnot. apply bool_decide_eq_false_1 in Hnot.
  unfold fillChoice. destruct (Object.get (js field) formData) as [v|];
    [|apply preserves_nothing].
  destruct (truthy v); [|apply preserves_nothing].
  apply preserves_withText. intros key m m'.
  destruct (lookupWidget table key) as [k|] eqn:Hk; intros [= <-];
    [|reflexivity].
  rewrite Map_get_set. apply lookupWidget_found in Hk as [Hin|[p ->]].
  - rewrite decide_False; [reflexivity|]. intros <-. contradiction.
  - rewrite decide_False by discriminate. reflexivity.
Qed.

Lemma preserves_fillText (k : WidgetKey) (formData : Obj)
    (field widget : string) :
  bool_decide (k = Widget (js widget)) = false ->
  preserves k (fillText formData field widget).
Proof.
  intros Hne. unfold fillText.
  destruct (given _); [|apply preserves_nothing].
  apply preserves_withText. intros s. apply preserves_fill, Hne.
Qed.

Lemma preserves_fillLines (k : WidgetKey) (formData : Obj)
    (first second widget : string) :
  bool_decide (k = Widget (js widget)) = false ->
  preserves k (fillLines formData first second widget).
Proof.
  intros Hne. unfold fillLines.
  destruct (_ || _); [|apply preserves_nothing].
  apply preserves_withText. intros a. apply preserves_withText. intros b.
  cbv zeta. destruct (Str.truthy _); [|apply preserves_nothing].
  apply preserves_fill, Hne.
Qed.

Lemma preserves_fillProhibitor (k : WidgetKey) (formData : Obj)
    (formField yesWidget noWidget : string) :
  bool_decide (k = Widget (js yesWidget)) = false ->
  bool_decide (k = Widget (js noWidget)) = false ->
  preserves k (fillProhibitor formData
                 (prohibitorRow formField yesWidget noWidget)).
Proof.
  intros Hyes Hno. unfold fillProhibitor, prohibitorRow.
  destruct (equals "YES" _); [apply preserves_fill, Hyes|].
  destruct (equals "NO" _); [apply preserves_fill, Hno|].
  apply preserves_nothing.
Qed.

(** Goes through a filler, leaving the comparisons of widget names to
    computation. *)
Ltac preserved :=
  repeat first
    [ apply preserves_nothing
    | apply preserves_thenFill
    | apply preserves_fillText; vm_compute; reflexivity
    | apply preserves_fillLines; vm_compute; reflexivity
    | apply preserves_fillChoice; vm_compute; reflexivity
    | apply preserves_fillProhibitor; vm_compute; reflexivity
    | apply preserves_fill; vm_compute; reflexivity
    | apply preserves_withText; intros ?
    | apply preserves_bind; intros ?
    | match goal with
      | |- preserves _ (if ?b then _ else _) => destruct b
      | |- preserves _ (match ?x with _ => _ end) => destruct x
      | |- preserves _ (let _ := _ in _) => cbv zeta
      end ].
Lemma thenFill_inv (f g : Filler) (m m' : PdfFields) :
  (f >>> g) m = Ok m' -> ∃ m1, f m = Ok m1 ∧ g m1 = Ok m'.
Proof.
  unfold thenFill. destruct (f m) as [m1|]; [|discriminate].
  intros H. exists m1. split; [reflexivity|exact H].
Qed.

(** Past a step that leaves [k] alone. *)
Lemma thenFill_skip (k : WidgetKey) (v : option Answer) (f g : Filler)
    (m m' : PdfFields) :
  preserves k f -> Map.get k m = v -> (f >>> g) m = Ok m' ->
  ∃ m1, Map.get k m1 = v ∧ g m1 = Ok m'.
Proof.
  intros Hf Hv H. apply thenFill_inv in H as (m1 & H1 & H2).
  exists m1. split; [rewrite (Hf _ _ H1); exact Hv|exact H2].
Qed.

(** The loop over the prohibitors, seen from one of them. *)
Lemma forEachFill_prohibitors (formData : Obj)
    (rows : list (string * (string * string))) :
  NoDup (widgetsOf rows) ->
  ∀ (m m' : PdfFields) (formField yesWidget noWidget : string),
    forEachFill (fillProhibitor formData) rows m = Ok m' ->
    (formField, (yesWidget, noWidget)) ∈ rows ->
    Map.get (Widget (js yesWidget)) m'
    = (if equals "YES" (property formData formField) then Some SELECTED
       else Map.get (Widget (js yesWidget)) m)
    ∧ Map.get (Widget (js noWidget)) m'
      = (if equals "YES" (property formData formField)
         then Map.get (Widget (js noWidget)) m
         else if equals "NO" (property formData formField) then Some SELECTED
              else Map.get (Widget (js noWidget)) m).
Proof.
  induction rows as [|[f0 [y0 n0]] rows IH]; intros Hnd m m' field yes no Hrun Hin.
  - inversion Hin.
  - unfold widgetsOf in Hnd. cbn [mbind list_bind app snd fst] in Hnd.
    fold (widgetsOf rows) in Hnd.
    apply list.NoDup_cons in Hnd as [Hy0 Hnd].
    apply list.NoDup_cons in Hnd as [Hn0 Hnd].
    assert (Hrest : ∀ k, k ∉ widgetsOf rows ->
              preserves k (forEachFill (fillProhibitor formData) rows)).
    { clear. induction rows as [|[f1 [y1 n1]] rows IHr]; intros k Hk;
        [apply preserves_nothing|].
      cbn [forEachFill]. unfold widgetsOf in Hk.
      cbn [mbind list_bind app snd fst] in Hk. fold (widgetsOf rows) in Hk.
      apply not_elem_of_cons in Hk as [Hk1 Hk].
      apply not_elem_of_cons in Hk as [Hk2 Hk].
      apply preserves_thenFill; [|apply IHr, Hk].
      apply (preserves_fillProhibitor k formData f1 y1 n1);
        apply bool_decide_eq_false_2; assumption. }
    cbn [forEachFill] in Hrun.
    apply thenFill_inv in Hrun as (m1 & Hhead & Htail).
    apply elem_of_cons in Hin as [[= -> -> ->]|Hin].
    + assert (Hyn : Widget (js y0) ≠ Widget (js n0))
        by (intros Heq; apply Hy0; rewrite Heq; left).
      rewrite (Hrest (Widget (js y0)) (λ H, Hy0 (list_elem_of_further _ _ _ H))
                 _ _ Htail).
      rewrite (Hrest (Widget (js n0)) Hn0 _ _ Htail).
      assert (Hny : Widget (js n0) ≠ Widget (js y0)) by congruence.
      clear IH Hrest Htail. unfold fillProhibitor, property in *.
      destruct (equals "YES" _).
      * injection Hhead as <-. rewrite !Map_get_set.
        rewrite (decide_True (P := Widget (js y0) = Widget (js y0)))
          by reflexivity.
        rewrite (decide_False (P := Widget (js n0) = Widget (js y0)))
          by exact Hny.
        split; reflexivity.
      * destruct (equals "NO" _); injection Hhead as <-.
        -- rewrite !Map_get_set.
           rewrite (decide_True (P := Widget (js n0) = Widget (js n0)))
             by reflexivity.
           rewrite (decide_False (P := Widget (js y0) = Widget (js n0)))
             by exact Hyn.
           split; reflexivity.
        -- split; reflexivity.
    + destruct (IH Hnd m1 m' field yes no Htail Hin) as [Hy Hn].
      assert (Hys : Widget (js yes) ∈ widgetsOf rows).
      { unfold widgetsOf. apply list_elem_of_bind.
        exists (field, (yes, no)). split; [left|exact Hin]. }
      assert (Hns : Widget (js no) ∈ widgetsOf rows).
      { unfold widgetsOf. apply list_elem_of_bind.
        exists (field, (yes, no)). split; [right; left|exact Hin]. }
      assert (Hhy : preserves (Widget (js yes))
                      (fillProhibitor formData (f0, (y0, n0)))).
      { apply (preserves_fillProhibitor _ formData f0 y0 n0);
          apply bool_decide_eq_false_2; intros Heq.
        - apply Hy0. rewrite <- Heq. right. exact Hys.
        - apply Hn0. rewrite <- Heq. exact Hys. }
      assert (Hhn : preserves (Widget (js no))
                      (fillProhibitor formData (f0, (y0, n0)))).
      { apply (preserves_fillProhibitor _ formData f0 y0 n0);
          apply bool_decide_eq_false_2; intros Heq.
        - apply Hy0. rewrite <- Heq. right. exact Hns.
        - apply Hn0. rewrite <- Heq. exact Hns. }
      rewrite Hy, Hn, (Hhy _ _ Hhead), (Hhn _ _ Hhead). split; reflexivity.
Qed.

Lemma prohibitorMapping_NoDup : NoDup (widgetsOf prohibitorMapping).
Proof. apply (bool_decide_unpack _). vm_compute. exact Logic.I. Qed.
Section Avoids.

Variable P : WidgetKey -> Prop.

Lemma avoids_nothing : avoids P nothing.
Proof. intros k _. apply preserves_nothing. Qed.

Lemma avoids_fill (widget : string) (a : Answer) :
  ¬ P (Widget (js widget)) -> avoids P (fill widget a).
Proof.
  intros Hw k Hk. apply preserves_fill, bool_decide_eq_false_2.
  intros ->. contradiction.
Qed.

Lemma avoids_thenFill (f g : Filler) :
  avoids P f -> avoids P g -> avoids P (f >>> g).
Proof. intros Hf Hg k Hk. apply preserves_thenFill; auto. Qed.

Lemma avoids_withText (text : Result jsstring) (f : jsstring -> Filler) :
  (∀ s, avoids P (f s)) -> avoids P (withText text f).
Proof. intros Hf k Hk. apply preserves_withText. intros s. apply Hf, Hk. Qed.

Lemma avoids_bind {A} (r : Result A) (f : A -> Filler) :
  (∀ a, avoids P (f a)) -> avoids P (λ m, a ← r; f a m).
Proof. intros Hf k Hk. apply preserves_bind. intros a. apply Hf, Hk. Qed.

Lemma avoids_fillText (formData : Obj) (field widget : string) :
  ¬ P (Widget (js widget)) -> avoids P (fillText formData field widget).
Proof.
  intros Hw. unfold fillText. destruct (given _); [|apply avoids_nothing].
  apply avoids_withText. intros s. apply avoids_fill, Hw.
Qed.

Lemma avoids_fillLines (formData : Obj) (first second widget : string) :
  ¬ P (Widget (js widget)) ->
  avoids P (fillLines formData first second widget).
Proof.
  intros Hw. unfold fillLines. destruct (_ || _); [|apply avoids_nothing].
  apply avoids_withText. intros a. apply avoids_withText. intros b.
  cbv zeta. destruct (Str.truthy _); [|apply avoids_nothing].
  apply avoids_fill, Hw.
Qed.

Lemma avoids_fillChoice (formData : Obj) (field : string)
    (table : list (string * string)) :
  Forall (λ kv : string * string, ¬ P (Widget (js kv.2))) table ->
  (∀ p, ¬ P (Inherited p)) ->
  avoids P (fillChoice formData field table).
Proof.
  intros Htable Hinherited k Hk. unfold fillChoice.
  destruct (Object.get (js field) formData) as [v|];
    [|apply preserves_nothing].
  destruct (truthy v); [|apply preserves_nothing].
  apply preserves_withText. intros key m m'.
  destruct (lookupWidget table key) as [k'|] eqn:Hk'; intros [= <-];
    [|reflexivity].
  rewrite Map_get_set. rewrite decide_False; [reflexivity|]. intros ->.
  apply lookupWidget_found in Hk' as [Hin|[p ->]].
  - apply list_elem_of_fmap in Hin as (kv & -> & Hin).
    revert Hk. apply (proj1 (list.Forall_forall _ _) Htable kv Hin).
  - exact (Hinherited p Hk).
Qed.

Lemma avoids_fillProhibitor (formData : Obj)
    (formField yesWidget noWidget : string) :
  ¬ P (Widget (js yesWidget)) -> ¬ P (Widget (js noWidget)) ->
  avoids P (fillProhibitor formData
              (prohibitorRow formField yesWidget noWidget)).
Proof.
  intros Hyes Hno. unfold fillProhibitor, prohibitorRow.
  destruct (equals "YES" _); [apply avoids_fill, Hyes|].
  destruct (equals "NO" _); [apply avoids_fill, Hno|].
  apply avoids_nothing.
Qed.

End Avoids.

(** Past a step that leaves the keys of [P] alone. *)
Lemma thenFill_avoid (P : WidgetKey -> Prop) (f g : Filler)
    (m m' : PdfFields) :
  avoids P f -> (∀ k, P k -> Map.get k m = None) -> (f >>> g) m = Ok m' ->
  ∃ m1, (∀ k, P k -> Map.get k m1 = None) ∧ g m1 = Ok m'.
Proof.
  intros Hf Hnone H. apply thenFill_inv in H as (m1 & H1 & H2).
  exists m1. split; [|exact H2].
  intros k Hk. rewrite (Hf k Hk _ _ H1). apply Hnone, Hk.
Qed.

Lemma widgetsOf_widgets (rows : list (string * (string * string)))
    (p : jsstring) :
  Inherited p ∉ widgetsOf rows.
Proof.
  unfold widgetsOf. intros H. apply list_elem_of_bind in H as (r & Hin & _).
  apply elem_of_cons in Hin as [?|Hin]; [discriminate|].
  apply elem_of_cons in Hin as [?|Hin]; [discriminate|]. inversion Hin.
Qed.

(** Goes through a filler; [side] settles that a widget is none of the keys
    in question, [inherited] that no inherited property is. *)
Ltac avoided side inherited :=
  cbv [formTypeMapping ethnicityMapping raceMapping row];
  repeat first
    [ apply avoids_nothing
    | apply avoids_thenFill
    | apply avoids_fillText; side
    | apply avoids_fillLines; side
    | apply avoids_fillChoice;
      [repeat (apply Forall_cons; [side|]); apply Forall_nil
      |intros ?; inherited]
    | apply avoids_fillProhibitor; side
    | apply avoids_fill; side
    | apply avoids_withText; intros ?
    | apply avoids_bind; intros ?
    | match goal with
      | |- avoids _ (if ?b then _ else _) => destruct b
      | |- avoids _ (match ?x with _ => _ end) => destruct x
      | |- avoids _ (let _ := _ in _) => cbv zeta
      end ].

Ltac no_prohibitor :=
  let H := fresh in
  intros H; apply (bool_decide_pack _) in H; vm_compute in H; exact H.

(** The loop over the prohibitors is the only part of the mapping that
    writes their widgets. *)
Lemma around_prohibitors (dates : LocalDates) (today : Clock) (formData : Obj)
    (fields : PdfFields) :
  mapFormDataToPdfFields dates today formData = Ok fields ->
  ∃ m m',
    (∀ k, k ∈ widgetsOf prohibitorMapping -> Map.get k m = None)
    ∧ forEachFill (fillProhibitor formData) prohibitorMapping m = Ok m'
    ∧ ∀ k, k ∈ widgetsOf prohibitorMapping ->
           Map.get k fields = Map.get k m'.
Proof.
  unfold mapFormDataToPdfFields. intros H.
  assert (Hnone : ∀ k, k ∈ widgetsOf prohibitorMapping ->
                       Map.get k [] = None) by reflexivity.
  do 16 (apply (thenFill_avoid (λ k, k ∈ widgetsOf prohibitorMapping))
           in H as (? & ? & H);
         [|solve [avoided no_prohibitor ltac:(apply widgetsOf_widgets)]
          |assumption];
         clear Hnone;
         match goal with
         | Hn : ∀ k, _ -> Map.get k _ = None |- _ => rename Hn into Hnone
         end).
  apply thenFill_inv in H as (m' & Hloop & H).
  eexists _, m'. split; [exact Hnone|]. split; [exact Hloop|].
  match goal with
  | H : ?rest m' = Ok fields |- _ =>
      assert (Hrest : avoids (λ k, k ∈ widgetsOf prohibitorMapping) rest)
        by (avoided no_prohibitor ltac:(apply widgetsOf_widgets));
      intros k Hk; exact (Hrest k Hk _ _ H)
  end.
Qed.
(** The widget of the certification date. *)
Lemma certificationDate_widget (dates : LocalDates) (today : Clock)
    (formData : Obj) (fields : PdfFields) :
  mapFormDataToPdfFields dates today formData = Ok fields ->
  ∃ s, Map.get (Widget (js "topmostSubform[0].Page2[0].DateField9[0]")) fields
       = Some (Text s)
       ∧ (given (property formData "certificationDate") = false ->
          s = formatDate (Some today)).
Proof.
  unfold mapFormDataToPdfFields. intros H.
  do 23 (apply thenFill_inv in H as (? & _ & H)).
  unfold property in *.
  destruct (Object.get (js "certificationDate") formData) as [v|].
  - cbn [given]. destruct (truthy v).
    + destruct (parseLocalDate dates v) as [date|]; [|discriminate].
      cbn [mbind Result_bind] in H. injection H as <-.
      eexists. rewrite Map_get_set, decide_True by reflexivity.
      split; [reflexivity|discriminate].
    + injection H as <-. eexists.
      rewrite Map_get_set, decide_True by reflexivity.
      split; reflexivity.
  - injection H as <-. eexists.
    rewrite Map_get_set, decide_True by reflexivity. split; reflexivity.
Qed.

Ltac known_widget :=
  let H := fresh in
  intros H; apply H; apply (bool_decide_unpack _); vm_compute; exact Logic.I.

(** The mapping writes no key but the widgets of its tables and what a
    lookup in a table inherits. *)
Lemma mapFormDataToPdfFields_keys (dates : LocalDates) (today : Clock)
    (formData : Obj) (fields : PdfFields) (k : WidgetKey) :
  mapFormDataToPdfFields dates today formData = Ok fields ->
  unknownKey k -> Map.get k fields = None.
Proof.
  unfold mapFormDataToPdfFields. intros H Hk.
  match goal with
  | H : ?chain [] = Ok fields |- _ =>
      assert (Hall : avoids unknownKey chain)
  end.
  { unfold prohibitorMapping. cbn [forEachFill].
    avoided known_widget ltac:(intros []). }
  rewrite (Hall k Hk _ _ H). reflexivity.
Qed.

(** ** The form data of the PDF generator *)

Lemma Object_has_get (k : jsstring) (o : Obj) :
  Object.has k o = false <-> Object.get k o = None.
Proof.
  unfold Object.has. rewrite bool_decide_eq_false.
  induction o as [|[k' v] o IH]; cbn [Object.get].
  - split; [reflexivity|]. intros _ H. inversion H.
  - rewrite fmap_cons. cbn [fst]. destruct (decide (k = k')) as [->|Hne].
    + split; [|discriminate]. intros H. exfalso. apply H. left.
    + rewrite <- IH. rewrite not_elem_of_cons. tauto.
Qed.

Lemma includeReadonly_get (data : Obj)
    (entry : jsstring * option PrefillFieldConfig) (k : jsstring) :
  Object.get k (includeReadonly data entry) = Object.get k data
  ∨ (Object.get k data = None
     ∧ k = entry.1 ∧ (k ∉ objectPrototype)
     ∧ ∃ fc, entry.2 = Some fc ∧ prefill_readonly fc = true
             ∧ Object.get k (includeReadonly data entry)
               = Some (prefill_value fc)).
Proof.
  unfold includeReadonly. destruct entry as [name [fc|]]; cbn [fst snd];
    [|left; reflexivity].
  destruct (prefill_readonly fc) eqn:Hro; [|left; reflexivity].
  unfold hasProperty. destruct (Object.has name data) eqn:Hhas;
    [left; reflexivity|].
  case_bool_decide as Hproto; [left; reflexivity|]. cbn [negb orb andb].
  rewrite Object_get_set. destruct (decide (k = name)) as [->|Hne];
    [|left; reflexivity].
  right. apply Object_has_get in Hhas. eauto 10.
Qed.

Lemma includeReadonly_all (fields : PrefillConfig) :
  ∀ (data : Obj) (k : jsstring),
    Object.get k (foldl includeReadonly data fields) = Object.get k data
    ∨ (Object.get k data = None ∧ (k ∉ objectPrototype)
       ∧ ∃ fc, (k, Some fc) ∈ fields ∧ prefill_readonly fc = true
               ∧ Object.get k (foldl includeReadonly data fields)
                 = Some (prefill_value fc)).
Proof.
  induction fields as [|entry fields IH]; intros data k; cbn [foldl];
    [left; reflexivity|].
  destruct (IH (includeReadonly data entry) k)
    as [Hsame|(Hnone & Hproto & fc & Hin & Hro & Hget)].
  - rewrite Hsame.
    destruct (includeReadonly_get data entry k)
      as [Hhead|(Hnone & Hname & Hproto & fc & Hfc & Hro & Hget)];
      [left; exact Hhead|].
    right. split; [exact Hnone|]. split; [exact Hproto|]. exists fc.
    split; [|split; assumption].
    destruct entry as [name cfg]. cbn [fst snd] in *. subst. left.
  - destruct (includeReadonly_get data entry k)
      as [Hhead|(_ & _ & _ & fc' & _ & _ & Hget')]; [|congruence].
    right. rewrite <- Hhead. split; [exact Hnone|]. split; [exact Hproto|].
    exists fc. split; [right; exact Hin|]. split; assumption.
Qed.

(** ** The copies of the widgets *)

(** The variant of a widget of the mapping is another name, and no widget of
    the mapping. *)
Lemma getCleoWidgetVariant_fresh (n : jsstring) :
  n ∈ pdfWidgets ->
  getCleoWidgetVariant n ≠ n ∧ getCleoWidgetVariant n ∉ pdfWidgets.
Proof.
  assert (H : forallb (λ n, negb (bool_decide (getCleoWidgetVariant n = n))
                            && negb (bool_decide
                                       (getCleoWidgetVariant n ∈ pdfWidgets)))
                pdfWidgets = true) by (vm_compute; reflexivity).
  intros Hn. rewrite forallb_forall in H.
  specialize (H n (proj1 (list_elem_of_In _ _) Hn)).
  apply andb_true_iff in H as [H1 H2].
  apply negb_true_iff in H1, H2. split.
  - intros Heq. rewrite (bool_decide_eq_true_2 _ Heq) in H1. discriminate.
  - intros Hin. rewrite (bool_decide_eq_true_2 _ Hin) in H2. discriminate.
Qed.

(** Two widgets of the mapping have different variants. *)
Lemma getCleoWidgetVariant_inj (n n' : jsstring) :
  n ∈ pdfWidgets -> n' ∈ pdfWidgets ->
  getCleoWidgetVariant n' = getCleoWidgetVariant n -> n' = n.
Proof.
  assert (H : forallb (λ n, forallb (λ n',
                  implb (bool_decide (getCleoWidgetVariant n'
                                      = getCleoWidgetVariant n))
                        (bool_decide (n' = n))) pdfWidgets)
                pdfWidgets = true) by (vm_compute; reflexivity).
  intros Hn Hn' Heq. rewrite forallb_forall in H.
  specialize (H n (proj1 (list_elem_of_In _ _) Hn)).
  rewrite forallb_forall in H.
  specialize (H n' (proj1 (list_elem_of_In _ _) Hn')).
  rewrite (bool_decide_eq_true_2 _ Heq) in H.
  eapply bool_decide_eq_true_1. exact H.
Qed.

(** ** What a field of a snapshot leaves alone *)

Lemma namedItem_named (els : list Control) (key : jsstring) :
  match namedItem els key with
  | ItemNull => True
  | ItemElement i c => els !! i = Some c ∧ namedBy key c
  | ItemList l =>
      Forall (λ p : nat * Control, els !! p.1 = Some p.2 ∧ namedBy key p.2) l
  end.
Proof.
  unfold namedItem. destruct (Str.truthy key); [|exact Logic.I].
  set (P := λ p : nat * Control, el_id p.2 = key ∨ el_name p.2 = key).
  assert (H : Forall (λ p : nat * Control,
                        els !! p.1 = Some p.2 ∧ namedBy key p.2)
                     (filter P (imap pair els))).
  { apply list.Forall_forall. intros [i c] Hin.
    apply list_elem_of_filter in Hin as [Hp Hin].
    apply elem_of_lookup_imap in Hin as (j & x & Heq & Hx).
    inversion Heq; subst. split; [exact Hx|exact Hp]. }
  destruct (filter P (imap pair els)) as [|[i c] [|p l]];
    [exact Logic.I| |exact H].
  inversion H; subst. assumption.
Qed.

Lemma sameGroup_sameElement (a a' c : Control) :
  sameElement a a' -> sameGroup a' c -> sameGroup a c.
Proof.
  intros (_ & Hname & Hty & _) (Hr & Hr' & Hn). unfold sameGroup, isType in *.
  rewrite Hty, Hname. auto.
Qed.

Lemma namedBy_sameElement (k : jsstring) (a a' : Control) :
  sameElement a a' -> namedBy k a' -> namedBy k a.
Proof.
  intros (Hid & Hname & _). unfold namedBy. rewrite Hid, Hname. auto.
Qed.

(** Checking or unchecking a control leaves a control of another place and
    of another group as it is. *)
Lemma setChecked_frame (j i : nat) (b : bool) (els : list Control)
    (c : Control) :
  els !! i = Some c -> j ≠ i ->
  (∀ cj, els !! j = Some cj -> ¬ sameGroup cj c) ->
  setChecked j b els !! i = Some c.
Proof.
  intros Hi Hne Hgroup. destruct (els !! j) as [cj|] eqn:Hj.
  - rewrite (setChecked_lookup_ne j i b els cj c) by auto.
    destruct (b && isType "radio" cj && Str.truthy (el_name cj)
              && isType "radio" c && bool_decide (el_name c = el_name cj))
      eqn:Hg; [|reflexivity].
    exfalso. apply (Hgroup cj eq_refl).
    repeat (apply andb_true_iff in Hg as [Hg ?]).
    match goal with
    | H : bool_decide _ = true |- _ => apply bool_decide_eq_true_1 in H
    end.
    unfold sameGroup. auto.
  - unfold setChecked. rewrite Hj. exact Hi.
Qed.

Section Frame.
Context (els : list Control) (i : nat) (c : Control).

Local Abbreviation still := (stillThere els i c).

Lemma stillThere_setChecked (j : nat) (b : bool) (e : list Control) :
  j ≠ i -> (∀ cj, els !! j = Some cj -> ¬ sameGroup cj c) ->
  still e -> still (setChecked j b e).
Proof.
  intros Hne Hgroup [Hrel Hi]. split.
  - eapply Forall2_keep_trans; [apply _|exact Hrel|].
    apply setChecked_sameElement.
  - apply setChecked_frame; [exact Hi|exact Hne|].
    intros cj' Hj' Hsame.
    destruct (Forall2_lookup_r _ _ _ _ _ Hrel Hj') as (cj & Hj & Hcj).
    apply (Hgroup cj Hj). eapply sameGroup_sameElement; eassumption.
Qed.

Lemma stillThere_setValue (j : nat) (v : jsstring) (e : list Control) :
  j ≠ i -> still e -> still (setValue j v e).
Proof.
  intros Hne [Hrel Hi]. split.
  - eapply Forall2_keep_trans; [apply _|exact Hrel|].
    apply setValue_sameElement.
  - unfold setValue. rewrite list_lookup_alter_ne by exact Hne. exact Hi.
Qed.

Lemma forEach_stillThere {A}
    (f : A -> list Control -> Result (list Control)) (l : list A)
    (e : list Control) :
  (∀ x e e', x ∈ l -> still e -> f x e = Ok e' -> still e') ->
  still e -> still (forEach f l e).1.
Proof.
  revert e. induction l as [|x l IH]; intros e Hf He; [exact He|].
  cbn [forEach]. destruct (f x e) as [e'|err] eqn:Hx; [|exact He].
  apply IH.
  - intros y e1 e2 Hy. apply Hf. right. exact Hy.
  - eapply Hf; [left|exact He|exact Hx].
Qed.

(** A field that names neither the control nor a radio button of its group
    leaves the control as it is. *)
Lemma deserializeField_stillThere (key : jsstring) (value : JValue)
    (e : list Control) :
  ¬ namedBy key c ->
  (∀ cj, cj ∈ els -> namedBy key cj -> ¬ sameGroup cj c) ->
  still e -> still (deserializeField key value e).1.
Proof.
  intros Hc Hgroup He.
  assert (Hout : ∀ j cj, e !! j = Some cj -> namedBy key cj ->
                   j ≠ i ∧ ∀ x, els !! j = Some x -> ¬ sameGroup x c).
  { intros j cj Hj Hnamed. split.
    - intros ->. destruct He as [_ Hi]. rewrite Hi in Hj.
      injection Hj as <-. contradiction.
    - intros x Hx. apply Hgroup; [eapply list_elem_of_lookup_2, Hx|].
      destruct He as [Hrel _].
      destruct (Forall2_lookup_l _ _ _ _ _ Hrel Hx) as (y & Hy & Hxy).
      rewrite Hj in Hy. injection Hy as <-.
      eapply namedBy_sameElement; eassumption. }
  pose proof (namedItem_named e key) as Hitem.
  unfold deserializeField.
  destruct (namedItem e key) as [|j cj|l]; cbn [firstElement]; [exact He| |].
  - destruct Hitem as [Hj Hnamed].
    destruct (Hout j cj Hj Hnamed) as [Hne Hg].
    destruct (isType "radio" cj); [exact He|].
    destruct (isType "checkbox" cj).
    { destruct value; try exact He.
      apply stillThere_setChecked; assumption. }
    match goal with
    | |- context [assignValue ?a ?b ?v ?s] =>
        destruct (assignValue a b v s) as [e'|err] eqn:Ha; [|exact He]
    end.
    apply assignValue_Ok in Ha as (s & -> & _).
    apply stillThere_setValue; assumption.
  - assert (Hchecks : ∀ (f : nat * Control -> list Control
                               -> Result (list Control)),
              (∀ x e1 e2, f x e1 = Ok e2 -> ∃ b, e2 = setChecked x.1 b e1) ->
              still (forEach f l e).1).
    { intros f Hf. apply forEach_stillThere; [|exact He].
      intros x e1 e2 Hx He1 Hfx. destruct (Hf x e1 e2 Hfx) as [b ->].
      rewrite list.Forall_forall in Hitem.
      destruct (Hitem x Hx) as [Hj Hnamed].
      destruct (Hout x.1 x.2 Hj Hnamed) as [Hne Hg].
      apply stillThere_setChecked; assumption. }
    destruct (head l) as [[j el]|] eqn:Hhead; [|exact He].
    destruct (isType "radio" el).
    { apply Hchecks. intros x e1 e2 [= <-]. eauto. }
    destruct (isType "checkbox" el).
    { destruct value; try exact He; apply Hchecks; intros x e1 e2;
        (destruct (valueIncludes _ _); cbn [mbind Result_bind];
         [|discriminate]); intros [= <-]; eauto. }
    match goal with
    | |- context [assignValue ?a ?b ?v ?s] =>
        destruct (assignValue a b v s) as [e'|err] eqn:Ha; [|exact He]
    end.
    apply assignValue_Ok in Ha as (s & -> & _).
    apply stillThere_setValue; [|exact He].
    destruct l as [|p l']; [discriminate|]. injection Hhead as ->.
    inversion Hitem as [|? ? [Hj Hnamed] _]; subst.
    exact (proj1 (Hout j el Hj Hnamed)).
Qed.

Lemma deserializeFields_stillThere (data : Obj) (e : list Control) :
  (∀ k, k ∈ data.*1 -> k ≠ js "signature" ->
        ¬ namedBy k c ∧ ∀ cj, cj ∈ els -> namedBy k cj -> ¬ sameGroup cj c) ->
  still e -> still (deserializeFields data e).1.
Proof.
  revert e. induction data as [|[k v] data IH]; intros e Hall He; [exact He|].
  cbn [deserializeFields].
  assert (Hrest : ∀ k', k' ∈ data.*1 -> k' ≠ js "signature" ->
            ¬ namedBy k' c
            ∧ ∀ cj, cj ∈ els -> namedBy k' cj -> ¬ sameGroup cj c).
  { intros k' Hin. apply Hall. rewrite fmap_cons. right. exact Hin. }
  case_bool_decide as Hsig; [apply IH; assumption|].
  destruct (Hall k) as [Hc Hgroup]; [rewrite fmap_cons; left|exact Hsig|].
  pose proof (deserializeField_stillThere k v e Hc Hgroup He) as Hstep.
  destruct (deserializeField k v e) as [e' [err|]]; [exact Hstep|].
  apply IH; assumption.
Qed.

End Frame.

(** ** The data [applyPrefillConfig] collects *)

Lemma NoDup_fst_agree {A B} (l : list (A * B)) (k : A) (v v' : B) :
  NoDup l.*1 -> (k, v) ∈ l -> (k, v') ∈ l -> v = v'.
Proof.
  induction l as [|[k0 v0] l IH]; intros Hnd H1 H2; [inversion H1|].
  rewrite fmap_cons in Hnd. apply list.NoDup_cons in Hnd as [Hnotin Hnd].
  cbn [fst] in Hnotin.
  apply elem_of_cons in H1 as [H1|H1], H2 as [H2|H2].
  - injection H1 as _ ->. injection H2 as _ ->. reflexivity.
  - exfalso. apply Hnotin. apply list_elem_of_fmap. exists (k, v').
    split; [injection H1 as <- _; reflexivity|exact H2].
  - exfalso. apply Hnotin. apply list_elem_of_fmap. exists (k, v).
    split; [injection H2 as <- _; reflexivity|exact H1].
  - apply IH; assumption.
Qed.

Lemma Object_get_elem (k : jsstring) (v : JValue) (o : Obj) :
  Object.get k o = Some v -> (k, v) ∈ o.
Proof.
  induction o as [|[k0 v0] o IH]; cbn [Object.get]; [discriminate|].
  destruct (decide (k = k0)) as [->|Hne].
  - intros [= ->]. left.
  - intros H. right. apply IH, H.
Qed.

(** Without a field named [__proto__], the data inherits nothing, and each of
    its names is a configured field without a value in the document. *)
Lemma prefillLoop_keys (els : list Control) (entries : PrefillConfig) :
  ∀ d d', prefillLoop els entries d = Ok d' ->
    js "__proto__" ∉ entries.*1 ->
    d'.2 = d.2
    ∧ ∀ k, k ∈ d'.1.*1 ->
           k ∈ d.1.*1
           ∨ ∃ fc, (k, Some fc) ∈ entries
                   ∧ hasValueFromHash (namedItem els k) = false.
Proof.
  induction entries as [|[name fc] entries IH]; intros d d' Hloop Hproto.
  - injection Hloop as <-. split; [reflexivity|]. intros k Hk. left. exact Hk.
  - cbn [prefillLoop] in Hloop.
    destruct (prefillField els d (name, fc)) as [d1|] eqn:Hfield;
      [|discriminate].
    cbn [mbind Result_bind] in Hloop.
    rewrite fmap_cons in Hproto. apply not_elem_of_cons in Hproto as [Hne Hproto].
    cbn [fst] in Hne.
    destruct (IH d1 d' Hloop Hproto) as [Hinh Hkeys].
    assert (Hstep : d1.2 = d.2
              ∧ ∀ k, k ∈ d1.1.*1 ->
                     k ∈ d.1.*1
                     ∨ ∃ fc', (k, Some fc') ∈ (name, fc) :: entries
                              ∧ hasValueFromHash (namedItem els k) = false).
    { unfold prefillField in Hfield. cbn [fst snd] in Hfield.
      destruct fc as [fc|];
        [|injection Hfield as <-; split; [reflexivity|]; intros k Hk; left;
          exact Hk].
      destruct (namedItem els name) as [|j cj|l] eqn:Hitem;
        [injection Hfield as <-; split; [reflexivity|]; intros k Hk; left;
         exact Hk| |];
        (destruct (hasValueFromHash _) eqn:Hhas;
         [injection Hfield as <-; split; [reflexivity|]; intros k Hk; left;
          exact Hk|]);
        (destruct (upperCasePrefill _ _) as [value|]; [|discriminate]);
        cbn [mbind Result_bind] in Hfield; injection Hfield as <-;
        unfold assignPrefill;
        rewrite bool_decide_eq_false_2 by (intros ->; apply Hne; reflexivity);
        cbn [fst snd]; (split; [reflexivity|]);
        intros k Hk; rewrite Object_set_keys in Hk;
        (destruct (decide (name ∈ d.1.*1)); [left; exact Hk|]);
        (apply elem_of_app in Hk as [Hk|Hk]; [left; exact Hk|]);
        apply list_elem_of_singleton in Hk; subst k; right; exists fc;
        (split; [left|]); rewrite Hitem; exact Hhas. }
    destruct Hstep as [Hinh1 Hkeys1]. split; [congruence|].
    intros k Hk. destruct (Hkeys k Hk) as [Hin|(fc' & Hin & Hhas)].
    + exact (Hkeys1 k Hin).
    + right. exists fc'. split; [right; exact Hin|exact Hhas].
Qed.

Lemma deserializeForm_controls (autopen : Autopen) (data : Obj)
    (st : FormState) :
  controls (deserializeForm autopen data st).1
  = (deserializeFields data (controls st)).1.
Proof.
  unfold deserializeForm.
  destruct (deserializeFields data (controls st)). reflexivity.
Qed.

Lemma prefillField_get_other (els : list Control) (d d' : PrefillData)
    (entry : jsstring * option PrefillFieldConfig) (k : jsstring) :
  prefillField els d entry = Ok d' -> entry.1 ≠ k ->
  Object.get k d'.1 = Object.get k d.1.
Proof.
  unfold prefillField. intros H Hne.
  destruct entry.2 as [fc|]; [|injection H as <-; reflexivity].
  destruct (namedItem els entry.1); [injection H as <-; reflexivity| |];
    (destruct (hasValueFromHash _); [injection H as <-; reflexivity|]);
    (destruct (upperCasePrefill _ _) as [value|]; [|discriminate]);
    cbn [mbind Result_bind] in H; injection H as <-; unfold assignPrefill;
    (case_bool_decide; [destruct value; reflexivity|]);
    cbn [fst]; apply Object_get_set_ne; congruence.
Qed.

Lemma prefillLoop_get_other (els : list Control) (entries : PrefillConfig)
    (k : jsstring) :
  ∀ d d', prefillLoop els entries d = Ok d' -> k ∉ entries.*1 ->
          Object.get k d'.1 = Object.get k d.1.
Proof.
  induction entries as [|entry entries IH]; intros d d' H Hk.
  - injection H as <-. reflexivity.
  - cbn [prefillLoop] in H.
    destruct (prefillField els d entry) as [d1|] eqn:Hfield; [|discriminate].
    cbn [mbind Result_bind] in H. rewrite fmap_cons in Hk.
    apply not_elem_of_cons in Hk as [Hne Hk].
    rewrite (IH d1 d' H Hk).
    apply (prefillField_get_other els d d1 entry k Hfield). congruence.
Qed.

(** A configured field without a value in the document is in the data. *)
Lemma prefillLoop_get (els : list Control) (entries : PrefillConfig)
    (k : jsstring) (fc : PrefillFieldConfig) (v : JValue) :
  NoDup entries.*1 -> k ≠ js "__proto__" -> (k, Some fc) ∈ entries ->
  namedItem els k ≠ ItemNull ->
  hasValueFromHash (namedItem els k) = false ->
  upperCasePrefill (namedItem els k) (formatPrefill k (prefill_value fc))
  = Ok v ->
  ∀ d d', prefillLoop els entries d = Ok d' -> Object.get k d'.1 = Some v.
Proof.
  intros Hnd Hproto Hin Hitem Hhas Hvalue.
  induction entries as [|entry entries IH]; intros d d' H; [inversion Hin|].
  cbn [prefillLoop] in H.
  destruct (prefillField els d entry) as [d1|] eqn:Hfield; [|discriminate].
  cbn [mbind Result_bind] in H. rewrite fmap_cons in Hnd.
  apply list.NoDup_cons in Hnd as [Hnotin Hnd].
  apply elem_of_cons in Hin as [<-|Hin].
  - rewrite (prefillLoop_get_other els entries k d1 d' H Hnotin).
    unfold prefillField in Hfield. cbn [fst snd] in Hfield.
    destruct (namedItem els k); [contradiction| |];
      rewrite Hhas, Hvalue in Hfield; cbn [mbind Result_bind] in Hfield;
      injection Hfield as <-; unfold assignPrefill;
      rewrite bool_decide_eq_false_2 by exact Hproto;
      apply Object_get_set_eq.
  - apply (IH Hnd Hin d1 d' H).
Qed.

Lemma prefillLoop_NoDup (els : list Control) (entries : PrefillConfig) :
  ∀ d d', prefillLoop els entries d = Ok d' -> NoDup d.1.*1 -> NoDup d'.1.*1.
Proof.
  induction entries as [|entry entries IH]; intros d d' H Hnd.
  - injection H as <-. exact Hnd.
  - cbn [prefillLoop] in H.
    destruct (prefillField els d entry) as [d1|] eqn:Hfield; [|discriminate].
    cbn [mbind Result_bind] in H. apply (IH d1 d' H).
    unfold prefillField in Hfield.
    destruct entry.2 as [fc|]; [|injection Hfield as <-; exact Hnd].
    destruct (namedItem els entry.1); [injection Hfield as <-; exact Hnd| |];
      (destruct (hasValueFromHash _); [injection Hfield as <-; exact Hnd|]);
      (destruct (upperCasePrefill _ _) as [value|]; [|discriminate]);
      cbn [mbind Result_bind] in Hfield; injection Hfield as <-;
      unfold assignPrefill;
      (case_bool_decide; [destruct value; exact Hnd|]);
      cbn [fst]; apply Object_set_NoDup, Hnd.
Qed.

(** ** A text control under [deserializeForm] *)



Lemma textControl_withValue (v : jsstring) (c : Control) :
  textControl c -> textControl (withValue v c).
Proof. intros H. exact H. Qed.


(** ** One field of a snapshot among the others *)

Lemma isType_checkbox_no_radio (c : Control) :
  isType "checkbox" c = true -> isType "radio" c = false.
Proof.
  unfold isType. intros H. apply bool_decide_eq_true_1 in H. rewrite H.
  vm_compute. reflexivity.
Qed.

(** What the field [k] makes of a control that is no radio button stays,
    when no other field of the snapshot names the control. *)
Lemma deserializeFields_at (k : jsstring) (v : JValue) (j : nat)
    (cj c' : Control) (els : list Control) (data : Obj) :
  isType "radio" cj = false -> sameElement cj c' ->
  (∀ e e', stillThere els j cj e -> deserializeField k v e = (e', None) ->
           e' !! j = Some c') ->
  ∀ e els',
    NoDup data.*1 -> (k, v) ∈ data -> k ≠ js "signature" ->
    (∀ k', k' ∈ data.*1 -> k' ≠ k -> ¬ namedBy k' cj) ->
    stillThere els j cj e ->
    deserializeFields data e = (els', None) ->
    els' !! j = Some c'.
Proof.
  intros Hradio Hsame Hfield.
  induction data as [|[k0 v0] data IH];
    intros e els' Hnd Hin Hsig Hothers He Hrun; [inversion Hin|].
  rewrite fmap_cons in Hnd. apply list.NoDup_cons in Hnd as [Hnotin Hnd].
  cbn [fst] in Hnotin.
  assert (Hrest : ∀ k', k' ∈ data.*1 -> k' ≠ k -> ¬ namedBy k' cj).
  { intros k' Hk'. apply Hothers. rewrite fmap_cons. right. exact Hk'. }
  cbn [deserializeFields] in Hrun.
  destruct (decide (k0 = k)) as [->|Hne].
  - rewrite bool_decide_eq_false_2 in Hrun by exact Hsig.
    assert (v0 = v) as ->.
    { apply elem_of_cons in Hin as [[= <-]|Hin]; [reflexivity|].
      exfalso. apply Hnotin. apply list_elem_of_fmap. exists (k, v). auto. }
    destruct (deserializeField k v e) as [e1 [err|]] eqn:Hstep;
      [discriminate|].
    pose proof (Hfield e e1 He Hstep) as Hj.
    pose proof (deserializeFields_stillThere e1 j c' data e1) as Hframe.
    rewrite Hrun in Hframe. apply Hframe.
    + intros k' Hk' _. split.
      * intros Hnamed. apply (Hrest k' Hk'); [intros ->; contradiction|].
        eapply namedBy_sameElement; eassumption.
      * intros x _ _ (_ & Hr & _). unfold isType in Hr, Hradio.
        destruct Hsame as (_ & _ & Hty & _). rewrite <- Hty, Hradio in Hr.
        discriminate.
    + split; [apply Forall2_keep_refl, _|exact Hj].
  - assert (Hin' : (k, v) ∈ data).
    { apply elem_of_cons in Hin as [[= ? _]|Hin]; [congruence|exact Hin]. }
    case_bool_decide as Hk0; [apply (IH e els'); assumption|].
    pose proof (deserializeField_stillThere els j cj k0 v0 e) as Hstep.
    destruct (deserializeField k0 v0 e) as [e1 [err|]]; [discriminate|].
    apply (IH e1 els'); try assumption. apply Hstep.
    + apply Hothers; [rewrite fmap_cons; left|exact Hne].
    + intros x _ _ (_ & Hr & _). rewrite Hradio in Hr. discriminate.
    + exact He.
Qed.

(** The loop over a group of checkboxes leaves each of them as the value
    has it. *)
Lemma forEach_checkbox (value : JValue) (j : nat) (cj : Control) (b : bool)
    (l : list (nat * Control)) :
  isType "radio" cj = false ->
  valueIncludes value (el_value cj) = Ok b ->
  Forall (λ p : nat * Control, p.1 = j -> el_value p.2 = el_value cj) l ->
  ∀ e e',
    e !! j = Some (withChecked b cj) ∨ (e !! j = Some cj ∧ j ∈ l.*1) ->
    forEach (λ (checkbox : nat * Control) els,
               b ← valueIncludes value (el_value checkbox.2);
               Ok (setChecked checkbox.1 b els)) l e = (e', None) ->
    e' !! j = Some (withChecked b cj).
Proof.
  intros Hradio Hb Hvalues.
  induction Hvalues as [|p l Hp _ IH]; intros e e' He Hrun.
  - injection Hrun as <-. destruct He as [He|[_ He]]; [exact He|inversion He].
  - cbn [forEach] in Hrun.
    destruct (valueIncludes value (el_value p.2)) as [b'|] eqn:Hb';
      cbn [mbind Result_bind] in Hrun; [|discriminate].
    apply (IH (setChecked p.1 b' e) e'); [|exact Hrun].
    destruct (decide (p.1 = j)) as [Hj|Hne].
    + left. rewrite (Hp Hj), Hb in Hb'. injection Hb' as <-. rewrite Hj.
      destruct He as [He|[He _]];
        rewrite (setChecked_lookup_eq j b e _ He); reflexivity.
    + assert (Hkeep : ∀ x, e !! j = Some x -> isType "radio" x = false ->
                setChecked p.1 b' e !! j = Some x).
      { intros x Hx Hr. apply setChecked_frame; [exact Hx|exact Hne|].
        intros y _ (_ & Hr' & _). rewrite Hr in Hr'. discriminate. }
      destruct He as [He|[He Hin]].
      * left. apply Hkeep; [exact He|exact Hradio].
      * right. split; [apply Hkeep; [exact He|exact Hradio]|].
        rewrite fmap_cons in Hin.
        apply elem_of_cons in Hin as [Hin|Hin]; [congruence|exact Hin].
Qed.

Lemma deserializeField_checkboxes (k : jsstring) (values : list JValue)
    (els : list Control) (l : list (nat * Control)) (j : nat) (cj : Control) :
  namedItem els k = ItemList l ->
  Forall (λ p : nat * Control, isType "checkbox" p.2 = true) l ->
  (j, cj) ∈ l ->
  ∀ e e', stillThere els j cj e ->
          deserializeField k (JArr values) e = (e', None) ->
          e' !! j
          = Some (withChecked (existsb (strictEquals (el_value cj)) values)
                    cj).
Proof.
  intros Hitem Hboxes Hin e e' [Hrel Hj] Hrun.
  pose proof (namedItem_rel sameElement els e k
                (λ a b H, conj (proj1 H) (proj1 (proj2 H))) Hrel) as Hir.
  rewrite Hitem in Hir. inversion Hir as [| |l0 l' Hl Hl0 Hl']; subst l0.
  pose proof (namedItem_named e k) as Hnamed. rewrite <- Hl' in Hnamed.
  unfold deserializeField in Hrun. rewrite <- Hl' in Hrun.
  cbn [firstElement] in Hrun.
  assert (Hboxes' : Forall (λ p : nat * Control,
                              isType "checkbox" p.2 = true) l').
  { clear -Hl Hboxes. induction Hl as [|p p' l l' [_ Hp] _ IH];
      [constructor|].
    inversion Hboxes; subst. constructor; [|apply IH; assumption].
    destruct Hp as (_ & _ & Hty & _). unfold isType in *.
    rewrite <- Hty. assumption. }
  assert (Hplaces : l'.*1 = l.*1).
  { clear -Hl. induction Hl as [|p p' l l' [Hp _] _ IH]; [reflexivity|].
    rewrite !fmap_cons, IH, Hp. reflexivity. }
  destruct l' as [|[j0 el0] rest] eqn:Hl'eq.
  { destruct l; [inversion Hin|discriminate Hplaces]. }
  cbn [head] in Hrun. rewrite <- Hl'eq in *.
  assert (Hel0 : isType "checkbox" el0 = true).
  { rewrite Hl'eq in Hboxes'. inversion Hboxes'; subst. assumption. }
  rewrite (isType_checkbox_no_radio el0 Hel0), Hel0 in Hrun.
  refine (forEach_checkbox (JArr values) j cj _ l' _ eq_refl _ e e' _ Hrun).
  - apply isType_checkbox_no_radio.
    rewrite list.Forall_forall in Hboxes. exact (Hboxes _ Hin).
  - apply list.Forall_forall. intros p Hp Hpj.
    rewrite list.Forall_forall in Hnamed. destruct (Hnamed p Hp) as [Hlook _].
    rewrite Hpj, Hj in Hlook. injection Hlook as <-. reflexivity.
  - right. split; [exact Hj|]. rewrite Hplaces.
    apply list_elem_of_fmap. exists (j, cj). auto.
Qed.

(** ** The locks *)

Lemma lock_sameElement (c : Control) : sameElement c (lock c).
Proof.
  unfold lock, classList_add. case_bool_decide; repeat split; reflexivity.
Qed.

Lemma lock_disabled (c : Control) : el_disabled (lock c) = true.
Proof. unfold lock, classList_add. case_bool_decide; reflexivity. Qed.

Lemma lock_state (c : Control) :
  el_value (lock c) = el_value c ∧ el_checked (lock c) = el_checked c.
Proof. unfold lock, classList_add. case_bool_decide; split; reflexivity. Qed.

Lemma lock_lock (c : Control) : lock (lock c) = lock c.
Proof.
  unfold lock at 1. unfold classList_add at 1.
  assert (H : withDisabled true (lock c) = lock c).
  { unfold lock, classList_add. case_bool_decide; reflexivity. }
  rewrite H. rewrite bool_decide_eq_true_2; [reflexivity|].
  unfold lock. apply classList_add_spec.
Qed.

#[global] Instance lockedFrom_preorder : PreOrder lockedFrom.
Proof.
  split.
  - intros c. left. reflexivity.
  - intros a b c [-> | ->] [-> | ->]; unfold lockedFrom; rewrite ?lock_lock; auto.
Qed.

Lemma lockedFrom_same (c c' : Control) :
  lockedFrom c c' -> sameElement c c'.
Proof. intros [-> | ->]; [reflexivity|apply lock_sameElement]. Qed.

Lemma lockedFrom_sameElement (els els' : list Control) :
  Forall2 lockedFrom els els' -> Forall2 sameElement els els'.
Proof. apply Forall2_impl. exact lockedFrom_same. Qed.

Lemma lockedFrom_disabled (c c' : Control) :
  lockedFrom c c' -> el_disabled c = true -> el_disabled c' = true.
Proof. intros [-> | ->] H; [exact H|apply lock_disabled]. Qed.

Section Locks.
Context {D : Type} (addIndicator : Control -> D -> D * option Exn).

Lemma lockEach_lockedFrom (l : list nat) :
  ∀ st, Forall2 lockedFrom st.1 (lockEach addIndicator l st).1.1.
Proof.
  induction l as [|i l IH]; intros st; [apply Forall2_keep_refl, _|].
  cbn [lockEach].
  assert (Hstep : Forall2 lockedFrom st.1 (alter lock i st.1)).
  { apply alter_keeps; [apply _|]. intros c. right. reflexivity. }
  destruct (alter lock i st.1 !! i) as [el|].
  - destruct (addIndicator el st.2) as [d [e|]]; [exact Hstep|].
    pose proof (IH (alter lock i st.1, d)) as Hrest. cbn [fst] in Hrest.
    eapply Forall2_keep_trans; [apply _|exact Hstep|exact Hrest].
  - pose proof (IH (alter lock i st.1, st.2)) as Hrest. cbn [fst] in Hrest.
    eapply Forall2_keep_trans; [apply _|exact Hstep|exact Hrest].
Qed.

Lemma lockFields_lockedFrom (entries : PrefillConfig) :
  ∀ st, Forall2 lockedFrom st.1 (lockFields addIndicator entries st).1.1.
Proof.
  induction entries as [|[name [fc|]] entries IH]; intros st;
    cbn [lockFields]; [apply Forall2_keep_refl, _| |apply IH].
  destruct (prefill_readonly fc); [|apply IH].
  pose proof (lockEach_lockedFrom (itemPlaces (namedItem st.1 name)) st)
    as Hstep.
  destruct (lockEach addIndicator _ st) as [st1 [e|]]; [exact Hstep|].
  eapply Forall2_keep_trans; [apply _|exact Hstep|apply IH].
Qed.

(** A loop that returns leaves each of its elements disabled. *)
Lemma lockEach_disabled (l : list nat) :
  ∀ st st' i c,
    lockEach addIndicator l st = (st', None) -> i ∈ l ->
    st'.1 !! i = Some c -> el_disabled c = true.
Proof.
  induction l as [|j l IH]; intros st st' i c Hrun Hin Hi; [inversion Hin|].
  cbn [lockEach] in Hrun.
  assert (Hrest : ∀ d, lockEach addIndicator l (alter lock j st.1, d)
                       = (st', None) -> el_disabled c = true).
  { intros d Hl. apply elem_of_cons in Hin as [->|Hin];
      [|exact (IH _ st' i c Hl Hin Hi)].
    pose proof (lockEach_lockedFrom l (alter lock j st.1, d)) as Hrel.
    rewrite Hl in Hrel. cbn [fst] in Hrel.
    destruct (Forall2_lookup_r _ _ _ _ _ Hrel Hi) as (c0 & Hc0 & Hlocked).
    apply (lockedFrom_disabled c0 c Hlocked).
    rewrite list_lookup_alter_eq in Hc0.
    destruct (st.1 !! j); [|discriminate]. injection Hc0 as <-.
    apply lock_disabled. }
  destruct (alter lock j st.1 !! j) as [el|]; [|exact (Hrest _ Hrun)].
  destruct (addIndicator el st.2) as [d [e|]]; [discriminate|].
  exact (Hrest _ Hrun).
Qed.

End Locks.

Lemma namedItem_places (els : list Control) (k : jsstring) (i : nat)
    (c : Control) :
  els !! i = Some c -> namedBy k c -> k ≠ [] ->
  i ∈ itemPlaces (namedItem els k).
Proof.
  intros Hi Hnamed Hk. unfold namedItem.
  destruct k as [|u k]; [contradiction|]. cbn [Str.truthy].
  set (P := λ p : nat * Control, el_id p.2 = u :: k ∨ el_name p.2 = u :: k).
  assert (Hin : (i, c) ∈ filter P (imap pair els)).
  { apply list_elem_of_filter. split; [exact Hnamed|].
    apply elem_of_lookup_imap. exists i, c. auto. }
  assert (Hplace : i ∈ (filter P (imap pair els)).*1).
  { apply list_elem_of_fmap. exists (i, c). auto. }
  destruct (filter P (imap pair els)) as [|[j x] [|p l]];
    [inversion Hin| |exact Hplace].
  exact Hplace.
Qed.

(** [applyReadonlyLocks], when it returns, leaves every control that a
    readonly field names disabled. *)
Lemma lockFields_disabled {D} (addIndicator : Control -> D -> D * option Exn)
    (k : jsstring) (fc : PrefillFieldConfig) (entries : PrefillConfig) :
  (k, Some fc) ∈ entries -> prefill_readonly fc = true -> k ≠ [] ->
  ∀ st st' c,
    lockFields addIndicator entries st = (st', None) ->
    c ∈ st'.1 -> namedBy k c -> el_disabled c = true.
Proof.
  intros Hin Hreadonly Hk.
  induction entries as [|[name entry] entries IH]; intros st st' c Hrun Hc Hnamed;
    [inversion Hin|].
  cbn [lockFields] in Hrun.
  apply elem_of_cons in Hin as [[= <- <-]|Hin].
  - rewrite Hreadonly in Hrun.
    destruct (lockEach addIndicator (itemPlaces (namedItem st.1 k)) st)
      as [st1 [e|]] eqn:Heach; [discriminate|].
    pose proof (lockFields_lockedFrom addIndicator entries st1) as Hrest.
    rewrite Hrun in Hrest. cbn [fst] in Hrest.
    pose proof (lockEach_lockedFrom addIndicator
                  (itemPlaces (namedItem st.1 k)) st) as Hfirst.
    rewrite Heach in Hfirst. cbn [fst] in Hfirst.
    apply list_elem_of_lookup_1 in Hc as [i Hi].
    destruct (Forall2_lookup_r _ _ _ _ _ Hrest Hi) as (c1 & Hc1 & Hlocked).
    destruct (Forall2_lookup_r _ _ _ _ _ Hfirst Hc1) as (c0 & Hc0 & Hlocked0).
    apply (lockedFrom_disabled c1 c Hlocked).
    apply (lockEach_disabled addIndicator _ st st1 i c1 Heach); [|exact Hc1].
    apply (namedItem_places st.1 k i c0 Hc0); [|exact Hk].
    apply (namedBy_sameElement k c0 c1 (lockedFrom_same _ _ Hlocked0)).
    apply (namedBy_sameElement k c1 c (lockedFrom_same _ _ Hlocked)).
    exact Hnamed.
  - destruct entry as [fc'|]; [|exact (IH Hin st st' c Hrun Hc Hnamed)].
    destruct (prefill_readonly fc');
      [|exact (IH Hin st st' c Hrun Hc Hnamed)].
    destruct (lockEach addIndicator (itemPlaces (namedItem st.1 name)) st)
      as [st1 [e|]]; [discriminate|].
    exact (IH Hin st1 st' c Hrun Hc Hnamed).
Qed.

(** ** Readonly values in the form data *)

Lemma includeReadonly_keeps (k : jsstring) (entries : PrefillConfig)
    (data : Obj) :
  Object.get k data ≠ None ->
  Object.get k (foldl includeReadonly data entries) ≠ None.
Proof.
  intros H. destruct (includeReadonly_all entries data k) as [->|[H' _]];
    [exact H|contradiction].
Qed.

Lemma includeReadonly_sets (k : jsstring) (fc : PrefillFieldConfig)
    (entries : PrefillConfig) :
  (k, Some fc) ∈ entries -> prefill_readonly fc = true ->
  k ∉ objectPrototype ->
  ∀ data, Object.get k (foldl includeReadonly data entries) ≠ None.
Proof.
  intros Hin Hreadonly Hproto.
  induction entries as [|entry entries IH]; intros data; [inversion Hin|].
  cbn [foldl]. apply elem_of_cons in Hin as [<-|Hin]; [|apply IH, Hin].
  apply includeReadonly_keeps. unfold includeReadonly, hasProperty.
  cbn [fst snd]. rewrite Hreadonly.
  rewrite (bool_decide_eq_false_2 _ Hproto), orb_false_r.
  destruct (Object.has k data) eqn:Hhas; cbn [negb andb].
  - intros Hnone. apply Object_has_get in Hnone. congruence.
  - rewrite Object_get_set_eq. discriminate.
Qed.

(** ** What the locks change *)

Lemma namedItem_places_named (els : list Control) (k : jsstring) (i : nat)
    (c : Control) :
  i ∈ itemPlaces (namedItem els k) -> els !! i = Some c -> namedBy k c.
Proof.
  intros Hin Hi. pose proof (namedItem_named els k) as H.
  destruct (namedItem els k) as [|j x|l]; cbn [itemPlaces] in Hin.
  - inversion Hin.
  - apply list_elem_of_singleton in Hin. subst j. destruct H as [Hx Hnamed].
    congruence.
  - apply list_elem_of_fmap in Hin as ([j x] & -> & Hp).
    rewrite list.Forall_forall in H. destruct (H _ Hp) as [Hx Hnamed].
    cbn [fst snd] in *. congruence.
Qed.

Section LockPlaces.
Context {D : Type} (addIndicator : Control -> D -> D * option Exn).

Lemma lockEach_lookup (l : list nat) (i : nat) :
  ∀ st c, st.1 !! i = Some c ->
    (lockEach addIndicator l st).1.1 !! i = Some c
    ∨ (i ∈ l ∧ (lockEach addIndicator l st).1.1 !! i = Some (lock c)).
Proof.
  induction l as [|j l IH]; intros st c Hi; [left; exact Hi|].
  cbn [lockEach].
  assert (Hstep : alter lock j st.1 !! i
                  = Some (if decide (j = i) then lock c else c)).
  { destruct (decide (j = i)) as [->|Hne].
    - rewrite list_lookup_alter_eq, Hi. reflexivity.
    - rewrite list_lookup_alter_ne by exact Hne. exact Hi. }
  assert (Hrest : ∀ d,
            (lockEach addIndicator l (alter lock j st.1, d)).1.1 !! i = Some c
            ∨ (i ∈ j :: l
               ∧ (lockEach addIndicator l (alter lock j st.1, d)).1.1 !! i
                 = Some (lock c))).
  { intros d. destruct (IH (alter lock j st.1, d) _ Hstep) as [H|[Hin H]];
      destruct (decide (j = i)) as [->|Hne]; rewrite ?lock_lock in H.
    - right. split; [left|exact H].
    - left. exact H.
    - right. split; [left|exact H].
    - right. split; [right; exact Hin|exact H]. }
  destruct (alter lock j st.1 !! j) as [el|]; [|apply Hrest].
  destruct (addIndicator el st.2) as [d [e|]]; [|apply Hrest].
  cbn [fst]. rewrite Hstep. destruct (decide (j = i)) as [->|Hne].
  - right. split; [left|reflexivity].
  - left. reflexivity.
Qed.

Lemma lockFields_lookup (entries : PrefillConfig) (i : nat) :
  ∀ st c, st.1 !! i = Some c ->
    (lockFields addIndicator entries st).1.1 !! i = Some c
    ∨ ((lockFields addIndicator entries st).1.1 !! i = Some (lock c)
       ∧ ∃ k fc, (k, Some fc) ∈ entries ∧ prefill_readonly fc = true
                 ∧ namedBy k c).
Proof.
  induction entries as [|[name entry] entries IH]; intros st c Hi;
    [left; exact Hi|].
  cbn [lockFields].
  assert (Hskip : (lockFields addIndicator entries st).1.1 !! i = Some c
            ∨ ((lockFields addIndicator entries st).1.1 !! i = Some (lock c)
               ∧ ∃ k fc, (k, Some fc) ∈ (name, entry) :: entries
                         ∧ prefill_readonly fc = true ∧ namedBy k c)).
  { destruct (IH st c Hi) as [H|(H & k & fc & Hin & Hro & Hnamed)];
      [left; exact H|].
    right. split; [exact H|]. exists k, fc. split; [right; exact Hin|auto]. }
  destruct entry as [fc|]; [|exact Hskip].
  destruct (prefill_readonly fc) eqn:Hreadonly; [|exact Hskip].
  pose proof (lockEach_lookup (itemPlaces (namedItem st.1 name)) i st c Hi)
    as Heach.
  destruct (lockEach addIndicator (itemPlaces (namedItem st.1 name)) st)
    as [st1 [e|]] eqn:Hrun; cbn [fst] in Heach |- *.
  - destruct Heach as [H|[Hin H]]; [left; exact H|].
    right. split; [exact H|]. exists name, fc. split; [left|].
    split; [exact Hreadonly|].
    exact (namedItem_places_named st.1 name i c Hin Hi).
  - destruct Heach as [H|[Hin H]].
    + destruct (IH st1 c H) as [H'|(H' & k & fc' & Hin' & Hro & Hnamed)];
        [left; exact H'|].
      right. split; [exact H'|]. exists k, fc'.
      split; [right; exact Hin'|auto].
    + assert (Hnamed : namedBy name c)
        by exact (namedItem_places_named st.1 name i c Hin Hi).
      right. split.
      * destruct (IH st1 _ H) as [H'|[H' _]]; rewrite ?lock_lock in H';
          exact H'.
      * exists name, fc. split; [left|]. auto.
Qed.

End LockPlaces.

Lemma itemControls_locked (els els' : list Control) (k : jsstring) :
  Forall2 lockedFrom els els' ->
  Forall2 lockedFrom (itemControls (namedItem els k))
                     (itemControls (namedItem els' k)).
Proof.
  intros Hrel.
  pose proof (namedItem_rel lockedFrom els els' k
                (λ a b H, let S := lockedFrom_same a b H in
                          conj (proj1 S) (proj1 (proj2 S))) Hrel) as Hir.
  inversion Hir as [|i c c' Hc|l l' Hl]; cbn [itemControls].
  - constructor.
  - constructor; [exact Hc|constructor].
  - clear -Hl. induction Hl as [|p p' l l' [_ Hp] _ IH]; [constructor|].
    rewrite !fmap_cons. constructor; assumption.
Qed.

Lemma otherSelected_locked (els els' : list Control) (k : jsstring) :
  Forall2 lockedFrom els els' ->
  otherSelected (namedItem els' k) = otherSelected (namedItem els k).
Proof.
  intros Hrel. unfold otherSelected.
  pose proof (itemControls_locked els els' k Hrel) as H.
  induction H as [|c c' l l' Hc _ IH]; [reflexivity|].
  cbn [existsb]. rewrite IH. f_equal.
  destruct Hc as [-> | ->]; [reflexivity|].
  destruct (lock_state c) as [-> ->]. reflexivity.
Qed.

Lemma lockOther_lookup (entries : PrefillConfig) (els : list Control)
    (fields : string * string) (i : nat) (c : Control) :
  els !! i = Some c ->
  lockOther entries els fields !! i = Some c
  ∨ (lockOther entries els fields !! i = Some (lock c)
     ∧ el_id c = js fields.2
     ∧ ∃ fc, configOf entries (js fields.1) = Some fc
             ∧ prefill_readonly fc = true
             ∧ otherSelected (namedItem els (js fields.1)) = true).
Proof.
  intros Hi. unfold lockOther.
  destruct (configOf entries (js fields.1)) as [fc|]; [|left; exact Hi].
  destruct (prefill_readonly fc) eqn:Hreadonly; [|left; exact Hi].
  destruct (getElementById els (js fields.2)) as [[j x]|] eqn:Hother;
    [|destruct (namedItem els (js fields.1)); left; exact Hi].
  destruct (otherSelected (namedItem els (js fields.1))) eqn:Hsel.
  - assert (Hgoal : alter lock j els !! i = Some c
              ∨ (alter lock j els !! i = Some (lock c)
                 ∧ el_id c = js fields.2
                 ∧ ∃ fc0, Some fc = Some fc0 ∧ prefill_readonly fc0 = true
                          ∧ true = true)).
    { destruct (decide (j = i)) as [->|Hne].
      - right. rewrite list_lookup_alter_eq, Hi. split; [reflexivity|].
        unfold getElementById in Hother.
        apply list_find_Some in Hother as (Hx & Hid & _).
        split; [congruence|]. exists fc. auto.
      - left. rewrite list_lookup_alter_ne by exact Hne. exact Hi. }
    destruct (namedItem els (js fields.1)); [discriminate Hsel| |];
      rewrite Hsel; exact Hgoal.
  - destruct (namedItem els (js fields.1)); rewrite ?Hsel; left; exact Hi.
Qed.

Lemma lockOther_lockedFrom (entries : PrefillConfig) (els : list Control)
    (fields : string * string) :
  Forall2 lockedFrom els (lockOther entries els fields).
Proof.
  unfold lockOther.
  destruct (configOf entries (js fields.1)) as [fc|];
    [|apply Forall2_keep_refl, _].
  destruct (prefill_readonly fc); [|apply Forall2_keep_refl, _].
  destruct (namedItem els (js fields.1)),
    (getElementById els (js fields.2)) as [[j x]|];
    try apply Forall2_keep_refl, _;
    (destruct (otherSelected _); [|apply Forall2_keep_refl, _]);
    (apply alter_keeps; [apply _|]); intros y; right; reflexivity.
Qed.

Lemma lockOthers_lookup (entries : PrefillConfig) (els0 : list Control)
    (l : list (string * string)) (i : nat) :
  ∀ els c,
    Forall2 lockedFrom els0 els -> els !! i = Some c ->
    foldl (lockOther entries) els l !! i = Some c
    ∨ (foldl (lockOther entries) els l !! i = Some (lock c)
       ∧ ∃ fields fc,
           fields ∈ l ∧ el_id c = js fields.2
           ∧ configOf entries (js fields.1) = Some fc
           ∧ prefill_readonly fc = true
           ∧ otherSelected (namedItem els0 (js fields.1)) = true).
Proof.
  induction l as [|fields l IH]; intros els c Hrel Hi; [left; exact Hi|].
  cbn [foldl].
  assert (Hrel' : Forall2 lockedFrom els0 (lockOther entries els fields)).
  { eapply Forall2_keep_trans; [apply _|exact Hrel|].
    apply lockOther_lockedFrom. }
  destruct (lockOther_lookup entries els fields i c Hi)
    as [H|(H & Hid & fc & Hfc & Hreadonly & Hsel)].
  - destruct (IH _ c Hrel' H) as [H'|(H' & f & fc & Hin & Hrest)];
      [left; exact H'|].
    right. split; [exact H'|]. exists f, fc. split; [right; exact Hin|].
    exact Hrest.
  - right. split.
    + destruct (IH _ _ Hrel' H) as [H'|[H' _]]; rewrite ?lock_lock in H';
        exact H'.
    + exists fields, fc. split; [left|].
      rewrite <- (otherSelected_locked els0 els _ Hrel). auto.
Qed.

(** ** The values of a round trip *)










(** * The claims *)

(** ** C2: the certification date and [includeDefaults] *)

(** C2, as stated, fails: on a freshly loaded form, whose certification date
    holds today's date, serializing with [includeDefaults = true] gives a
    snapshot without the [certificationDate] key. *)
Lemma includeDefaults_omits_today :
  el_value <$> freshForm !! 2%nat = Some (getTodayYYYYMMDD (clock (pageOf freshForm)))
  ∧ serializeForm true (pageOf freshForm) = Ok [(js "q3a_sameAs2", JBool true)].
Proof. split; vm_compute; reflexivity. Qed.

(** C2, amended: in every form state in which each control named
    [certificationDate] is a date input that holds the current calendar date,
    [serializeForm] leaves the [certificationDate] key out of the snapshot,
    with [includeDefaults = true] just as with [includeDefaults = false]. *)
Theorem certificationDate_today_omitted (includeDefaults : bool) (page : Page)
    (els : list Control) :
  nfaForm page = Some els ->
  Forall (λ el, el_name el = js "certificationDate" ->
                isType "date" el = true
                ∧ el_value el = getTodayYYYYMMDD (clock page)) els ->
  ∃ data, serializeForm includeDefaults page = Ok data
          ∧ Object.get (js "certificationDate") data = None.
Proof.
  intros Hform Hall. unfold serializeForm. rewrite Hform.
  eexists. split; [reflexivity|].
  rewrite addSignature_get_other by discriminate.
  apply serializeLoop_certificationDate_absent; [exact Hall|reflexivity].
Qed.

Lemma certificationDate_today_omitted_witness :
  ∃ data, serializeForm true (pageOf freshForm) = Ok data
          ∧ Object.get (js "certificationDate") data = None.
Proof.
  apply (certificationDate_today_omitted true (pageOf freshForm) freshForm).
  - reflexivity.
  - repeat (apply Forall_cons;
            [intros H; first [discriminate H | split; reflexivity]|]).
    apply Forall_nil.
Defined.

(** ** C6: a missing form element *)

(** C6, as stated, fails: without the element of id [nfa-form],
    [serializeForm] throws. *)
Lemma serializeForm_without_form_throws :
  serializeForm false pageWithoutForm = Throw (Error (js "Form not found")).
Proof. reflexivity. Qed.

(** C6, amended: [serializeForm] invoked when the form element is missing
    throws the error "Form not found" to its caller (it neither logs nor
    skips), whatever the flag; with the form element present it returns a
    snapshot and does not throw. *)
Theorem serializeForm_throws_without_form (includeDefaults : bool)
    (c : Clock) (m : option SignatureManager) :
  serializeForm includeDefaults
    {| clock := c; signatureManager := m; nfaForm := None |}
  = Throw (Error (js "Form not found"))
  ∧ ∀ els, ∃ data,
      serializeForm includeDefaults
        {| clock := c; signatureManager := m; nfaForm := Some els |}
      = Ok data.
Proof.
  split; [reflexivity|].
  intros els. unfold serializeForm. simpl. eexists. reflexivity.
Qed.

(** ** C10: the empty string passes every validation *)

(** C10: every predicate of the rule table accepts the empty string; and when
    each validated field is missing or holds no value, running all the
    validations answers [true], marks no field invalid and does not block the
    export. *)
Theorem empty_value_passes_validation (d : DateEnv) :
  Forall (λ rule, check rule.2 [] = true) (validations d)
  ∧ ∀ st : ValidationState,
      Forall (emptyOrMissing (fields st)) (validations d).*1 ->
      ∃ st', runAllValidations d st = Ok (true, st')
             ∧ exportBlocked d st = Ok false
             ∧ Forall (notFlagged (fields st')) (validations d).*1.
Proof.
  split.
  - repeat constructor.
  - intros st Hall.
    destruct (validateAll_empty d _ true st Hall) as (st' & Hrun & _ & Hflags).
    exists st'. unfold exportBlocked. unfold runAllValidations at 2.
    split; [exact Hrun|]. rewrite Hrun. split; [reflexivity|exact Hflags].
Qed.

Lemma empty_value_passes_validation_witness :
  ∃ st', runAllValidations noDates unfilledForm = Ok (true, st')
         ∧ exportBlocked noDates unfilledForm = Ok false
         ∧ Forall (notFlagged (fields st')) (validations noDates).*1.
Proof.
  apply (proj2 (empty_value_passes_validation noDates) unfilledForm).
  repeat (apply Forall_cons; [vm_compute; first [exact I | reflexivity]|]).
  apply Forall_nil.
Defined.

(** ** C9: the telephone number on blur *)

(** C9: when the value of the telephone input has exactly ten digit
    characters, the blur listener rewrites it to "(DDD) DDD-DDDD" made of
    these ten digits in their order. *)
Theorem phoneBlur_formats_ten_digits (els : list Control) (i : nat)
    (phoneInput : Control) (d0 d1 d2 d3 d4 d5 d6 d7 d8 d9 : N) :
  getElementById els (js "q3b_telephone") = Some (i, phoneInput) ->
  List.filter Str.isDigit (el_value phoneInput)
  = [d0; d1; d2; d3; d4; d5; d6; d7; d8; d9] ->
  (phoneBlur i els).2 = None
  ∧ el_value <$> (phoneBlur i els).1 !! i
    = Some (js "(" ++ [d0; d1; d2] ++ js ") " ++ [d3; d4; d5] ++ js "-"
            ++ [d6; d7; d8; d9]).
Proof.
  intros Hget Hdigits.
  apply getElementById_lookup in Hget as [Hl _].
  pose proof (filter_isDigit_Forall (el_value phoneInput)) as Hall.
  rewrite Hdigits in Hall.
  unfold phoneBlur, andThen, update. rewrite Hl.
  assert (Hfmt : formatPhone (el_value phoneInput)
                 = js "(" ++ [d0; d1; d2] ++ js ") " ++ [d3; d4; d5] ++ js "-"
                   ++ [d6; d7; d8; d9]).
  { unfold formatPhone. rewrite Hdigits. reflexivity. }
  rewrite Hfmt.
  rewrite (normalizeToUppercase_fixed i _ _ (setValue_lookup i _ els _ Hl)).
  - split; [reflexivity|]. cbn [fst snd].
    rewrite (setValue_lookup i _ els _ Hl). reflexivity.
  - cbn [el_value withValue]. apply toUpperCase_fixed.
    repeat match goal with
           | H : Forall _ (_ :: _) |- _ =>
               apply list.Forall_cons in H; destruct H as [? H]
           end.
    repeat (apply Forall_cons;
            [first [reflexivity | apply upperUnit_digit; assumption]|]).
    apply Forall_nil.
Qed.

Lemma phoneBlur_formats_ten_digits_witness :
  let els := [input "q3b_telephone" "q3b_telephone" "tel" "1234567890" false] in
  (phoneBlur 0 els).2 = None
  ∧ el_value <$> (phoneBlur 0 els).1 !! 0%nat = Some (js "(123) 456-7890").
Proof.
  exact (phoneBlur_formats_ten_digits
           [input "q3b_telephone" "q3b_telephone" "tel" "1234567890" false]
           0 (input "q3b_telephone" "q3b_telephone" "tel" "1234567890" false)
           49 50 51 52 53 54 55 56 57 48 eq_refl eq_refl).
Defined.

(** ** C4: upper case on both sides, dates untouched *)




(** ** C3: what the deserializer does with mismatched values *)




(** ** C1 and C7: a snapshot with a letter outside Latin-1 *)

(** C1: the encoder has no fragment for a snapshot that holds the upper-case
    name [ŁUKASZ]: [btoa] throws on the JSON text. *)
Theorem encodeFragment_throws_outside_latin1 :
  serializeForm false (pageOf formWithStroke)
  = Ok [(js "q2_fullName", JStr [321; 85; 75; 65; 83; 90])]
  ∧ encodeFragment [(js "q2_fullName", JStr [321; 85; 75; 65; 83; 90])]
    = Throw InvalidCharacterError.
Proof. split; vm_compute; reflexivity. Qed.

(** C7: on the form that holds this name the snapshot is not empty, and
    saving the state throws before the address is touched: the fragment is
    not set. *)
Theorem saveStateToHash_throws_outside_latin1 :
  saveStateToHash (pageOf formWithStroke) somePlace
  = Throw InvalidCharacterError.
Proof. vm_compute. reflexivity. Qed.

(** ** C8: the mirrored address *)

(** C8: with the "same as" toggle, the address of question 2 and the home
    address in place (two text areas named as the data model names them):
    while the toggle is checked, an input event on the source leaves the
    destination with the value of the source and disabled, and so does the
    change event that checks the toggle, up to the upper case and the seven
    lines of the destination; once the toggle is unchecked, its change event
    leaves the destination enabled with the value it had. *)
Theorem sameAs_toggle_mirrors_address (els : list Control) (t s d : nat)
    (toggle src dst : Control) :
  getElementById els (js "q3a_sameAs2") = Some (t, toggle) ->
  getElementById els (js "q2_address") = Some (s, src) ->
  getElementById els (js "q3a_homeAddress") = Some (d, dst) ->
  el_name toggle = js "q3a_sameAs2" ->
  el_tagName src = js "TEXTAREA" -> el_name src = js "q2_address" ->
  el_tagName dst = js "TEXTAREA" -> el_name dst = js "q3a_homeAddress" ->
  (el_checked toggle = true ->
   (∃ src' dst',
       (dispatchInput s els).1 !! s = Some src'
       ∧ (dispatchInput s els).1 !! d = Some dst'
       ∧ el_value dst' = el_value src' ∧ el_disabled dst' = true)
   ∧ (∃ dst',
         (dispatchChange t els).1 !! d = Some dst'
         ∧ el_value dst' = Str.toUpperCase (limitLines 7 (el_value src))
         ∧ el_disabled dst' = true))
  ∧ (el_checked toggle = false ->
     ∃ dst', (dispatchChange t els).1 !! d = Some dst'
             ∧ el_disabled dst' = false ∧ el_value dst' = el_value dst).
Proof.
  intros Ht Hs Hd Htname Hstag Hsname Hdtag Hdname.
  pose proof (ids_distinct _ _ _ _ _ _ _ Ht Hd ltac:(discriminate)) as Htd.
  pose proof (ids_distinct _ _ _ _ _ _ _ Hs Hd ltac:(discriminate)) as Hsd.
  destruct (getElementById_lookup _ _ _ _ Hs) as [Hls _].
  destruct (getElementById_lookup _ _ _ _ Hd) as [Hld _].
  split.
  - intros Hchecked. split.
    + (* an input event on the source *)
      set (v2 := limitLines 2 (el_value src)).
      set (els1 := setValue s v2 els).
      assert (Ht1 : getElementById els1 (js "q3a_sameAs2") = Some (t, toggle)).
      { unfold els1. rewrite getElementById_setValue, Ht. simpl.
        destruct (decide (t = s)) as [->|]; [|reflexivity].
        pose proof (ids_distinct _ _ _ _ _ _ _ Ht Hs ltac:(discriminate)).
        congruence. }
      assert (Hs1 : getElementById els1 (js "q2_address")
                    = Some (s, withValue v2 src)).
      { unfold els1. rewrite getElementById_setValue, Hs. simpl.
        destruct (decide (s = s)); congruence. }
      assert (Hd1 : getElementById els1 (js "q3a_homeAddress") = Some (d, dst)).
      { unfold els1. rewrite getElementById_setValue, Hd. simpl.
        destruct (decide (d = s)); congruence. }
      destruct (syncAddress_checked els1 t s d toggle (withValue v2 src) dst
                  Ht1 Hs1 Hd1 Hdtag Hdname Hchecked)
        as (dst' & Hd' & Hval & Hdis & Hframe).
      cbn [el_value withValue] in Hval.
      assert (Hrun : (dispatchInput s els).1
                     = setValue s (Str.toUpperCase v2) (syncAddress els1).1).
      { unfold dispatchInput, andThen, textareaInput, when, listener,
          formInput, hasTagName.
        rewrite Hls, Hstag, bool_decide_eq_true_2 by reflexivity.
        rewrite (limitTextareaLines_value s 2 els src Hls)
          by (rewrite Hsname; reflexivity).
        cbn [fst snd]. fold v2. fold els1.
        rewrite (isElementWithId_true _ _ _ _ Hs1). cbn [fst snd].
        apply (normalizeToUppercase_value s _ (withValue v2 src)).
        - rewrite Hframe by exact Hsd. unfold els1.
          apply setValue_lookup, Hls.
        - unfold isTextLike. cbn [el_tagName withValue].
          rewrite Hstag, bool_decide_eq_true_2 by reflexivity.
          apply orb_true_r. }
      rewrite Hrun. exists (withValue (Str.toUpperCase v2) (withValue v2 src)), dst'.
      split.
      { apply setValue_lookup. rewrite Hframe by exact Hsd.
        unfold els1. apply setValue_lookup, Hls. }
      split.
      { unfold setValue. rewrite list_lookup_alter_ne by exact Hsd. exact Hd'. }
      split; [|exact Hdis].
      rewrite Hval. cbn [el_value withValue]. unfold v2.
      rewrite limitLines_limitLines by lia. reflexivity.
    + (* the change event that checks the toggle *)
      destruct (syncAddress_checked els t s d toggle src dst
                  Ht Hs Hd Hdtag Hdname Hchecked)
        as (dst' & Hd' & Hval & Hdis & Hframe).
      rewrite (dispatchChange_toggle els t toggle Ht Htname (Hframe t Htd)).
      exists dst'. auto.
  - intros Hchecked.
    assert (Hsync : (syncAddress els).1 = setDisabled d false els)
      by (rewrite (syncAddress_unchecked els t d toggle dst Ht Hd Hchecked);
          reflexivity).
    rewrite (dispatchChange_toggle els t toggle Ht Htname).
    + rewrite Hsync. exists (withDisabled false dst).
      unfold setDisabled. rewrite list_lookup_alter_eq, Hld. auto.
    + rewrite Hsync. unfold setDisabled.
      apply list_lookup_alter_ne. congruence.
Qed.

Lemma sameAs_toggle_mirrors_address_witness :
  (∃ src' dst',
      (dispatchInput 0 (addressForm true "123 Main St" "")).1 !! 0%nat
      = Some src'
      ∧ (dispatchInput 0 (addressForm true "123 Main St" "")).1 !! 2%nat
        = Some dst'
      ∧ el_value dst' = el_value src' ∧ el_disabled dst' = true)
  ∧ (∃ dst',
        (dispatchChange 1 (addressForm false "123 MAIN ST" "123 MAIN ST")).1
          !! 2%nat = Some dst'
        ∧ el_disabled dst' = false ∧ el_value dst' = js "123 MAIN ST").
Proof.
  split.
  - refine (proj1 (proj1 (sameAs_toggle_mirrors_address
              (addressForm true "123 Main St" "") 1 0 2 _ _ _
              eq_refl eq_refl eq_refl eq_refl eq_refl eq_refl eq_refl eq_refl)
              eq_refl)).
  - refine (proj2 (sameAs_toggle_mirrors_address
              (addressForm false "123 MAIN ST" "123 MAIN ST") 1 0 2 _ _ _
              eq_refl eq_refl eq_refl eq_refl eq_refl eq_refl eq_refl eq_refl)
              eq_refl).
Defined.

Example sameAs_scenario :
  el_value <$> (dispatchInput 0 (addressForm true "123 Main St" "")).1 !! 2%nat
  = Some (js "123 MAIN ST").
Proof. vm_compute. reflexivity. Qed.

(** ** C5: the "all no" button *)

(** C5: on a form laid out as the handlers of question 6 expect, from any
    state of its controls, the click on the "all no" button throws nothing and
    leaves every prohibitor group that has a NO button in the container
    answered NO (that button checked, the other buttons of its group not),
    the exception answered "not applicable", and the exception group as
    [updateQ6m2] sets it for the answer NO to 6.m.1 (YES and NO disabled, "not
    applicable" enabled and checked): running [updateQ6m2] again changes
    nothing. *)
Theorem allNo_forces_defaults (els : list Control) (y1 n1 y2 n2 a2 : nat) :
  prohibitorsLayout els y1 n1 y2 n2 a2 ->
  (q6AllNoClick true els).2 = None
  ∧ (∀ r, r ∈ prohibitorNoRadios els -> answeredNo (q6AllNoClick true els).1 r)
  ∧ checkedAt (q6AllNoClick true els).1 a2 true
  ∧ aloneInGroup (q6AllNoClick true els).1 a2
  ∧ exceptionForced (q6AllNoClick true els).1 y1 y2 n2 a2
  ∧ updateQ6m2 (q6AllNoClick true els).1 = ((q6AllNoClick true els).1, None).
Proof.
  intros Hlay.
  destruct (layout_distinct els y1 n1 y2 n2 a2 Hlay)
    as (Hyn1 & Hy1a & Hn1a & Hy2n2 & Hy2a & Hn2a & Hy1out).
  destruct (allNo_loop els y1 n1 y2 n2 a2 (prohibitorNoRadios els) Hlay [] els)
    as [Hnone (Hrel & Hans & Hforced)].
  { intros i Hi. exact Hi. }
  { split; [apply Forall2_keep_refl, _|].
    split; [intros r Hin; inversion Hin|intros Hin; inversion Hin]. }
  cbn [app] in Hans, Hforced.
  unfold q6AllNoClick.
  set (loop := forEachStep
                 (λ radio, update (setChecked radio true)
                           >> dispatchChange radio)
                 (prohibitorNoRadios els)) in *.
  destruct (loop els) as [stL thrown] eqn:Hloop.
  cbn [fst snd] in Hnone, Hrel, Hans, Hforced. subst thrown.
  rewrite (andThen_normal _ _ _ _ Hloop).
  destruct (layout_lookups els stL y1 n1 y2 n2 a2 Hlay Hrel)
    as (_ & (cn1 & Ln1 & _ & _ & Nn1) & _ & _ & (ca2 & La2 & Ia2 & Ta2 & Na2)).
  destruct (isRadioNamed_sameElement _ _ _ _ _ Hrel
              (layout_q6m2_na _ _ _ _ _ _ Hlay)) as (ca2' & Ga2 & _).
  unfold withElement. rewrite Ga2.
  rewrite (andThen_normal (update (setChecked a2 true)) (dispatchChange a2)
             stL _ eq_refl).
  assert (Hsnd : (dispatchChange a2 (setChecked a2 true stL)).2 = None)
    by (rewrite dispatchChange_stages; reflexivity).
  set (st2 := setChecked a2 true stL) in *.
  assert (Hrel2 : Forall2 sameElement els st2).
  { eapply Forall2_keep_trans; [apply _|exact Hrel|].
    apply setChecked_sameElement. }
  assert (Hout : isInGroup "q6m1_nonimmigrant" a2 els = false).
  { rewrite (isInGroup_q6m1 els y1 n1 y2 n2 a2 a2 Hlay).
    apply bool_decide_eq_false_2. intros [?|?]; congruence. }
  pose proof (dispatchChange_outside els st2 a2 Hrel2 Hout) as Hk.
  set (stF := (dispatchChange a2 st2).1) in *.
  assert (HrelF : Forall2 sameElement els stF).
  { eapply Forall2_keep_trans; [apply _|exact Hrel2|].
    apply keptByOthers_sameElement, Hk. }
  assert (HansF : ∀ r, r ∈ prohibitorNoRadios els -> answeredNo stF r).
  { intros r Hr.
    eapply answeredNo_outside; [apply keptByOthers_outside, Hk|].
    eapply answeredNo_outside; [apply (setChecked_outside a2 stL ca2 La2 Na2)|].
    apply Hans, Hr. }
  assert (Hca2 : checkedAt stF a2 true).
  { eapply checkedAt_kept; [exact Hk|]. eexists. split;
      [apply (setChecked_lookup_eq a2 true stL ca2 La2)|reflexivity]. }
  assert (Halone : aloneInGroup stF a2).
  { eapply aloneInGroup_kept; [exact Hk|].
    eapply aloneInGroup_setChecked; [exact La2|exact Ta2|].
    rewrite Na2. reflexivity. }
  assert (HforcedF : exceptionForced stF y1 y2 n2 a2).
  { eapply exceptionForced_kept; [exact Hlay|exact Hrel2|exact Hk|].
    apply exceptionForced_setChecked; [congruence|].
    apply Hforced, (layout_q6m1_no_inside _ _ _ _ _ _ Hlay). }
  split; [exact Hsnd|].
  split; [exact HansF|].
  split; [exact Hca2|].
  split; [exact Halone|].
  split; [exact HforcedF|].
  (* running updateQ6m2 again *)
  destruct Hlay as [Hy1 Hn1 Hy2 Hn2 Ha2 Hg1 Hg2 Hin Hone].
  destruct (isRadioNamed_sameElement _ _ _ _ _ HrelF Hy1)
    as (fy1 & Gy1 & _ & Ny1).
  destruct (isRadioNamed_sameElement _ _ _ _ _ HrelF Hn1)
    as (fn1 & Gn1 & _ & Nn1').
  destruct (isRadioNamed_sameElement _ _ _ _ _ HrelF Hy2) as (fy2 & Gy2 & _).
  destruct (isRadioNamed_sameElement _ _ _ _ _ HrelF Hn2) as (fn2 & Gn2 & _).
  destruct (isRadioNamed_sameElement _ _ _ _ _ HrelF Ha2) as (fa2 & Gfa2 & _).
  destruct HforcedF as ((cy & Hcy & Hcky) & Hd1 & Hd2 & Hd3).
  destruct (getElementById_lookup _ _ _ _ Gy1) as [Ly1 _].
  destruct (getElementById_lookup _ _ _ _ Gn1) as [Lfn1 _].
  assert (cy = fy1) by congruence. subst cy.
  assert (Hckn : el_checked fn1 = true).
  { apply (HansF n1 Hin fn1 Lfn1). rewrite Nn1'. discriminate. }
  rewrite (updateQ6m2_no stF y1 n1 y2 n2 a2 fy1 fn1 fy2 fn2 fa2) by assumption.
  unfold forcedNotApplicable.
  rewrite (setDisabled_fixed y2 true stF Hd1).
  rewrite (setDisabled_fixed n2 true stF Hd2).
  rewrite (setDisabled_fixed a2 false stF Hd3).
  rewrite (setChecked_fixed a2 stF Hca2 Halone). reflexivity.
Qed.

Lemma allNo_forces_defaults_witness :
  (q6AllNoClick true prohibitorsForm).2 = None
  ∧ (∀ r, r ∈ prohibitorNoRadios prohibitorsForm ->
          answeredNo (q6AllNoClick true prohibitorsForm).1 r)
  ∧ checkedAt (q6AllNoClick true prohibitorsForm).1 6 true
  ∧ aloneInGroup (q6AllNoClick true prohibitorsForm).1 6
  ∧ exceptionForced (q6AllNoClick true prohibitorsForm).1 2 4 5 6
  ∧ updateQ6m2 (q6AllNoClick true prohibitorsForm).1
    = ((q6AllNoClick true prohibitorsForm).1, None).
Proof.
  exact (allNo_forces_defaults prohibitorsForm 2 3 4 5 6 prohibitorsForm_layout).
Defined.
(** X1: a snapshot whose names and strings are Latin-1 and whose values
    are booleans, strings and lists of strings survives the trip through
    the hash: the fragment [saveStateToHash] writes for it exists, and what
    [loadStateFromHash] decodes from ["#" + fragment] is the snapshot, with
    its properties in the same order. *)
Theorem fragment_of_latin1_snapshot_decodes (data : Obj) :
  latin1Snapshot data ->
  ∃ base64String,
    encodeFragment data = Ok base64String
    ∧ decodeFragment (35 :: base64String) = Ok (JObj data).
Proof.
  intros Hdata.
  destruct (fragment_round_trip (JSON.stringify (JObj data))
              (stringify_snapshot_latin1 data Hdata)) as (b & Hb & Hback).
  unfold encodeFragment. rewrite Hb. cbn [mbind Result_bind].
  eexists. split; [reflexivity|].
  unfold decodeFragment. cbn [drop]. cbv zeta in Hback |- *.
  rewrite !drop_0, Hback. cbn [mbind Result_bind].
  apply parse_stringify, Hdata.
Qed.

Lemma fragment_of_latin1_snapshot_decodes_witness :
  let data := [(js "q2_fullName", JStr (js "JOS" ++ [201]));
               (js "q3a_sameAs2", JBool true);
               (js "q10_citizenship", JArr [JStr (js "US"); JStr (js "CA")])] in
  latin1Snapshot data
  ∧ ∃ base64String,
      encodeFragment data = Ok base64String
      ∧ decodeFragment (35 :: base64String) = Ok (JObj data).
Proof.
  cbv zeta.
  assert (Hdata : latin1Snapshot
            [(js "q2_fullName", JStr (js "JOS" ++ [201]));
             (js "q3a_sameAs2", JBool true);
             (js "q10_citizenship", JArr [JStr (js "US"); JStr (js "CA")])]).
  { assert (Hlatin1 : ∀ s, bool_decide (latin1 s) = true -> latin1 s)
      by (intros s; apply bool_decide_eq_true_1).
    split.
    - apply (bool_decide_unpack _). vm_compute. exact I.
    - apply Forall_cons; [split|apply Forall_cons; [split|
        apply Forall_cons; [split|apply Forall_nil]]].
      + apply Hlatin1. vm_compute. reflexivity.
      + apply snapshot_string, Hlatin1. vm_compute. reflexivity.
      + apply Hlatin1. vm_compute. reflexivity.
      + apply snapshot_bool.
      + apply Hlatin1. vm_compute. reflexivity.
      + apply (snapshot_list [js "US"; js "CA"]).
        apply Forall_cons; [|apply Forall_cons; [|apply Forall_nil]];
          apply Hlatin1; vm_compute; reflexivity. }
  split; [exact Hdata|].
  exact (fragment_of_latin1_snapshot_decodes _ Hdata).
Defined.
(** ** The tax-id number on blur *)

(** X2: when the value of the tax-id input has exactly nine digit
    characters, the blur listener rewrites it to "DDD-DD-DDDD" made of these
    nine digits in their order, and throws nothing. *)
Theorem ssnBlur_formats_nine_digits (els : list Control) (i : nat)
    (ssnInput : Control) (d0 d1 d2 d3 d4 d5 d6 d7 d8 : N) :
  getElementById els (js "q3f_ssn") = Some (i, ssnInput) ->
  List.filter Str.isDigit (el_value ssnInput)
  = [d0; d1; d2; d3; d4; d5; d6; d7; d8] ->
  (ssnBlur i els).2 = None
  ∧ el_value <$> (ssnBlur i els).1 !! i
    = Some ([d0; d1; d2] ++ js "-" ++ [d3; d4] ++ js "-" ++ [d5; d6; d7; d8]).
Proof.
  intros Hget Hdigits.
  apply getElementById_lookup in Hget as [Hl _].
  pose proof (filter_isDigit_Forall (el_value ssnInput)) as Hall.
  rewrite Hdigits in Hall.
  unfold ssnBlur, andThen, update. rewrite Hl.
  assert (Hfmt : formatSsn (el_value ssnInput)
                 = [d0; d1; d2] ++ js "-" ++ [d3; d4] ++ js "-"
                   ++ [d5; d6; d7; d8]).
  { unfold formatSsn. rewrite Hdigits. reflexivity. }
  rewrite Hfmt.
  rewrite (normalizeToUppercase_fixed i _ _ (setValue_lookup i _ els _ Hl)).
  - split; [reflexivity|]. cbn [fst snd].
    rewrite (setValue_lookup i _ els _ Hl). reflexivity.
  - cbn [el_value withValue]. apply toUpperCase_fixed.
    repeat match goal with
           | H : Forall _ (_ :: _) |- _ =>
               apply list.Forall_cons in H; destruct H as [? H]
           end.
    repeat (apply Forall_cons;
            [first [reflexivity | apply upperUnit_digit; assumption]|]).
    apply Forall_nil.
Qed.

Lemma ssnBlur_formats_nine_digits_witness :
  let els := [input "q3f_ssn" "q3f_ssn" "text" "123 45 6789" false] in
  (ssnBlur 0 els).2 = None
  ∧ el_value <$> (ssnBlur 0 els).1 !! 0%nat = Some (js "123-45-6789").
Proof.
  exact (ssnBlur_formats_nine_digits
           [input "q3f_ssn" "q3f_ssn" "text" "123 45 6789" false]
           0 (input "q3f_ssn" "q3f_ssn" "text" "123 45 6789" false)
           49 50 51 52 53 54 55 56 57 eq_refl eq_refl).
Defined.

(** X3: what the blur listeners write passes the rule of its field: a value
    with ten digits, once formatted as a telephone number, satisfies the
    check of [q3b_telephone]. *)
Theorem formatted_telephone_is_valid (d : DateEnv) (value : jsstring) :
  length (List.filter Str.isDigit value) = 10%nat ->
  ∃ rule, ruleFor d (js "q3b_telephone") = Some rule
          ∧ check rule (formatPhone value) = true.
Proof.
  intros Hlen. eexists. split; [reflexivity|].
  pose proof (filter_isDigit_Forall value) as Hall.
  unfold formatPhone. rewrite bool_decide_eq_true_2 by exact Hlen.
  destruct (List.filter Str.isDigit value)
    as [|d0 [|d1 [|d2 [|d3 [|d4 [|d5 [|d6 [|d7 [|d8 [|d9 [|]]]]]]]]]]];
    try discriminate.
  repeat match goal with
         | H : Forall _ (_ :: _) |- _ =>
             apply list.Forall_cons in H; destruct H as [? H]
         end.
  cbn [check]. apply orb_true_iff. right.
  unfold Regex.telephone. apply andb_true_iff. split; [reflexivity|].
  cbn [Str.substring drop take minus app forallb js].
  change (js "(") with [40]. change (js ") ") with [41; 32].
  change (js "-") with [45].
  cbn [app forallb].
  repeat match goal with
         | H : Str.isDigit ?x = true |- _ => rewrite H; clear H
         end.
  reflexivity.
Qed.

Lemma formatted_telephone_is_valid_witness :
  ∃ rule, ruleFor noDates (js "q3b_telephone") = Some rule
          ∧ check rule (formatPhone (js "555.867.5309 x")) = true.
Proof.
  exact (formatted_telephone_is_valid noDates (js "555.867.5309 x") eq_refl).
Defined.

(** X4: a value with nine digits, once formatted as a tax-id number,
    satisfies the check of [q3f_ssn]. *)
Theorem formatted_ssn_is_valid (d : DateEnv) (value : jsstring) :
  length (List.filter Str.isDigit value) = 9%nat ->
  ∃ rule, ruleFor d (js "q3f_ssn") = Some rule
          ∧ check rule (formatSsn value) = true.
Proof.
  intros Hlen. eexists. split; [reflexivity|].
  pose proof (filter_isDigit_Forall value) as Hall.
  unfold formatSsn. rewrite bool_decide_eq_true_2 by exact Hlen.
  destruct (List.filter Str.isDigit value)
    as [|d0 [|d1 [|d2 [|d3 [|d4 [|d5 [|d6 [|d7 [|d8 [|]]]]]]]]]];
    try discriminate.
  repeat match goal with
         | H : Forall _ (_ :: _) |- _ =>
             apply list.Forall_cons in H; destruct H as [? H]
         end.
  cbn [check]. apply orb_true_iff. right.
  change (js "-") with [45].
  cbn [Str.substring drop take minus app].
  unfold Regex.ssn. cbn [forallb].
  repeat match goal with
         | H : Str.isDigit ?x = true |- _ => rewrite H; clear H
         end.
  reflexivity.
Qed.

Lemma formatted_ssn_is_valid_witness :
  ∃ rule, ruleFor noDates (js "q3f_ssn") = Some rule
          ∧ check rule (formatSsn (js "123 45 6789")) = true.
Proof.
  exact (formatted_ssn_is_valid noDates (js "123 45 6789") eq_refl).
Defined.

(** ** The lines of a text area *)

(** X5: on a text area with a line limit, [limitTextareaLines] leaves a
    value of at most that many lines, which is the start of the value it
    found; a value within the limit stays as it is. *)
Theorem limitTextareaLines_truncates (els : list Control) (i : nat)
    (textarea : Control) (maxLines : nat) :
  els !! i = Some textarea ->
  maxLinesOf (el_name textarea) = Some maxLines ->
  ∃ kept,
    limitTextareaLines i els = (setValue i kept els, None)
    ∧ (length (Str.split 10 kept) ≤ maxLines)%nat
    ∧ (∃ dropped, el_value textarea = kept ++ dropped)
    ∧ ((length (Str.split 10 (el_value textarea)) ≤ maxLines)%nat ->
       kept = el_value textarea).
Proof.
  intros Hl Hmax. exists (limitLines maxLines (el_value textarea)).
  split; [apply limitTextareaLines_value; assumption|].
  apply limitLines_spec. eapply maxLinesOf_pos, Hmax.
Qed.

Lemma limitTextareaLines_truncates_witness :
  ∃ kept,
    limitTextareaLines 1 answeredForm = (setValue 1 kept answeredForm, None)
    ∧ (length (Str.split 10 kept) ≤ 2)%nat
    ∧ (∃ dropped, threeLines = kept ++ dropped)
    ∧ ((length (Str.split 10 threeLines) ≤ 2)%nat -> kept = threeLines).
Proof.
  exact (limitTextareaLines_truncates answeredForm 1
           (withValue threeLines (textarea "q2_address" "q2_address" ""))
           2 eq_refl eq_refl).
Defined.

(** ** The shape of a snapshot *)

(** X6: every property of the snapshot other than [signature] has a name
    that is not empty and that at least one enabled control of the form
    bears; a name that only disabled controls bear is never a property.
    (The values under a name may still come from disabled boxes of a group
    of checkboxes that has an enabled box.) *)
Theorem snapshot_names_enabled_controls (includeDefaults : bool) (page : Page)
    (elements : list Control) (data : Obj) (k : jsstring) :
  nfaForm page = Some elements ->
  serializeForm includeDefaults page = Ok data ->
  k ≠ js "signature" ->
  (k ∈ Object.keys data ->
   ∃ el, el ∈ elements ∧ el_name el = k ∧ k ≠ [] ∧ el_disabled el = false)
  ∧ (Forall (λ el, el_name el = k -> el_disabled el = true) elements ->
     k ∉ Object.keys data).
Proof.
  intros Hform Hser Hsig.
  assert (Hnamed : k ∈ Object.keys data ->
            ∃ el, el ∈ elements ∧ el_name el = k ∧ k ≠ []
                  ∧ el_disabled el = false).
  { intros Hk.
    destruct (serializeForm_written includeDefaults page elements data Hform
                Hser) as [_ Hin].
    unfold Object.keys in Hk.
    apply list_elem_of_fmap in Hk as ([k' v] & -> & Hkv).
    destruct (Hin k' v Hkv) as [[Heq _]|(el & Hel & Hname & Hne & Hdis & _)];
      [contradiction|].
    exists el. cbn [fst]. auto. }
  split; [exact Hnamed|].
  intros Hall Hk. destruct (Hnamed Hk) as (el & Hel & Hname & _ & Hen).
  rewrite list.Forall_forall in Hall. rewrite (Hall el Hel Hname) in Hen.
  discriminate.
Qed.

Lemma snapshot_names_enabled_controls_witness :
  (∃ el, el ∈ answeredForm ∧ el_name el = js "q2_address"
         ∧ js "q2_address" ≠ [] ∧ el_disabled el = false)
  ∧ js "q8_upinNumber" ∉ Object.keys
      [(js "q2_fullName", JStr (js "JOHN Q. PUBLIC"));
       (js "q2_address", JStr (Str.toUpperCase threeLines));
       (js "q1_formType", JStr (js "ATF FORM 1"));
       (js "q9a_citizenship", JArr [JStr (js "USA")])].
Proof.
  split.
  - refine (proj1 (snapshot_names_enabled_controls false (pageOf answeredForm)
                     answeredForm _ (js "q2_address") eq_refl eq_refl _) _).
    + discriminate.
    + apply (bool_decide_unpack _). vm_compute. exact Logic.I.
  - refine (proj2 (snapshot_names_enabled_controls false (pageOf answeredForm)
                     answeredForm _ (js "q8_upinNumber") eq_refl _ _) _).
    + vm_compute. reflexivity.
    + discriminate.
    + repeat (apply Forall_cons;
              [intros H; first [discriminate H | reflexivity]|]).
      apply Forall_nil.
Defined.

(** X7: the snapshot has no two properties of the same name, and no empty
    value: each value is a boolean, a string that is not empty or a list of
    strings that is not empty. *)
Theorem snapshot_values_never_empty (includeDefaults : bool) (page : Page)
    (data : Obj) :
  serializeForm includeDefaults page = Ok data ->
  NoDup (Object.keys data) ∧ Forall (λ kv, snapshotShape kv.2) data.
Proof.
  intros Hser. destruct (nfaForm page) as [elements|] eqn:Hform.
  - destruct (serializeForm_written includeDefaults page elements data
                Hform Hser) as [Hnd Hin].
    split; [exact Hnd|]. apply list.Forall_forall. intros [k v] Hkv.
    destruct (Hin k v Hkv) as [[_ Hv]|(el & _ & _ & _ & _ & Hv)]; exact Hv.
  - unfold serializeForm in Hser. rewrite Hform in Hser. discriminate.
Qed.

Lemma snapshot_values_never_empty_witness :
  NoDup (Object.keys
           [(js "q2_fullName", JStr (js "JOHN Q. PUBLIC"));
            (js "q2_address",
             JStr (Str.toUpperCase threeLines));
            (js "q1_formType", JStr (js "ATF FORM 1"));
            (js "q9a_citizenship", JArr [JStr (js "USA")])])
  ∧ Forall (λ kv : jsstring * JValue, snapshotShape kv.2)
      [(js "q2_fullName", JStr (js "JOHN Q. PUBLIC"));
       (js "q2_address",
        JStr (Str.toUpperCase threeLines));
       (js "q1_formType", JStr (js "ATF FORM 1"));
       (js "q9a_citizenship", JArr [JStr (js "USA")])].
Proof.
  exact (snapshot_values_never_empty false (pageOf answeredForm) _ eq_refl).
Defined.

(** ** What [includeDefaults] changes *)

(** X8: the snapshot taken with [includeDefaults] and the one taken without
    differ at most in the property [q3a_sameAs2]: under every other name
    both hold the same value, or both none. *)
Theorem includeDefaults_changes_only_sameAs (page : Page) (dt df : Obj)
    (k : jsstring) :
  serializeForm true page = Ok dt ->
  serializeForm false page = Ok df ->
  k ≠ js "q3a_sameAs2" ->
  Object.get k dt = Object.get k df.
Proof.
  unfold serializeForm. destruct (nfaForm page) as [elements|]; [|discriminate].
  intros [= <-] [= <-] Hk.
  apply addSignature_get, serializeLoop_defaults; [reflexivity|exact Hk].
Qed.

Lemma includeDefaults_changes_only_sameAs_witness :
  Object.get (js "q3a_sameAs2") [(js "q3a_sameAs2", JBool true)]
  ≠ Object.get (js "q3a_sameAs2") []
  ∧ Object.get (js "certificationDate") [(js "q3a_sameAs2", JBool true)]
    = Object.get (js "certificationDate") [].
Proof.
  split; [discriminate|].
  refine (includeDefaults_changes_only_sameAs (pageOf freshForm) _ _
            (js "certificationDate") eq_refl eq_refl _).
  discriminate.
Defined.

(** ** Names that no control carries *)

(** X9: [deserializeForm] passes over the properties whose name no control
    of the form carries, as id or as name: when this is so of every property
    but [signature], the controls stay as they are and nothing is thrown. *)
Theorem deserializeForm_ignores_unknown_names (autopen : Autopen) (data : Obj)
    (st : FormState) :
  (∀ k, k ∈ Object.keys data -> k ≠ js "signature" ->
        namedItem (controls st) k = ItemNull) ->
  controls (deserializeForm autopen data st).1 = controls st
  ∧ (deserializeForm autopen data st).2 = None.
Proof.
  intros Hall. unfold deserializeForm.
  rewrite deserializeFields_unknown by exact Hall. split; reflexivity.
Qed.

Lemma deserializeForm_ignores_unknown_names_witness :
  let data := [(js "q99_unknown", JStr (js "X")); (js "other", JNull)] in
  controls (deserializeForm noSignatures data freshState).1
  = controls freshState
  ∧ (deserializeForm noSignatures data freshState).2 = None.
Proof.
  refine (deserializeForm_ignores_unknown_names noSignatures
            [(js "q99_unknown", JStr (js "X")); (js "other", JNull)]
            freshState _).
  intros k Hk _. vm_compute in Hk.
  repeat (apply elem_of_cons in Hk as [->|Hk]; [reflexivity|]).
  inversion Hk.
Defined.

(** ** The alphabet of a fragment *)

(** X10: a fragment the encoder returns holds letters, digits, hyphens and
    underscores only: no plus sign, no slash, no padding. *)
Theorem fragment_is_url_safe (data : Obj) (base64String : jsstring) :
  encodeFragment data = Ok base64String ->
  forallb urlSafe base64String = true.
Proof.
  intros H. apply encodeFragment_sextets in H as [Hbytes ->].
  apply urlSafe_alphabet, sextets_lt_64, Hbytes.
Qed.

Lemma fragment_is_url_safe_witness :
  ∃ base64String,
    encodeFragment [(js "q2_fullName", JStr (js "JOHN Q. PUBLIC?>"))]
    = Ok base64String
    ∧ forallb urlSafe base64String = true.
Proof.
  eexists. split; [vm_compute; reflexivity|].
  apply (fragment_is_url_safe [(js "q2_fullName", JStr (js "JOHN Q. PUBLIC?>"))]).
  vm_compute. reflexivity.
Defined.

(** ** Saving, then loading *)

(** X11: when the snapshot of the page is not empty and holds Latin-1 only,
    [saveStateToHash] succeeds, and [loadStateFromHash] on the address it
    left hands [deserializeForm] that very snapshot: the state it leaves is
    the one [deserializeForm] leaves, and the console holds what
    [deserializeForm] threw, if it threw. *)
Theorem load_reads_what_save_wrote (autopen : Autopen) (page : Page)
    (w : Window) (data : Obj) (st : FormState) :
  serializeForm false page = Ok data ->
  data ≠ [] ->
  latin1Snapshot data ->
  ∃ w', saveStateToHash page w = Ok w'
        ∧ loadStateFromHash autopen w' st
          = ((deserializeForm autopen data st).1,
             logged (deserializeForm autopen data st).2).
Proof.
  intros Hser Hne Hdata.
  destruct (encodeFragment_decodes data Hdata) as (f & Hf & Hback).
  unfold saveStateToHash. rewrite Hser. cbn [mbind Result_bind].
  destruct data as [|kv data]; [contradiction|].
  unfold Object.keys. rewrite fmap_cons, Hf. eexists. split; [reflexivity|].
  unfold loadStateFromHash. cbn [location replaceState].
  unfold location_hash. cbn [fragment withFragment].
  destruct f as [|c f]; [vm_compute in Hback; discriminate|].
  cbn [Str.truthy]. rewrite Hback. cbn [mbind Result_bind propertiesOf].
  destruct (deserializeForm autopen (kv :: data) st) as [st' [e|]]; reflexivity.
Qed.

Lemma load_reads_what_save_wrote_witness :
  let data := [(js "q2_fullName", JStr (js "JOHN Q. PUBLIC"));
               (js "q2_address", JStr (Str.toUpperCase threeLines));
               (js "q1_formType", JStr (js "ATF FORM 1"));
               (js "q9a_citizenship", JArr [JStr (js "USA")])] in
  ∃ w', saveStateToHash (pageOf answeredForm) somePlace = Ok w'
        ∧ loadStateFromHash noSignatures w' freshState
          = ((deserializeForm noSignatures data freshState).1,
             logged (deserializeForm noSignatures data freshState).2).
Proof.
  refine (load_reads_what_save_wrote noSignatures (pageOf answeredForm)
            somePlace _ freshState eq_refl _ _).
  - discriminate.
  - apply isLatin1Snapshot_spec. vm_compute. reflexivity.
Defined.

(** X12: saving the state never leaves the page: the entries of the session
    history, the path and the query stay as they are, and the address ends
    without a fragment exactly when the snapshot has no property. *)
Theorem saveStateToHash_stays_on_page (page : Page) (w w' : Window) :
  saveStateToHash page w = Ok w' ->
  history w' = history w
  ∧ pathname (location w') = pathname (location w)
  ∧ search (location w') = search (location w)
  ∧ ∃ data, serializeForm false page = Ok data
            ∧ (data = [] ↔ fragment (location w') = None).
Proof.
  unfold saveStateToHash.
  destruct (serializeForm false page) as [data|e]; [|discriminate].
  cbn [mbind Result_bind]. destruct data as [|kv data].
  - intros [= <-].
    split; [reflexivity|]. split; [reflexivity|]. split; [reflexivity|].
    exists []. split; [reflexivity|]. split; reflexivity.
  - unfold Object.keys. rewrite fmap_cons.
    destruct (encodeFragment (kv :: data)) as [f|e]; [|discriminate].
    cbn [mbind Result_bind]. intros [= <-].
    split; [reflexivity|]. split; [reflexivity|]. split; [reflexivity|].
    eexists. split; [reflexivity|]. split; discriminate.
Qed.

Lemma saveStateToHash_stays_on_page_witness :
  ∃ w', saveStateToHash (pageOf answeredForm) somePlace = Ok w'
        ∧ history w' = history somePlace
        ∧ pathname (location w') = pathname (location somePlace)
        ∧ search (location w') = search (location somePlace)
        ∧ ∃ data, serializeForm false (pageOf answeredForm) = Ok data
                  ∧ (data = [] ↔ fragment (location w') = None).
Proof.
  eexists. split; [vm_compute; reflexivity|].
  apply (saveStateToHash_stays_on_page (pageOf answeredForm) somePlace).
  vm_compute. reflexivity.
Defined.

(** ** Validation of the whole form *)

(** X13: when each name of the rule table finds one element of the form or
    none, [runAllValidations] looks at every field, whatever the earlier
    ones gave: it returns whether all of them pass their rule, changes
    nothing but classes, and leaves the marker [invalid-field] on a
    validated field exactly when its value fails the rule of its name. *)
Theorem runAllValidations_flags_what_fails (d : DateEnv)
    (st : ValidationState) :
  (∀ name l, name ∈ (validations d).*1 ->
             namedItem (fields st) name ≠ ItemList l) ->
  ∃ st',
    runAllValidations d st
    = Ok (forallb (passes d (fields st)) (validations d).*1, st')
    ∧ Forall2 sameButClassList (fields st) (fields st')
    ∧ ∀ name j el,
        name ∈ (validations d).*1 ->
        namedItem (fields st) name = ItemElement j el ->
        flaggedAt (fields st') j ↔ elementValid d el = false.
Proof.
  intros Hlist.
  destruct (validateAll_verdicts d (validations d).*1 true st Hlist)
    as (st' & Hrun & Hrel & Hflag).
  exists st'. split; [exact Hrun|]. split; [exact Hrel|].
  intros name j el Hin Hk. destruct (Hflag j) as [Hdone _].
  eapply Hdone; eassumption.
Qed.

Lemma runAllValidations_flags_what_fails_witness :
  ∃ st',
    runAllValidations noDates mistypedForm
    = Ok (forallb (passes noDates (fields mistypedForm))
            (validations noDates).*1, st')
    ∧ Forall2 sameButClassList (fields mistypedForm) (fields st')
    ∧ ∀ name j el,
        name ∈ (validations noDates).*1 ->
        namedItem (fields mistypedForm) name = ItemElement j el ->
        flaggedAt (fields st') j ↔ elementValid noDates el = false.
Proof.
  apply (runAllValidations_flags_what_fails noDates mistypedForm).
  intros name l Hin. vm_compute in Hin.
  repeat (apply elem_of_cons in Hin as [->|Hin]; [vm_compute; discriminate|]).
  inversion Hin.
Defined.

(** ** The exception question *)

(** X14: on a form laid out as the handlers of question 6 expect,
    [updateQ6m2] throws nothing and sets the three buttons of 6.m.2 by the
    answer to 6.m.1: after YES, "yes" and "no" are enabled and "not
    applicable" is disabled and not checked; after NO, "yes" and "no" are
    disabled and "not applicable" is enabled and checked; without an
    answer, all three are disabled and not checked. *)
Theorem updateQ6m2_follows_the_answer (els : list Control)
    (y1 n1 y2 n2 a2 : nat) (cy1 cn1 : Control) :
  prohibitorsLayout els y1 n1 y2 n2 a2 ->
  els !! y1 = Some cy1 -> els !! n1 = Some cn1 ->
  (updateQ6m2 els).2 = None
  ∧ (el_checked cy1 = true ->
     disabledAt (updateQ6m2 els).1 y2 false
     ∧ disabledAt (updateQ6m2 els).1 n2 false
     ∧ disabledAt (updateQ6m2 els).1 a2 true
     ∧ checkedAt (updateQ6m2 els).1 a2 false)
  ∧ (el_checked cy1 = false -> el_checked cn1 = true ->
     disabledAt (updateQ6m2 els).1 y2 true
     ∧ disabledAt (updateQ6m2 els).1 n2 true
     ∧ disabledAt (updateQ6m2 els).1 a2 false
     ∧ checkedAt (updateQ6m2 els).1 a2 true)
  ∧ (el_checked cy1 = false -> el_checked cn1 = false ->
     ∀ r, r = y2 ∨ r = n2 ∨ r = a2 ->
          disabledAt (updateQ6m2 els).1 r true
          ∧ checkedAt (updateQ6m2 els).1 r false).
Proof.
  intros Hlay Ly1 Ln1.
  destruct (layout_distinct els y1 n1 y2 n2 a2 Hlay)
    as (_ & Hy1a & _ & Hyn & Hya & Hna & _).
  destruct (layout_q6m1_yes _ _ _ _ _ _ Hlay) as (c1 & Gy1 & _).
  destruct (layout_q6m1_no _ _ _ _ _ _ Hlay) as (c2 & Gn1 & _).
  destruct (layout_q6m2_yes _ _ _ _ _ _ Hlay) as (cy2 & Gy2 & _).
  destruct (layout_q6m2_no _ _ _ _ _ _ Hlay) as (cn2 & Gn2 & _).
  destruct (layout_q6m2_na _ _ _ _ _ _ Hlay) as (ca2 & Ga2 & _).
  pose proof (proj1 (getElementById_lookup _ _ _ _ Gy1)) as Ly1'.
  pose proof (proj1 (getElementById_lookup _ _ _ _ Gn1)) as Ln1'.
  pose proof (proj1 (getElementById_lookup _ _ _ _ Gy2)) as Ly2.
  pose proof (proj1 (getElementById_lookup _ _ _ _ Gn2)) as Ln2.
  pose proof (proj1 (getElementById_lookup _ _ _ _ Ga2)) as La2.
  rewrite Ly1 in Ly1'. injection Ly1' as <-.
  rewrite Ln1 in Ln1'. injection Ln1' as <-.
  assert (Hunchecks : ∀ r st,
            update (setChecked r false) st
            = (alter (withChecked false) r st, None))
    by (intros r st; unfold update; rewrite setChecked_false; reflexivity).
  assert (Hlocks : ∀ r st,
            (update (setDisabled r true) >> update (setChecked r false)) st
            = (alter (λ c, withChecked false (withDisabled true c)) r st,
               None)).
  { intros r st. unfold andThen, update, setDisabled.
    rewrite setChecked_false. f_equal.
    apply (list_alter_alter_eq (withChecked false) (withDisabled true)). }
  destruct (el_checked cy1) eqn:Hcy; [|destruct (el_checked cn1) eqn:Hcn].
  - (* YES *)
    rewrite (updateQ6m2_yes els y1 n1 y2 n2 a2 cy1 cn1 cy2 cn2 ca2)
      by assumption.
    set (enabled := setDisabled a2 true
                      (setDisabled n2 false (setDisabled y2 false els))).
    assert (Ey2 : enabled !! y2 = Some (withDisabled false cy2)).
    { unfold enabled, setDisabled. rewrite !list_lookup_alter_ne by congruence.
      rewrite list_lookup_alter_eq, Ly2. reflexivity. }
    assert (En2 : enabled !! n2 = Some (withDisabled false cn2)).
    { unfold enabled, setDisabled. rewrite list_lookup_alter_ne by congruence.
      rewrite list_lookup_alter_eq, list_lookup_alter_ne by congruence.
      rewrite Ln2. reflexivity. }
    assert (Ea2 : enabled !! a2 = Some (withDisabled true ca2)).
    { unfold enabled, setDisabled. rewrite list_lookup_alter_eq.
      rewrite !list_lookup_alter_ne by congruence. rewrite La2. reflexivity. }
    destruct (el_checked ca2) eqn:Hca.
    + assert (Hrel : Forall2 sameElement els enabled).
      { unfold enabled. etransitivity; [apply setDisabled_sameElement|].
        etransitivity; apply setDisabled_sameElement. }
      destruct (exceptionGroup_after els enabled y1 n1 y2 n2 a2 Hlay Hrel)
        as (l & Hl & Hin).
      destruct (forEachNamed_alter (withChecked false)
                  (λ r, update (setChecked r false)) "q6m2_exception" l
                  enabled Hunchecks (λ c, eq_refl) Hl) as [Hnone Hlook].
      split; [exact Hnone|]. split; [|split; intros; discriminate].
      intros _. unfold disabledAt, checkedAt. rewrite !Hlook, Ey2, En2, Ea2.
      rewrite !(decide_True (P := _ ∈ l.*1)) by (apply Hin; auto).
      repeat split; eexists; (split; [reflexivity|reflexivity]).
    + split; [reflexivity|]. split; [|split; intros; discriminate].
      intros _. cbn [fst]. unfold disabledAt, checkedAt.
      rewrite Ey2, En2, Ea2.
      repeat split; eexists; (split; [reflexivity|]);
        first [reflexivity|exact Hca].
  - (* NO *)
    rewrite (updateQ6m2_no els y1 n1 y2 n2 a2 cy1 cn1 cy2 cn2 ca2)
      by assumption.
    split; [reflexivity|]. split; [intros; discriminate|].
    split; [|intros; discriminate]. intros _ _. cbn [fst].
    destruct (forcedNotApplicable_forced els y1 y2 n2 a2 cy2 cn2 ca2
                Ly2 Ln2 La2 Hyn Hya Hna Hy1a)
      as [(_ & Hd1 & Hd2 & Hd3) Hck].
    { exists cy1. split; [exact Ly1|exact Hcy]. }
    unfold forcedNotApplicable in *. auto.
  - (* no answer *)
    rewrite (updateQ6m2_neither els y1 n1 cy1 cn1) by assumption.
    destruct (exceptionGroup_after els els y1 n1 y2 n2 a2 Hlay
                (Forall2_keep_refl sameElement els)) as (l & Hl & Hin).
    destruct (forEachNamed_alter
                (λ c, withChecked false (withDisabled true c))
                (λ r, update (setDisabled r true)
                      >> update (setChecked r false))
                "q6m2_exception" l els Hlocks (λ c, eq_refl) Hl)
      as [Hnone Hlook].
    split; [exact Hnone|]. split; [intros; discriminate|].
    split; [intros; discriminate|]. intros _ _ r Hr.
    unfold disabledAt, checkedAt. rewrite Hlook.
    rewrite decide_True by (apply Hin; exact Hr).
    destruct Hr as [->|[->| ->]];
      rewrite ?Ly2, ?Ln2, ?La2; split; eexists; split; reflexivity.
Qed.

Lemma updateQ6m2_follows_the_answer_witness :
  let yes := prohibitor "q6m1-yes" "q6m1_nonimmigrant" "YES" true false in
  let no := prohibitor "q6m1-no" "q6m1_nonimmigrant" "NO" false false in
  (updateQ6m2 prohibitorsForm).2 = None
  ∧ (el_checked yes = true ->
     disabledAt (updateQ6m2 prohibitorsForm).1 4 false
     ∧ disabledAt (updateQ6m2 prohibitorsForm).1 5 false
     ∧ disabledAt (updateQ6m2 prohibitorsForm).1 6 true
     ∧ checkedAt (updateQ6m2 prohibitorsForm).1 6 false)
  ∧ (el_checked yes = false -> el_checked no = true ->
     disabledAt (updateQ6m2 prohibitorsForm).1 4 true
     ∧ disabledAt (updateQ6m2 prohibitorsForm).1 5 true
     ∧ disabledAt (updateQ6m2 prohibitorsForm).1 6 false
     ∧ checkedAt (updateQ6m2 prohibitorsForm).1 6 true)
  ∧ (el_checked yes = false -> el_checked no = false ->
     ∀ r, r = 4%nat ∨ r = 5%nat ∨ r = 6%nat ->
          disabledAt (updateQ6m2 prohibitorsForm).1 r true
          ∧ checkedAt (updateQ6m2 prohibitorsForm).1 r false).
Proof.
  exact (updateQ6m2_follows_the_answer prohibitorsForm 2 3 4 5 6 _ _
           prohibitorsForm_layout eq_refl eq_refl).
Defined.

(** ** The "other" text inputs *)

(** X15: the cascade of an "other" text input (questions 4a, 8, 9a and 9c)
    throws nothing when both elements exist; it leaves the text input
    enabled exactly when its option is checked, keeps its value in that
    case and empties it otherwise, and changes no other control. *)
Theorem otherCascade_enables_by_option (optionId textId : string)
    (els : list Control) (o t : nat) (option text : Control) :
  getElementById els (js optionId) = Some (o, option) ->
  getElementById els (js textId) = Some (t, text) ->
  (otherCascade optionId textId els).2 = None
  ∧ (otherCascade optionId textId els).1 !! t
    = Some (if el_checked option then withDisabled false text
            else withValue [] (withDisabled true text))
  ∧ ∀ j, j ≠ t -> (otherCascade optionId textId els).1 !! j = els !! j.
Proof.
  intros Hoption Htext.
  pose proof (proj1 (getElementById_lookup _ _ _ _ Htext)) as Lt.
  assert (Hrun : otherCascade optionId textId els
                 = (if el_checked option then setDisabled t false els
                    else setValue t [] (setDisabled t true els), None)).
  { unfold otherCascade, withElement. rewrite Hoption, Htext.
    unfold andThen, update. destruct (el_checked option); reflexivity. }
  rewrite Hrun. cbn [fst snd]. split; [reflexivity|].
  destruct (el_checked option); split.
  - unfold setDisabled. rewrite list_lookup_alter_eq, Lt. reflexivity.
  - intros j Hj. unfold setDisabled. apply list_lookup_alter_ne. congruence.
  - unfold setValue, setDisabled.
    rewrite !list_lookup_alter_eq, Lt. reflexivity.
  - intros j Hj. unfold setValue, setDisabled.
    rewrite !list_lookup_alter_ne by congruence. reflexivity.
Qed.

Lemma otherCascade_enables_by_option_witness :
  let els := [input "q8_upin-yes" "q8_hasUpin" "radio" "YES" false;
              input "q8_upin-no" "q8_hasUpin" "radio" "NO" true;
              input "q8_upinNumber" "q8_upinNumber" "text" "A1234567" false] in
  (updateUpinInput els).2 = None
  ∧ (updateUpinInput els).1 !! 2%nat
    = Some (withValue []
              (withDisabled true
                 (input "q8_upinNumber" "q8_upinNumber" "text" "A1234567"
                    false)))
  ∧ ∀ j, j ≠ 2%nat -> (updateUpinInput els).1 !! j = els !! j.
Proof.
  exact (otherCascade_enables_by_option "q8_upin-yes" "q8_upinNumber"
           [input "q8_upin-yes" "q8_hasUpin" "radio" "YES" false;
            input "q8_upin-no" "q8_hasUpin" "radio" "NO" true;
            input "q8_upinNumber" "q8_upinNumber" "text" "A1234567" false]
           0 2 _ _ eq_refl eq_refl).
Defined.

(** ** Upper case in an email input *)

(** X16: an email input has no selection, so [normalizeToUppercase] ends by
    an exception when it changes the value of one: it stores the value in
    upper case and then throws [InvalidStateError].  The listener of the
    form that calls it on an [input] event keeps the exception to itself:
    after the event the input holds the value in upper case. *)
Theorem email_is_upper_cased_then_throws (els : list Control) (i : nat)
    (element : Control) :
  els !! i = Some element ->
  el_type element = js "email" ->
  el_tagName element = js "INPUT" ->
  el_id element ≠ js "q2_address" ->
  Str.toUpperCase (el_value element) ≠ el_value element ->
  normalizeToUppercase i els
  = (setValue i (Str.toUpperCase (el_value element)) els,
     Some InvalidStateError)
  ∧ dispatchInput i els
    = (setValue i (Str.toUpperCase (el_value element)) els, None).
Proof.
  intros Hl Htype Htag Hid Hlower.
  assert (Hnorm : normalizeToUppercase i els
                  = (setValue i (Str.toUpperCase (el_value element)) els,
                     Some InvalidStateError)).
  { unfold normalizeToUppercase. rewrite Hl. unfold isTextLike, isType.
    rewrite Htype.
    rewrite (bool_decide_eq_true_2 (js "email" = js "email")) by reflexivity.
    rewrite orb_true_r. cbn [orb].
    rewrite bool_decide_eq_true_2 by congruence. reflexivity. }
  split; [exact Hnorm|].
  unfold dispatchInput, textareaInput, formInput, andThen, when, listener.
  unfold hasTagName. rewrite Hl, Htag. cbn [bool_decide decide_rel].
  rewrite (bool_decide_eq_false_2 (js "INPUT" = js "TEXTAREA")) by discriminate.
  rewrite (isElementWithId_false "q2_address" i element els Hl Hid).
  rewrite Hnorm. reflexivity.
Qed.

Lemma email_is_upper_cased_then_throws_witness :
  let els := [input "q3c_email" "q3c_email" "email" "a@b.example" false] in
  normalizeToUppercase 0 els
  = (setValue 0 (Str.toUpperCase (js "a@b.example")) els,
     Some InvalidStateError)
  ∧ dispatchInput 0 els
    = (setValue 0 (Str.toUpperCase (js "a@b.example")) els, None).
Proof.
  refine (email_is_upper_cased_then_throws
            [input "q3c_email" "q3c_email" "email" "a@b.example" false]
            0 _ eq_refl eq_refl eq_refl _ _).
  - vm_compute. discriminate.
  - vm_compute. discriminate.
Defined.

(** ** The name of the generated file *)

(** X17: whatever the text, [sanitizeFilenameComponent] returns at most
    fifty code units, all of them letters, digits, underscores, dots or
    hyphens, with no two underscores in a row and no separator at the
    start; a result shorter than fifty units has no separator at the end
    either. *)
Theorem sanitizeFilenameComponent_is_safe (str : jsstring) :
  forallb isFilenameUnit (sanitizeFilenameComponent str) = true
  ∧ (length (sanitizeFilenameComponent str) ≤ 50)%nat
  ∧ ¬ hasDoubleUnderscore (sanitizeFilenameComponent str)
  ∧ (∀ c rest, sanitizeFilenameComponent str = c :: rest ->
               isSeparator c = false)
  ∧ ((length (sanitizeFilenameComponent str) < 50)%nat ->
     ∀ before c, sanitizeFilenameComponent str = before ++ [c] ->
                 isSeparator c = false).
Proof.
  split; [apply forallb_Forall, sanitizeFilenameComponent_units|].
  unfold sanitizeFilenameComponent, Str.substring. cbv zeta.
  rewrite drop_0. change (50 - 0)%nat with 50%nat.
  set (collapsed := replaceRuns (λ c, c =? 95) 95 _).
  set (front := dropWhile isSeparator collapsed).
  set (stripped := rev (dropWhile isSeparator (rev front))).
  destruct (dropWhile_suffix isSeparator collapsed) as [d1 Hd1].
  fold front in Hd1.
  destruct (stripEnd_prefix isSeparator front) as [d2 Hd2].
  fold stripped in Hd2.
  split; [rewrite length_take; lia|]. split; [|split].
  - intros Hrun.
    apply (hasDoubleUnderscore_app _ [] (drop 50 stripped)) in Hrun.
    cbn [app] in Hrun. rewrite take_drop in Hrun.
    apply (hasDoubleUnderscore_app _ d1 d2) in Hrun.
    rewrite <- Hd2, <- Hd1 in Hrun.
    revert Hrun. apply (collapse_no_run _ false).
  - intros c rest Hname.
    assert (Hs : stripped = c :: rest ++ drop 50 stripped).
    { rewrite <- (take_drop 50 stripped) at 1. rewrite Hname. reflexivity. }
    rewrite Hs in Hd2. cbn [app] in Hd2.
    eapply (dropWhile_head isSeparator collapsed). exact Hd2.
  - intros Hshort before c Hname.
    rewrite length_take in Hshort.
    rewrite take_ge in Hname by lia.
    eapply stripEnd_last. exact Hname.
Qed.

(** X18: the name [generateFilename] returns starts with ["5320.23_"] and
    ends with [".pdf"]; when the certification date of the form data, if
    there is one, is a string of letters, digits, underscores, dots and
    hyphens, and so is the date of the day, the whole name is made of such
    units only, whatever the name, the model and the serial number hold. *)
Theorem generateFilename_is_safe (isoToday : jsstring) (formData : Obj)
    (name : jsstring) :
  generateFilename isoToday formData = Ok name ->
  forallb isFilenameUnit isoToday = true ->
  (∀ v, Object.get (js "certificationDate") formData = Some v ->
        truthy v = true ->
        ∃ d, v = JStr d ∧ forallb isFilenameUnit d = true) ->
  (∃ rest, name = js "5320.23_" ++ rest ++ js ".pdf")
  ∧ forallb isFilenameUnit name = true.
Proof.
  unfold generateFilename. intros Hname Hiso Hdate.
  destruct (pushSanitized _ [js "5320.23"]) as [c1|] eqn:H1; [|discriminate].
  cbn [mbind Result_bind] in Hname.
  destruct (pushSanitized _ c1) as [c2|] eqn:H2; [|discriminate].
  cbn [mbind Result_bind] in Hname.
  destruct (pushSanitized _ c2) as [c3|] eqn:H3; [|discriminate].
  cbn [mbind Result_bind] in Hname.
  apply pushSanitized_units in H1 as [[m1 ->] U1], H2 as [[m2 ->] U2],
    H3 as [[m3 ->] U3].
  assert (Hunits : Forall (Forall (λ c, isFilenameUnit c = true))
                     (([js "5320.23"] ++ m1) ++ m2 ++ m3)%list).
  { rewrite app_assoc. apply U3, U2, U1. constructor; [|constructor].
    apply forallb_Forall. reflexivity. }
  assert (Hd : ∃ dateStr,
            name = Str.join (js "_")
                     (((([js "5320.23"] ++ m1) ++ m2) ++ m3) ++ [dateStr])
                   ++ js ".pdf"
            ∧ Forall (λ c, isFilenameUnit c = true) dateStr).
  { destruct (Object.get (js "certificationDate") formData) as [v|].
    - destruct (truthy v) eqn:Hv.
      + destruct (Hdate v eq_refl Hv) as (d & -> & Hsafe).
        cbn [toStringJS mbind Result_bind] in Hname. injection Hname as <-.
        exists d. split; [reflexivity|apply forallb_Forall, Hsafe].
      + cbn [mbind Result_bind] in Hname. injection Hname as <-.
        exists isoToday. split; [reflexivity|apply forallb_Forall, Hiso].
    - cbn [mbind Result_bind] in Hname. injection Hname as <-.
      exists isoToday. split; [reflexivity|apply forallb_Forall, Hiso]. }
  destruct Hd as (dateStr & -> & Hsafe). split.
  - exists (Str.join (js "_") ((m1 ++ m2 ++ m3) ++ [dateStr])).
    rewrite <- !app_assoc. cbn [app].
    rewrite join_cons; [|destruct m1, m2, m3; discriminate].
    rewrite <- !app_assoc. reflexivity.
  - apply forallb_Forall, Forall_app. split.
    + apply join_Forall; [apply forallb_Forall; reflexivity|].
      apply Forall_app. split; [|constructor; [exact Hsafe|constructor]].
      rewrite <- app_assoc. exact Hunits.
    + apply forallb_Forall. reflexivity.
Qed.

Lemma generateFilename_is_safe_witness :
  let formData := [(js "q3a_fullName", JStr (js "  John Q. Public, Jr. "));
                   (js "q4c_model", JStr (js "AR-15 (SBR) / 5.56"));
                   (js "certificationDate", JStr (js "2026-03-07"))] in
  generateFilename (js "2026-11-03") formData
  = Ok (js "5320.23_John_Q._Public_Jr_AR-15_SBR_5.56_2026-03-07.pdf")
  ∧ (∃ rest, js "5320.23_John_Q._Public_Jr_AR-15_SBR_5.56_2026-03-07.pdf"
             = js "5320.23_" ++ rest ++ js ".pdf")
  ∧ forallb isFilenameUnit
      (js "5320.23_John_Q._Public_Jr_AR-15_SBR_5.56_2026-03-07.pdf") = true.
Proof.
  cbv zeta. split; [vm_compute; reflexivity|].
  refine (generateFilename_is_safe (js "2026-11-03")
            [(js "q3a_fullName", JStr (js "  John Q. Public, Jr. "));
             (js "q4c_model", JStr (js "AR-15 (SBR) / 5.56"));
             (js "certificationDate", JStr (js "2026-03-07"))]
            _ _ eq_refl _).
  - vm_compute. reflexivity.
  - intros v [= <-] _. eexists. split; [reflexivity|].
    vm_compute. reflexivity.
Defined.

(** ** The fields of the PDF form *)

(** X19: whenever [mapFormDataToPdfFields] returns, the widget of the
    certification date holds a text; it is the date of the day, as
    MM/DD/YYYY, when the form data has no certification date. *)
Theorem certification_date_is_always_filled (dates : LocalDates)
    (today : Clock) (formData : Obj) (fields : PdfFields) :
  mapFormDataToPdfFields dates today formData = Ok fields ->
  ∃ s, Map.get (Widget (js "topmostSubform[0].Page2[0].DateField9[0]")) fields
       = Some (Text s)
       ∧ (given (property formData "certificationDate") = false ->
          s = formatDate (Some today)).
Proof.
  unfold mapFormDataToPdfFields. intros H.
  do 23 (apply thenFill_inv in H as (? & _ & H)).
  unfold property in *.
  destruct (Object.get (js "certificationDate") formData) as [v|].
  - cbn [given]. destruct (truthy v).
    + destruct (parseLocalDate dates v) as [date|]; [|discriminate].
      cbn [mbind Result_bind] in H. injection H as <-.
      eexists. rewrite Map_get_set, decide_True by reflexivity.
      split; [reflexivity|discriminate].
    + injection H as <-. eexists.
      rewrite Map_get_set, decide_True by reflexivity.
      split; reflexivity.
  - injection H as <-. eexists.
    rewrite Map_get_set, decide_True by reflexivity. split; reflexivity.
Qed.

Lemma certification_date_is_always_filled_witness :
  ∃ s, Map.get (Widget (js "topmostSubform[0].Page2[0].DateField9[0]"))
         [(Widget (js "topmostSubform[0].Page2[0].DateField9[0]"),
           Text (js "03/07/2026"))]
       = Some (Text s)
       ∧ (given (property [] "certificationDate") = false ->
          s = formatDate (Some march7)).
Proof.
  exact (certification_date_is_always_filled sampleDates march7 [] _ eq_refl).
Defined.

(** X20: whenever [mapFormDataToPdfFields] returns, each prohibitor of
    question 6 has its YES widget selected exactly when its answer is the
    string YES and its NO widget selected exactly when its answer is the
    string NO; no other part of the mapping writes these widgets, so never
    both are selected. *)
Theorem prohibitor_answer_selects_one_widget (dates : LocalDates)
    (today : Clock) (formData : Obj) (fields : PdfFields)
    (formField yesWidget noWidget : string) :
  mapFormDataToPdfFields dates today formData = Ok fields ->
  (formField, (yesWidget, noWidget)) ∈ prohibitorMapping ->
  Map.get (Widget (js yesWidget)) fields
  = (if equals "YES" (property formData formField) then Some SELECTED
     else None)
  ∧ Map.get (Widget (js noWidget)) fields
    = (if equals "YES" (property formData formField) then None
       else if equals "NO" (property formData formField) then Some SELECTED
            else None).
Proof.
  intros Hmap Hrow.
  destruct (around_prohibitors dates today formData fields Hmap)
    as (m & m' & Hnone & Hloop & Hrest).
  destruct (forEachFill_prohibitors formData prohibitorMapping
              prohibitorMapping_NoDup m m' _ _ _ Hloop Hrow) as [Hy Hn].
  assert (Hys : Widget (js yesWidget) ∈ widgetsOf prohibitorMapping).
  { unfold widgetsOf. apply list_elem_of_bind.
    exists (formField, (yesWidget, noWidget)). split; [left|exact Hrow]. }
  assert (Hns : Widget (js noWidget) ∈ widgetsOf prohibitorMapping).
  { unfold widgetsOf. apply list_elem_of_bind.
    exists (formField, (yesWidget, noWidget)).
    split; [right; left|exact Hrow]. }
  rewrite (Hrest _ Hys), (Hrest _ Hns), Hy, Hn, (Hnone _ Hys), (Hnone _ Hns).
  split; reflexivity.
Qed.

Lemma prohibitor_answer_selects_one_widget_witness :
  ∃ fields,
    mapFormDataToPdfFields sampleDates march7 sampleAnswers = Ok fields
    ∧ Map.get (Widget (js "topmostSubform[0].Page2[0].CheckBoxYes6a[0]")) fields
      = (if equals "YES" (property sampleAnswers "q6a_intent")
         then Some SELECTED else None)
    ∧ Map.get (Widget (js "topmostSubform[0].Page2[0].CheckBoxno6a[0]")) fields
      = (if equals "YES" (property sampleAnswers "q6a_intent") then None
         else if equals "NO" (property sampleAnswers "q6a_intent")
              then Some SELECTED else None).
Proof.
  eexists. split; [vm_compute; reflexivity|].
  apply (prohibitor_answer_selects_one_widget sampleDates march7 sampleAnswers
           _ "q6a_intent").
  - vm_compute. reflexivity.
  - left.
Defined.

(** X21: whenever [mapFormDataToPdfFields] returns, the widget of the UPIN
    number holds a text only if the answer to question 8 is the string YES,
    and the text is then the UPIN number of the form data in upper case. *)
Theorem upin_number_needs_yes (dates : LocalDates) (today : Clock)
    (formData : Obj) (fields : PdfFields) (a : Answer) :
  mapFormDataToPdfFields dates today formData = Ok fields ->
  Map.get (Widget (js "topmostSubform[0].Page2[0].please17[0]")) fields
  = Some a ->
  equals "YES" (property formData "q8_hasUpin") = true
  ∧ ∃ s, property formData "q8_upinNumber" = Some (JStr s)
         ∧ a = Text (Str.toUpperCase s).
Proof.
  intros H Hget. unfold mapFormDataToPdfFields in H.
  assert (Hk : Map.get (Widget (js "topmostSubform[0].Page2[0].please17[0]"))
                 [] = None) by reflexivity.
  do 19 (match goal with
         | H : (_ >>> _) ?m = Ok _, Hk : Map.get ?k ?m = None |- _ =>
             apply (thenFill_skip k None _ _ _ _) in H as (? & ? & H);
             [|solve [preserved]|exact Hk]; clear Hk
         end).
  apply thenFill_inv in H as (m' & Hupin & H).
  match goal with
  | H : ?rest m' = Ok fields |- _ =>
      assert (Hrest : preserves
                (Widget (js "topmostSubform[0].Page2[0].please17[0]")) rest)
        by (solve [preserved]);
      rewrite (Hrest _ _ H) in Hget; clear Hrest H
  end.
  match goal with
  | Hk : Map.get _ ?m = None |- _ => rename Hk into Hnone
  end.
  destruct (given (property formData "q8_hasUpin"));
    [|injection Hupin as <-; congruence].
  destruct (equals "YES" (property formData "q8_hasUpin")).
  - split; [reflexivity|].
    apply thenFill_inv in Hupin as (m1 & Hyes & Hnumber).
    injection Hyes as <-. unfold fillText in Hnumber.
    fold (property formData "q8_upinNumber") in Hnumber.
    destruct (property formData "q8_upinNumber") as [v|] eqn:Hv;
      [|injection Hnumber as <-;
        rewrite Map_get_set, decide_False in Hget by (vm_compute; discriminate);
        congruence].
    unfold withText, normalized, normalizeString in Hnumber.
    destruct (given (Some v)) eqn:Hgiven.
    + destruct v as [| | |s| |]; try discriminate.
      cbn [mbind Result_bind orEmpty] in Hnumber. injection Hnumber as <-.
      rewrite Map_get_set, decide_True in Hget by reflexivity.
      exists s. split; [reflexivity|]. congruence.
    + injection Hnumber as <-.
      rewrite Map_get_set, decide_False in Hget by (vm_compute; discriminate).
      congruence.
  - destruct (equals "NO" (property formData "q8_hasUpin"));
      injection Hupin as <-;
      rewrite ?Map_get_set, ?decide_False in Hget
        by (vm_compute; discriminate);
      congruence.
Qed.

Lemma upin_number_needs_yes_witness :
  equals "YES" (property sampleAnswers "q8_hasUpin") = true
  ∧ ∃ s, property sampleAnswers "q8_upinNumber" = Some (JStr s)
         ∧ Text (js "A1234567") = Text (Str.toUpperCase s).
Proof.
  refine (upin_number_needs_yes sampleDates march7 sampleAnswers _ _ _ _).
  - vm_compute. reflexivity.
  - vm_compute. reflexivity.
Defined.

(** X22: the names under which [generatePDF] looks for the copy of a widget
    never collide with the widgets of the mapping.  Whenever
    [mapFormDataToPdfFields] returns, each widget name that has an answer has
    a variant [getCleoWidgetVariant] that differs from it, that has no answer
    of its own, and that no other widget name with an answer shares. *)
Theorem cleo_variants_are_fresh (dates : LocalDates) (today : Clock)
    (formData : Obj) (fields : PdfFields) (name : jsstring) (a : Answer) :
  mapFormDataToPdfFields dates today formData = Ok fields ->
  Map.get (Widget name) fields = Some a ->
  getCleoWidgetVariant name ≠ name
  ∧ Map.get (Widget (getCleoWidgetVariant name)) fields = None
  ∧ ∀ name' a', Map.get (Widget name') fields = Some a' ->
                getCleoWidgetVariant name' = getCleoWidgetVariant name ->
                name' = name.
Proof.
  intros Hmap Hget.
  assert (Hknown : ∀ n b, Map.get (Widget n) fields = Some b ->
                          n ∈ pdfWidgets).
  { intros n b Hn. destruct (decide (n ∈ pdfWidgets)) as [Hin|Hout];
      [exact Hin|].
    rewrite (mapFormDataToPdfFields_keys dates today formData fields
               (Widget n) Hmap Hout) in Hn. discriminate. }
  pose proof (Hknown name a Hget) as Hname.
  destruct (getCleoWidgetVariant_fresh name Hname) as [Hne Hout].
  split; [exact Hne|]. split.
  - exact (mapFormDataToPdfFields_keys dates today formData fields
             (Widget (getCleoWidgetVariant name)) Hmap Hout).
  - intros name' a' Hget' Heq.
    exact (getCleoWidgetVariant_inj name name' Hname
             (Hknown name' a' Hget') Heq).
Qed.

Lemma cleo_variants_are_fresh_witness :
  let name := js "topmostSubform[0].Page1[0].#field[24]" in
  ∃ fields,
    mapFormDataToPdfFields sampleDates march7 sampleAnswers = Ok fields
    ∧ Map.get (Widget name) fields = Some (Text (js "07/04/1990"))
    ∧ getCleoWidgetVariant name = js "topmostSubform[0].Page5[0].#field[22]"
    ∧ getCleoWidgetVariant name ≠ name
    ∧ Map.get (Widget (getCleoWidgetVariant name)) fields = None
    ∧ ∀ name' a', Map.get (Widget name') fields = Some a' ->
                  getCleoWidgetVariant name' = getCleoWidgetVariant name ->
                  name' = name.
Proof.
  cbv zeta. eexists. split; [vm_compute; reflexivity|].
  split; [vm_compute; reflexivity|]. split; [vm_compute; reflexivity|].
  apply (cleo_variants_are_fresh sampleDates march7 sampleAnswers _ _
           (Text (js "07/04/1990"))).
  - vm_compute. reflexivity.
  - vm_compute. reflexivity.
Defined.

(** ** The form data of the PDF generator *)

(** X23: [window.serializeForm] changes nothing that [serializeForm(true)]
    wrote.  Each name of its result has the value of the snapshot, or is a
    name the snapshot lacks, that no object inherits, and that the
    configuration gives a readonly entry, whose value it then has. *)
Theorem readonly_prefill_only_fills_gaps (config : PrefillConfig)
    (page : Page) (formData : Obj) :
  windowSerializeForm (Some config) page = Ok formData ->
  ∃ data, serializeForm true page = Ok data
    ∧ ∀ k, Object.get k formData = Object.get k data
           ∨ (Object.get k data = None ∧ (k ∉ objectPrototype)
              ∧ ∃ fc, (k, Some fc) ∈ config ∧ prefill_readonly fc = true
                      ∧ Object.get k formData = Some (prefill_value fc)).
Proof.
  unfold windowSerializeForm. intros H.
  destruct (serializeForm true page) as [data|]; [|discriminate].
  cbn [mbind Result_bind] in H. injection H as <-.
  exists data. split; [reflexivity|].
  intros k. apply includeReadonly_all.
Qed.

Lemma readonly_prefill_only_fills_gaps_witness :
  windowSerializeForm (Some sampleConfig) (pageOf freshForm)
  = Ok [(js "q3a_sameAs2", JBool true);
        (js "q4a_firearmType", JStr (js "SILENCER"));
        (js "q2_fullName", JStr (js "IGNORED"))]
  ∧ ∃ data, serializeForm true (pageOf freshForm) = Ok data
    ∧ ∀ k, Object.get k
             [(js "q3a_sameAs2", JBool true);
              (js "q4a_firearmType", JStr (js "SILENCER"));
              (js "q2_fullName", JStr (js "IGNORED"))]
           = Object.get k data
           ∨ (Object.get k data = None ∧ (k ∉ objectPrototype)
              ∧ ∃ fc, (k, Some fc) ∈ sampleConfig
                      ∧ prefill_readonly fc = true
                      ∧ Object.get k
                          [(js "q3a_sameAs2", JBool true);
                           (js "q4a_firearmType", JStr (js "SILENCER"));
                           (js "q2_fullName", JStr (js "IGNORED"))]
                        = Some (prefill_value fc)).
Proof.
  split; [vm_compute; reflexivity|].
  apply (readonly_prefill_only_fills_gaps sampleConfig (pageOf freshForm)).
  vm_compute. reflexivity.
Defined.

(** X24: a certification date left at the date of the day reaches the PDF.
    When each control named [certificationDate] is a date input that holds
    the current date, and the configuration has no readonly entry of that
    name, the form data of [window.serializeForm] has no certification date
    and [mapFormDataToPdfFields] writes the date of its own day, as
    MM/DD/YYYY, into the widget of the certification date. *)
Theorem untouched_certification_date_is_todays (config : option PrefillConfig)
    (page : Page) (els : list Control) (formData : Obj)
    (dates : LocalDates) (today : Clock) (fields : PdfFields) :
  nfaForm page = Some els ->
  Forall (λ el, el_name el = js "certificationDate" ->
                isType "date" el = true
                ∧ el_value el = getTodayYYYYMMDD (clock page)) els ->
  (∀ entries fc, config = Some entries ->
                 (js "certificationDate", Some fc) ∈ entries ->
                 prefill_readonly fc = false) ->
  windowSerializeForm config page = Ok formData ->
  mapFormDataToPdfFields dates today formData = Ok fields ->
  Object.get (js "certificationDate") formData = None
  ∧ Map.get (Widget (js "topmostSubform[0].Page2[0].DateField9[0]")) fields
    = Some (Text (formatDate (Some today))).
Proof.
  intros Hform Hall Hconfig Hdata Hmap.
  assert (Hnone : Object.get (js "certificationDate") formData = None).
  { unfold windowSerializeForm, serializeForm in Hdata.
    rewrite Hform in Hdata. cbn [mbind Result_bind] in Hdata.
    injection Hdata as <-.
    match goal with
    | |- Object.get _ (match _ with Some _ => _ | None => ?d end) = None =>
        assert (Hsnapshot : Object.get (js "certificationDate") d = None)
    end.
    { rewrite addSignature_get_other by discriminate.
      apply serializeLoop_certificationDate_absent; [exact Hall|reflexivity]. }
    destruct config as [entries|]; [|exact Hsnapshot].
    match goal with
    | |- Object.get _ (foldl includeReadonly ?d _) = None =>
        destruct (includeReadonly_all entries d (js "certificationDate"))
          as [->|(_ & _ & fc & Hin & Hreadonly & _)]; [exact Hsnapshot|]
    end.
    rewrite (Hconfig entries fc eq_refl Hin) in Hreadonly. discriminate. }
  split; [exact Hnone|].
  destruct (certificationDate_widget dates today formData fields Hmap)
    as (s & -> & Hs).
  rewrite Hs; [reflexivity|]. unfold property. rewrite Hnone. reflexivity.
Qed.

Lemma untouched_certification_date_is_todays_witness :
  ∃ formData fields,
    windowSerializeForm (Some sampleConfig) (pageOf freshForm) = Ok formData
    ∧ mapFormDataToPdfFields sampleDates march7 formData = Ok fields
    ∧ Object.get (js "certificationDate") formData = None
    ∧ Map.get (Widget (js "topmostSubform[0].Page2[0].DateField9[0]")) fields
      = Some (Text (js "03/07/2026")).
Proof.
  eexists. eexists. split; [vm_compute; reflexivity|].
  split; [vm_compute; reflexivity|].
  apply (untouched_certification_date_is_todays (Some sampleConfig)
           (pageOf freshForm) freshForm _ sampleDates march7).
  - reflexivity.
  - repeat (apply Forall_cons;
            [intros H; first [discriminate H | split; reflexivity]|]).
    apply Forall_nil.
  - intros entries fc [= <-] Hin.
    repeat (apply elem_of_cons in Hin as [[= <-]|Hin]; [reflexivity|]).
    repeat (apply elem_of_cons in Hin as [Hin|Hin]; [discriminate Hin|]).
    inversion Hin.
  - vm_compute. reflexivity.
  - vm_compute. reflexivity.
Defined.

(** ** Prefill *)

(** X25: [applyPrefillConfig] keeps what the fragment gave.  With no field
    named [__proto__] in the configuration, a control is left exactly as it
    is when every configured field that names it, or names a radio button of
    its group, finds a value in the document, whether the call returns or
    throws. *)
Theorem prefill_keeps_what_is_filled (autopen : Autopen)
    (entries : PrefillConfig) (st : FormState) (i : nat) (c : Control) :
  controls st !! i = Some c ->
  js "__proto__" ∉ entries.*1 ->
  (∀ k fc, (k, Some fc) ∈ entries -> concerns k (controls st) c ->
           hasValueFromHash (namedItem (controls st) k) = true) ->
  controls (applyPrefillConfig autopen (Some entries) st).1 !! i = Some c.
Proof.
  intros Hi Hproto Hfilled. unfold applyPrefillConfig.
  destruct (prefillLoop (controls st) entries ([], [])) as [d|] eqn:Hloop;
    [|exact Hi].
  case_bool_decide; [exact Hi|].
  rewrite deserializeForm_controls.
  destruct (prefillLoop_keys _ _ _ _ Hloop Hproto) as [Hinh Hkeys].
  cbn [fst snd] in Hinh, Hkeys.
  unfold forIn. rewrite Hinh. cbn [filter]. rewrite app_nil_r.
  refine (proj2 (deserializeFields_stillThere (controls st) i c d.1
                   (controls st) _ _)).
  - intros k Hk _. destruct (Hkeys k Hk) as [Hin|(fc & Hin & Hhas)];
      [inversion Hin|].
    split.
    + intros Hnamed. rewrite (Hfilled k fc) in Hhas; [discriminate|exact Hin|].
      left. exact Hnamed.
    + intros cj Hcj Hnamed Hgroup.
      rewrite (Hfilled k fc) in Hhas; [discriminate|exact Hin|].
      right. exists cj. auto.
  - split; [apply Forall2_keep_refl, _|exact Hi].
Qed.

Lemma prefill_keeps_what_is_filled_witness :
  controls (applyPrefillConfig noSignatures (Some suggestions) loadedState).1
    !! 0%nat
  = Some (input "q2_fullName" "q2_fullName" "text" "DOE FAMILY TRUST" false).
Proof.
  apply (prefill_keeps_what_is_filled noSignatures suggestions loadedState).
  - reflexivity.
  - intros H. apply (bool_decide_pack _) in H. vm_compute in H. exact H.
  - intros k fc Hin Hconcerns.
    apply elem_of_cons in Hin as [[= -> _]|Hin]; [vm_compute; reflexivity|].
    exfalso. destruct Hconcerns as [[H|H]|(c' & _ & _ & _ & H & _)].
    + repeat (apply elem_of_cons in Hin as [[= -> _]|Hin]; [discriminate H|]).
      inversion Hin.
    + repeat (apply elem_of_cons in Hin as [[= -> _]|Hin]; [discriminate H|]).
      inversion Hin.
    + vm_compute in H. discriminate H.
Defined.



(** X27: [applyPrefillConfig] sets a group of checkboxes whatever the
    fragment ticked.  A field that is a list of checkboxes only never counts
    as filled: when the configuration, which has no field named
    [__proto__], gives it an array, and no other configured field names a
    box of the group, a call that returns leaves each box ticked exactly
    when the array holds its value. *)
Theorem prefill_sets_a_checkbox_group (autopen : Autopen)
    (entries : PrefillConfig) (st st' : FormState) (k : jsstring)
    (fc : PrefillFieldConfig) (values : list JValue)
    (l : list (nat * Control)) :
  NoDup entries.*1 ->
  js "__proto__" ∉ entries.*1 ->
  k ≠ js "signature" ->
  (k, Some fc) ∈ entries ->
  prefill_value fc = JArr values ->
  namedItem (controls st) k = ItemList l ->
  Forall (λ p : nat * Control, isType "checkbox" p.2 = true) l ->
  (∀ k' p, k' ∈ entries.*1 -> p ∈ l -> namedBy k' p.2 -> k' = k) ->
  applyPrefillConfig autopen (Some entries) st = (st', None) ->
  Forall (λ p : nat * Control,
            controls st' !! p.1
            = Some (withChecked
                      (existsb (strictEquals (el_value p.2)) values) p.2)) l.
Proof.
  intros Hnd Hproto Hsig Hin Hvalues Hitem Hboxes Honly Hrun.
  assert (Hk : k ≠ js "__proto__").
  { intros ->. apply Hproto. apply list_elem_of_fmap.
    exists (js "__proto__", Some fc). auto. }
  assert (Hhas : hasValueFromHash (namedItem (controls st) k) = false).
  { rewrite Hitem. cbn [hasValueFromHash]. unfold radioNodeListValue.
    replace (filter (λ p : nat * Control,
                       isType "radio" p.2 && el_checked p.2) l)
      with (@nil (nat * Control)); [reflexivity|].
    symmetry. clear -Hboxes. induction Hboxes as [|p l Hp _ IH]; [reflexivity|].
    rewrite filter_cons, (isType_checkbox_no_radio _ Hp). exact IH. }
  assert (Hvalue : upperCasePrefill (namedItem (controls st) k)
                     (formatPrefill k (prefill_value fc))
                   = Ok (JArr values)).
  { rewrite Hvalues. reflexivity. }
  unfold applyPrefillConfig in Hrun.
  destruct (prefillLoop (controls st) entries ([], [])) as [d|] eqn:Hloop;
    [|discriminate].
  assert (Hget : Object.get k d.1 = Some (JArr values)).
  { refine (prefillLoop_get (controls st) entries k fc _ Hnd Hk Hin _ Hhas
              Hvalue _ _ Hloop).
    rewrite Hitem. discriminate. }
  destruct (prefillLoop_keys _ _ _ _ Hloop Hproto) as [Hinh Hkeys].
  cbn [fst snd] in Hinh, Hkeys.
  case_bool_decide as Hnone.
  { unfold Object.keys in Hnone. apply Object_get_elem in Hget.
    destruct d.1; [inversion Hget|discriminate]. }
  unfold deserializeForm in Hrun.
  destruct (deserializeFields (forIn d) (controls st)) as [els' thrown]
    eqn:Hfields.
  injection Hrun as <- ->. cbn [controls].
  unfold forIn in Hfields. rewrite Hinh in Hfields. cbn [filter] in Hfields.
  rewrite app_nil_r in Hfields.
  pose proof (namedItem_named (controls st) k) as Hnamed.
  rewrite Hitem in Hnamed.
  apply list.Forall_forall. intros [j cj] Hp. cbn [fst snd].
  rewrite list.Forall_forall in Hnamed, Hboxes.
  destruct (Hnamed _ Hp) as [Hj _]. cbn [fst snd] in Hj.
  refine (deserializeFields_at k (JArr values) j cj _ (controls st) d.1
            _ _ _ (controls st) els' _ _ Hsig _ _ Hfields).
  - apply isType_checkbox_no_radio. exact (Hboxes _ Hp).
  - apply sameElement_withChecked.
  - apply (deserializeField_checkboxes k values (controls st) l j cj Hitem);
      [apply list.Forall_forall; exact Hboxes|exact Hp].
  - exact (prefillLoop_NoDup _ _ _ _ Hloop (NoDup_nil_2)).
  - apply Object_get_elem, Hget.
  - intros k' Hk' Hne Hnamed'. apply Hne.
    apply (Honly k' (j, cj)); [|exact Hp|exact Hnamed'].
    destruct (Hkeys k' Hk') as [H|(fc' & H & _)]; [inversion H|].
    apply list_elem_of_fmap. exists (k', Some fc'). auto.
  - split; [apply Forall2_keep_refl, _|exact Hj].
Qed.

Lemma prefill_sets_a_checkbox_group_witness :
  Forall (λ p : nat * Control,
            controls (applyPrefillConfig noSignatures (Some citizenshipConfig)
                        citizenshipState).1 !! p.1
            = Some (withChecked
                      (existsb (strictEquals (el_value p.2))
                         [JStr (js "USA")]) p.2))
    [ (0%nat, input "q9a_usa" "q9a_citizenship" "checkbox" "USA" false);
      (1%nat, input "q9a_other" "q9a_citizenship" "checkbox" "OTHER" true) ].
Proof.
  apply (prefill_sets_a_checkbox_group noSignatures citizenshipConfig
           citizenshipState _ (js "q9a_citizenship")
           {| prefill_value := JArr [JStr (js "USA")];
              prefill_readonly := false |}).
  - apply (bool_decide_unpack _). vm_compute. exact Logic.I.
  - intros H. apply (bool_decide_pack _) in H. vm_compute in H. exact H.
  - discriminate.
  - left.
  - reflexivity.
  - vm_compute. reflexivity.
  - repeat constructor.
  - intros k' p Hin _ _. apply list_elem_of_singleton in Hin. exact Hin.
  - vm_compute. reflexivity.
Defined.

(** ** Locked fields *)

(** X28: a field the configuration locks reaches the PDF generator with the
    configured value.  On the document [applyReadonlyLocks] leaves when it
    returns, [window.serializeForm] gives, for each readonly field other
    than [signature] whose name no object inherits, the value of the
    configuration, whatever the controls of that name hold. *)
Theorem locked_field_has_the_configured_value {D : Type}
    (addIndicator : Control -> D -> D * option Exn)
    (entries : PrefillConfig) (st st' : list Control * D) (page : Page)
    (formData : Obj) (k : jsstring) (fc : PrefillFieldConfig) :
  applyReadonlyLocks addIndicator (Some entries) st = (st', None) ->
  nfaForm page = Some st'.1 ->
  NoDup entries.*1 ->
  (k, Some fc) ∈ entries ->
  prefill_readonly fc = true ->
  k ∉ objectPrototype ->
  k ≠ js "signature" ->
  windowSerializeForm (Some entries) page = Ok formData ->
  Object.get k formData = Some (prefill_value fc).
Proof.
  intros Hlocks Hform Hnd Hin Hreadonly Hproto Hsig Hdata.
  unfold windowSerializeForm in Hdata.
  destruct (serializeForm true page) as [data|] eqn:Hser; [|discriminate].
  cbn [mbind Result_bind] in Hdata. injection Hdata as <-.
  assert (Hnone : Object.get k data = None).
  { destruct (Object.get k data) as [v|] eqn:Hget; [|reflexivity].
    exfalso. apply Object_get_elem in Hget.
    destruct (serializeForm_written true page st'.1 data Hform Hser)
      as [_ Hwritten].
    destruct (Hwritten k v Hget) as [[Heq _]|(el & Hel & Hk & Hne & Hen & _)];
      [contradiction|].
    rewrite (lockFields_disabled addIndicator k fc entries Hin Hreadonly Hne
               st st' el Hlocks Hel) in Hen; [discriminate|].
    right. symmetry. exact Hk. }
  destruct (includeReadonly_all entries data k)
    as [Heq|(_ & _ & fc' & Hin' & _ & Hget)].
  - exfalso.
    apply (includeReadonly_sets k fc entries Hin Hreadonly Hproto data).
    rewrite Heq. exact Hnone.
  - rewrite Hget. f_equal. f_equal.
    assert (Hsame : Some fc' = Some fc)
      by exact (NoDup_fst_agree entries k _ _ Hnd Hin' Hin).
    congruence.
Qed.

Lemma locked_field_has_the_configured_value_witness :
  let page :=
    pageOf (applyReadonlyLocks plainIndicators (Some suggestions)
              (prefilledForm, [])).1.1 in
  serializeForm true page = Ok [(js "q2_fullName", JStr (js "DOE FAMILY TRUST"));
                                (js "q3b_telephone", JStr (js "(555) 123-4567"))]
  ∧ ∃ formData,
      windowSerializeForm (Some suggestions) page = Ok formData
      ∧ Object.get (js "q1_formType") formData
        = Some (JStr (js "ATF FORM 4")).
Proof.
  cbv zeta. split; [vm_compute; reflexivity|].
  eexists. split; [vm_compute; reflexivity|].
  refine (locked_field_has_the_configured_value plainIndicators suggestions
            (prefilledForm, []) _ (pageOf _) _ (js "q1_formType")
            {| prefill_value := JStr (js "ATF FORM 4");
               prefill_readonly := true |} _ _ _ _ _ _ _ _).
  - vm_compute. reflexivity.
  - reflexivity.
  - apply (bool_decide_unpack _). vm_compute. exact Logic.I.
  - right. right. left.
  - reflexivity.
  - intros H. apply (bool_decide_pack _) in H. vm_compute in H. exact H.
  - discriminate.
  - vm_compute. reflexivity.
Defined.

(** X29: [applyReadonlyLocks] only locks.  Whether it returns or throws,
    each control is left as it was or locked, that is disabled and of the
    class [prefill-locked], with its value and its checked state kept; a
    control that is locked is one that a readonly field of the configuration
    names. *)
Theorem applyReadonlyLocks_only_locks {D : Type}
    (addIndicator : Control -> D -> D * option Exn)
    (config : option PrefillConfig) (st : list Control * D) (i : nat)
    (c : Control) :
  st.1 !! i = Some c ->
  ∃ c', (applyReadonlyLocks addIndicator config st).1.1 !! i = Some c'
        ∧ el_value c' = el_value c ∧ el_checked c' = el_checked c
        ∧ (c' = c
           ∨ (c' = lock c
              ∧ ∃ entries k fc,
                  config = Some entries ∧ (k, Some fc) ∈ entries
                  ∧ prefill_readonly fc = true ∧ namedBy k c)).
Proof.
  intros Hi. destruct config as [entries|]; cbn [applyReadonlyLocks].
  - destruct (lockFields_lookup addIndicator entries i st c Hi)
      as [H|(H & k & fc & Hin & Hreadonly & Hnamed)].
    + exists c. auto.
    + exists (lock c). destruct (lock_state c) as [Hv Hc].
      split; [exact H|]. split; [exact Hv|]. split; [exact Hc|].
      right. split; [reflexivity|]. exists entries, k, fc. auto.
  - exists c. auto.
Qed.

Lemma applyReadonlyLocks_only_locks_witness :
  ∃ c', (applyReadonlyLocks plainIndicators (Some suggestions)
           (prefilledForm, [])).1.1 !! 3%nat = Some c'
        ∧ el_value c' = js "ATF FORM 4" ∧ el_checked c' = true
        ∧ (c' = input "q1_form4" "q1_formType" "radio" "ATF FORM 4" true
           ∨ (c' = lock (input "q1_form4" "q1_formType" "radio" "ATF FORM 4"
                           true)
              ∧ ∃ entries k fc,
                  Some suggestions = Some entries ∧ (k, Some fc) ∈ entries
                  ∧ prefill_readonly fc = true
                  ∧ namedBy k (input "q1_form4" "q1_formType" "radio"
                                 "ATF FORM 4" true))).
Proof.
  apply (applyReadonlyLocks_only_locks plainIndicators (Some suggestions)
           (prefilledForm, []) 3
           (input "q1_form4" "q1_formType" "radio" "ATF FORM 4" true)).
  vm_compute. reflexivity.
Defined.

(** X30: [lockRelatedOtherFields] only locks the inputs of another answer.
    Each control is left as it was or locked, with its value and its checked
    state kept; a control that is locked carries the id that
    [otherFieldMap] gives for a field which the configuration makes readonly
    and of which a ticked element has the value OTHER. *)
Theorem lockRelatedOtherFields_only_locks (config : option PrefillConfig)
    (els : list Control) (i : nat) (c : Control) :
  els !! i = Some c ->
  ∃ c', lockRelatedOtherFields config els !! i = Some c'
        ∧ el_value c' = el_value c ∧ el_checked c' = el_checked c
        ∧ (c' = c
           ∨ (c' = lock c
              ∧ ∃ entries fields fc,
                  config = Some entries ∧ fields ∈ otherFieldMap
                  ∧ el_id c = js fields.2
                  ∧ configOf entries (js fields.1) = Some fc
                  ∧ prefill_readonly fc = true
                  ∧ otherSelected (namedItem els (js fields.1)) = true)).
Proof.
  intros Hi. destruct config as [entries|]; cbn [lockRelatedOtherFields].
  - destruct (lockOthers_lookup entries els otherFieldMap i els c
                (Forall2_keep_refl _ _) Hi)
      as [H|(H & fields & fc & Hin & Hrest)].
    + exists c. auto.
    + exists (lock c). destruct (lock_state c) as [Hv Hc].
      split; [exact H|]. split; [exact Hv|]. split; [exact Hc|].
      right. split; [reflexivity|]. exists entries, fields, fc. auto.
  - exists c. auto.
Qed.

Lemma lockRelatedOtherFields_only_locks_witness :
  lockRelatedOtherFields (Some otherFirearmConfig) otherFirearmForm !! 2%nat
  = Some (lock (input "q4a_firearmType_other" "q4a_firearmType_other" "text"
                  "PEN GUN" false))
  ∧ ∃ c', lockRelatedOtherFields (Some otherFirearmConfig) otherFirearmForm
            !! 2%nat = Some c'
        ∧ el_value c' = js "PEN GUN" ∧ el_checked c' = false
        ∧ (c' = input "q4a_firearmType_other" "q4a_firearmType_other" "text"
                  "PEN GUN" false
           ∨ (c' = lock (input "q4a_firearmType_other"
                           "q4a_firearmType_other" "text" "PEN GUN" false)
              ∧ ∃ entries fields fc,
                  Some otherFirearmConfig = Some entries
                  ∧ fields ∈ otherFieldMap
                  ∧ el_id (input "q4a_firearmType_other"
                             "q4a_firearmType_other" "text" "PEN GUN" false)
                    = js fields.2
                  ∧ configOf entries (js fields.1) = Some fc
                  ∧ prefill_readonly fc = true
                  ∧ otherSelected (namedItem otherFirearmForm (js fields.1))
                    = true)).
Proof.
  split; [vm_compute; reflexivity|].
  apply (lockRelatedOtherFields_only_locks (Some otherFirearmConfig)
           otherFirearmForm 2
           (input "q4a_firearmType_other" "q4a_firearmType_other" "text"
              "PEN GUN" false)).
  reflexivity.
Defined.
